(* ===== verification/_CoqProject ===== *)
-Q . S2P
Prelude.v
GoStd.v
Json.v
JsonStrings.v
JsonTexts.v
JsonPrefix.v
Clock.v
Session.v
Ring.v
Secret.v
Validate.v
Command.v
Marker.v
Coordinator.v
Login.v
CoordinatorSteps.v
CoordinatorCarry.v
CoordinatorProps.v
Shell.v
Common.v
PolicyFile.v
Denylist.v
Records.v
OpenSet.v
Ipc.v
Wire.v
Protocol.v
Client.v
Telnet.v
Cli.v
Profile.v
Store.v
CoordinatorTx.v
Dispatcher.v
Payload.v
Durable.v
RecordFiles.v
OpenFile.v
Replies.v
Serial.v
Server.v
Host.v
Gateway.v
Shown.v
System.v
Startup.v
Flags.v
Ssh.v
Streams.v
Boot.v
Accounts.v
Floats.v
Bench.v
