(* ===== verification/Prelude.v ===== *)
(** * ai-debug-gateway: a verification development

    The gateway lets an AI client debug an embedded board over a serial, SSH or
    telnet console without handing it the console: the AI proposes commands, a
    human approves them at an attach terminal (or a policy allows them), and a
    daemon types them, finds their end in the output and keeps records. This
    development models the daemon and its command-line client as executable
    functions translated from the Go source, and proves what makes them safe
    and correct. Nothing is assumed: what the source obtains from other
    packages, from files or from the network is an argument of the definitions
    or a type class they are given.

    ** The parts of the program and their files

    Each file opens with a comment naming its source files (paths under src/).
    Definitions keep the names of the Go functions, methods, fields and
    constants.

    - Prelude, GoStd: bytes, 64-bit integers, (value, error) results, tactics
      and hint databases; the parts of the Go standard library the source uses
      (strings, path.Clean, strconv, quoting). What depends on the Unicode
      tables is the type classes [UnicodeLower] and [GoQuote]. Json,
      JsonStrings, JsonTexts, JsonPrefix: the encoding/json the protocol and the
      files use, its round trips, and that a value cut short is refused. Clock:
      time.Time in RFC 3339, over the zone of the process ([LocalZone]).
    - Session (internal/core/session/state.go, id.go): the session state
      machine. Ring (internal/core/transcript/ring.go): the output ring.
      Secret (internal/core/secret): the redaction window. Validate
      (internal/core/command/validate.go): the managed-command contract.
      Command (internal/core/command/store.go, types.go): proposals,
      transactions, results. Marker (internal/gateway/marker.go): the
      completion marker, its regular expression as a matcher.
    - Coordinator (internal/gateway/coordinator.go, subscriber.go): the record
      of the coordinator's fields and one definition per method; a method that
      releases the mutex is cut there. Calls on the transport and wake-ups are
      recorded in a [trace]. Login: the prompt expressions a daemon configures
      it with. CoordinatorSteps: one label per critical section,
      runs as arbitrary interleavings ([step], [reachable]) and the invariants
      of every run; [serving] runs leave out Stop and an EndSession overtaken
      by a new session. CoordinatorCarry: invariants indifferent to most
      fields. CoordinatorTx: which sections record transactions.
      CoordinatorProps: the theorems.
    - Shell, Common, PolicyFile, Denylist (internal/policy): the shell-line
      contract, the read-only validators, the board's policy file, the denylist
      mode. The parser of mvdan.cc/sh is the type class [ShellSyntax]: its
      syntax tree, and the law that Walk makes the traversal its documentation
      describes.
    - Records (internal/core/framing, audit, transcript), OpenSet
      (cmd/gatewayd/openset.go): durable files as the values their lines decode
      to; the outcome of each file operation is an input. Profile, Store
      (internal/profile): board profiles, and [Save] and [Load] over a file
      system in which each system call is a state a crash can leave. Durable,
      RecordFiles, OpenFile: the stores of Records and OpenSet as the bytes of
      their files, with writes that are cut, through the interface [Stored] and
      its laws [StoredLaws], and their refinement.
    - Ipc (internal/ipc/server_linux.go, internal/protocol/v1): frames through a
      buffered reader, roles, the loop of a connection, against the interface
      [Dispatcher] and the decoder class [RequestDecoder]. Wire, Protocol: the
      lines of JSON of requests and responses, which give an instance of the
      decoder. Client (client_linux.go, internal/cli/control.go): the call of a
      client and the operations of the control client.
      Server (server_linux.go: Listen, accept loop, Close;
      cmd/gatewayd/main.go: serveDaemonSockets): servers and their handlers as
      interleaved steps, and the phases of a daemon. A handler's call outside the
      program (a dial, a write to a port) is a state of its own that need not
      end; that the dispatcher's Shutdown returns is taken for granted (it needs
      the coordinator's mutex, which a write that hangs would keep, and waits for
      its goroutines, which a closed transport ends).
    - Dispatcher (cmd/gatewayd/dispatcher.go): every operation
      over the coordinator, the policies, the open set and the records;
      commandApprove, diagnoseExecute and unsafeShellExecute are cut at every lock they take (the coordinator's, the
      audit writer's, the open set's) and at their wait: a [flight] says where a
      handler is, and [advance] takes it to its next cut. Payload: the payload
      structs as JSON, an instance of the class [Decoders]. Replies: its results
      as JSON and what the client decodes of them. System: runs of the
      whole daemon: new requests, a pool of handlers that advance one at a time,
      the coordinator's critical sections, and the reconciler one finalisation
      a step, in any order; [mutex_held] says that a mode's mutex is held exactly
      while a handler of it is in the pool. Startup (cmd/gatewayd/main.go):
      policies and sockets a daemon starts with, the transcript drain. Flags: its options. Host
      (internal/xdgpaths, lock.go): directories, socket names, the lock and the
      lives of daemon processes around it. Boot: [run] from the options to the
      dispatcher that serves. Accounts: what the audit log of a run says.
    - Ssh (internal/transport/ssh): host keys, authentication order, what opening
      a session trusts; known_hosts and private keys are the type classes
      [KnownHosts] and [PrivateKeys]. Telnet (internal/transport/telnet): the
      NVT filter. Streams: what dialling and closing open and release. Serial
      (internal/transport/serial): discovery and opening of a port.
    - Cli (internal/cli/attach.go, commandmode.go): the attach terminal over the
      interface [Client]. Gateway (cmd/gateway/main.go): the operator's command
      line, the creation of profiles, the raw terminal mode and its
      signals; [attach_session] runs the terminal of Cli over a client that
      sends, with the polls of the other goroutine in between.
      Shown: an execution from the flags to the printed result.
    - Bench (internal/perftest, cmd/gateway-bench): the load generator of the
      release gate, its metrics over float64, and the gate's verdict; Floats:
      float64 and strconv.ParseFloat on decimal texts (others: [FloatTexts]).

    ** What the theorems show

    - Authority. [System.commands_authorised]: in every run of the daemon each
      command line on the wire is due to an approval on an attach connection or
      to a policy that allows that very text. It rests on
      [Ipc.capability_boundary] (what each role can reach),
      [Coordinator] runs ([only_approved_written], [execution_gated],
      [resync_blocks]) and the store ([Command.decisions_final]).
      [Boot.options_bound_execution]: the same from the arguments of the
      daemon's command line on. [Gateway.cli_requests]: which requests on which
      socket a gateway command can cause, an attach session included.
      [System.automatic_refusal] and [Startup.automatic_modes_opt_in]: the
      unattended modes fail closed. [Ssh.host_key_trust]: no host key is
      trusted without a human.
    - Policy. [Shell.evaluate_contract] (the tree walk is its
      declarative contract; that a text is one line is left to ValidateManaged,
      see [System.multiline_refused]), [Common.content_reads_limited], [Common.find_only_searches],
      [PolicyFile.board_policy], [Denylist.denylist_verdict].
    - Protocol. [Client.calls_exact]: a call gets the answer to its own request,
      across the wire and the server's loop; [Payload.payloads_roundtrip]: the
      dispatcher decodes what the client meant; [Replies.reply_line]: every
      reply is a result the protocol can carry; [Shown.execution_shown]: the
      operator is shown exactly what the daemon answered;
      [Protocol.protocol_typed]: what arrives is well formed and what leaves is
      one object on one line.
    - Life cycle. [Accounts.audit_accounts]: the audit log holds one
      terminal record for each transaction that a run closed, the result that
      was recorded; every other is in the open set, still being recorded by its
      handler, or of an approval answered with an error.
      [CoordinatorProps.transactions_end_once],
      [session_state_agrees], [command_completes], [timeout_semantics],
      [transport_lost]; [OpenSet.finalized_exactly_once] across restarts,
      [OpenSet.never_forgotten] when saves fail and the daemon dies as well;
      [Server.close_terminates] and [close_drains] (a closing server ends,
      unless a handler's outside call hangs, and only after its handlers); [Host.single_daemon]; the lemmas of Streams.
    - Data. [Ring.ReadAfter_refines], [Ring.poll_reassembles],
      [Startup.transcript_follows], [Records.export_incremental],
      [Marker.find_sound], [Marker.marker_roundtrip],
      [CoordinatorProps.secret_not_observable], [Telnet.telnet_exact],
      [Ipc.connection_answered], [Cli.attach_exact]: no byte lost, invented,
      repeated or leaked, whatever the segmentation. [Store.Save_atomic]: a
      crash leaves the old profile or the new one.
      [RecordFiles.record_files_refine]: the bytes of the record files are the
      lists of Records.v; [append_cut]: what a partial write leaves;
      [OpenFile.finalize_files_safe]: the same for the open set, and a crash
      during a finalisation loses no transaction. [Clock.time_roundtrip]. [Serial.uart_open_exact]:
      when a UART session gets a port, and which. [Bench.feeder_exact],
      [feed_converges], [percentile_ranks]: what the benchmark feeds and reports.
    - Defects. Some lemmas state that the code does less than it means to:
      [Marker.split_exit_code], [CoordinatorProps.late_marker_missed],
      [end_session_kills_next], [foreign_proposal_executes],
      [stale_proposal_pending], [Shell.multiline_allowed],
      [Client.shared_client_swaps], [Server.hung_dial_blocks_shutdown],
      [Validate.trailing_backslash_accepted],
      [escaped_redirect_background_accepted], [Common.head_dashdash_bypass],
      [shell_spelling_bypass], [Denylist.denylist_bypasses],
      [Records.restart_hides_records], [RecordFiles.append_cut],
      [torn_for_good], [OpenSet.failed_save_relabels],
      [System.failed_approval_unaudited], [Startup.unsafe_board_mismatch],
      [Cli.edit_collapses_spaces], [Store.board_name_escapes],
      [Server.listen_failure_hangs], [Gateway.flag_taken_for_value],
      [password_flag_form], [port_index_not_a_number], [hangup_leaves_raw],
      [restore_not_idempotent], [Bench.percentile_not_nearest_rank],
      [nan_size_accepted].

    ** Conventions and bounds

    Go's int, int64 and uint64 are [Z]; arithmetic that can wrap is written
    with [i64] and [u64], and theorems that need a sequence number not to wrap
    say so (2^64 bytes of output). Times and durations are [Z] nanoseconds and
    every clock reading is an input, as is all random text; a fresh identifier
    is one not in use. Go maps are [gmap]s; an iteration whose order Go leaves
    open is over [map_to_list] and no theorem depends on the order. A mutex is
    the atomicity of a step; a goroutine of a server is a component of its
    state and a step of its own. Fuel is used for loops that are not structural:
    [Ipc.readFrame] ([frame_fuel]: each turn adds a byte up to the bound),
    [Ipc.handle] (each frame takes a byte), [Cli.attach_loop] (each turn takes
    a key), [Telnet.read_all] (each turn takes a read of the connection),
    [Json.read_members] and [read_elements] (each turn takes a byte of the
    text), [Host.mkdir_all] (a parent is a shorter name), [Common.strip_dotdot]
    and the decimal printer (bounded by the text); the theorems about them show
    the fuel suffices, by returning a result and not by assuming one.
    [Json.skip_value] counts the nesting depth, which encoding/json limits to
    10000. [Durable.decode_stream] takes at least a byte of the file a turn.

    ** What is not modelled

    The SSH protocol itself (golang.org/x/crypto/ssh); the kernel's sockets, flock and termios beyond their outcomes,
    which are inputs; the message texts of errors ([Wire.ErrorTexts] gives the
    text of a code) and of usage and log lines; a change of the process's time
    zone between two of its runs; the subscribers' delivery channels are queues
    with drops, their readers are not modelled.

    ** This file

    Shared vocabulary: bytes, 64-bit machine integers, Go's (value, error)
    results, the tactics and hint databases the components use, and generic
    lemmas on lists. *)

From stdpp Require Export base list gmap strings.
From Stdlib Require Export Ascii ZArith Lia.

#[global] Open Scope Z_scope.

(** ** Bytes and machine integers *)

(** A Go [[]byte]; a Go [string] is Rocq's [string], also a byte sequence. *)
Abbreviation bytes := (list ascii).

(** The byte sequence of a Go string, and back: the conversions
    [[]byte(s)] and [string(b)]. *)
Abbreviation to_bytes := String.list_ascii_of_string.
Abbreviation of_bytes := String.string_of_list_ascii.

Definition max_u64 : Z := 2 ^ 64.

(** The value of an unsigned 64-bit expression: arithmetic wraps. *)
Definition u64 (x : Z) : Z := x mod max_u64.

(** The value of a signed 64-bit expression (Go [int] and [int64]). *)
Definition i64 (x : Z) : Z := (x + 2 ^ 63) mod max_u64 - 2 ^ 63.

(** [len] as a Go integer. *)
Abbreviation zlen l := (Z.of_nat (length l)).

(** [b[lo:hi]] within bounds. *)
Definition slice {A} (lo hi : nat) (l : list A) : list A :=
  take (hi - lo) (drop lo l).

(** ** Results of fallible code *)

Inductive result (E A : Type) : Type :=
| Ok (a : A)
| Err (e : E).
Arguments Ok {E A} a.
Arguments Err {E A} e.

Declare Scope go_scope.
Delimit Scope go_scope with go.

(** [if err != nil { return err }] after a call. *)
Notation "'let?' x ':=' c 'in' k" :=
  (match c with Ok x => k | Err e => Err e end)
  (at level 10, x pattern, c at level 100, k at level 200) : go_scope.

Definition is_ok {E A} (r : result E A) : bool :=
  match r with Ok _ => true | Err _ => false end.

(** ** Tactics *)

Create HintDb gw discriminated.
Create Rewrite HintDb gw_len.

(** Split every [match] and [if] of the goal, keeping the equations. *)
Ltac split_matches :=
  repeat (case_match; simplify_eq/=; try done).

(** Turn boolean comparisons of bytes, strings and integers into facts. *)
Ltac bools :=
  repeat match goal with
  | H : Ascii.eqb _ _ = true |- _ => apply Ascii.eqb_eq in H
  | H : Ascii.eqb _ _ = false |- _ => apply Ascii.eqb_neq in H
  | H : String.eqb _ _ = true |- _ => apply String.eqb_eq in H
  | H : String.eqb _ _ = false |- _ => apply String.eqb_neq in H
  | H : (_ && _)%bool = true |- _ => apply andb_prop in H as [? ?]
  | H : (_ || _)%bool = false |- _ => apply orb_false_elim in H as [? ?]
  | H : negb _ = true |- _ => apply negb_true_iff in H
  | H : negb _ = false |- _ => apply negb_false_iff in H
  | H : (_ <=? _) = true |- _ => apply Z.leb_le in H
  | H : (_ <=? _) = false |- _ => apply Z.leb_gt in H
  | H : (_ <? _) = true |- _ => apply Z.ltb_lt in H
  | H : (_ <? _) = false |- _ => apply Z.ltb_ge in H
  | H : (_ =? _) = true |- _ => apply Z.eqb_eq in H
  | H : (_ =? _) = false |- _ => apply Z.eqb_neq in H
  | H : (_ =? _)%nat = true |- _ => apply Nat.eqb_eq in H
  | H : (_ =? _)%nat = false |- _ => apply Nat.eqb_neq in H
  | H : (_ <? _)%nat = true |- _ => apply Nat.ltb_lt in H
  | H : (_ <? _)%nat = false |- _ => apply Nat.ltb_ge in H
  end.

(** ** Generic lemmas *)

Lemma u64_small x : 0 <= x < max_u64 -> u64 x = x.
Proof. apply Z.mod_small. Qed.

Lemma u64_range x : 0 <= u64 x < max_u64.
Proof. by apply Z.mod_pos_bound. Qed.

Lemma i64_small x : - 2 ^ 63 <= x < 2 ^ 63 -> i64 x = x.
Proof. unfold i64, max_u64. intros. rewrite Z.mod_small; lia. Qed.

Lemma slice_length {A} lo hi (l : list A) :
  (hi <= length l)%nat -> length (slice lo hi l) = (hi - lo)%nat.
Proof. unfold slice. rewrite length_take, length_drop. lia. Qed.

Lemma lookup_slice {A} lo hi (l : list A) i :
  (i < hi - lo)%nat -> slice lo hi l !! i = l !! (lo + i)%nat.
Proof. intros. unfold slice. rewrite lookup_take_lt, lookup_drop by lia. done. Qed.

Lemma slice_app_adj {A} lo mid hi (l : list A) :
  (lo <= mid <= hi)%nat ->
  slice lo mid l ++ slice mid hi l = slice lo hi l.
Proof.
  unfold slice. intros.
  replace (hi - lo)%nat with ((mid - lo) + (hi - mid))%nat by lia.
  rewrite <- take_take_drop. f_equal. rewrite drop_drop. do 2 f_equal. lia.
Qed.

Lemma of_to_bytes s : of_bytes (to_bytes s) = s.
Proof. apply String.string_of_list_ascii_of_string. Qed.

Lemma to_of_bytes b : to_bytes (of_bytes b) = b.
Proof. apply String.list_ascii_of_string_of_list_ascii. Qed.

Lemma to_bytes_inj s1 s2 : to_bytes s1 = to_bytes s2 -> s1 = s2.
Proof. intros H. by rewrite <- (of_to_bytes s1), H, of_to_bytes. Qed.

Lemma of_bytes_inj b1 b2 : of_bytes b1 = of_bytes b2 -> b1 = b2.
Proof. intros H. by rewrite <- (to_of_bytes b1), H, to_of_bytes. Qed.

Lemma to_bytes_app s1 s2 : to_bytes (s1 +:+ s2) = to_bytes s1 ++ to_bytes s2.
Proof. induction s1 as [|c s1 IH]; simpl; [done|]. by rewrite IH. Qed.

Lemma filter_none {A} (f : A -> bool) (l : list A) :
  (forall x, x ∈ l -> f x = false) -> List.filter f l = [].
Proof.
  induction l as [|x l IH]; intros H; simpl; [done|].
  rewrite H by apply list_elem_of_here. apply IH. intros y Hy. apply H.
  by apply list_elem_of_further.
Qed.

#[export] Hint Rewrite @length_app @length_take @length_drop @length_replicate
  @length_inserts @to_bytes_app : gw_len.
