(* ===== verification/GoStd.v ===== *)
(** * Go standard library

    The functions of Go's [strings], [bytes], [path] and [fmt] packages the
    gateway calls, as byte-level functions. Text is a byte sequence as in Go;
    white space is [unicode.IsSpace] on its UTF-8 encodings. The only table
    left abstract is the Unicode lower-casing of text that is not ASCII,
    [UnicodeLower]. *)

From S2P Require Import Prelude.

(** ** ASCII *)

Definition char_in (lo hi c : ascii) : bool :=
  ((nat_of_ascii lo <=? nat_of_ascii c) && (nat_of_ascii c <=? nat_of_ascii hi))%nat.

Definition is_digit (c : ascii) : bool := char_in "0" "9" c.
Definition is_lower_hex (c : ascii) : bool := is_digit c || char_in "a" "f" c.
Definition is_ascii_byte (c : ascii) : bool := (nat_of_ascii c <? 128)%nat.
Definition is_ascii (s : string) : bool := forallb is_ascii_byte (to_bytes s).

Definition lower_byte (c : ascii) : ascii :=
  if char_in "A" "Z" c then ascii_of_nat (nat_of_ascii c + 32) else c.

(** ** strings *)

Definition HasPrefix (s p : string) : bool := String.prefix p s.

Fixpoint list_prefix (p s : bytes) : bool :=
  match p, s with
  | [], _ => true
  | _, [] => false
  | a :: p, b :: s => Ascii.eqb a b && list_prefix p s
  end.

Definition HasSuffix (s p : string) : bool :=
  list_prefix (rev (to_bytes p)) (rev (to_bytes s)).

Definition TrimPrefix (s p : string) : string :=
  if HasPrefix s p then of_bytes (drop (String.length p) (to_bytes s)) else s.

Fixpoint list_contains (sub s : bytes) : bool :=
  list_prefix sub s || match s with [] => false | _ :: s => list_contains sub s end.

Definition Contains (s sub : string) : bool := list_contains (to_bytes sub) (to_bytes s).

(** [strings.Split(s, sep)] for a one-byte separator. *)
Fixpoint split_on (sep : ascii) (s : bytes) : list bytes :=
  match s with
  | [] => [[]]
  | c :: s =>
      if Ascii.eqb c sep then [] :: split_on sep s
      else match split_on sep s with
           | [] => [[c]]
           | w :: ws => (c :: w) :: ws
           end
  end.

Definition Split (s : string) (sep : ascii) : list string :=
  of_bytes <$> split_on sep (to_bytes s).

Definition Join (ws : list string) (sep : string) : string := String.concat sep ws.

(** [strings.ToLower]: byte-wise on ASCII text; otherwise through the
    Unicode tables. *)
Class UnicodeLower := lower_runes : string -> string.

Definition ToLower `{UnicodeLower} (s : string) : string :=
  if is_ascii s then of_bytes (lower_byte <$> to_bytes s) else lower_runes s.

(** *** Quoting *)

(** [strconv.Quote] outside ASCII: which runes are printable is in the
    Unicode tables. *)
Class GoQuote := quote_runes : string -> string.

Definition hex_digit (n : nat) : ascii :=
  ascii_of_nat (if (n <? 10)%nat then 48 + n else 87 + n).

Definition quote_byte (c : ascii) : bytes :=
  let n := nat_of_ascii c in
  let bs := ascii_of_nat 92 in
  if (n =? 34)%nat || (n =? 92)%nat then [bs; c]
  else if (n =? 7)%nat then [bs; "a"%char]
  else if (n =? 8)%nat then [bs; "b"%char]
  else if (n =? 12)%nat then [bs; "f"%char]
  else if (n =? 10)%nat then [bs; "n"%char]
  else if (n =? 13)%nat then [bs; "r"%char]
  else if (n =? 9)%nat then [bs; "t"%char]
  else if (n =? 11)%nat then [bs; "v"%char]
  else if (n <? 32)%nat || (n =? 127)%nat
  then [bs; "x"%char; hex_digit (n / 16); hex_digit (n mod 16)]
  else [c].

(** [%q] of a string. *)
Definition Quote `{GoQuote} (s : string) : string :=
  if is_ascii s
  then of_bytes ([ascii_of_nat 34] ++ concat (quote_byte <$> to_bytes s) ++ [ascii_of_nat 34])
  else quote_runes s.

(** *** White space *)

(** The length of the white space rune at the head of the text, 0 if there is
    none: [unicode.IsSpace] of the decoded rune. The multi-byte encodings
    start with bytes that never continue another rune, so they are found at
    the same places as by decoding rune by rune. *)
Definition space_width (s : bytes) : nat :=
  match s with
  | c :: _ =>
      let n := nat_of_ascii c in
      if ((9 <=? n) && (n <=? 13))%nat || (n =? 32)%nat then 1
      else match s with
      | c1 :: c2 :: rest =>
          let n1 := nat_of_ascii c1 in
          let n2 := nat_of_ascii c2 in
          if (n1 =? 194)%nat && ((n2 =? 133)%nat || (n2 =? 160)%nat) then 2
          else match rest with
          | c3 :: _ =>
              let n3 := nat_of_ascii c3 in
              if (n1 =? 225)%nat && (n2 =? 154)%nat && (n3 =? 128)%nat then 3
              else if (n1 =? 226)%nat && (n2 =? 128)%nat &&
                      (((128 <=? n3) && (n3 <=? 138))%nat || (n3 =? 168)%nat ||
                       (n3 =? 169)%nat || (n3 =? 175)%nat) then 3
              else if (n1 =? 226)%nat && (n2 =? 129)%nat && (n3 =? 159)%nat then 3
              else if (n1 =? 227)%nat && (n2 =? 128)%nat && (n3 =? 128)%nat then 3
              else 0
          | [] => 0
          end
      | _ => 0
      end
  | [] => 0
  end%nat.

(** Text cut into white space ([true]) and other bytes; [skip] counts the
    bytes of a multi-byte space still to pass. *)
Fixpoint mark_spaces (skip : nat) (s : bytes) : list (bool * ascii) :=
  match s with
  | [] => []
  | c :: s' =>
      match skip with
      | S k => (true, c) :: mark_spaces k s'
      | O => match space_width s with
             | O => (false, c) :: mark_spaces 0 s'
             | S k => (true, c) :: mark_spaces k s'
             end
      end
  end.

Fixpoint fields_go (cur : bytes) (s : list (bool * ascii)) : list bytes :=
  match s with
  | [] => match cur with [] => [] | _ => [cur] end
  | (true, _) :: s => match cur with [] => fields_go [] s | _ => cur :: fields_go [] s end
  | (false, c) :: s => fields_go (cur ++ [c]) s
  end.

(** [strings.Fields]. *)
Definition Fields (s : string) : list string :=
  of_bytes <$> fields_go [] (mark_spaces 0 (to_bytes s)).

Fixpoint drop_spaces (s : list (bool * ascii)) : list (bool * ascii) :=
  match s with (true, _) :: s' => drop_spaces s' | _ => s end.

(** [strings.TrimSpace]. *)
Definition TrimSpace (s : string) : string :=
  of_bytes (snd <$> rev (drop_spaces (rev (drop_spaces (mark_spaces 0 (to_bytes s)))))).

(** [strings.IndexFunc(s, unicode.IsSpace) >= 0]. *)
Definition has_space (s : string) : bool :=
  existsb fst (mark_spaces 0 (to_bytes s)).

(** [strings.ContainsAny] and [strings.IndexByte(s, c) >= 0]. *)
Definition ContainsAny (s chars : string) : bool :=
  existsb (fun c => existsb (Ascii.eqb c) (to_bytes chars)) (to_bytes s).

Definition HasByte (s : string) (c : ascii) : bool := existsb (Ascii.eqb c) (to_bytes s).

(** ** path *)

Definition comp := bytes.

(** One element of [path.Clean]'s scan, on the stack of kept elements (last
    first). *)
Definition clean_step (rooted : bool) (stack : list comp) (e : comp) : list comp :=
  if decide (e = []) then stack
  else if decide (e = to_bytes ".") then stack
  else if decide (e = to_bytes "..") then
    match stack with
    | top :: below => if decide (top = to_bytes "..") then e :: stack else below
    | [] => if rooted then [] else [e]
    end
  else e :: stack.

Definition join_slash (es : list comp) : bytes :=
  match es with
  | [] => []
  | e :: es => e ++ concat ((fun x => "/"%char :: x) <$> es)
  end.

Definition clean_comps (rooted : bool) (s : bytes) : list comp :=
  rev (foldl (clean_step rooted) [] (split_on "/" s)).

(** [path.Clean]. *)
Definition Clean (s : string) : string :=
  let rooted := HasPrefix s "/" in
  let es := clean_comps rooted (to_bytes s) in
  if rooted then of_bytes ("/"%char :: join_slash es)
  else match es with
       | [] => "."%string
       | _ => of_bytes (join_slash es)
       end.

Fixpoint drop_slashes (s : bytes) : bytes :=
  match s with c :: s' => if Ascii.eqb c "/" then drop_slashes s' else s | [] => [] end.

Fixpoint upto_slash (s : bytes) : bytes :=
  match s with c :: s' => if Ascii.eqb c "/" then [] else c :: upto_slash s' | [] => [] end.

(** [path.Base]. *)
Definition Base (s : string) : string :=
  match to_bytes s with
  | [] => "."%string
  | l =>
      match upto_slash (drop_slashes (rev l)) with
      | [] => "/"%string
      | r => of_bytes (rev r)
      end
  end.

(** [filepath.Join]: empty elements are left out. *)
Definition PathJoin (es : list string) : string :=
  match List.filter (fun e => negb (String.eqb e "")) es with
  | [] => ""%string
  | es => Clean (Join es "/")
  end.

(** ** fmt and strconv *)

Definition digit (n : N) : ascii := ascii_of_N (48 + n mod 10).

Fixpoint dec_go (fuel : nat) (n : N) : bytes :=
  match fuel with
  | O => []
  | S fuel => (if decide (n < 10)%N then [] else dec_go fuel (n / 10)) ++ [digit n]
  end.

(** [%d] of a non-negative number. *)
Definition dec (n : N) : bytes := dec_go (S (N.size_nat n)) n.

(** [%d]. *)
Definition dec_Z (z : Z) : bytes :=
  if decide (z < 0) then "-"%char :: dec (Z.to_N (- z)) else dec (Z.to_N z).

Definition digit_val (c : ascii) : N := N_of_ascii c - 48.

(** The value of a run of decimal digits. *)
Definition undec (l : bytes) : N :=
  foldl (fun acc c => 10 * acc + digit_val c)%N 0%N l.

(** [fmt.Sscanf(s, "%d", &code)] on text of the form -?[0-9]+: the value, or
    [None] when it does not fit a 64-bit [int]. *)
Definition scan_int (l : bytes) : option Z :=
  let v := match l with
           | c :: l' => if Ascii.eqb c "-" then - Z.of_N (undec l') else Z.of_N (undec l)
           | [] => 0
           end in
  if (- 2 ^ 63 <=? v) && (v <? 2 ^ 63) then Some v else None.

(** *** Parsing numbers *)

Inductive num_err := ErrSyntax | ErrRange.

Definition max_uint64 : Z := 2 ^ 64 - 1.

(** The loop of [strconv.ParseUint(s, 10, 64)]: a digit that overflows ends it
    before the rest of the text is looked at. *)
Fixpoint parse_uint_go (n : Z) (s : bytes) : Z * option num_err :=
  match s with
  | [] => (n, None)
  | c :: s =>
      if negb (is_digit c) then (0, Some ErrSyntax)
      else if max_uint64 / 10 + 1 <=? n then (max_uint64, Some ErrRange)
      else let n1 := n * 10 + Z.of_N (digit_val c) in
           if max_uint64 <? n1 then (max_uint64, Some ErrRange) else parse_uint_go n1 s
  end.

(** [strconv.ParseUint(s, 10, 64)]: the value comes with the error. *)
Definition ParseUint (s : bytes) : Z * option num_err :=
  match s with [] => (0, Some ErrSyntax) | _ => parse_uint_go 0 s end.

(** [strconv.ParseInt(s, 10, 64)]. *)
Definition ParseInt (s : bytes) : Z * option num_err :=
  let '(neg, digits) :=
    match s with
    | c :: s' => if Ascii.eqb c "+" then (false, s') else if Ascii.eqb c "-" then (true, s') else (false, s)
    | [] => (false, [])
    end in
  match ParseUint digits with
  | (_, Some ErrSyntax) => (0, Some ErrSyntax)
  | (un, _) =>
      if negb neg && (2 ^ 63 <=? un) then (2 ^ 63 - 1, Some ErrRange)
      else if neg && (2 ^ 63 <? un) then (- 2 ^ 63, Some ErrRange)
      else (if neg then - un else un, None)
  end.

(** ** Lemmas *)

Lemma digit_val_digit n : digit_val (digit n) = (n mod 10)%N.
Proof.
  unfold digit_val, digit. pose proof (N.mod_lt n 10 ltac:(lia)) as H.
  set (m := (n mod 10)%N) in *. clearbody m.
  rewrite N_ascii_embedding by lia. lia.
Qed.

Lemma is_digit_digit n : is_digit (digit n) = true.
Proof.
  unfold digit. pose proof (N.mod_lt n 10 ltac:(lia)) as H.
  set (m := (n mod 10)%N) in *. clearbody m.
  assert (m = 0 \/ m = 1 \/ m = 2 \/ m = 3 \/ m = 4 \/ m = 5 \/ m = 6 \/ m = 7 \/
          m = 8 \/ m = 9)%N as Hm by lia.
  repeat destruct Hm as [-> | Hm]; try reflexivity. by subst m.
Qed.

Lemma undec_app l1 c : undec (l1 ++ [c]) = (10 * undec l1 + digit_val c)%N.
Proof. unfold undec. by rewrite foldl_app. Qed.

Lemma size_nat_div10 n : (10 <= n)%N -> (S (N.size_nat (n / 10)) <= N.size_nat n)%nat.
Proof.
  intros Hn.
  assert (Hs : forall m, N.size_nat m = N.to_nat (N.size m)).
  { intros [|p]; [done|]. change (Pos.size_nat p = Pos.to_nat (Pos.size p)).
    induction p; cbn [Pos.size_nat Pos.size]; lia. }
  rewrite !Hs.
  destruct (decide (n / 10 = 0)%N) as [E|E].
  { rewrite E. assert (0 < N.size n)%N; [|simpl; lia].
    rewrite N.size_log2 by lia. lia. }
  rewrite !N.size_log2 by lia.
  pose proof (N.Div0.mul_div_le n 10) as Hd.
  set (m := (n / 10)%N) in *. clearbody m.
  pose proof (N.log2_le_mono (2 * m) n ltac:(lia)) as Hl.
  rewrite N.log2_double in Hl by lia. lia.
Qed.

Lemma dec_go_spec fuel n :
  (N.size_nat n < fuel)%nat ->
  undec (dec_go fuel n) = n /\ dec_go fuel n <> [] /\
  forallb is_digit (dec_go fuel n) = true.
Proof.
  revert n. induction fuel as [|fuel IH]; intros n Hf; [lia|]. cbn [dec_go].
  rewrite undec_app, digit_val_digit, forallb_app. cbn [forallb].
  rewrite is_digit_digit. case_decide.
  - repeat split; [|done]. cbn. rewrite N.mod_small by lia. lia.
  - destruct (IH (n / 10)%N) as (IH1 & IH2 & IH3).
    { pose proof (size_nat_div10 n ltac:(lia)). lia. }
    rewrite IH1, IH3. split; [|split; [|done]].
    + pose proof (N.div_mod n 10 ltac:(lia)). lia.
    + intros E. by apply app_eq_nil in E as [_ ?].
Qed.

Lemma undec_dec n : undec (dec n) = n.
Proof. apply dec_go_spec. lia. Qed.

Lemma dec_nonempty n : dec n <> [].
Proof. apply dec_go_spec. lia. Qed.

Lemma dec_digits n : forallb is_digit (dec n) = true.
Proof. apply dec_go_spec. lia. Qed.

Lemma scan_int_dec_Z z : - 2 ^ 63 <= z < 2 ^ 63 -> scan_int (dec_Z z) = Some z.
Proof.
  intros Hz. unfold scan_int, dec_Z. case_decide.
  - rewrite Ascii.eqb_refl, undec_dec.
    replace (- Z.of_N (Z.to_N (- z))) with z by lia.
    rewrite (proj2 (Z.leb_le _ _)), (proj2 (Z.ltb_lt _ _)) by lia. done.
  - pose proof (dec_digits (Z.to_N z)) as Hd. pose proof (undec_dec (Z.to_N z)) as Hu.
    destruct (dec (Z.to_N z)) as [|c l] eqn:E; [by destruct (dec_nonempty (Z.to_N z))|].
    destruct (Ascii.eqb c "-") eqn:Ec.
    { bools. subst c. done. }
    rewrite Hu, Z2N.id by lia.
    rewrite (proj2 (Z.leb_le _ _)), (proj2 (Z.ltb_lt _ _)) by lia. done.
Qed.

(** *** Printed numbers parse *)

Lemma undec_ge l n : Z.of_N n <= Z.of_N (foldl (fun acc c => 10 * acc + digit_val c)%N n l).
Proof.
  revert n. induction l as [|c l IH]; intros n; cbn [foldl]; [lia|].
  specialize (IH (10 * n + digit_val c)%N). lia.
Qed.

Lemma parse_uint_digits l n :
  forallb is_digit l = true ->
  Z.of_N (foldl (fun acc c => 10 * acc + digit_val c)%N n l) <= max_uint64 ->
  parse_uint_go (Z.of_N n) l = (Z.of_N (foldl (fun acc c => 10 * acc + digit_val c)%N n l), None).
Proof.
  revert n. induction l as [|c l IH]; intros n Hd Hv; [done|]. cbn [foldl parse_uint_go forallb] in *.
  apply andb_prop in Hd as [-> Hd]. cbn [negb].
  pose proof (undec_ge l (10 * n + digit_val c)%N) as Hge.
  assert (Hc : max_uint64 / 10 + 1 = 1844674407370955162) by done.
  assert (Hm : max_uint64 = 18446744073709551615) by done.
  rewrite (proj2 (Z.leb_gt _ _)) by lia. cbv zeta.
  rewrite (proj2 (Z.ltb_ge _ _)) by lia.
  replace (Z.of_N n * 10 + Z.of_N (digit_val c)) with (Z.of_N (10 * n + digit_val c)%N) by lia.
  by apply IH.
Qed.

Lemma ParseUint_dec n : Z.of_N n <= max_uint64 -> ParseUint (dec n) = (Z.of_N n, None).
Proof.
  intros Hn. pose proof (dec_digits n) as Hd. pose proof (undec_dec n) as Hu. unfold ParseUint.
  destruct (dec n) as [|c l] eqn:E; [by destruct (dec_nonempty n)|].
  change 0 with (Z.of_N 0). rewrite parse_uint_digits by (try done; fold (undec (c :: l)); by rewrite Hu).
  fold (undec (c :: l)). by rewrite Hu.
Qed.

Lemma dec_head n c l : dec n = c :: l -> is_digit c = true.
Proof. intros E. pose proof (dec_digits n) as Hd. rewrite E in Hd. by apply andb_prop in Hd as [? _]. Qed.

Lemma ParseInt_dec_Z z : - 2 ^ 63 <= z < 2 ^ 63 -> ParseInt (dec_Z z) = (z, None).
Proof.
  intros Hz. unfold ParseInt, dec_Z. case_decide.
  - cbn [Ascii.eqb Bool.eqb]. rewrite ParseUint_dec by (unfold max_uint64; lia). cbn [negb andb].
    rewrite (proj2 (Z.ltb_ge _ _)) by lia. f_equal. lia.
  - destruct (dec (Z.to_N z)) as [|c l] eqn:E; [by destruct (dec_nonempty (Z.to_N z))|].
    assert (Hc : Ascii.eqb c "+" = false /\ Ascii.eqb c "-" = false).
    { apply dec_head in E. split; apply Ascii.eqb_neq; intros ->; done. }
    destruct Hc as [-> ->]. rewrite <-E, ParseUint_dec by (unfold max_uint64; lia). cbn [negb andb].
    rewrite (proj2 (Z.leb_gt _ _)) by lia. f_equal. lia.
Qed.

Lemma list_prefix_app p s : list_prefix p (p ++ s) = true.
Proof. induction p; simpl; [done|]. by rewrite Ascii.eqb_refl. Qed.

Lemma list_prefix_spec p s : list_prefix p s = true <-> exists t, s = p ++ t.
Proof.
  split.
  - revert s. induction p as [|a p IH]; intros s H; simpl in *; [by eexists|].
    destruct s as [|c s]; [done|]. bools. subst.
    destruct (IH s) as [t ->]; [done|]. by exists t.
  - intros [t ->]. apply list_prefix_app.
Qed.

(** *** [path.Clean] *)

Definition no_slash (e : bytes) : Prop := "/"%char ∉ e.

Lemma split_on_no_sep sep e : sep ∉ e -> split_on sep e = [e].
Proof.
  induction e as [|c e IH]; intros H; [done|]. apply not_elem_of_cons in H as [Hc He]. simpl.
  rewrite (proj2 (Ascii.eqb_neq c sep)) by done. by rewrite IH.
Qed.

Lemma split_on_app sep e s : sep ∉ e -> split_on sep (e ++ (sep :: s)) = e :: split_on sep s.
Proof.
  induction e as [|c e IH]; intros H; simpl; [by rewrite Ascii.eqb_refl|].
  apply not_elem_of_cons in H as [Hc He].
  rewrite (proj2 (Ascii.eqb_neq c sep)) by done. by rewrite IH.
Qed.

Lemma split_on_pieces sep s : Forall (fun e => sep ∉ e) (split_on sep s).
Proof.
  induction s as [|c s IH]; simpl; [repeat constructor; by apply not_elem_of_nil|].
  destruct (Ascii.eqb c sep) eqn:E; bools.
  - constructor; [by apply not_elem_of_nil|done].
  - destruct (split_on sep s) as [|w ws]; [repeat constructor; set_solver|].
    inversion IH; subst. constructor; [set_solver|done].
Qed.

Lemma split_on_join es :
  es <> [] -> Forall no_slash es -> split_on "/"%char (join_slash es) = es.
Proof.
  destruct es as [|e es]; [done|]. intros _ H. simpl.
  inversion H as [|? ? He Hes]; subst. clear H. revert e He.
  induction Hes as [|e' es He' Hes IH]; intros e He; simpl.
  - rewrite app_nil_r. by apply split_on_no_sep.
  - rewrite split_on_app by done. f_equal. by apply IH.
Qed.

(** The kept elements, last first: none is empty or "."; ".." only at the
    bottom, and never in a rooted path. *)
Definition kept (rooted : bool) (stack : list bytes) : Prop :=
  Forall (fun e => e <> [] /\ e <> to_bytes "." /\ no_slash e) stack /\
  exists ups rest, stack = rest ++ ups /\ Forall (fun e => e = to_bytes "..") ups /\
    Forall (fun e => e <> to_bytes "..") rest /\ (rooted = true -> ups = []).

Lemma kept_step rooted stack e : no_slash e -> kept rooted stack -> kept rooted (clean_step rooted stack e).
Proof.
  intros He Hk. unfold clean_step. case_decide; [done|]. case_decide; [done|].
  destruct Hk as [Hs (ups & rest & -> & Hu & Hr & Hroot)].
  case_decide as Hd.
  - destruct rest as [|x rest]; simpl.
    + destruct ups as [|u ups].
      * destruct rooted; [by split; [|exists [], []]|]. split.
        { constructor; [|constructor]. by rewrite Hd in *. }
        exists [e], []. split; [done|]. split; [by constructor|]. split; [constructor|done].
      * inversion Hu as [|? ? Hu1 Hu2]; subst u. rewrite decide_True by done. split.
        { constructor; [done|exact Hs]. }
        exists (e :: to_bytes ".." :: ups), []. split; [done|]. split; [by constructor|].
        split; [constructor|]. intros Hroot'. by specialize (Hroot Hroot').
    + inversion Hr as [|? ? Hr1 Hr2]; subst. rewrite decide_False by done.
      simpl in Hs. inversion Hs; subst. split; [done|]. by exists ups, rest.
  - split; [by constructor|]. exists ups, (e :: rest). split; [done|]. split; [done|].
    split; [by constructor|done].
Qed.

Lemma kept_fold rooted es stack :
  Forall no_slash es -> kept rooted stack -> kept rooted (foldl (clean_step rooted) stack es).
Proof.
  intros Hes. revert stack. induction Hes as [|e es He Hes IH]; intros stack Hk; simpl; [done|].
  by apply IH, kept_step.
Qed.

Lemma kept_nil rooted : kept rooted [].
Proof. split; [constructor|]. exists [], []. by repeat split; try constructor. Qed.

(** Scanning elements that are already clean keeps them all. *)
Lemma clean_fold_kept rooted stack :
  kept rooted stack -> foldl (clean_step rooted) [] (rev stack) = stack.
Proof.
  induction stack as [|e stack IH]; intros [Hs (ups & rest & Heq & Hu & Hr & Hroot)]; [done|].
  inversion Hs as [|? ? (H1 & H2 & H3) Hs']; subst.
  simpl rev. rewrite foldl_app. simpl foldl.
  destruct rest as [|x rest]; simpl in Heq.
  - destruct ups as [|u ups]; [done|]. injection Heq as -> ->. inversion Hu as [|? ? -> Hu']; subst.
    assert (rooted = false) as -> by (destruct rooted; [by specialize (Hroot eq_refl)|done]).
    rewrite IH. 2:{ split; [done|]. by exists ups, []. }
    unfold clean_step. case_decide; [done|]. case_decide; [done|]. case_decide; [|done].
    destruct ups as [|u' ups]; [done|]. inversion Hu' as [|? ? -> ?]; subst. by case_decide.
  - injection Heq as -> ->. inversion Hr as [|? ? Hx Hr']; subst.
    rewrite IH. 2:{ split; [done|]. by exists ups, rest. }
    unfold clean_step. case_decide; [done|]. case_decide; [done|]. by case_decide.
Qed.

Definition rooted_bytes (s : bytes) : bool :=
  match s with c :: _ => Ascii.eqb c "/" | [] => false end.

Lemma HasPrefix_slash s : HasPrefix s "/" = rooted_bytes (to_bytes s).
Proof.
  destruct s as [|c s]; [done|]. unfold HasPrefix. cbn [String.prefix to_bytes rooted_bytes].
  destruct (ascii_dec "/" c) as [<-|Hne]; [by destruct s|].
  by rewrite (proj2 (Ascii.eqb_neq c "/")).
Qed.

Lemma clean_comps_kept rooted s : kept rooted (rev (clean_comps rooted s)).
Proof.
  unfold clean_comps. rewrite rev_involutive. apply kept_fold; [apply split_on_pieces|apply kept_nil].
Qed.

(** The elements of a clean path are those it was made of. *)
Lemma clean_comps_join rooted es :
  kept rooted (rev es) -> clean_comps rooted (join_slash es) = es.
Proof.
  intros Hk. unfold clean_comps. destruct (decide (es = [])) as [->|Hne]; [done|].
  rewrite split_on_join; [|done|].
  - rewrite <- (rev_involutive es) at 1. rewrite clean_fold_kept by done. apply rev_involutive.
  - destruct Hk as [Hs _]. rewrite <- (rev_involutive es). apply Forall_rev.
    eapply Forall_impl; [exact Hs|]. naive_solver.
Qed.

Lemma clean_comps_rooted es :
  kept true (rev es) -> clean_comps true ("/"%char :: join_slash es) = es.
Proof.
  intros Hk. rewrite <- (clean_comps_join true es Hk) at 2. unfold clean_comps. simpl.
  done.
Qed.

Lemma join_not_rooted es : kept false (rev es) -> rooted_bytes (join_slash es) = false.
Proof.
  intros [Hs _]. destruct es as [|e es]; [done|]. simpl in Hs.
  apply Forall_app in Hs as [_ Hs]. inversion Hs as [|? ? (He & _ & Hn) _]; subst.
  destruct e as [|c e]; [done|]. simpl. apply Ascii.eqb_neq. intros ->. apply Hn. set_solver.
Qed.

Lemma Clean_Clean s : Clean (Clean s) = Clean s.
Proof.
  unfold Clean at 2 3. rewrite HasPrefix_slash.
  destruct (rooted_bytes (to_bytes s)) eqn:Hr.
  - pose proof (clean_comps_kept true (to_bytes s)) as Hk. set (es := clean_comps true _) in *.
    unfold Clean. rewrite HasPrefix_slash, to_of_bytes. cbn [rooted_bytes].
    rewrite Ascii.eqb_refl. by rewrite clean_comps_rooted.
  - pose proof (clean_comps_kept false (to_bytes s)) as Hk. set (es := clean_comps false _) in *.
    destruct es as [|e es'] eqn:E; [done|].
    unfold Clean. rewrite HasPrefix_slash, to_of_bytes, join_not_rooted by done.
    by rewrite clean_comps_join.
Qed.

#[export] Hint Resolve dec_nonempty dec_digits list_prefix_app : gw.
