(* ===== verification/Json.v ===== *)
(** * JSON (Go's encoding/json, as the protocol and the files use it)

    The encoder of strings, numbers, arrays and objects; a reader that checks
    a text and cuts it into the raw texts of its members, as the decoder of
    encoding/json does; decoding into structs field by field. Its facts are in
    JsonStrings.v and JsonTexts.v. *)

From S2P Require Import Prelude GoStd.

(** ** Strings *)

Definition in_range (lo hi : nat) (c : ascii) : bool :=
  ((lo <=? nat_of_ascii c) && (nat_of_ascii c <=? hi))%nat.

Definition continuation (c : ascii) : bool := in_range 128 191 c.

(** The length of the valid UTF-8 encoding at the head of the text, at least
    two bytes; 0 when it is invalid. *)
Definition rune_width (s : bytes) : nat :=
  match s with
  | c0 :: c1 :: rest =>
      if in_range 194 223 c0 then if continuation c1 then 2 else 0
      else match rest with
      | c2 :: rest =>
          if in_range 224 239 c0 then
            let ok1 := if (nat_of_ascii c0 =? 224)%nat then in_range 160 191 c1
                       else if (nat_of_ascii c0 =? 237)%nat then in_range 128 159 c1
                       else continuation c1 in
            if ok1 && continuation c2 then 3 else 0
          else match rest with
          | c3 :: _ =>
              if in_range 240 244 c0 then
                let ok1 := if (nat_of_ascii c0 =? 240)%nat then in_range 144 191 c1
                           else if (nat_of_ascii c0 =? 244)%nat then in_range 128 143 c1
                           else continuation c1 in
                if ok1 && continuation c2 && continuation c3 then 4 else 0
              else 0
          | [] => 0
          end
      | [] => 0
      end
  | _ => 0
  end%nat.

(** One ASCII byte, with the HTML-safe escapes of [json.Marshal]. *)
Definition json_ascii (c : ascii) : bytes :=
  let n := nat_of_ascii c in
  let bs := ascii_of_nat 92 in
  if (n =? 34)%nat || (n =? 92)%nat then [bs; c]
  else if (n =? 8)%nat then [bs; "b"%char]
  else if (n =? 12)%nat then [bs; "f"%char]
  else if (n =? 10)%nat then [bs; "n"%char]
  else if (n =? 13)%nat then [bs; "r"%char]
  else if (n =? 9)%nat then [bs; "t"%char]
  else if (n <? 32)%nat || (n =? 60)%nat || (n =? 62)%nat || (n =? 38)%nat
  then [bs; "u"%char; "0"%char; "0"%char; hex_digit (n / 16); hex_digit (n mod 16)]
  else [c].

(** U+2028 and U+2029. *)
Definition line_separator (s : bytes) : bool :=
  match s with
  | c0 :: c1 :: c2 :: _ =>
      (nat_of_ascii c0 =? 226)%nat && (nat_of_ascii c1 =? 128)%nat && in_range 168 169 c2
  | _ => false
  end.

Definition json_separator (s : bytes) : bytes :=
  to_bytes "\u202" ++
  [match s with _ :: _ :: c2 :: _ => hex_digit (nat_of_ascii c2 mod 16) | _ => zero end].

(** [skip] counts the bytes of a rune that is already written. *)
Fixpoint json_chars (skip : nat) (s : bytes) : bytes :=
  match s with
  | [] => []
  | c :: s' =>
      match skip with
      | S k => json_chars k s'
      | O =>
          if is_ascii_byte c then json_ascii c ++ json_chars 0 s'
          else match rune_width s with
               | O => to_bytes "\ufffd" ++ json_chars 0 s'
               | S k =>
                   (if line_separator s then json_separator s else take (S k) s) ++ json_chars k s'
               end
      end
  end.

Definition json_string (s : string) : bytes :=
  [ascii_of_nat 34] ++ json_chars 0 (to_bytes s) ++ [ascii_of_nat 34].

Definition quote_char : ascii := ascii_of_nat 34.
Definition backslash : ascii := ascii_of_nat 92.

(** *** Reading a string *)

(** [utf8.EncodeRune] of a code point that is not a surrogate. *)
Definition encode_rune (r : nat) : bytes :=
  (if r <? 128 then [ascii_of_nat r]
   else if r <? 2048 then [ascii_of_nat (192 + r / 64); ascii_of_nat (128 + r mod 64)]
   else if r <? 65536 then
     [ascii_of_nat (224 + r / 4096); ascii_of_nat (128 + (r / 64) mod 64); ascii_of_nat (128 + r mod 64)]
   else [ascii_of_nat (240 + r / 262144); ascii_of_nat (128 + (r / 4096) mod 64);
         ascii_of_nat (128 + (r / 64) mod 64); ascii_of_nat (128 + r mod 64)])%nat.

(** U+FFFD. *)
Definition replacement : bytes := ascii_of_nat <$> [239; 191; 189]%nat.

Definition hex_val (c : ascii) : option nat :=
  if is_digit c then Some (nat_of_ascii c - 48)%nat
  else if char_in "a" "f" c then Some (nat_of_ascii c - 87)%nat
  else if char_in "A" "F" c then Some (nat_of_ascii c - 55)%nat
  else None.

Definition hex4 (a b c d : ascii) : option nat :=
  match hex_val a, hex_val b, hex_val c, hex_val d with
  | Some a, Some b, Some c, Some d => Some (((a * 16 + b) * 16 + c) * 16 + d)%nat
  | _, _, _, _ => None
  end.

Definition nat_in (lo hi n : nat) : bool := ((lo <=? n) && (n <=? hi))%nat.

Definition is_surrogate (r : nat) : bool := nat_in 55296 57343 r.

(** [utf16.DecodeRune]: [None] is the replacement character. *)
Definition decode_pair (r1 r2 : nat) : option nat :=
  if nat_in 55296 56319 r1 && nat_in 56320 57343 r2
  then Some ((r1 - 55296) * 1024 + (r2 - 56320) + 65536)%nat else None.

(** The byte a one-letter escape stands for. *)
Definition simple_escape (e : ascii) : option ascii :=
  let n := nat_of_ascii e in
  (if (n =? 34) || (n =? 92) || (n =? 47) then Some e
   else if n =? 98 then Some (ascii_of_nat 8)
   else if n =? 102 then Some (ascii_of_nat 12)
   else if n =? 110 then Some (ascii_of_nat 10)
   else if n =? 114 then Some (ascii_of_nat 13)
   else if n =? 116 then Some (ascii_of_nat 9)
   else None)%nat.

(** Put decoded bytes in front of what is read further on. *)
Definition prepend (l : bytes) (r : option (bytes * bytes)) : option (bytes * bytes) :=
  match r with Some (t, rest) => Some (l ++ t, rest) | None => None end.

(** A string after its opening quote: the scanner's checks and [unquote] in
    one pass, up to the closing quote. Invalid UTF-8 and lone surrogates
    become U+FFFD. [skip] counts the bytes of a rune already checked. *)
Fixpoint read_string (skip : nat) (s : bytes) : option (bytes * bytes) :=
  match s with
  | [] => None
  | c :: s' =>
      match skip with
      | S k => prepend [c] (read_string k s')
      | O =>
          if Ascii.eqb c quote_char then Some ([], s')
          else if Ascii.eqb c backslash then
            match s' with
            | [] => None
            | e :: s2 =>
                if Ascii.eqb e "u" then
                  match s2 with
                  | h1 :: h2 :: h3 :: h4 :: s3 =>
                      match hex4 h1 h2 h3 h4 with
                      | None => None
                      | Some r =>
                          if negb (is_surrogate r) then prepend (encode_rune r) (read_string 0 s3)
                          else match s3 with
                          | b :: u :: g1 :: g2 :: g3 :: g4 :: s4 =>
                              match (if Ascii.eqb b backslash && Ascii.eqb u "u"
                                     then hex4 g1 g2 g3 g4 ≫= decode_pair r else None) with
                              | Some r2 => prepend (encode_rune r2) (read_string 0 s4)
                              | None => prepend replacement (read_string 0 s3)
                              end
                          | _ => prepend replacement (read_string 0 s3)
                          end
                      end
                  | _ => None
                  end
                else match simple_escape e with
                     | Some b => prepend [b] (read_string 0 s2)
                     | None => None
                     end
            end
          else if (nat_of_ascii c <? 32)%nat then None
          else if is_ascii_byte c then prepend [c] (read_string 0 s')
          else match rune_width s with
               | O => prepend replacement (read_string 0 s')
               | S k => prepend [c] (read_string k s')
               end
      end
  end.

(** [utf8.Valid]. *)
Fixpoint valid_from (skip : nat) (s : bytes) : bool :=
  match s with
  | [] => true
  | c :: s' =>
      match skip with
      | S k => valid_from k s'
      | O => if is_ascii_byte c then valid_from 0 s'
             else match rune_width s with O => false | S k => valid_from k s' end
      end
  end.

Definition valid_utf8 (s : string) : bool := valid_from 0 (to_bytes s).

(** ** Texts *)

Definition is_ws (c : ascii) : bool :=
  let n := nat_of_ascii c in ((n =? 32) || (n =? 9) || (n =? 10) || (n =? 13))%nat.

Fixpoint skip_ws (s : bytes) : bytes :=
  match s with c :: s' => if is_ws c then skip_ws s' else s | [] => [] end.

(** One expected byte. *)
Definition eat (c : ascii) (s : bytes) : option bytes :=
  match s with x :: s' => if Ascii.eqb x c then Some s' else None | [] => None end.

Fixpoint eat_all (l s : bytes) : option bytes :=
  match l with [] => Some s | c :: l => s ← eat c s; eat_all l s end.

Fixpoint skip_digits (s : bytes) : bytes :=
  match s with c :: s' => if is_digit c then skip_digits s' else s | [] => [] end.

(** At least one digit. *)
Definition some_digits (s : bytes) : option bytes :=
  match s with c :: s' => if is_digit c then Some (skip_digits s') else None | [] => None end.

Definition skip_exponent (s : bytes) : option bytes :=
  match s with
  | c :: s' =>
      if Ascii.eqb c "e" || Ascii.eqb c "E"
      then match s' with
           | d :: s2 => if Ascii.eqb d "+" || Ascii.eqb d "-" then some_digits s2 else some_digits s'
           | [] => None
           end
      else Some s
  | [] => Some s
  end.

Definition skip_fraction (s : bytes) : option bytes :=
  match s with
  | c :: s' => if Ascii.eqb c "." then s2 ← some_digits s'; skip_exponent s2 else skip_exponent s
  | [] => Some s
  end.

(** A number: a sign, an integer without leading zeros, a fraction and an
    exponent, all but the integer optional. *)
Definition skip_number (s : bytes) : option bytes :=
  let s := match s with c :: s' => if Ascii.eqb c "-" then s' else s | [] => s end in
  match s with
  | c :: s' =>
      if Ascii.eqb c "0" then skip_fraction s'
      else if is_digit c then skip_fraction (skip_digits s') else None
  | [] => None
  end.

(** The text read between [s] and what is left of it. *)
Definition read_part (s rest : bytes) : bytes := take (length s - length rest) s.

(** The members of an object, from the quote of a key up to the closing
    brace: each key with the raw text of its value. [skip] reads past one
    value; [fuel] bounds the number of members. *)
Fixpoint read_members (skip : bytes -> option bytes) (fuel : nat) (s : bytes)
  : option (list (string * bytes) * bytes) :=
  match fuel with
  | O => None
  | S fuel =>
      s ← eat quote_char s;
      '(k, s) ← read_string 0 s;
      s ← eat ":" (skip_ws s);
      let v := skip_ws s in
      s ← skip v;
      let m := (of_bytes k, read_part v s) in
      let s := skip_ws s in
      match eat "," s with
      | Some s => '(ms, s) ← read_members skip fuel (skip_ws s); Some (m :: ms, s)
      | None => s ← eat "}" s; Some ([m], s)
      end
  end.

(** The elements of an array, from the first one up to the closing bracket. *)
Fixpoint read_elements (skip : bytes -> option bytes) (fuel : nat) (s : bytes)
  : option (list bytes * bytes) :=
  match fuel with
  | O => None
  | S fuel =>
      r ← skip s;
      let v := read_part s r in
      let r := skip_ws r in
      match eat "," r with
      | Some r => '(vs, r) ← read_elements skip fuel (skip_ws r); Some (v :: vs, r)
      | None => r ← eat "]" r; Some ([v], r)
      end
  end.

Definition object_members (skip : bytes -> option bytes) (s : bytes)
  : option (list (string * bytes) * bytes) :=
  match eat "}" s with
  | Some s => Some ([], s)
  | None => read_members skip (length s) s
  end.

Definition array_elements (skip : bytes -> option bytes) (s : bytes) : option (list bytes * bytes) :=
  match eat "]" s with
  | Some s => Some ([], s)
  | None => read_elements skip (length s) s
  end.

(** Read past one value; [depth] is how deep values may nest, itself included.
    The decoder allows 10000 open arrays and objects. *)
Fixpoint skip_value (depth : nat) (s : bytes) : option bytes :=
  match depth with
  | O => None
  | S d =>
      match s with
      | [] => None
      | c :: s' =>
          if Ascii.eqb c quote_char then snd <$> read_string 0 s'
          else if Ascii.eqb c "{" then
            if (d =? 0)%nat then None else snd <$> object_members (skip_value d) (skip_ws s')
          else if Ascii.eqb c "[" then
            if (d =? 0)%nat then None else snd <$> array_elements (skip_value d) (skip_ws s')
          else if Ascii.eqb c "t" then eat_all (to_bytes "rue") s'
          else if Ascii.eqb c "f" then eat_all (to_bytes "alse") s'
          else if Ascii.eqb c "n" then eat_all (to_bytes "ull") s'
          else skip_number s
      end
  end.

Definition max_depth : nat := Z.to_nat 10001.

(** The text with every invalid byte replaced: what a string becomes on the
    way through JSON. *)
Fixpoint sanitize_from (skip : nat) (s : bytes) : bytes :=
  match s with
  | [] => []
  | c :: s' =>
      match skip with
      | S k => c :: sanitize_from k s'
      | O => if is_ascii_byte c then c :: sanitize_from 0 s'
             else match rune_width s with
                  | O => replacement ++ sanitize_from 0 s'
                  | S k => c :: sanitize_from k s'
                  end
      end
  end.

Definition sanitize (s : string) : string := of_bytes (sanitize_from 0 (to_bytes s)).

(** ** Printing *)

Definition json_null : bytes := to_bytes "null".
Definition json_bool (b : bool) : bytes := to_bytes (if b then "true" else "false").

(** The items of an array or object, with the white space [before] each. *)
Fixpoint more_items (before : bytes) (items : list bytes) : bytes :=
  match items with
  | [] => []
  | i :: items => ","%char :: before ++ i ++ more_items before items
  end.

Definition print_items (before : bytes) (items : list bytes) : bytes :=
  match items with
  | [] => []
  | i :: items => before ++ i ++ more_items before items
  end.

Definition print_member (colon : bytes) (m : string * bytes) : bytes :=
  json_string (fst m) ++ ":"%char :: colon ++ snd m.

(** An object; [before], [colon] and [after] are its white space, empty in
    [json.Marshal]. *)
Definition print_object (before colon after : bytes) (ms : list (string * bytes)) : bytes :=
  match ms with
  | [] => to_bytes "{}"
  | _ => "{"%char :: print_items before (print_member colon <$> ms) ++ after ++ ["}"%char]
  end.

Definition print_array (before after : bytes) (vs : list bytes) : bytes :=
  match vs with
  | [] => to_bytes "[]"
  | _ => "["%char :: print_items before vs ++ after ++ ["]"%char]
  end.

Definition json_object : list (string * bytes) -> bytes := print_object [] [] [].
Definition json_array : list bytes -> bytes := print_array [] [].

(** ** Decoding *)

(** The raw texts of a whole document, white space around it dropped. *)
Definition document (s : bytes) : option bytes :=
  let v := skip_ws s in
  r ← skip_value max_depth v;
  match skip_ws r with [] => Some (read_part v r) | _ => None end.

Definition members_of (v : bytes) : option (list (string * bytes)) :=
  s ← eat "{" v; fst <$> object_members (skip_value max_depth) (skip_ws s).

Definition elements_of (v : bytes) : option (list bytes) :=
  s ← eat "[" v; fst <$> array_elements (skip_value max_depth) (skip_ws s).

(** Decoding one raw value over what is there already: [null] changes
    nothing, [None] is a type error. *)
Definition decoder (A : Type) := bytes -> A -> option A.

Definition is_null (v : bytes) : bool := bool_decide (v = json_null).

Definition into_string : decoder string := fun v old =>
  if is_null v then Some old
  else s ← eat quote_char v; '(t, _) ← read_string 0 s; Some (of_bytes t).

Definition into_bool : decoder bool := fun v old =>
  if is_null v then Some old
  else if bool_decide (v = json_bool true) then Some true
  else if bool_decide (v = json_bool false) then Some false else None.

(** Into a 64-bit integer: only an integer literal in range. *)
Definition into_int : decoder Z := fun v old =>
  if is_null v then Some old
  else match v with
       | c :: _ => if is_digit c || Ascii.eqb c "-"
                   then match ParseInt v with (z, None) => Some z | _ => None end else None
       | [] => None
       end.

Definition into_uint : decoder Z := fun v old =>
  if is_null v then Some old
  else match v with
       | c :: _ => if is_digit c || Ascii.eqb c "-"
                   then match ParseUint v with (z, None) => Some z | _ => None end else None
       | [] => None
       end.

(** A [json.RawMessage] keeps the text, [null] too. *)
Definition into_raw : decoder bytes := fun v _ => Some v.

(** Elements are decoded over those of the old slice. *)
Fixpoint decode_all {A} (d : decoder A) (zero : A) (old : list A) (vs : list bytes) : option (list A) :=
  match vs with
  | [] => Some []
  | v :: vs => x ← d v (default zero (head old)); xs ← decode_all d zero (tail old) vs; Some (x :: xs)
  end.

Definition into_list {A} (d : decoder A) (zero : A) : decoder (list A) := fun v old =>
  if is_null v then Some [] else vs ← elements_of v; decode_all d zero old vs.

(** Into a [map[string]A], as its entries in the order they are set. *)
Fixpoint decode_pairs {A} (d : decoder A) (zero : A) (ms : list (string * bytes))
  : option (list (string * A)) :=
  match ms with
  | [] => Some []
  | (k, v) :: ms => x ← d v zero; xs ← decode_pairs d zero ms; Some ((k, x) :: xs)
  end.

Definition into_map {A} (d : decoder A) (zero : A) : decoder (list (string * A)) := fun v old =>
  if is_null v then Some [] else ms ← members_of v; xs ← decode_pairs d zero ms; Some (old ++ xs).

(** Into a pointer. *)
Definition into_option {A} (d : decoder A) (zero : A) : decoder (option A) := fun v old =>
  if is_null v then Some None else Some <$> d v (default zero old).

(** *** Structs *)

(** Case folding of a key that is compared with an ASCII field name: besides
    the letters, the long s and the Kelvin sign fold to ASCII. *)
Fixpoint fold_key (s : bytes) : bytes :=
  match s with
  | [] => []
  | a :: s1 =>
      let up := if char_in "a" "z" a then ascii_of_nat (nat_of_ascii a - 32) else a in
      match s1 with
      | b :: s2 =>
          if (nat_of_ascii a =? 197)%nat && (nat_of_ascii b =? 191)%nat then "S"%char :: fold_key s2
          else match s2 with
               | c :: s3 =>
                   if (nat_of_ascii a =? 226)%nat && (nat_of_ascii b =? 132)%nat &&
                      (nat_of_ascii c =? 170)%nat
                   then "K"%char :: fold_key s3 else up :: fold_key s1
               | [] => up :: fold_key s1
               end
      | [] => [up]
      end
  end.

Definition same_fold (a b : string) : bool :=
  bool_decide (fold_key (to_bytes a) = fold_key (to_bytes b)).

(** The fields of a struct [R]: the name on the wire and how to decode into it. *)
Abbreviation fields R := (list (string * (bytes -> R -> option R))).

(** An exact name first, then one that differs only in case. *)
Definition find_field {R} (fs : fields R) (key : string) : option (bytes -> R -> option R) :=
  match List.find (fun f => String.eqb (fst f) key) fs with
  | Some f => Some (snd f)
  | None => snd <$> List.find (fun f => same_fold (fst f) key) fs
  end.

(** Members that name no field are ignored; a repeated one decodes again. *)
Fixpoint apply_members {R} (fs : fields R) (ms : list (string * bytes)) (r : R) : option R :=
  match ms with
  | [] => Some r
  | (k, v) :: ms =>
      match find_field fs k with
      | Some f => r ← f v r; apply_members fs ms r
      | None => apply_members fs ms r
      end
  end.

Definition into_struct {R} (fs : fields R) : decoder R := fun v old =>
  if is_null v then Some old else ms ← members_of v; apply_members fs ms old.

(** A field decoded by [d], read and written by these. *)
Definition field {R A} (d : decoder A) (get : R -> A) (put : A -> R -> R) : bytes -> R -> option R :=
  fun v r => x ← d v (get r); Some (put x r).

(** [json.Unmarshal(data, &r)]: the document is checked whole first. *)
Definition Unmarshal_into {A} (d : decoder A) (zero : A) (data : bytes) : option A :=
  v ← document data; d v zero.

(** *** Base64 *)

Definition base64_char (n : nat) : ascii :=
  ascii_of_nat (if n <? 26 then 65 + n else if n <? 52 then 71 + n else if n <? 62 then n - 4
                else if n =? 62 then 43 else 47)%nat.

(** [base64.StdEncoding]. *)
Fixpoint base64 (s : bytes) : bytes :=
  let n := nat_of_ascii in
  match s with
  | [] => []
  | [a] => [base64_char (n a / 4); base64_char (n a mod 4 * 16); "="; "="]%char
  | [a; b] => [base64_char (n a / 4); base64_char (n a mod 4 * 16 + n b / 16);
               base64_char (n b mod 16 * 4); "="%char]
  | a :: b :: c :: s =>
      [base64_char (n a / 4); base64_char (n a mod 4 * 16 + n b / 16);
       base64_char (n b mod 16 * 4 + n c / 64); base64_char (n c mod 64)] ++ base64 s
  end%nat.

Definition base64_val (c : ascii) : option nat :=
  if char_in "A" "Z" c then Some (nat_of_ascii c - 65)%nat
  else if char_in "a" "z" c then Some (nat_of_ascii c - 71)%nat
  else if char_in "0" "9" c then Some (nat_of_ascii c + 4)%nat
  else if Ascii.eqb c "+" then Some 62%nat
  else if Ascii.eqb c "/" then Some 63%nat else None.

(** Four characters at a time, padding only in the last group; the unused bits
    of the last character are not checked. *)
Fixpoint unbase64_quads (s : bytes) : option bytes :=
  match s with
  | [] => Some []
  | c1 :: c2 :: c3 :: c4 :: s =>
      a ← base64_val c1; b ← base64_val c2;
      let x := ascii_of_nat (a * 4 + b / 16) in
      if Ascii.eqb c3 "=" then
        if Ascii.eqb c4 "=" && bool_decide (s = []) then Some [x] else None
      else
        c ← base64_val c3;
        let y := ascii_of_nat (b mod 16 * 16 + c / 4) in
        if Ascii.eqb c4 "=" then if bool_decide (s = []) then Some [x; y] else None
        else d ← base64_val c4; rest ← unbase64_quads s;
             Some (x :: y :: ascii_of_nat (c mod 4 * 64 + d) :: rest)
  | _ => None
  end%nat.

(** Line ends are ignored. *)
Definition unbase64 (s : bytes) : option bytes :=
  unbase64_quads (List.filter (fun c => negb (Ascii.eqb c (ascii_of_nat 13) || Ascii.eqb c (ascii_of_nat 10))) s).

(** One element of an array decoded into [[]byte]. *)
Definition into_byte : decoder ascii := fun v old =>
  z ← into_uint v (Z.of_N (N_of_ascii old));
  if z <? 256 then Some (ascii_of_N (Z.to_N z)) else None.

(** Into a [[]byte]: base64, or an array of numbers. *)
Definition into_bytes : decoder bytes := fun v old =>
  match eat quote_char v with
  | Some s => '(t, _) ← read_string 0 s; unbase64 t
  | None => into_list into_byte zero v old
  end.
