(* ===== verification/JsonStrings.v ===== *)
(** * Facts of JSON strings

    The encoder of strings is a prefix code, runes are read one by one, and a
    string read back is the text with its invalid bytes replaced. *)

From S2P Require Import Prelude GoStd Json.

(** *** Keys are a prefix code *)

Definition ascii_bytes : list ascii := ascii_of_nat <$> seq 0 128.

Lemma ascii_bytes_spec (p : ascii -> bool) :
  forallb p ascii_bytes = true -> forall c, is_ascii_byte c = true -> p c = true.
Proof.
  intros H c Hc. rewrite forallb_forall in H. apply H, list_elem_of_In, list_elem_of_fmap.
  exists (nat_of_ascii c). split; [by rewrite ascii_nat_embedding|].
  unfold is_ascii_byte in Hc. apply Nat.ltb_lt in Hc. apply list_elem_of_In, in_seq. lia.
Qed.

(** The ASCII codes form a prefix code, none of which starts with a quote. *)
Lemma json_ascii_prefix c1 c2 :
  is_ascii_byte c1 = true -> is_ascii_byte c2 = true ->
  list_prefix (json_ascii c1) (json_ascii c2) = true -> c1 = c2.
Proof.
  assert (H : forallb (fun a => forallb (fun b =>
            if list_prefix (json_ascii a) (json_ascii b) then Ascii.eqb a b else true)
            ascii_bytes) ascii_bytes = true) by (vm_compute; reflexivity).
  intros H1 H2 H3. pose proof (ascii_bytes_spec _ (ascii_bytes_spec _ H c1 H1) c2 H2) as Hc.
  cbv beta in Hc. rewrite H3 in Hc. by apply Ascii.eqb_eq.
Qed.

Lemma json_ascii_head c : is_ascii_byte c = true ->
  exists x l, json_ascii c = x :: l /\ x <> ascii_of_nat 34.
Proof.
  assert (H : forallb (fun a => match json_ascii a with
              | x :: _ => negb (Ascii.eqb x (ascii_of_nat 34)) | [] => false end) ascii_bytes = true)
    by (vm_compute; reflexivity).
  intros Ha. pose proof (ascii_bytes_spec _ H c Ha) as Hc. cbv beta in Hc.
  destruct (json_ascii c) as [|x l]; [done|]. bools. eauto.
Qed.

Lemma app_prefix (a b x y : bytes) :
  a ++ x = b ++ y -> list_prefix a b = true \/ list_prefix b a = true.
Proof.
  revert b. induction a as [|c a IH]; intros [|d b] H; simpl; [by left|by left|by right|].
  simpl in H. injection H as -> H. rewrite !Ascii.eqb_refl. by apply IH.
Qed.

Lemma json_ascii_inj c1 c2 x y :
  is_ascii_byte c1 = true -> is_ascii_byte c2 = true ->
  json_ascii c1 ++ x = json_ascii c2 ++ y -> c1 = c2 /\ x = y.
Proof.
  intros H1 H2 H. assert (c1 = c2) as <-.
  { destruct (app_prefix _ _ _ _ H) as [Hp|Hp]; [|symmetry]; by apply json_ascii_prefix. }
  split; [done|]. by apply app_inv_head in H.
Qed.

Lemma json_chars_ascii s :
  forallb is_ascii_byte s = true -> json_chars 0 s = concat (json_ascii <$> s).
Proof.
  induction s as [|c s IH]; [done|]. cbn [forallb json_chars]. intros H.
  apply andb_prop in H as [-> Hs]. by rewrite IH.
Qed.

Lemma json_chars_inj (s1 s2 x y : bytes) :
  forallb is_ascii_byte s1 = true -> forallb is_ascii_byte s2 = true ->
  json_chars 0 s1 ++ (ascii_of_nat 34 :: x) = json_chars 0 s2 ++ (ascii_of_nat 34 :: y) ->
  s1 = s2 /\ x = y.
Proof.
  intros H1 H2. rewrite !json_chars_ascii by done. revert s2 H2.
  induction s1 as [|c1 s1 IH]; intros [|c2 s2] H2 H; cbn [fmap list_fmap concat forallb] in *.
  - by injection H as ->.
  - apply andb_prop in H2 as [Hc _]. destruct (json_ascii_head c2 Hc) as (z & l & E & Hz).
    rewrite E in H. simpl in H. by injection H as <-.
  - apply andb_prop in H1 as [Hc _]. destruct (json_ascii_head c1 Hc) as (z & l & E & Hz).
    rewrite E in H. simpl in H. by injection H as ->.
  - apply andb_prop in H1 as [Hc1 Hs1]. apply andb_prop in H2 as [Hc2 Hs2].
    rewrite <- !app_assoc in H. apply json_ascii_inj in H as [-> H]; [|done|done].
    destruct (IH Hs1 s2 Hs2 H) as [-> ->]. done.
Qed.

Lemma json_string_inj a b x y :
  is_ascii a = true -> is_ascii b = true -> json_string a ++ x = json_string b ++ y -> a = b /\ x = y.
Proof.
  intros Ha Hb H. unfold json_string in H. rewrite <- !app_assoc in H. apply (f_equal tail) in H. cbn [app tail] in H.
  apply json_chars_inj in H as [H ->]; [|done|done]. split; [by apply to_bytes_inj|done].
Qed.

(** *** Runes *)

Lemma prepend_app a b r : prepend a (prepend b r) = prepend (a ++ b) r.
Proof. destruct r as [[]|]; cbn; [by rewrite app_assoc|done]. Qed.

Lemma json_chars_skip l s : json_chars (length l) (l ++ s) = json_chars 0 s.
Proof. by induction l. Qed.

Lemma sanitize_skip l s : sanitize_from (length l) (l ++ s) = l ++ sanitize_from 0 s.
Proof. induction l as [|c l IH]; [done|]. cbn. by rewrite IH. Qed.

Lemma valid_skip l s : valid_from (length l) (l ++ s) = valid_from 0 s.
Proof. by induction l. Qed.

Lemma prepend_nil r : prepend [] r = r.
Proof. by destruct r as [[]|]. Qed.

Lemma read_skip l x : read_string (length l) (l ++ x) = prepend l (read_string 0 x).
Proof.
  induction l as [|c l IH]; [by rewrite prepend_nil|]. cbn. by rewrite IH, prepend_app.
Qed.

Lemma range_high lo hi c : (128 <= lo)%nat -> in_range lo hi c = true -> is_ascii_byte c = false.
Proof.
  intros Hlo H. unfold in_range, is_ascii_byte in *. apply andb_prop in H as [H%Nat.leb_le _].
  apply Nat.ltb_ge. lia.
Qed.

(** The second byte of a three- or four-byte rune. *)
Lemma second_high (b1 b2 : bool) lo1 hi1 lo2 hi2 c1 d :
  (128 <= lo1)%nat -> (128 <= lo2)%nat ->
  (if b1 then in_range lo1 hi1 c1 else if b2 then in_range lo2 hi2 c1 else continuation c1) && d = true ->
  is_ascii_byte c1 = false /\ d = true.
Proof.
  intros H1 H2 [H Hd]%andb_prop. split; [|done].
  destruct b1, b2; (eapply range_high; [|exact H]); lia.
Qed.

(** The width of a rune depends on its own bytes only, none of which is ASCII. *)
Lemma rune_width_local s k x :
  rune_width s = S k ->
  exists c l s', s = (c :: l) ++ s' /\ length l = k /\ rune_width ((c :: l) ++ x) = S k /\
    (1 <= k)%nat /\ Forall (fun c => is_ascii_byte c = false) (c :: l).
Proof.
  assert (Hcont : forall c, continuation c = true -> is_ascii_byte c = false)
    by (intros c; apply range_high; lia).
  unfold rune_width. intros H.
  destruct s as [|c0 [|c1 s]]; [done|done|]. destruct (in_range 194 223 c0) eqn:E0.
  { destruct (continuation c1) eqn:E1; simplify_eq. exists c0, [c1], s. cbn [app]. rewrite E0, E1.
    split_and!; [done|done|done|lia|]. apply range_high in E0; [|lia]. repeat (apply Forall_cons_2; [by auto|]). apply Forall_nil_2. }
  destruct s as [|c2 s]; [done|]. destruct (in_range 224 239 c0) eqn:E1.
  { cbv zeta in H. destruct (_ && continuation c2) eqn:E2 in H; simplify_eq.
    exists c0, [c1; c2], s. cbn [app]. rewrite E0, E1. cbv zeta. rewrite E2.
    apply second_high in E2 as [E2 E3]; [|lia..]. apply range_high in E1; [|lia].
    split_and!; [done|done|done|lia|repeat (apply Forall_cons_2; [by auto|]); apply Forall_nil_2]. }
  destruct s as [|c3 s]; [done|]. destruct (in_range 240 244 c0) eqn:E2; [|done].
  cbv zeta in H. destruct (_ && continuation c3) eqn:E3 in H; simplify_eq.
  exists c0, [c1; c2; c3], s. cbn [app]. rewrite E0, E1, E2. cbv zeta. rewrite E3.
  rewrite <-andb_assoc in E3. apply second_high in E3 as [E3 [E4 E5]%andb_prop]; [|lia..].
  apply range_high in E2; [|lia]. split_and!; [done|done|done|lia|repeat (apply Forall_cons_2; [by auto|]); apply Forall_nil_2].
Qed.

(** Cut at the first rune: an ASCII byte, an invalid byte, or a longer rune. *)
Lemma rune_cases (P : bytes -> Prop) :
  P [] ->
  (forall c s, is_ascii_byte c = true -> P s -> P (c :: s)) ->
  (forall c s, is_ascii_byte c = false -> rune_width (c :: s) = 0%nat -> P s -> P (c :: s)) ->
  (forall c l s, is_ascii_byte c = false -> (forall x, rune_width ((c :: l) ++ x) = S (length l)) ->
     (1 <= length l)%nat -> P s -> P ((c :: l) ++ s)) ->
  forall s, P s.
Proof.
  intros H0 H1 H2 H3 s. induction s as [s IH] using (induction_ltof1 _ (@length ascii)).
  destruct s as [|c s]; [done|]. destruct (is_ascii_byte c) eqn:Ec.
  { apply H1; [done|]. apply IH. unfold ltof. cbn. lia. }
  destruct (rune_width (c :: s)) as [|k] eqn:Hw.
  { apply H2; [done|done|]. apply IH. unfold ltof. cbn. lia. }
  destruct (rune_width_local _ _ [] Hw) as (c' & l & s' & Heq & Hl & _ & Hk & _).
  rewrite Heq. injection Heq as <- ->. subst k. apply H3; [done| |done|].
  - intros x. destruct (rune_width_local _ _ x Hw) as (c2 & l2 & s2 & Heq & Hl & Hx & _).
    injection Heq as <- Heq.
    destruct (app_inj_1 _ _ _ _ (eq_sym Hl) Heq) as [<- _]. done.
  - apply IH. unfold ltof. cbn. rewrite length_app. lia.
Qed.

Lemma valid_sanitize s : valid_utf8 s = true -> sanitize s = s.
Proof.
  intros Hv. unfold sanitize, valid_utf8 in *. rewrite <-(of_to_bytes s) at 2. f_equal.
  revert Hv. generalize (to_bytes s). clear s. intros s. induction s as [|c s Hc IH|c s Hc Hw IH|c l s Hc Hw Hl IH] using rune_cases;
    cbn [valid_from sanitize_from app]; rewrite ?Hc; intros Hv; [done|by rewrite IH|by rewrite Hw in Hv|].
  change (c :: l ++ s) with ((c :: l) ++ s) in *. rewrite Hw in *. cbn [app]. rewrite valid_skip in Hv. rewrite sanitize_skip. by rewrite IH.
Qed.

(** What comes through is valid, and does not change again. *)
Lemma sanitize_valid s : valid_utf8 (sanitize s) = true.
Proof.
  unfold valid_utf8, sanitize. rewrite to_of_bytes. generalize (to_bytes s). clear s. intros s.
  induction s as [|c s Hc IH|c s Hc Hw IH|c l s Hc Hw Hl IH] using rune_cases;
    cbn [sanitize_from app]; rewrite ?Hc; [done|by cbn [valid_from]; rewrite Hc|by rewrite Hw|].
  change (c :: l ++ s) with ((c :: l) ++ s). rewrite Hw, sanitize_skip. cbn [valid_from]. rewrite Hc.
  change (c :: l ++ ?x) with ((c :: l) ++ x). by rewrite Hw, valid_skip.
Qed.

Lemma sanitize_idem s : sanitize (sanitize s) = sanitize s.
Proof. apply valid_sanitize, sanitize_valid. Qed.

Lemma ascii_valid s : is_ascii s = true -> valid_utf8 s = true.
Proof.
  unfold is_ascii, valid_utf8. induction (to_bytes s) as [|c l IH]; [done|]. cbn. intros H. bools.
  rewrite H. by apply IH.
Qed.

(** One ASCII byte comes back. *)
Lemma read_ascii c x :
  is_ascii_byte c = true -> read_string 0 (json_ascii c ++ x) = prepend [c] (read_string 0 x).
Proof. intros Hc. destruct c as [[] [] [] [] [] [] [] []]; try discriminate Hc; reflexivity. Qed.

Lemma rune_head c : is_ascii_byte c = false ->
  Ascii.eqb c quote_char = false /\ Ascii.eqb c backslash = false /\ (nat_of_ascii c <? 32)%nat = false.
Proof.
  intros H. split_and!; [by apply Ascii.eqb_neq; intros ->..|].
  unfold is_ascii_byte in H. apply Nat.ltb_ge in H. apply Nat.ltb_ge. lia.
Qed.

Lemma separator_bytes s :
  line_separator s = true ->
  exists d rest, s = ascii_of_nat 226 :: ascii_of_nat 128 :: d :: rest /\
    (d = ascii_of_nat 168 \/ d = ascii_of_nat 169).
Proof.
  destruct s as [|a [|b [|d rest]]]; try done. cbn [line_separator]. unfold in_range. intros H.
  apply andb_prop in H as [[Ha Hb]%andb_prop [H1 H2]%andb_prop].
  apply Nat.eqb_eq in Ha, Hb. apply Nat.leb_le in H1, H2. exists d, rest.
  rewrite <-(ascii_nat_embedding a), <-(ascii_nat_embedding b), Ha, Hb. split; [done|].
  assert (nat_of_ascii d = 168 \/ nat_of_ascii d = 169)%nat as [E|E] by lia;
    rewrite <-(ascii_nat_embedding d), E; [by left|by right].
Qed.

(** A line separator is written as an escape and comes back. *)
Lemma read_separator c l x y :
  rune_width ((c :: l) ++ x) = S (length l) -> line_separator ((c :: l) ++ x) = true ->
  read_string 0 (json_separator ((c :: l) ++ x) ++ y) = prepend (c :: l) (read_string 0 y).
Proof.
  intros Hw (d & rest & Heq & Hd)%separator_bytes. rewrite Heq in Hw |- *.
  assert (Hw3 : forall z, rune_width (ascii_of_nat 226 :: ascii_of_nat 128 :: d :: z) = 3%nat)
    by by destruct Hd as [-> | ->].
  rewrite Hw3 in Hw. destruct l as [|c1 [|c2 [|]]]; try done. cbn in Heq. injection Heq as -> -> -> _.
  destruct Hd as [-> | ->]; reflexivity.
Qed.

(** A string read back is the text with its invalid bytes replaced. *)
Lemma read_chars s rest :
  read_string 0 (json_chars 0 s ++ quote_char :: rest) = Some (sanitize_from 0 s, rest).
Proof.
  induction s as [|c s Hc IH|c s Hc Hw IH|c l s Hc Hw Hl IH] using rune_cases;
    cbn [json_chars sanitize_from app]; rewrite ?Hc; [done|..].
  - by rewrite <-app_assoc, read_ascii, IH.
  - rewrite Hw, <-app_assoc. change (to_bytes "\ufffd" ++ ?z) with (to_bytes "\ufffd" ++ z).
    assert (forall z, read_string 0 (to_bytes "\ufffd" ++ z) = prepend replacement (read_string 0 z)) as ->
      by (intros z; reflexivity). by rewrite IH.
  - change (c :: l ++ s) with ((c :: l) ++ s). rewrite !Hw. rewrite json_chars_skip, sanitize_skip, <-app_assoc.
    destruct (line_separator ((c :: l) ++ s)) eqn:Hs.
    + rewrite read_separator; [by rewrite IH|by rewrite Hw|done].
    + rewrite take_app_length' by (cbn; lia). cbn [app read_string].
      destruct (rune_head c Hc) as (-> & -> & ->). rewrite Hc.
      change (c :: l ++ ?z) with ((c :: l) ++ z). rewrite Hw. rewrite read_skip, prepend_app, IH. done.
Qed.
