(* ===== verification/JsonTexts.v ===== *)
(** * Facts of JSON texts

    The round trips are stated for a value followed by any rest of the input, so
    they compose over nested values and over compact and indented text alike. *)

From S2P Require Import Prelude GoStd Json JsonStrings.

(** *** Texts *)

(** What may follow a value. *)
Definition ends_value (s : bytes) : Prop :=
  match s with [] => True | c :: _ => is_ws c = true \/ c ∈ [","; "]"; "}"]%char end.

(** A complete value of this nesting depth, read back from any context. *)
Definition json_text (n : nat) (v : bytes) : Prop :=
  skip_ws v = v /\ v <> [] /\
  forall depth rest, (n <= depth)%nat -> ends_value rest -> skip_value depth (v ++ rest) = Some rest.

Lemma read_part_app v rest : read_part (v ++ rest) rest = v.
Proof.
  unfold read_part. rewrite length_app. replace (_ + _ - _)%nat with (length v) by lia. by rewrite take_app_length.
Qed.

Lemma eat_all_app l s : eat_all l (l ++ s) = Some s.
Proof. induction l as [|c l IH]; [done|]. cbn. by rewrite Ascii.eqb_refl. Qed.

Lemma text_mono n m v : (n <= m)%nat -> json_text n v -> json_text m v.
Proof. intros Hn (Hw & Hne & H). split_and!; [done|done|]. intros d rest Hd. apply H. lia. Qed.

Lemma text_string s : json_text 1 (json_string s).
Proof.
  split_and!; [done|done|]. intros [|d] rest Hd _; [lia|]. unfold json_string. cbn [app skip_value].
  rewrite Ascii.eqb_refl. rewrite <-app_assoc. cbn [app]. by rewrite read_chars.
Qed.

Lemma text_bool b : json_text 1 (json_bool b).
Proof.
  split_and!; [by destruct b|by destruct b|]. intros [|d] rest Hd _; [lia|].
  destruct b; exact (eat_all_app _ _).
Qed.

Lemma text_null : json_text 1 json_null.
Proof.
  split_and!; [done|done|]. intros [|d] rest Hd _; [lia|]. exact (eat_all_app _ _).
Qed.

Lemma digit_not_ws c : is_digit c = true -> is_ws c = false /\ Ascii.eqb c "-" = false /\
  Ascii.eqb c quote_char = false /\ Ascii.eqb c "{" = false /\ Ascii.eqb c "[" = false /\
  Ascii.eqb c "t" = false /\ Ascii.eqb c "f" = false /\ Ascii.eqb c "n" = false.
Proof. intros H. destruct c as [[] [] [] [] [] [] [] []]; try discriminate H; by split_and!. Qed.

Lemma skip_digits_app l s : forallb is_digit l = true -> skip_digits (l ++ s) = skip_digits s.
Proof. induction l as [|c l IH]; [done|]. cbn. intros H. apply andb_prop in H as [-> H]. by apply IH. Qed.

Lemma ends_number s : ends_value s -> skip_digits s = s /\ skip_fraction s = Some s.
Proof.
  destruct s as [|c s]; [done|]. intros [Hw|Hc]; cbn.
  - destruct c as [[] [] [] [] [] [] [] []]; try discriminate Hw; done.
  - rewrite !elem_of_cons, elem_of_nil in Hc. destruct Hc as [-> |[-> |[-> |[]]]]; done.
Qed.

(** A decimal has no leading zero. *)
Lemma dec_go_head fuel n : (n <> 0)%N -> (N.size_nat n < fuel)%nat ->
  exists c l, dec_go fuel n = c :: l /\ Ascii.eqb c "0" = false.
Proof.
  revert n. induction fuel as [|fuel IH]; intros n Hn Hf; [lia|]. cbn [dec_go]. case_decide as Hlt.
  - exists (digit n), []. split; [done|]. apply Ascii.eqb_neq. intros E.
    pose proof (digit_val_digit n) as Hd. rewrite E in Hd. rewrite N.mod_small in Hd by lia. by cbn in Hd.
  - destruct (IH (n / 10)%N) as (c & l & -> & Hc).
    + intros E. apply Hlt. apply N.div_small_iff in E; lia.
    + pose proof (size_nat_div10 n ltac:(lia)). lia.
    + by exists c, (l ++ [digit n]).
Qed.

Lemma skip_number_dec n s : ends_value s -> skip_number (dec n ++ s) = Some s.
Proof.
  intros [Hsd Hsf]%ends_number. destruct (decide (n = 0)%N) as [->|Hn].
  { unfold dec. cbn [N.size_nat dec_go]. cbn. done. }
  destruct (dec_go_head (S (N.size_nat n)) n Hn ltac:(lia)) as (c & l & Hd & Hz). fold (dec n) in Hd.
  pose proof (dec_digits n) as Hds. rewrite Hd in *. cbn [forallb] in Hds. apply andb_prop in Hds as [Hc Hl].
  destruct (digit_not_ws c Hc) as (_ & Hm & _). unfold skip_number. cbn [app]. rewrite Hm, Hz, Hc.
  by rewrite skip_digits_app, Hsd.
Qed.

Lemma text_int z : json_text 1 (dec_Z z).
Proof.
  assert (Hhead : forall n, exists c l, dec n = c :: l /\ is_digit c = true).
  { intros n. destruct (dec n) as [|c l] eqn:E; [by destruct (dec_nonempty n)|]. exists c, l.
    split; [done|by eapply dec_head]. }
  unfold dec_Z. case_decide as Hz; (split_and!; [| |intros [|d] rest Hd He; [lia|]]).
  - done.
  - done.
  - change (skip_value (S d) (("-"%char :: dec (Z.to_N (- z))) ++ rest)) with (skip_number ("-"%char :: dec (Z.to_N (- z)) ++ rest)).
    pose proof (skip_number_dec (Z.to_N (- z)) rest He) as Hs.
    destruct (Hhead (Z.to_N (- z))) as (c & l & E & Hc). rewrite E in *. cbn [app] in *.
    unfold skip_number in *. destruct (digit_not_ws c Hc) as (_ & Hm & _). by rewrite Hm in Hs.
  - destruct (Hhead (Z.to_N z)) as (c & l & -> & Hc). cbn. by destruct (digit_not_ws c Hc) as (-> & _).
  - apply dec_nonempty.
  - pose proof (skip_number_dec (Z.to_N z) rest He) as Hs.
    destruct (Hhead (Z.to_N z)) as (c & l & E & Hc). rewrite E in *. cbn [app skip_value] in *.
    destruct (digit_not_ws c Hc) as (_ & _ & -> & -> & -> & -> & -> & ->). done.
Qed.

(** *** Objects and arrays *)

Definition all_ws (w : bytes) : Prop := Forall (fun c => is_ws c = true) w.

Lemma ws_nil : all_ws [].
Proof. constructor. Qed.

Lemma skip_ws_app w s : all_ws w -> skip_ws (w ++ s) = skip_ws s.
Proof. induction 1 as [|c w Hc _ IH]; [done|]. cbn. by rewrite Hc. Qed.

Lemma skip_ws_text n v s : json_text n v -> skip_ws (v ++ s) = v ++ s.
Proof.
  intros (Hw & Hne & _). destruct v as [|c v]; [done|]. cbn in *. destruct (is_ws c) eqn:E; [|done].
  exfalso. assert (Hl : forall t, (length (skip_ws t) <= length t)%nat).
  { induction t as [|x t IH]; [done|]. cbn. destruct (is_ws x); cbn; lia. }
  specialize (Hl v). rewrite Hw in Hl. cbn in Hl. lia.
Qed.

Lemma ends_ws w s : all_ws w -> ends_value s -> ends_value (w ++ s).
Proof. intros Hw Hs. destruct Hw as [|c w Hc Hw]; [done|]. by left. Qed.

Lemma ends_char c s : c ∈ [","; "]"; "}"]%char -> ends_value (c :: s).
Proof. by right. Qed.

Definition sanitize_key (m : string * bytes) : string * bytes := (sanitize (fst m), snd m).

Section Items.
Context (n d : nat) (before colon after : bytes).
Hypothesis (Hd : (n <= d)%nat) (Hb : all_ws before) (Hc : all_ws colon) (Ha : all_ws after).

(** One member up to the comma or brace after it. *)
Lemma read_member fuel k v s :
  json_text n v -> ends_value s ->
  read_members (skip_value d) (S fuel) (print_member colon (k, v) ++ s) =
  let m := (sanitize k, v) in
  match eat "," (skip_ws s) with
  | Some s => '(ms, s) ← read_members (skip_value d) fuel (skip_ws s); Some (m :: ms, s)
  | None => s ← eat "}" (skip_ws s); Some ([m], s)
  end.
Proof.
  intros Hv Hs. unfold print_member, json_string. cbn [fst snd read_members].
  rewrite <-!app_assoc. cbn [app eat]. rewrite Ascii.eqb_refl. cbn [mbind option_bind].
  rewrite <-!app_assoc. cbn [app]. rewrite read_chars. cbn [mbind option_bind].
  rewrite <-?app_assoc. change (eat ":" (skip_ws (":"%char :: colon ++ v ++ s))) with (Some (colon ++ v ++ s)).
  cbn [mbind option_bind]. rewrite skip_ws_app, (skip_ws_text n v s) by done.
  destruct Hv as (_ & _ & Hv). rewrite Hv by done. cbn [mbind option_bind]. by rewrite read_part_app.
Qed.

Lemma skip_ws_member m s : skip_ws (print_member colon m ++ s) = print_member colon m ++ s.
Proof. done. Qed.

Lemma more_items_length items : (length items <= length (more_items before items))%nat.
Proof. induction items as [|i items IH]; cbn; [lia|]. rewrite !length_app. lia. Qed.

Lemma read_items ms fuel m rest :
  Forall (fun m => json_text n (snd m)) (m :: ms) -> (length ms < fuel)%nat ->
  read_members (skip_value d) fuel
    (print_member colon m ++ more_items before (print_member colon <$> ms) ++ after ++ "}"%char :: rest) =
  Some (sanitize_key <$> m :: ms, rest).
Proof.
  revert fuel m. induction ms as [|m2 ms IH]; intros fuel m Hm Hf;
    (destruct fuel as [|fuel]; [cbn in Hf; lia|]); apply Forall_cons in Hm as [Hm Hms]; destruct m as [k v];
    cbn [fmap list_fmap more_items app]; rewrite read_member; try done;
    try (apply ends_ws; [done|]); try (by apply ends_char; set_solver).
  - rewrite skip_ws_app by done. done.
  - change (eat "," (skip_ws (","%char :: ?z))) with (Some z). cbn [mbind option_bind].
    rewrite <-!app_assoc, skip_ws_app, skip_ws_member by done.
    change (list_fmap _ _ (print_member colon) ms) with (print_member colon <$> ms).
    rewrite IH by (try done; cbn in Hf; lia). done.
Qed.

Lemma read_array_items vs fuel v rest :
  Forall (json_text n) (v :: vs) -> (length vs < fuel)%nat ->
  read_elements (skip_value d) fuel (v ++ more_items before vs ++ after ++ "]"%char :: rest) =
  Some (v :: vs, rest).
Proof.
  revert fuel v. induction vs as [|v2 vs IH]; intros fuel v Hv Hf;
    (destruct fuel as [|fuel]; [cbn in Hf; lia|]); apply Forall_cons in Hv as [Hv Hvs];
    pose proof Hv as (_ & _ & Hskip); cbn [read_elements more_items app];
    (rewrite Hskip; [|done|]); try (apply ends_ws; [done|]); try (by apply ends_char; set_solver);
    cbn [mbind option_bind]; rewrite read_part_app.
  - rewrite skip_ws_app by done. done.
  - change (eat "," (skip_ws (","%char :: ?z))) with (Some z). cbn [mbind option_bind].
    apply Forall_cons in Hvs as Hv2. destruct Hv2 as [Hv2 _].
    rewrite <-!app_assoc, skip_ws_app, (skip_ws_text n) by done.
    rewrite IH by (try done; cbn in Hf; lia). done.
Qed.

Lemma read_object ms rest :
  Forall (fun m => json_text n (snd m)) ms ->
  exists s, print_object before colon after ms ++ rest = "{"%char :: s /\
    object_members (skip_value d) (skip_ws s) = Some (sanitize_key <$> ms, rest).
Proof.
  intros Hms. destruct ms as [|m ms]; [by eexists|].
  exists ((print_items before (print_member colon <$> m :: ms) ++ after ++ ["}"%char]) ++ rest).
  split; [done|]. cbn [print_items fmap list_fmap]. rewrite <-!app_assoc, skip_ws_app, skip_ws_member by done.
  change (list_fmap _ _ (print_member colon) ms) with (print_member colon <$> ms).
  unfold object_members. change (eat "}" (print_member colon m ++ _)) with (@None bytes).
  cbn [app]. rewrite (read_items ms _ m rest Hms); [done|]. rewrite !length_app.
  pose proof (more_items_length (print_member colon <$> ms)) as Hl. rewrite length_fmap in Hl. cbn. lia.
Qed.

Lemma read_array vs rest :
  Forall (json_text n) vs ->
  exists s, print_array before after vs ++ rest = "["%char :: s /\
    array_elements (skip_value d) (skip_ws s) = Some (vs, rest).
Proof.
  intros Hvs. destruct vs as [|v vs]; [by eexists|].
  exists ((print_items before (v :: vs) ++ after ++ ["]"%char]) ++ rest). split; [done|].
  apply Forall_cons in Hvs as Hv. destruct Hv as [Hv _].
  cbn [print_items]. rewrite <-!app_assoc, skip_ws_app, (skip_ws_text n) by done. cbn [app].
  unfold array_elements. assert (He : forall t, eat "]" (v ++ t) = None).
  { intros t. destruct Hv as (_ & Hne & Hv). destruct v as [|c v]; [done|]. cbn.
    destruct (Ascii.eqb c "]") eqn:E; [|done]. bools. subst c. exfalso.
    specialize (Hv (S n) [] ltac:(lia) I). by cbn in Hv. }
  rewrite He, (read_array_items vs _ v rest Hvs); [done|]. rewrite !length_app.
  pose proof (more_items_length vs) as Hl. cbn. lia.
Qed.

End Items.

Lemma text_object n before colon after ms :
  (1 <= n)%nat -> all_ws before -> all_ws colon -> all_ws after ->
  Forall (fun m => json_text n (snd m)) ms -> json_text (S n) (print_object before colon after ms).
Proof.
  intros Hn Hb Hc Ha Hms. split_and!; [by destruct ms|by destruct ms|]. intros [|d] rest Hd _; [lia|].
  destruct (read_object n d before colon after ltac:(lia) Hb Hc Ha ms rest Hms) as (s & -> & Hs).
  cbn [skip_value]. change (Ascii.eqb "{" quote_char) with false. change (Ascii.eqb "{" "{") with true. cbn match.
  destruct d as [|d]; [lia|]. cbn [Nat.eqb]. by rewrite Hs.
Qed.

Lemma text_array n before after vs :
  (1 <= n)%nat -> all_ws before -> all_ws after ->
  Forall (json_text n) vs -> json_text (S n) (print_array before after vs).
Proof.
  intros Hn Hb Ha Hvs. split_and!; [by destruct vs|by destruct vs|]. intros [|d] rest Hd _; [lia|].
  destruct (read_array n d before [] after ltac:(lia) Hb (Forall_nil_2 _) Ha vs rest Hvs) as (s & -> & Hs).
  cbn [skip_value]. change (Ascii.eqb "[" quote_char) with false. change (Ascii.eqb "[" "{") with false.
  change (Ascii.eqb "[" "[") with true. cbn match.
  destruct d as [|d]; [lia|]. cbn [Nat.eqb]. by rewrite Hs.
Qed.

(** A printed value is the document it is printed in. *)
Lemma document_text n w1 v w2 :
  (n <= max_depth)%nat -> all_ws w1 -> all_ws w2 -> json_text n v -> document (w1 ++ v ++ w2) = Some v.
Proof.
  intros Hn H1 H2 Hv. unfold document. rewrite skip_ws_app, (skip_ws_text n) by done.
  destruct Hv as (_ & _ & Hv). rewrite Hv; [|done|rewrite <-(app_nil_r w2); by apply ends_ws].
  cbn [mbind option_bind]. rewrite <-(app_nil_r w2) at 1. rewrite skip_ws_app by done. cbn. by rewrite read_part_app.
Qed.

Lemma members_print n before colon after ms :
  (n <= max_depth)%nat -> all_ws before -> all_ws colon -> all_ws after ->
  Forall (fun m => json_text n (snd m)) ms ->
  members_of (print_object before colon after ms) = Some (sanitize_key <$> ms).
Proof.
  intros Hn Hb Hc Ha Hms.
  destruct (read_object n max_depth before colon after Hn Hb Hc Ha ms [] Hms) as (s & Hp & Hs).
  rewrite app_nil_r in Hp. unfold members_of. rewrite Hp. cbn [eat]. rewrite Ascii.eqb_refl.
  cbn [mbind option_bind]. by rewrite Hs.
Qed.

Lemma elements_print n before after vs :
  (n <= max_depth)%nat -> all_ws before -> all_ws after -> Forall (json_text n) vs ->
  elements_of (print_array before after vs) = Some vs.
Proof.
  intros Hn Hb Ha Hvs.
  destruct (read_array n max_depth before [] after Hn Hb (Forall_nil_2 _) Ha vs [] Hvs) as (s & Hp & Hs).
  rewrite app_nil_r in Hp. unfold elements_of. rewrite Hp. cbn [eat]. rewrite Ascii.eqb_refl.
  cbn [mbind option_bind]. by rewrite Hs.
Qed.

(** *** Decoders on printed values *)

Lemma into_string_json s old : into_string (json_string s) old = Some (sanitize s).
Proof.
  unfold into_string. assert (is_null (json_string s) = false) as ->.
  { apply bool_decide_eq_false. discriminate. }
  unfold json_string. cbn [app eat]. rewrite Ascii.eqb_refl. cbn [mbind option_bind]. by rewrite read_chars.
Qed.

Lemma into_bool_json b old : into_bool (json_bool b) old = Some b.
Proof. by destruct b. Qed.

Lemma int_not_null z : is_null (dec_Z z) = false /\
  exists c l, dec_Z z = c :: l /\ is_digit c || Ascii.eqb c "-" = true.
Proof.
  assert (Hh : exists c l, dec_Z z = c :: l /\ is_digit c || Ascii.eqb c "-" = true).
  { unfold dec_Z. case_decide; [by eexists _, _|]. destruct (dec (Z.to_N z)) as [|c l] eqn:E.
    - by destruct (dec_nonempty (Z.to_N z)).
    - exists c, l. split; [done|]. apply dec_head in E. by rewrite E. }
  split; [|done]. destruct Hh as (c & l & -> & Hc). apply bool_decide_eq_false.
  intros [= -> _]. discriminate.
Qed.

Lemma into_int_json z old : - 2 ^ 63 <= z < 2 ^ 63 -> into_int (dec_Z z) old = Some z.
Proof.
  intros Hz. unfold into_int. destruct (int_not_null z) as [-> (c & l & E & Hc)].
  rewrite E at 1. rewrite Hc. by rewrite ParseInt_dec_Z.
Qed.

Lemma into_uint_json z old : 0 <= z < 2 ^ 64 -> into_uint (dec_Z z) old = Some z.
Proof.
  intros Hz. unfold into_uint. destruct (int_not_null z) as [-> (c & l & E & Hc)].
  rewrite E at 1. rewrite Hc. unfold dec_Z. rewrite decide_False by lia.
  rewrite ParseUint_dec by (unfold max_uint64; lia). f_equal. lia.
Qed.

(** *** Base64 *)

Lemma base64_val_char n : (n < 64)%nat -> base64_val (base64_char n) = Some n /\
  Ascii.eqb (base64_char n) "=" = false /\ is_ascii_byte (base64_char n) = true /\
  negb (Ascii.eqb (base64_char n) (ascii_of_nat 13) || Ascii.eqb (base64_char n) (ascii_of_nat 10)) = true.
Proof.
  intros Hn. assert (H : forallb (fun n => bool_decide (base64_val (base64_char n) = Some n) &&
    negb (Ascii.eqb (base64_char n) "=") && is_ascii_byte (base64_char n) &&
    negb (Ascii.eqb (base64_char n) (ascii_of_nat 13) || Ascii.eqb (base64_char n) (ascii_of_nat 10)))
    (seq 0 64) = true) by by vm_compute.
  rewrite forallb_forall in H. specialize (H n ltac:(apply in_seq; lia)). cbv beta in H.
  apply andb_prop in H as [[[Hv%bool_decide_eq_true He%negb_true_iff]%andb_prop Ha]%andb_prop Hl]. done.
Qed.

Lemma byte_bound c : (nat_of_ascii c < 256)%nat.
Proof. apply nat_ascii_bounded. Qed.

Lemma bytes_ind3 (P : bytes -> Prop) :
  P [] -> (forall a, P [a]) -> (forall a b, P [a; b]) -> (forall a b c s, P s -> P (a :: b :: c :: s)) ->
  forall s, P s.
Proof.
  intros H0 H1 H2 H3 s. induction s as [s IH] using (induction_ltof1 _ (@length ascii)).
  destruct s as [|a [|b [|c s]]]; [done|done|done|]. apply H3, IH. unfold ltof. cbn. lia.
Qed.

Lemma div_lt a k m : (a < m * k)%nat -> (0 < k)%nat -> (a / k < m)%nat.
Proof. intros Ha Hk. apply Nat.Div0.div_lt_upper_bound; lia. Qed.

Lemma base64_sextets a b c :
  let n := nat_of_ascii in
  ((n a / 4 < 64) /\ (n a mod 4 * 16 + n b / 16 < 64) /\ (n b mod 16 * 4 + n c / 64 < 64) /\
   (n c mod 64 < 64) /\ (n a mod 4 * 16 < 64) /\ (n b mod 16 * 4 < 64))%nat.
Proof.
  cbv zeta. pose proof (byte_bound a). pose proof (byte_bound b). pose proof (byte_bound c).
  pose proof (Nat.mod_upper_bound (nat_of_ascii a) 4). pose proof (Nat.mod_upper_bound (nat_of_ascii b) 16).
  pose proof (Nat.mod_upper_bound (nat_of_ascii c) 64).
  pose proof (div_lt (nat_of_ascii a) 4 64). pose proof (div_lt (nat_of_ascii b) 16 16).
  pose proof (div_lt (nat_of_ascii c) 64 4). lia.
Qed.

Lemma pack u v k : (v < k)%nat -> ((u * k + v) / k = u /\ (u * k + v) mod k = v)%nat.
Proof.
  intros Hv. split.
  - rewrite Nat.div_add_l by lia. rewrite Nat.div_small by done. lia.
  - rewrite Nat.add_comm, Nat.Div0.mod_add. by apply Nat.mod_small.
Qed.

Lemma unpack a k : (a / k * k + a mod k = a)%nat.
Proof. pose proof (Nat.div_mod_eq a k). lia. Qed.

(** The bits of three bytes, packed in four sextets and unpacked. *)
Lemma base64_bits a b c :
  let n := nat_of_ascii in
  (n a / 4 * 4 + (n a mod 4 * 16 + n b / 16) / 16 = n a /\
   (n a mod 4 * 16 + n b / 16) mod 16 * 16 + (n b mod 16 * 4 + n c / 64) / 4 = n b /\
   (n b mod 16 * 4 + n c / 64) mod 4 * 64 + n c mod 64 = n c /\
   n a / 4 * 4 + n a mod 4 * 16 / 16 = n a /\
   (n a mod 4 * 16 + n b / 16) mod 16 * 16 + n b mod 16 * 4 / 4 = n b)%nat.
Proof.
  cbv zeta. pose proof (byte_bound b) as Hb. pose proof (byte_bound c) as Hc.
  destruct (pack (nat_of_ascii a mod 4) (nat_of_ascii b / 16) 16) as [-> ->]; [apply div_lt; lia|].
  destruct (pack (nat_of_ascii b mod 16) (nat_of_ascii c / 64) 4) as [-> ->]; [apply div_lt; lia|].
  rewrite !Nat.div_mul by lia. by rewrite !unpack.
Qed.

Lemma base64_plain s :
  forallb is_ascii_byte (base64 s) = true /\
  List.filter (fun c => negb (Ascii.eqb c (ascii_of_nat 13) || Ascii.eqb c (ascii_of_nat 10))) (base64 s) = base64 s.
Proof.
  induction s as [|a|a b|a b c s [IH1 IH2]] using bytes_ind3; [done|..];
    [destruct (base64_sextets a a a) as (H1 & _ & _ & _ & H2 & _)
    |destruct (base64_sextets a b b) as (H1 & H2 & _ & _ & _ & H3)
    |destruct (base64_sextets a b c) as (H1 & H2 & H3 & H4 & _)];
    cbn [base64 app forallb List.filter];
    repeat match goal with
    | H : (?n < 64)%nat |- _ => destruct (base64_val_char n H) as (_ & _ & -> & ->); clear H
    end; cbn [andb]; [by split..|]. by rewrite IH1, IH2.
Qed.

Lemma unbase64_base64 s : unbase64 (base64 s) = Some s.
Proof.
  unfold unbase64. rewrite (proj2 (base64_plain s)).
  induction s as [|a|a b|a b c s IH] using bytes_ind3; [done|..];
    [destruct (base64_sextets a a a) as (H1 & _ & _ & _ & H2 & _); destruct (base64_bits a a a) as (_ & _ & _ & B1 & _)
    |destruct (base64_sextets a b b) as (H1 & H2 & _ & _ & _ & H3); destruct (base64_bits a b b) as (B1 & _ & _ & _ & B2)
    |destruct (base64_sextets a b c) as (H1 & H2 & H3 & H4 & _); destruct (base64_bits a b c) as (B1 & B2 & B3 & _)];
    cbn [base64 app unbase64_quads];
    repeat match goal with
    | H : (?n < 64)%nat |- _ => destruct (base64_val_char n H) as (-> & He & _ & _); try rewrite He; clear H He
    end; cbn [mbind option_bind]; rewrite ?Ascii.eqb_refl; cbn [andb bool_decide].
  - rewrite B1, ascii_nat_embedding. done.
  - rewrite B1, B2, !ascii_nat_embedding. done.
  - rewrite IH. cbn [mbind option_bind]. by rewrite B1, B2, B3, !ascii_nat_embedding.
Qed.

Lemma into_bytes_json s old : into_bytes (json_string (of_bytes (base64 s))) old = Some s.
Proof.
  unfold into_bytes, json_string. cbn [app eat]. rewrite Ascii.eqb_refl, to_of_bytes, read_chars.
  cbn [mbind option_bind].
  assert (Hs : sanitize_from 0 (base64 s) = base64 s).
  { apply of_bytes_inj. pose proof (valid_sanitize (of_bytes (base64 s))) as Hv. unfold sanitize in Hv.
    rewrite to_of_bytes in Hv. apply Hv, ascii_valid. unfold is_ascii. rewrite to_of_bytes. apply base64_plain. }
  rewrite Hs. apply unbase64_base64.
Qed.

(** *** Structs *)

Lemma depth_ok n : Z.of_nat n <= 10000 -> (n <= max_depth)%nat.
Proof. unfold max_depth. lia. Qed.

Lemma keys_plain ms : Forall (fun m => is_ascii (fst m) = true) ms -> sanitize_key <$> ms = ms.
Proof.
  induction 1 as [|[k v] ms Hk _ IH]; [done|]. cbn [fmap list_fmap]. change (list_fmap _ _ sanitize_key ms) with (sanitize_key <$> ms).
  rewrite IH. unfold sanitize_key. cbn [fst snd]. by rewrite valid_sanitize by by apply ascii_valid.
Qed.

Lemma object_not_null before colon after ms : is_null (print_object before colon after ms) = false.
Proof. apply bool_decide_eq_false. by destruct ms. Qed.

(** Decoding a printed object sets the fields its members name. *)
Lemma struct_print {R} (fs : fields R) n before colon after ms r :
  (n <= max_depth)%nat -> all_ws before -> all_ws colon -> all_ws after ->
  Forall (fun m => json_text n (snd m)) ms -> Forall (fun m => is_ascii (fst m) = true) ms ->
  into_struct fs (print_object before colon after ms) r = apply_members fs ms r.
Proof.
  intros Hn Hb Hc Ha Hms Hk. unfold into_struct. rewrite object_not_null, (members_print n) by done.
  cbn [mbind option_bind]. by rewrite keys_plain.
Qed.

Lemma Unmarshal_text {A} (d : decoder A) zero n v :
  (n <= max_depth)%nat -> json_text n v -> Unmarshal_into d zero v = d v zero.
Proof.
  intros Hn Hv. unfold Unmarshal_into. rewrite <-(app_nil_r v) at 1.
  change (v ++ []) with ([] ++ v ++ []).
  by rewrite (document_text n [] v [] Hn ws_nil ws_nil Hv).
Qed.

(** [json.Unmarshal] of a [json.Marshal]ed object. *)
Lemma Unmarshal_object {R} (fs : fields R) zero n ms :
  (1 <= n)%nat -> (n < max_depth)%nat ->
  Forall (fun m => json_text n (snd m)) ms -> Forall (fun m => is_ascii (fst m) = true) ms ->
  Unmarshal_into (into_struct fs) zero (json_object ms) = apply_members fs ms zero.
Proof.
  intros H1 Hn Hms Hk. rewrite (Unmarshal_text _ _ (S n)); [|done|by apply text_object; try apply ws_nil].
  apply (struct_print fs n); try apply ws_nil; [lia|done|done].
Qed.

(** *** Line breaks *)

Definition line_feed : ascii := ascii_of_nat 10.

Lemma json_ascii_no_line c : is_ascii_byte c = true -> line_feed ∉ json_ascii c.
Proof.
  intros Hc. assert (H : forallb (fun a => bool_decide (line_feed ∉ json_ascii a)) ascii_bytes = true) by by vm_compute.
  by apply (ascii_bytes_spec _ H), bool_decide_eq_true in Hc.
Qed.

Lemma rune_bytes_high c l :
  rune_width ((c :: l) ++ []) = S (length l) -> line_feed ∉ c :: l.
Proof.
  intros Hw. destruct (rune_width_local _ _ [] Hw) as (c' & l' & s' & Heq & Hl & _ & _ & Hh).
  destruct (app_inj_1 (c :: l) (c' :: l') [] s') as [Hc _]; [cbn; by rewrite Hl|done|]. rewrite Hc.
  intros Hin. rewrite Forall_forall in Hh. by specialize (Hh _ Hin).
Qed.

Lemma json_chars_no_line s : line_feed ∉ json_chars 0 s.
Proof.
  induction s as [|c s Hc IH|c s Hc Hw IH|c l s Hc Hw Hl IH] using rune_cases;
    cbn [json_chars app]; rewrite ?Hc; [by apply not_elem_of_nil|..].
  - apply not_elem_of_app. split; [by apply json_ascii_no_line|done].
  - rewrite Hw. apply not_elem_of_app. split; [|done]. by apply (bool_decide_unpack (_ ∉ _)).
  - change (c :: l ++ s) with ((c :: l) ++ s). rewrite Hw, json_chars_skip. apply not_elem_of_app. split; [|done].
    destruct (line_separator ((c :: l) ++ s)) eqn:Hs.
    + apply separator_bytes in Hs as (d & rest & -> & [-> | ->]); by apply (bool_decide_unpack (_ ∉ _)).
    + rewrite take_app_length' by (cbn; lia). by apply rune_bytes_high.
Qed.

Lemma json_string_no_line s : line_feed ∉ json_string s.
Proof.
  unfold json_string. rewrite !not_elem_of_app. split_and!; [|apply json_chars_no_line|];
    by apply (bool_decide_unpack (_ ∉ _)).
Qed.

Lemma digits_no_line l : forallb is_digit l = true -> line_feed ∉ l.
Proof.
  induction l as [|c l IH]; cbn; [by intros _ ?%elem_of_nil|]. intros [Hc Hl]%andb_prop.
  apply not_elem_of_cons. split; [by intros <-|by apply IH].
Qed.

Lemma dec_Z_no_line z : line_feed ∉ dec_Z z.
Proof.
  unfold dec_Z. case_decide; [apply not_elem_of_cons; split; [done|]|]; apply digits_no_line, dec_digits.
Qed.

(** Compact objects of one-line values are one line. *)
Lemma json_object_no_line ms :
  Forall (fun m => line_feed ∉ snd m) ms -> line_feed ∉ json_object ms.
Proof.
  assert (Hm : forall m, line_feed ∉ snd m -> line_feed ∉ print_member [] m).
  { intros m Hm. unfold print_member. rewrite not_elem_of_app, not_elem_of_cons.
    split_and!; [apply json_string_no_line|done|done]. }
  intros Hms. destruct Hms as [|m ms H1 Hms]; [by apply (bool_decide_unpack (_ ∉ _))|].
  unfold json_object, print_object. cbn [fmap list_fmap print_items app].
  rewrite not_elem_of_cons, !not_elem_of_app.
  split_and!; [done|by apply Hm| |by apply (bool_decide_unpack (_ ∉ _))].
  induction Hms as [|m2 ms H2 _ IH]; [by apply not_elem_of_nil|]. rewrite fmap_cons. cbn [more_items app].
  rewrite not_elem_of_cons, not_elem_of_app. split_and!; [done|by apply Hm|done].
Qed.

(** *** Fields *)

Lemma field_string {R} (get : R -> string) put s r :
  field into_string get put (json_string s) r = Some (put (sanitize s) r).
Proof. unfold field. by rewrite into_string_json. Qed.

Lemma field_bool {R} (get : R -> bool) put b r : field into_bool get put (json_bool b) r = Some (put b r).
Proof. unfold field. by rewrite into_bool_json. Qed.

Lemma field_int {R} (get : R -> Z) put z r :
  - 2 ^ 63 <= z < 2 ^ 63 -> field into_int get put (dec_Z z) r = Some (put z r).
Proof. intros Hz. unfold field. by rewrite into_int_json. Qed.

Lemma field_uint {R} (get : R -> Z) put z r :
  0 <= z < 2 ^ 64 -> field into_uint get put (dec_Z z) r = Some (put z r).
Proof. intros Hz. unfold field. by rewrite into_uint_json. Qed.

Lemma field_raw {R} (get : R -> bytes) put v r : field into_raw get put v r = Some (put v r).
Proof. done. Qed.

(** A field whose decoder does not look at what is there. *)
Lemma field_some {R A} (d : decoder A) (get : R -> A) put v x r :
  d v (get r) = Some x -> field d get put v r = Some (put x r).
Proof. unfold field. by intros ->. Qed.
