(* ===== verification/JsonPrefix.v ===== *)
(** * JSON values end where they end

    What the reader of Json.v makes of a text it makes of every longer text: an
    object, an array or a string is never a beginning of another value. So a
    value that was cut short is refused, wherever it was cut. *)

From S2P Require Import Prelude GoStd Json JsonStrings JsonTexts.

(** ** Strings *)

(** A text that holds a closing quote is long enough to tell runes apart. *)
Lemma rune_width_ext s q : quote_char ∈ s -> rune_width (s ++ q) = rune_width s.
Proof.
  intros Hq. assert (Hc : forall lo hi, (34 < lo)%nat -> in_range lo hi quote_char = false).
  { intros lo hi Hlo. unfold in_range. change (nat_of_ascii quote_char) with 34%nat.
    by rewrite (proj2 (Nat.leb_gt lo 34)). }
  assert (Hcont : continuation quote_char = false) by done.
  assert (Hif : forall b1 b2 : bool, (if b1 then false else if b2 then false else false) = false) by by intros [] [].
  destruct s as [|c0 [|c1 [|c2 [|c3 s]]]]; [by apply elem_of_nil in Hq|..|done];
    rewrite !elem_of_cons, elem_of_nil in Hq;
    (repeat destruct Hq as [Hq|Hq]); try destruct Hq; subst; cbn [app rune_width]; rewrite ?Hcont, ?Hc by lia;
    rewrite ?Hif, ?andb_false_r; cbn [andb]; try done; destruct q as [|d0 [|d1 q]]; rewrite ?Hif; cbn [andb];
    by repeat case_match.
Qed.

(** A string that is read holds its closing quote. *)
Lemma read_string_quote n k s t r : (length s <= n)%nat -> read_string k s = Some (t, r) -> quote_char ∈ s.
Proof.
  revert k s t r. induction n as [|n IH]; intros k [|c s] t r Hn Hr; cbn in Hn; try done; [lia|].
  assert (Hin : forall k x t' r', (length x <= length s)%nat -> prepend t' (read_string k x) = Some r' ->
    (forall y, y ∈ x -> y ∈ s) -> quote_char ∈ c :: s).
  { intros k' x t' [t2 r2] Hx Hp Hsub. destruct (read_string k' x) as [[t3 r3]|] eqn:E; [|done].
    right. apply Hsub. eapply (IH k' x); [lia|exact E]. }
  destruct k as [|k]; cbn [read_string] in Hr; [|by eapply Hin in Hr].
  destruct (Ascii.eqb c quote_char) eqn:Eq; bools; [subst; left|].
  destruct (Ascii.eqb c backslash) eqn:Eb; [|repeat case_match; try done; by eapply Hin in Hr].
  destruct s as [|e s2]; [done|]. destruct (Ascii.eqb e "u") eqn:Eu.
  - destruct s2 as [|h1 [|h2 [|h3 [|h4 s3]]]]; try done. destruct (hex4 h1 h2 h3 h4); [|done].
    destruct (negb _); [eapply Hin in Hr; [done|cbn; lia|intros y Hy; repeat first [exact Hy|right]]|].
    destruct s3 as [|b [|u [|g1 [|g2 [|g3 [|g4 s4]]]]]];
      try (eapply Hin in Hr; [done|cbn; lia|intros y Hy; repeat first [exact Hy|right]]).
    destruct (if _ && _ then _ else None); (eapply Hin in Hr; [done|cbn; lia|intros y Hy; repeat first [exact Hy|right]]).
  - destruct (simple_escape e); [|done]. eapply Hin in Hr; [done|cbn; lia|intros y Hy; repeat first [exact Hy|right]].
Qed.

(** The second half of a surrogate pair is not looked for past the quote. *)
Lemma read_string_ext n k s q t r :
  (length s <= n)%nat -> read_string k s = Some (t, r) -> read_string k (s ++ q) = Some (t, r ++ q).
Proof.
  revert k s t r. induction n as [|n IH]; intros k [|c s] t r Hn Hr; cbn in Hn; try done; [lia|].
  assert (Hp : forall k x l, (length x <= length s)%nat -> prepend l (read_string k x) = Some (t, r) ->
    prepend l (read_string k (x ++ q)) = Some (t, r ++ q)).
  { intros k' x l Hx Hp. destruct (read_string k' x) as [[t1 r1]|] eqn:E; [|done].
    rewrite (IH k' x t1 r1) by (done || lia). cbn in *. by simplify_eq. }
  pose proof (read_string_quote _ _ _ _ _ (le_n _) Hr) as Hquote.
  cbn [app]. destruct k as [|k]; cbn [read_string] in Hr |- *; [|by apply Hp].
  destruct (Ascii.eqb c quote_char) eqn:Eq; [by simplify_eq|].
  destruct (Ascii.eqb c backslash) eqn:Eb.
  2:{ destruct (_ <? 32)%nat; [done|]. destruct (is_ascii_byte c); [by apply Hp|].
      rewrite (app_comm_cons s q c), rune_width_ext by done. destruct (rune_width (c :: s)); by apply Hp. }
  destruct s as [|e s2]; [done|]. cbn [app]. destruct (Ascii.eqb e "u") eqn:Eu.
  2:{ destruct (simple_escape e); [|done]. apply Hp; [cbn; lia|done]. }
  destruct s2 as [|h1 [|h2 [|h3 [|h4 s3]]]]; try done. cbn [app]. destruct (hex4 h1 h2 h3 h4) as [v|]; [|done].
  destruct (negb _); [apply Hp; [cbn; lia|done]|].
  destruct s3 as [|b [|u s4]]; [done|..].
  - (* only the closing quote can follow *)
    assert (Hb : Ascii.eqb b backslash = false).
    { destruct (Ascii.eqb b backslash) eqn:E; [|done]. cbn [read_string] in Hr. bools. subst b. done. }
    apply (Hp 0%nat [b]) in Hr; [|cbn; lia]. cbn [app] in Hr |- *.
    by destruct q as [|u [|g1 [|g2 [|g3 [|g4 q]]]]]; rewrite ?Hb.
  - destruct (Ascii.eqb b backslash && Ascii.eqb u "u") eqn:Ebu.
    + destruct s4 as [|g1 [|g2 [|g3 [|g4 s5]]]];
        [bools; subst; cbn in Hr; discriminate Hr..|]. cbn [app]. rewrite Ebu.
      destruct (hex4 g1 g2 g3 g4 ≫= decode_pair v) as [r2|]; [by apply Hp in Hr; [|cbn; lia]|].
      by apply (Hp 0%nat (b :: u :: g1 :: g2 :: g3 :: g4 :: s5)) in Hr; [|cbn; lia].
    + assert (Hr' : prepend replacement (read_string 0 (b :: u :: s4)) = Some (t, r)).
      { by destruct s4 as [|g1 [|g2 [|g3 [|g4 s5]]]]. }
      apply (Hp 0%nat (b :: u :: s4)) in Hr'; [|cbn; lia]. cbn [app] in Hr' |- *.
      by destruct (s4 ++ q) as [|g1 [|g2 [|g3 [|g4 s5]]]]; rewrite ?Ebu.
Qed.

(** ** Tokens *)

Lemma eat_ext c s r q : eat c s = Some r -> eat c (s ++ q) = Some (r ++ q).
Proof. destruct s as [|x s]; [done|]. cbn. destruct (Ascii.eqb x c); [|done]. by intros [= ->]. Qed.

Lemma eat_none c s q : s <> [] -> eat c s = None -> eat c (s ++ q) = None.
Proof. destruct s as [|x s]; [done|]. cbn. by destruct (Ascii.eqb x c). Qed.

Lemma eat_nonempty c s r : eat c s = Some r -> s <> [].
Proof. by destruct s. Qed.

Lemma eat_all_ext l s r q : eat_all l s = Some r -> eat_all l (s ++ q) = Some (r ++ q).
Proof.
  revert s. induction l as [|c l IH]; intros s Hs; cbn in *; [by simplify_eq|].
  destruct (eat c s) as [s1|] eqn:E; [|done]. rewrite (eat_ext _ _ _ q E). cbn in *. by apply IH.
Qed.

Lemma skip_ws_ext s q : skip_ws s <> [] -> skip_ws (s ++ q) = skip_ws s ++ q.
Proof. induction s as [|c s IH]; [done|]. cbn. destruct (is_ws c); [apply IH|done]. Qed.

Lemma skip_ws_nonempty s : skip_ws s <> [] -> s <> [].
Proof. by destruct s. Qed.

Lemma skip_digits_ext s q : skip_digits s <> [] -> skip_digits (s ++ q) = skip_digits s ++ q.
Proof. induction s as [|c s IH]; [done|]. cbn. destruct (is_digit c); [apply IH|done]. Qed.

Lemma some_digits_ext s r q : some_digits s = Some r -> r <> [] -> some_digits (s ++ q) = Some (r ++ q).
Proof.
  destruct s as [|c s]; [done|]. cbn. destruct (is_digit c); [|done]. intros [= <-] Hr. by rewrite skip_digits_ext.
Qed.

Lemma skip_exponent_ext s r q : skip_exponent s = Some r -> r <> [] -> skip_exponent (s ++ q) = Some (r ++ q).
Proof.
  destruct s as [|c s]; cbn; [by intros [= <-]|]. destruct (_ || _); [|by intros [= <-]].
  destruct s as [|d s]; [done|]. cbn [app]. destruct (_ || _); intros Hs Hr.
  - by apply some_digits_ext.
  - rewrite app_comm_cons. by apply some_digits_ext.
Qed.

Lemma skip_fraction_ext s r q : skip_fraction s = Some r -> r <> [] -> skip_fraction (s ++ q) = Some (r ++ q).
Proof.
  destruct s as [|c s]; [by intros [= <-]|]. cbn [app skip_fraction]. destruct (Ascii.eqb c "."); intros Hs Hr.
  - destruct (some_digits s) as [s1|] eqn:E; [|done]. cbn in Hs. assert (Hne : s1 <> []).
    { intros ->. cbn in Hs. by simplify_eq. }
    rewrite (some_digits_ext _ _ q E Hne). cbn. by apply skip_exponent_ext.
  - by apply (skip_exponent_ext (c :: s)).
Qed.

Lemma skip_number_ext s r q : skip_number s = Some r -> r <> [] -> skip_number (s ++ q) = Some (r ++ q).
Proof.
  assert (H : forall s, match s with
      | c :: s' => if Ascii.eqb c "0" then skip_fraction s'
                   else if is_digit c then skip_fraction (skip_digits s') else None
      | [] => None end = Some r -> r <> [] ->
    match s ++ q with
      | c :: s' => if Ascii.eqb c "0" then skip_fraction s'
                   else if is_digit c then skip_fraction (skip_digits s') else None
      | [] => None end = Some (r ++ q)).
  { intros [|c t] Ht Hr; [done|]. cbn. destruct (Ascii.eqb c "0"); [by apply skip_fraction_ext|].
    destruct (is_digit c); [|done]. rewrite skip_digits_ext; [by apply skip_fraction_ext|].
    intros E. rewrite E in Ht. cbn in Ht. by simplify_eq. }
  unfold skip_number. destruct s as [|c s]; [by intros [=]|]. cbn [app].
  destruct (Ascii.eqb c "-"); [apply H|apply (H (c :: s))].
Qed.

(** ** Values *)

(** Reading past a value goes on in a longer text as in the shorter one, unless
    the value is one that more characters could continue. *)
Definition extends (skip : bytes -> option bytes) : Prop :=
  forall s r q, skip s = Some r -> r <> [] -> skip (s ++ q) = Some (r ++ q).

Section Composite.
Context (skip : bytes -> option bytes) (Hskip : extends skip) (Hnil : skip [] = None).

Lemma skip_nonempty s r : skip (skip_ws s) = Some r -> skip_ws s <> [].
Proof. intros H E. by rewrite E, Hnil in H. Qed.

Lemma read_members_ext fuel s q ms r :
  read_members skip fuel s = Some (ms, r) ->
  forall fuel', (fuel <= fuel')%nat -> exists ms', read_members skip fuel' (s ++ q) = Some (ms', r ++ q).
Proof.
  revert s ms r. induction fuel as [|fuel IH]; intros s ms r Hr [|fuel'] Hf; try done; [lia|].
  cbn [read_members] in *. destruct (eat quote_char s) as [s1|] eqn:E1; [|done]. rewrite (eat_ext _ _ _ q E1).
  cbn [mbind option_bind] in *. destruct (read_string 0 s1) as [[k s2]|] eqn:E2; [|done].
  rewrite (read_string_ext _ _ _ q _ _ (le_n _) E2). cbn [mbind option_bind] in *.
  destruct (eat ":" (skip_ws s2)) as [s3|] eqn:E3; [|done].
  rewrite skip_ws_ext, (eat_ext _ _ _ q E3) by by eapply eat_nonempty. cbn [mbind option_bind] in *.
  destruct (skip (skip_ws s3)) as [s4|] eqn:E4; [|done]. cbn [mbind option_bind] in *.
  assert (H4 : skip_ws s4 <> []) by (intros E; by rewrite E in Hr).
  pose proof (skip_ws_nonempty _ H4) as H4'. rewrite (skip_ws_ext s3) by by eapply skip_nonempty.
  rewrite (Hskip _ _ q E4 H4'). cbn [mbind option_bind]. rewrite (skip_ws_ext s4) by done.
  destruct (eat "," (skip_ws s4)) as [s5|] eqn:E5.
  - rewrite (eat_ext _ _ _ q E5).
    destruct (read_members skip fuel (skip_ws s5)) as [[ms1 r1]|] eqn:E6; [|done].
    assert (H5 : skip_ws s5 <> []) by (intros E; rewrite E in E6; by destruct fuel).
    rewrite skip_ws_ext by done. cbn in Hr. simplify_eq.
    destruct (IH _ _ _ E6 fuel' ltac:(lia)) as [ms' ->]. by eexists.
  - rewrite eat_none by done. destruct (eat "}" (skip_ws s4)) as [s6|] eqn:E6; [|done].
    rewrite (eat_ext _ _ _ q E6). cbn in *. simplify_eq. by eexists.
Qed.

Lemma read_elements_ext fuel s q vs r :
  read_elements skip fuel s = Some (vs, r) ->
  forall fuel', (fuel <= fuel')%nat -> exists vs', read_elements skip fuel' (s ++ q) = Some (vs', r ++ q).
Proof.
  revert s vs r. induction fuel as [|fuel IH]; intros s vs r Hr [|fuel'] Hf; try done; [lia|].
  cbn [read_elements] in *. destruct (skip s) as [s4|] eqn:E4; [|done]. cbn [mbind option_bind] in *.
  assert (H4 : skip_ws s4 <> []) by (intros E; by rewrite E in Hr).
  pose proof (skip_ws_nonempty _ H4) as H4'. rewrite (Hskip _ _ q E4 H4'). cbn [mbind option_bind]. rewrite (skip_ws_ext s4) by done.
  destruct (eat "," (skip_ws s4)) as [s5|] eqn:E5.
  - rewrite (eat_ext _ _ _ q E5).
    destruct (read_elements skip fuel (skip_ws s5)) as [[vs1 r1]|] eqn:E6; [|done].
    assert (H5 : skip_ws s5 <> []).
    { intros E. rewrite E in E6. destruct fuel; [done|]. cbn in E6. by rewrite Hnil in E6. }
    rewrite skip_ws_ext by done. cbn in Hr. simplify_eq.
    destruct (IH _ _ _ E6 fuel' ltac:(lia)) as [vs' ->]. by eexists.
  - rewrite eat_none by done. destruct (eat "]" (skip_ws s4)) as [s6|] eqn:E6; [|done].
    rewrite (eat_ext _ _ _ q E6). cbn in *. simplify_eq. by eexists.
Qed.

Lemma object_members_ext s q ms r :
  object_members skip s = Some (ms, r) -> exists ms', object_members skip (s ++ q) = Some (ms', r ++ q).
Proof.
  unfold object_members. destruct (eat "}" s) as [s1|] eqn:E.
  - rewrite (eat_ext _ _ _ q E). intros [= <- <-]. by eexists.
  - intros H. rewrite eat_none; [|by destruct s|done].
    eapply read_members_ext; [done|]. rewrite length_app. lia.
Qed.

Lemma array_elements_ext s q vs r :
  array_elements skip s = Some (vs, r) -> exists vs', array_elements skip (s ++ q) = Some (vs', r ++ q).
Proof.
  unfold array_elements. destruct (eat "]" s) as [s1|] eqn:E.
  - rewrite (eat_ext _ _ _ q E). intros [= <- <-]. by eexists.
  - intros H. rewrite eat_none; [|by destruct s|done].
    eapply read_elements_ext; [done|]. rewrite length_app. lia.
Qed.

End Composite.

(** The values that need nothing after them. *)
Definition delimited (s : bytes) : Prop :=
  match s with c :: _ => c = quote_char \/ c = "{"%char \/ c = "["%char | [] => False end.

Lemma skip_value_ext d s r q :
  skip_value d s = Some r -> r <> [] \/ delimited s -> skip_value d (s ++ q) = Some (r ++ q).
Proof.
  revert s r q. induction d as [|d IH]; intros s r q Hs Hr; [done|]. destruct s as [|c s]; [done|].
  assert (Hsk : extends (skip_value d)) by (intros s' r' q' H1 H2; apply IH; auto).
  assert (Hnil : skip_value d [] = None) by by destruct d.
  cbn [app skip_value] in *. destruct (Ascii.eqb c quote_char) eqn:E1.
  { destruct (read_string 0 s) as [[t r1]|] eqn:E; [|done]. rewrite (read_string_ext _ _ _ q _ _ (le_n _) E).
    cbn in *. by simplify_eq. }
  destruct (Ascii.eqb c "{") eqn:E2.
  { destruct (d =? 0)%nat; [done|]. destruct (object_members (skip_value d) (skip_ws s)) as [[ms r1]|] eqn:E; [|done].
    rewrite skip_ws_ext by (intros Hw; by rewrite Hw in E).
    destruct (object_members_ext _ Hsk Hnil _ q _ _ E) as [ms' ->]. cbn in *. by simplify_eq. }
  destruct (Ascii.eqb c "[") eqn:E3.
  { destruct (d =? 0)%nat; [done|]. destruct (array_elements (skip_value d) (skip_ws s)) as [[vs r1]|] eqn:E; [|done].
    rewrite skip_ws_ext.
    - destruct (array_elements_ext _ Hsk Hnil _ q _ _ E) as [vs' ->]. cbn in *. by simplify_eq.
    - intros Hw. rewrite Hw in E. cbn in E. destruct d; [done|]. done. }
  destruct Hr as [Hr|Hr]; [|exfalso; bools; cbn in Hr; naive_solver].
  destruct (Ascii.eqb c "t"); [by apply eat_all_ext|]. destruct (Ascii.eqb c "f"); [by apply eat_all_ext|].
  destruct (Ascii.eqb c "n"); [by apply eat_all_ext|]. by apply (skip_number_ext (c :: s)).
Qed.

(** A delimited value that was cut short is not a value. *)
Lemma cut_value n d v k :
  json_text n v -> delimited v -> (n <= d)%nat -> (k < length v)%nat -> skip_value d (take k v) = None.
Proof.
  intros (_ & _ & Hv) Hd Hn Hk. destruct (skip_value d (take k v)) as [r|] eqn:E; [exfalso|done].
  assert (Hdel : delimited (take k v)).
  { destruct k as [|k]; [by destruct d|]. by destruct v. }
  pose proof (skip_value_ext _ _ _ (drop k v) E (or_intror Hdel)) as He. rewrite take_drop in He.
  specialize (Hv d [] Hn I). rewrite app_nil_r, He in Hv. injection Hv as Hv.
  apply app_nil in Hv as [_ Hv]. apply (f_equal length) in Hv. rewrite length_drop in Hv. cbn in Hv. lia.
Qed.
