(* ===== verification/Clock.v ===== *)
(** * Times on the wire and on disk (Go's time.Time in encoding/json)

    A [time.Time] as an instant with the zone it is shown in, its calendar date,
    and the RFC 3339 text that [json.Marshal] writes and [json.Unmarshal] reads.
    Instants are nanoseconds since the first of January of the year 1, so that
    0 is Go's zero time. *)

From S2P Require Import Prelude GoStd Json JsonStrings JsonTexts.

(** ** Times *)

(** [offset] is the zone's, in seconds east of UTC. *)
Record Time := { instant : Z; offset : Z }.

(** The zone of the process: its offset at every instant. *)
Class LocalZone := zone_at : Z -> Z.

Definition in_local `{LocalZone} (t : Z) : Time := {| instant := t; offset := zone_at t |}.

Definition nanos : Z := 1000000000.

(** ** The calendar *)

Definition leap (y : Z) : bool := (y mod 4 =? 0) && (negb (y mod 100 =? 0) || (y mod 400 =? 0)).

Definition month_lengths (y : Z) : list Z :=
  [31; if leap y then 29 else 28; 31; 30; 31; 30; 31; 31; 30; 31; 30; 31].

Definition daysIn (m y : Z) : Z := default 0 (month_lengths y !! Z.to_nat (m - 1)).

Fixpoint sum (l : list Z) : Z := match l with [] => 0 | x :: l => x + sum l end.

(** The days before a year, from the year 1. *)
Definition days_before (y : Z) : Z := 365 * (y - 1) + (y - 1) / 4 - (y - 1) / 100 + (y - 1) / 400.

Definition day_number (y m d : Z) : Z := days_before y + sum (take (Z.to_nat (m - 1)) (month_lengths y)) + d - 1.

(** The month and day of the [n]-th day of a year whose months have these
    lengths. *)
Fixpoint month_day (lens : list Z) (m n : Z) : Z * Z :=
  match lens with
  | l :: lens => if n <? l then (m, n + 1) else month_day lens (m + 1) (n - l)
  | [] => (m, n + 1)
  end.

(** By cycles of 400, 100, 4 and 1 years. *)
Definition year_day (days : Z) : Z * Z :=
  let n400 := days / 146097 in
  let r := days mod 146097 in
  let n100 := Z.min 3 (r / 36524) in
  let r := r - 36524 * n100 in
  let n4 := r / 1461 in
  let r := r mod 1461 in
  let n1 := Z.min 3 (r / 365) in
  (400 * n400 + 100 * n100 + 4 * n4 + n1 + 1, r - 365 * n1).

Definition date (days : Z) : Z * Z * Z :=
  let '(y, n) := year_day days in let '(m, d) := month_day (month_lengths y) 1 n in (y, m, d).

(** ** Printing *)

(** A number with leading zeros. *)
Fixpoint pad (w : nat) (n : N) : bytes :=
  match w with O => [] | S w => pad w (n / 10) ++ [digit n] end.

Fixpoint drop_zeros (s : bytes) : bytes :=
  match s with c :: s' => if Ascii.eqb c "0" then drop_zeros s' else s | [] => [] end.

(** Fractions of a second without their trailing zeros. *)
Definition fraction (ns : Z) : bytes :=
  match rev (drop_zeros (rev (pad 9 (Z.to_N ns)))) with [] => [] | ds => "."%char :: ds end.

Definition zone_text (off : Z) : bytes :=
  if off =? 0 then ["Z"%char]
  else
    let minutes := Z.quot off 60 in
    (if minutes <? 0 then "-"%char else "+"%char) ::
    pad 2 (Z.to_N (Z.abs minutes / 60)) ++ ":"%char :: pad 2 (Z.to_N (Z.abs minutes mod 60)).

Definition date_text (y m d : Z) : bytes :=
  pad 4 (Z.to_N y) ++ "-"%char :: pad 2 (Z.to_N m) ++ "-"%char :: pad 2 (Z.to_N d).

Definition clock_text (s : Z) : bytes :=
  pad 2 (Z.to_N (s / 3600)) ++ ":"%char :: pad 2 (Z.to_N (s / 60 mod 60)) ++ ":"%char :: pad 2 (Z.to_N (s mod 60)).

(** The wall clock of a time, in nanoseconds. *)
Definition wall (t : Time) : Z := instant t + offset t * nanos.

(** [MarshalJSON]: years and zone hours that RFC 3339 cannot write are errors. *)
Definition MarshalTime (t : Time) : option bytes :=
  let sec := wall t / nanos in
  let '(y, m, d) := date (sec / 86400) in
  if (y <? 0) || (9999 <? y) then None
  else if 24 <=? Z.abs (Z.quot (offset t) 60) / 60 then None
  else Some (quote_char :: date_text y m d ++ "T"%char :: clock_text (sec mod 86400) ++
             fraction (wall t mod nanos) ++ zone_text (offset t) ++ [quote_char]).

(** ** Parsing *)

(** A field of [w] digits between these bounds. *)
Definition number (w : nat) (lo hi : Z) (s : bytes) : option (Z * bytes) :=
  let f := take w s in
  let v := Z.of_N (undec f) in
  if (w <=? length s)%nat && forallb is_digit f && (lo <=? v) && (v <=? hi)
  then Some (v, drop w s) else None.

Fixpoint span_digits (s : bytes) : bytes * bytes :=
  match s with
  | c :: s' => if is_digit c then let '(ds, r) := span_digits s' in (c :: ds, r) else ([], s)
  | [] => ([], [])
  end.

(** Digits beyond the ninth are dropped. *)
Definition parse_fraction (s : bytes) : Z * bytes :=
  match s with
  | c :: s' =>
      if Ascii.eqb c "." then
        match span_digits s' with
        | ([], _) => (0, s)
        | (ds, r) => let ds := take 9 ds in (Z.of_N (undec ds) * 10 ^ (9 - Z.of_nat (length ds)), r)
        end
      else (0, s)
  | [] => (0, [])
  end.

Definition parse_zone (s : bytes) : option Z :=
  match s with
  | ["Z"%char] => Some 0
  | c :: s' =>
      if Ascii.eqb c "+" || Ascii.eqb c "-" then
        '(hr, s') ← number 2 0 23 s';
        s' ← eat ":" s';
        '(mm, s') ← number 2 0 59 s';
        match s' with
        | [] => let off := (hr * 60 + mm) * 60 in Some (if Ascii.eqb c "-" then - off else off)
        | _ => None
        end
      else None
  | [] => None
  end.

(** [parseStrictRFC3339]. *)
Definition parse_rfc3339 (s : bytes) : option Time :=
  '(y, s) ← number 4 0 9999 s; s ← eat "-" s;
  '(m, s) ← number 2 1 12 s; s ← eat "-" s;
  '(d, s) ← number 2 1 (daysIn m y) s; s ← eat "T" s;
  '(h, s) ← number 2 0 23 s; s ← eat ":" s;
  '(mi, s) ← number 2 0 59 s; s ← eat ":" s;
  '(sec, s) ← number 2 0 59 s;
  let '(ns, s) := parse_fraction s in
  off ← parse_zone s;
  Some {| instant := (day_number y m d * 86400 + h * 3600 + mi * 60 + sec - off) * nanos + ns; offset := off |}.

(** [UnmarshalJSON]: the text between the quotes, as it stands. *)
Definition into_time : decoder Time := fun v old =>
  if is_null v then Some old
  else
    s ← eat quote_char v;
    match rev s with
    | c :: r => if Ascii.eqb c quote_char then parse_rfc3339 (rev r) else None
    | [] => None
    end.

(** ** Specification *)

(** The times RFC 3339 can write. *)
Definition valid_time (t : Time) : Prop :=
  days_before 0 * 86400 * nanos <= wall t < days_before 10000 * 86400 * nanos /\
  offset t mod 60 = 0 /\ Z.abs (offset t) < 86400.

(** Zones of this process that have whole minutes, as all of today have. *)
Definition zone_ok `{LocalZone} (t : Z) : Prop := valid_time (in_local t).

(** ** Lemmas *)

(** *** The calendar *)

Lemma days_before_cycles a b c e :
  0 <= b <= 3 -> 0 <= c <= 24 -> 0 <= e <= 3 ->
  days_before (400 * a + 100 * b + 4 * c + e + 1) = 146097 * a + 36524 * b + 1461 * c + 365 * e.
Proof.
  intros Hb Hc He. unfold days_before. replace (400 * a + 100 * b + 4 * c + e + 1 - 1) with (400 * a + 100 * b + 4 * c + e) by lia.
  assert ((400 * a + 100 * b + 4 * c + e) / 4 = 100 * a + 25 * b + c) as -> by (symmetry; apply (Z.div_unique _ _ _ e); lia).
  assert ((400 * a + 100 * b + 4 * c + e) / 100 = 4 * a + b) as -> by (symmetry; apply (Z.div_unique _ _ _ (4 * c + e)); lia).
  assert ((400 * a + 100 * b + 4 * c + e) / 400 = a) as -> by (symmetry; apply (Z.div_unique _ _ _ (100 * b + 4 * c + e)); lia).
  lia.
Qed.

(** A year of a cycle: its length tells whether it is a leap year. *)
Lemma leap_cycles a b c e :
  0 <= b <= 3 -> 0 <= c <= 24 -> 0 <= e <= 3 ->
  leap (400 * a + 100 * b + 4 * c + e + 1) = (e =? 3) && (negb (c =? 24) || (b =? 3)).
Proof.
  intros Hb Hc He. unfold leap.
  assert (H : forall k r q, 0 < k -> 0 <= r < k -> 400 * a + 100 * b + 4 * c + e + 1 = k * q + r ->
    (400 * a + 100 * b + 4 * c + e + 1) mod k = r).
  { intros k r q Hk Hr ->. symmetry. by apply (Z.mod_unique _ _ q); [left|]. }
  destruct (decide (e = 3)) as [->|Hne].
  - rewrite (H 4 0 (100 * a + 25 * b + c + 1)) by lia. cbn [Z.eqb andb].
    destruct (decide (c = 24)) as [->|Hnc].
    + rewrite (H 100 0 (4 * a + b + 1)) by lia. cbn [Z.eqb negb orb].
      destruct (decide (b = 3)) as [->|Hnb]; [by rewrite (H 400 0 (a + 1)) by lia|].
      rewrite (H 400 (100 * (b + 1)) a) by lia.
      by rewrite (proj2 (Z.eqb_neq (100 * (b + 1)) 0)), (proj2 (Z.eqb_neq b 3)) by lia.
    + rewrite (H 100 (4 * c + 4) (4 * a + b)) by lia.
      by rewrite (proj2 (Z.eqb_neq (4 * c + 4) 0)), (proj2 (Z.eqb_neq c 24)) by lia.
  - rewrite (H 4 (e + 1) (100 * a + 25 * b + c)) by lia. rewrite (proj2 (Z.eqb_neq e 3)) by done.
    by rewrite (proj2 (Z.eqb_neq (e + 1) 0)) by lia.
Qed.

Lemma clip k r : 0 < k -> 0 <= r <= 4 * k ->
  0 <= Z.min 3 (r / k) <= 3 /\
  0 <= r - k * Z.min 3 (r / k) < k + (if Z.min 3 (r / k) =? 3 then 1 else 0).
Proof.
  intros Hk Hr. pose proof (Z.div_mod r k ltac:(lia)). pose proof (Z.mod_pos_bound r k Hk).
  pose proof (Z.div_pos r k ltac:(lia) Hk). assert (r / k <= 4) by (apply Z.div_le_upper_bound; lia).
  split; [lia|]. destruct (Z.min 3 (r / k) =? 3) eqn:E; bools; [|replace (Z.min 3 (r / k)) with (r / k) by lia; lia].
  rewrite E. assert (r / k = 3 \/ r / k = 4) as [Hq|Hq] by lia; rewrite Hq in *; lia.
Qed.

Lemma year_day_spec days y n :
  year_day days = (y, n) -> days_before y + n = days /\ 0 <= n < 365 + (if leap y then 1 else 0).
Proof.
  unfold year_day. intros [= <- <-].
  pose proof (Z.div_mod days 146097 ltac:(lia)) as Ha. pose proof (Z.mod_pos_bound days 146097 ltac:(lia)) as Hr.
  set (a := days / 146097) in *. set (r := days mod 146097) in *. clearbody a r.
  destruct (clip 36524 r ltac:(lia) ltac:(lia)) as [Hb Hr1]. set (b := Z.min 3 (r / 36524)) in *. clearbody b.
  set (r1 := r - 36524 * b) in *.
  pose proof (Z.div_mod r1 1461 ltac:(lia)) as Hc. pose proof (Z.mod_pos_bound r1 1461 ltac:(lia)) as Hr2.
  set (c := r1 / 1461) in *. set (r2 := r1 mod 1461) in *. clearbody c r2.
  destruct (clip 365 r2 ltac:(lia) ltac:(lia)) as [He Hr3]. set (e := Z.min 3 (r2 / 365)) in *. clearbody e.
  assert (Hc24 : 0 <= c <= 24) by (destruct (b =? 3); lia).
  rewrite days_before_cycles, leap_cycles by lia. split; [lia|].
  destruct (e =? 3) eqn:E3; [|cbn [andb]; lia]. destruct (c =? 24) eqn:E24; [|cbn [andb negb orb]; lia].
  destruct (b =? 3) eqn:Eb; cbn [andb negb orb]; lia.
Qed.

Lemma month_day_spec lens m n :
  Forall (fun l => 0 < l) lens -> 0 <= n < sum lens ->
  let '(m', d) := month_day lens m n in
  exists i, m' = m + Z.of_nat i /\ (i < length lens)%nat /\
    sum (take i lens) + d - 1 = n /\ 1 <= d <= default 0 (lens !! i).
Proof.
  intros Hl. revert m n. induction Hl as [|l lens Hl _ IH]; intros m n Hn; cbn [sum month_day] in *; [lia|].
  destruct (n <? l) eqn:E; bools.
  - exists 0%nat. cbn. lia.
  - specialize (IH (m + 1) (n - l) ltac:(lia)). destruct (month_day lens (m + 1) (n - l)) as [m' d].
    destruct IH as (i & -> & Hi & Hs & Hd). exists (S i). cbn [take sum length lookup list_lookup].
    split_and!; [lia|lia|lia|apply Hd|apply Hd].
Qed.

Lemma month_lengths_sum y : sum (month_lengths y) = 365 + (if leap y then 1 else 0) /\
  Forall (fun l => 0 < l) (month_lengths y).
Proof. unfold month_lengths. destruct (leap y); (split; [done|]); by repeat constructor. Qed.

(** Every day has one date, and the date gives the day back. *)
Lemma date_spec days y m d :
  date days = (y, m, d) -> day_number y m d = days /\ 1 <= m <= 12 /\ 1 <= d <= daysIn m y.
Proof.
  unfold date. destruct (year_day days) as [y' n] eqn:Hy. apply year_day_spec in Hy as [Hd Hn].
  destruct (month_lengths_sum y') as [Hs Hp]. pose proof (month_day_spec (month_lengths y') 1 n Hp ltac:(lia)) as Hm.
  destruct (month_day (month_lengths y') 1 n) as [m' d']. intros [= <- <- <-].
  destruct Hm as (i & -> & Hi & Hsum & Hd1). change (length (month_lengths y')) with 12%nat in Hi.
  unfold day_number, daysIn. replace (Z.to_nat (1 + Z.of_nat i - 1)) with i by lia. lia.
Qed.

Lemma days_before_mono y y' : y <= y' -> days_before y <= days_before y'.
Proof.
  intros Hy. unfold days_before.
  assert (H : forall x x', x <= x' -> 365 * x + x / 4 - x / 100 <= 365 * x' + x' / 4 - x' / 100).
  { intros x x' Hx. pose proof (Z.div_mod x 100 ltac:(lia)). pose proof (Z.mod_pos_bound x 100 ltac:(lia)).
    pose proof (Z.div_mod x' 100 ltac:(lia)). pose proof (Z.mod_pos_bound x' 100 ltac:(lia)).
    pose proof (Z.div_le_mono x x' 4 ltac:(lia) Hx). lia. }
  specialize (H (y - 1) (y' - 1) ltac:(lia)). pose proof (Z.div_le_mono (y - 1) (y' - 1) 400 ltac:(lia) ltac:(lia)). lia.
Qed.

Lemma div_next y k : 0 < k -> y / k = (y - 1) / k + (if y mod k =? 0 then 1 else 0).
Proof.
  intros Hk. pose proof (Z.div_mod y k ltac:(lia)) as H. pose proof (Z.mod_pos_bound y k Hk) as Hb.
  destruct (y mod k =? 0) eqn:E; bools.
  - assert ((y - 1) / k = y / k - 1) as -> by (symmetry; apply (Z.div_unique _ _ _ (k - 1)); lia). lia.
  - assert ((y - 1) / k = y / k) as -> by (symmetry; apply (Z.div_unique _ _ _ (y mod k - 1)); lia). lia.
Qed.

Lemma year_length y : days_before (y + 1) = days_before y + 365 + (if leap y then 1 else 0).
Proof.
  unfold days_before, leap. replace (y + 1 - 1) with y by lia.
  rewrite (div_next y 4), (div_next y 100), (div_next y 400) by lia.
  destruct (y mod 4 =? 0) eqn:E4, (y mod 100 =? 0) eqn:E100, (y mod 400 =? 0) eqn:E400; cbn [andb orb negb];
    bools; try lia; exfalso; Z.div_mod_to_equations; lia.
Qed.

Lemma date_year days y m d :
  date days = (y, m, d) -> days_before 0 <= days < days_before 10000 -> 0 <= y <= 9999.
Proof.
  unfold date. destruct (year_day days) as [y' n] eqn:Hy. destruct (month_day _ _ _). intros [= <- <- <-] Hd.
  apply year_day_spec in Hy as [Hy Hn]. pose proof (year_length y') as Hlen. split; apply Z.nlt_ge; intros Hlt.
  - pose proof (days_before_mono (y' + 1) 0 ltac:(lia)). lia.
  - pose proof (days_before_mono 10000 y' ltac:(lia)). lia.
Qed.

(** *** Numbers of fixed width *)

Lemma pad_length w n : length (pad w n) = w.
Proof. revert n. induction w as [|w IH]; intros n; [done|]. cbn. rewrite length_app, IH. cbn. lia. Qed.

Lemma pad_digits w n : forallb is_digit (pad w n) = true.
Proof.
  revert n. induction w as [|w IH]; intros n; [done|]. cbn [pad]. rewrite forallb_app, IH. cbn. by rewrite is_digit_digit.
Qed.

Lemma undec_pad w n : (n < 10 ^ N.of_nat w)%N -> undec (pad w n) = n.
Proof.
  revert n. induction w as [|w IH]; intros n Hn; [cbn in *; lia|]. cbn [pad].
  rewrite undec_app, digit_val_digit, IH.
  - pose proof (N.div_mod n 10 ltac:(lia)). lia.
  - apply N.Div0.div_lt_upper_bound. rewrite Nat2N.inj_succ, N.pow_succ_r' in Hn. lia.
Qed.

Lemma number_pad w lo hi v s :
  0 <= v < 10 ^ Z.of_nat w -> lo <= v <= hi -> number w lo hi (pad w (Z.to_N v) ++ s) = Some (v, s).
Proof.
  intros Hw Hv. pose proof (pad_length w (Z.to_N v)) as Hl. unfold number.
  rewrite (take_app_le (pad w (Z.to_N v)) s w), (drop_app_ge (pad w (Z.to_N v)) s w), take_ge by lia.
  rewrite Hl, Nat.sub_diag, drop_0, length_app, Hl, pad_digits.
  rewrite undec_pad by (apply N2Z.inj_lt; rewrite N2Z.inj_pow, Z2N.id; lia). rewrite Z2N.id by lia.
  rewrite (proj2 (Nat.leb_le _ _)), !(proj2 (Z.leb_le _ _)) by lia. done.
Qed.

(** *** Fractions *)

Lemma drop_zeros_split s : exists k, s = replicate k "0"%char ++ drop_zeros s /\
  match drop_zeros s with c :: _ => c <> "0"%char | [] => True end.
Proof.
  induction s as [|c s (k & Hk & Hd)]; [by exists 0%nat|]. cbn [drop_zeros].
  destruct (Ascii.eqb c "0") eqn:E; bools; [|by exists 0%nat].
  subst c. exists (S k). split; [|done]. cbn. by rewrite <-Hk.
Qed.

Lemma undec_zeros l k : undec (l ++ replicate k "0"%char) = (undec l * 10 ^ N.of_nat k)%N.
Proof.
  induction k as [|k IH]; [cbn [replicate]; rewrite app_nil_r; cbn; lia|].
  replace (replicate (S k) "0"%char) with (replicate k "0"%char ++ ["0"%char]) by by rewrite <-replicate_cons_app.
  rewrite app_assoc, undec_app, IH, Nat2N.inj_succ, N.pow_succ_r'. change (digit_val "0") with 0%N. lia.
Qed.

(** The digits of a fraction, with the zeros that were dropped. *)
Lemma fraction_split ns : exists ds k,
  fraction ns = match ds with [] => [] | _ => "."%char :: ds end /\
  pad 9 (Z.to_N ns) = ds ++ replicate k "0"%char.
Proof.
  unfold fraction. destruct (drop_zeros_split (rev (pad 9 (Z.to_N ns)))) as (k & Hk & _).
  exists (rev (drop_zeros (rev (pad 9 (Z.to_N ns))))), k.
  split; [generalize (rev (drop_zeros (rev (pad 9 (Z.to_N ns))))); by intros []|].
  apply (f_equal (@rev ascii)) in Hk. rewrite rev_involutive in Hk. rewrite Hk at 1. rewrite rev_app_distr. f_equal.
  clear. induction k as [|k IH]; [done|]. cbn [replicate rev]. rewrite IH. symmetry. apply (replicate_cons_app k).
Qed.

Definition after_fraction (s : bytes) : Prop :=
  match s with c :: _ => is_digit c = false /\ c <> "."%char | [] => True end.

Lemma span_digits_app ds s :
  forallb is_digit ds = true -> after_fraction s -> span_digits (ds ++ s) = (ds, s).
Proof.
  intros Hds Hs. induction ds as [|c ds IH].
  - destruct s as [|c s]; [done|]. cbn. by destruct Hs as [-> _].
  - cbn in *. apply andb_prop in Hds as [-> Hds]. by rewrite IH.
Qed.

Lemma parse_fraction_text ns s :
  0 <= ns < nanos -> after_fraction s -> parse_fraction (fraction ns ++ s) = (ns, s).
Proof.
  intros Hn Hs. destruct (fraction_split ns) as (ds & k & -> & Hp).
  assert (Hv : undec (ds ++ replicate k "0"%char) = Z.to_N ns).
  { rewrite <-Hp. apply undec_pad. unfold nanos in Hn. lia. }
  assert (Hlen : (length ds + k = 9)%nat).
  { apply (f_equal length) in Hp. rewrite pad_length, length_app, length_replicate in Hp. lia. }
  assert (Hd : forallb is_digit ds = true).
  { pose proof (pad_digits 9 (Z.to_N ns)) as H. rewrite Hp, forallb_app in H. by apply andb_prop in H as [H _]. }
  rewrite undec_zeros in Hv. destruct ds as [|c ds].
  - cbn in Hv. assert (ns = 0) as -> by lia. cbn [app]. destruct s as [|c s]; [done|]. cbn.
    destruct Hs as [_ Hs]. by rewrite (proj2 (Ascii.eqb_neq _ _) Hs).
  - cbn [app parse_fraction]. rewrite Ascii.eqb_refl. change (c :: ds ++ s) with ((c :: ds) ++ s).
    rewrite span_digits_app by done. cbv iota beta zeta.
    rewrite take_ge by lia. f_equal.
    replace (9 - Z.of_nat (length (c :: ds))) with (Z.of_N (N.of_nat k)) by lia.
    rewrite <-(N2Z.inj_pow 10), <-N2Z.inj_mul, Hv. lia.
Qed.

(** *** Zones *)

Lemma quot_minutes off : off mod 60 = 0 -> exists m, off = 60 * m /\ Z.quot off 60 = m.
Proof.
  intros Hm. exists (off / 60). pose proof (Z.div_mod off 60 ltac:(lia)) as Hd. split; [lia|].
  rewrite Hd at 1. rewrite Hm, Z.add_0_r, Z.mul_comm. apply Z.quot_mul. lia.
Qed.

Lemma parse_zone_text off : off mod 60 = 0 -> Z.abs off < 86400 -> parse_zone (zone_text off) = Some off.
Proof.
  intros Hm Hb. unfold zone_text. destruct (off =? 0) eqn:E0; bools; [by subst|].
  destruct (quot_minutes off Hm) as (m & -> & ->). cbv zeta.
  assert (Hh : 0 <= Z.abs m / 60 <= 23).
  { split; [apply Z.div_pos; lia|]. apply Z.lt_succ_r, Z.div_lt_upper_bound; lia. }
  pose proof (Z.mod_pos_bound (Z.abs m) 60 ltac:(lia)) as Hmm. pose proof (Z.div_mod (Z.abs m) 60 ltac:(lia)) as Hdm.
  assert (Hp : forall c, c = "+"%char \/ c = "-"%char ->
    parse_zone (c :: pad 2 (Z.to_N (Z.abs m / 60)) ++ ":"%char :: pad 2 (Z.to_N (Z.abs m mod 60))) =
    Some (if Ascii.eqb c "-" then - (Z.abs m * 60) else Z.abs m * 60)).
  { intros c Hc. assert (Hor : Ascii.eqb c "+" || Ascii.eqb c "-" = true) by (by destruct Hc as [-> | ->]).
    assert (Hz : forall t, parse_zone (c :: pad 2 (Z.to_N (Z.abs m / 60)) ++ t) =
      ('(hr, s') ← number 2 0 23 (pad 2 (Z.to_N (Z.abs m / 60)) ++ t);
        s' ← eat ":" s';
        '(mm, s') ← number 2 0 59 s';
        match s' with
        | [] => let off := (hr * 60 + mm) * 60 in Some (if Ascii.eqb c "-" then - off else off)
        | _ => None
        end)).
    { intros t. by destruct Hc as [-> | ->]. }
    rewrite Hz, number_pad by (cbn; lia). cbn [mbind option_bind eat]. rewrite Ascii.eqb_refl. cbn [mbind option_bind].
    rewrite <-(app_nil_r (pad 2 (Z.to_N (Z.abs m mod 60)))), number_pad by (cbn; lia). cbn [mbind option_bind].
    f_equal. destruct (Ascii.eqb c "-"); lia. }
  destruct (m <? 0) eqn:Em; bools; rewrite Hp by auto; cbn; f_equal; lia.
Qed.

Lemma zone_text_after off s : after_fraction (zone_text off ++ s).
Proof. unfold zone_text. destruct (off =? 0); [done|]. by destruct (Z.quot off 60 <? 0). Qed.

(** *** Times *)

Lemma eat_cons c s : eat c (c :: s) = Some s.
Proof. cbn. by rewrite Ascii.eqb_refl. Qed.

Lemma clock_fields s : 0 <= s < 86400 ->
  0 <= s / 3600 <= 23 /\ 0 <= s / 60 mod 60 <= 59 /\ 0 <= s mod 60 <= 59 /\
  s / 3600 * 3600 + s / 60 mod 60 * 60 + s mod 60 = s.
Proof.
  intros Hs. pose proof (Z.div_mod s 60 ltac:(lia)). pose proof (Z.mod_pos_bound s 60 ltac:(lia)).
  pose proof (Z.div_mod (s / 60) 60 ltac:(lia)). pose proof (Z.mod_pos_bound (s / 60) 60 ltac:(lia)).
  assert (Hq : s / 3600 = s / 60 / 60) by (rewrite Z.div_div; [done|lia|lia]). rewrite Hq. lia.
Qed.

Lemma daysIn_bound m y : daysIn m y <= 31.
Proof.
  unfold daysIn. destruct (month_lengths y !! Z.to_nat (m - 1)) as [l|] eqn:E; [|cbn; lia]. cbn.
  apply list_elem_of_lookup_2 in E. unfold month_lengths in E. destruct (leap y); set_solver by lia.
Qed.

(** The text between the quotes. *)
Definition rfc3339 (t : Time) : bytes :=
  let sec := wall t / nanos in
  let '(y, m, d) := date (sec / 86400) in
  date_text y m d ++ "T"%char :: clock_text (sec mod 86400) ++ fraction (wall t mod nanos) ++ zone_text (offset t).

Lemma wall_bounds t : valid_time t ->
  days_before 0 <= wall t / nanos / 86400 < days_before 10000.
Proof.
  intros (Hw & _). rewrite Z.div_div by (unfold nanos; lia). split.
  - apply Z.div_le_lower_bound; unfold nanos in *; lia.
  - apply Z.div_lt_upper_bound; unfold nanos in *; lia.
Qed.

Lemma parse_rfc3339_text t : valid_time t -> parse_rfc3339 (rfc3339 t) = Some t.
Proof.
  intros Hv. pose proof (wall_bounds t Hv) as Hd. destruct Hv as (_ & Hm & Ho). unfold rfc3339.
  set (sec := wall t / nanos) in *. destruct (date (sec / 86400)) as [[y m] d] eqn:Hdate.
  pose proof (date_year _ _ _ _ Hdate Hd) as Hy. apply date_spec in Hdate as (Hnum & Hmo & Hda).
  pose proof (daysIn_bound m y) as Hdi.
  pose proof (Z.mod_pos_bound sec 86400 ltac:(lia)) as Hs. pose proof (Z.div_mod sec 86400 ltac:(lia)) as Hsd.
  destruct (clock_fields (sec mod 86400) Hs) as (H1 & H2 & H3 & H4).
  pose proof (Z.mod_pos_bound (wall t) nanos ltac:(done)) as Hn. pose proof (Z.div_mod (wall t) nanos ltac:(done)) as Hnd.
  unfold parse_rfc3339, date_text, clock_text. rewrite <-?app_assoc, <-?app_comm_cons.
  repeat (rewrite number_pad by (cbn; lia); cbn [mbind option_bind]; rewrite <-?app_assoc, <-?app_comm_cons;
          rewrite ?eat_cons; cbn [mbind option_bind]).
  rewrite <-(app_nil_r (zone_text (offset t))), parse_fraction_text, app_nil_r, parse_zone_text by (try done; apply zone_text_after).
  cbn [mbind option_bind]. f_equal. destruct t as [i o]. unfold wall in *. cbn [instant offset] in *. f_equal.
  fold sec in Hnd. lia.
Qed.

(** *** Times in JSON *)

(** The characters of RFC 3339 stand for themselves in a JSON string. *)
Definition rfc_char (c : ascii) : bool := is_digit c || bool_decide (c ∈ ["-"; ":"; "T"; "."; "Z"; "+"]%char).

Lemma rfc_char_plain c : rfc_char c = true ->
  is_ascii_byte c = true /\ json_ascii c = [c] /\ Ascii.eqb c quote_char = false /\ c <> line_feed.
Proof. intros H. destruct c as [[] [] [] [] [] [] [] []]; try discriminate H; by split_and!. Qed.

Lemma forallb_cons {A} (p : A -> bool) c s : forallb p (c :: s) = p c && forallb p s.
Proof. done. Qed.

Lemma rfc_digits ds : forallb is_digit ds = true -> forallb rfc_char ds = true.
Proof. rewrite !forallb_forall. intros H c Hc. unfold rfc_char. by rewrite H. Qed.

Lemma rfc_pad w n : forallb rfc_char (pad w n) = true.
Proof. apply rfc_digits, pad_digits. Qed.

Lemma rfc3339_chars t : forallb rfc_char (rfc3339 t) = true.
Proof.
  unfold rfc3339. destruct (date _) as [[y m] d]. unfold date_text, clock_text.
  assert (Hz : forallb rfc_char (zone_text (offset t)) = true).
  { unfold zone_text. destruct (_ =? 0); [done|]. rewrite forallb_cons, forallb_app, forallb_cons, !rfc_pad.
    by destruct (_ <? 0). }
  assert (Hf : forallb rfc_char (fraction (wall t mod nanos)) = true).
  { destruct (fraction_split (wall t mod nanos)) as (ds & k & -> & Hp).
    pose proof (pad_digits 9 (Z.to_N (wall t mod nanos))) as H. rewrite Hp, forallb_app in H.
    apply andb_prop in H as [H _]. destruct ds as [|c ds]; [done|]. rewrite forallb_cons. by apply rfc_digits in H as ->. }
  repeat (rewrite forallb_app || rewrite forallb_cons || rewrite rfc_pad). by rewrite Hf, Hz.
Qed.

Lemma json_string_plain s :
  forallb rfc_char s = true -> json_string (of_bytes s) = quote_char :: s ++ [quote_char].
Proof.
  intros H. unfold json_string. rewrite to_of_bytes. cbn [app]. do 2 f_equal.
  induction s as [|c s IH]; [done|]. cbn in H. apply andb_prop in H as [Hc Hs].
  destruct (rfc_char_plain c Hc) as (Ha & Hj & _). cbn [json_chars]. by rewrite Ha, Hj, IH.
Qed.

Lemma MarshalTime_text t : valid_time t -> MarshalTime t = Some (json_string (of_bytes (rfc3339 t))).
Proof.
  intros Hv. pose proof (wall_bounds t Hv) as Hd. pose proof (rfc3339_chars t) as Hc.
  destruct Hv as (_ & Hm & Ho). unfold MarshalTime, rfc3339 in *.
  destruct (date (wall t / nanos / 86400)) as [[y m] d] eqn:Hdate.
  pose proof (date_year _ _ _ _ Hdate Hd) as Hy.
  rewrite (proj2 (Z.ltb_ge y 0)), (proj2 (Z.ltb_ge 9999 y)) by lia. cbn [orb].
  assert (Hz : Z.abs (Z.quot (offset t) 60) / 60 < 24).
  { destruct (quot_minutes _ Hm) as (k & Hk & ->). apply Z.div_lt_upper_bound; lia. }
  rewrite (proj2 (Z.leb_gt 24 _)) by lia. rewrite json_string_plain by done.
  by rewrite <-!app_assoc, <-!app_comm_cons, <-!app_assoc.
Qed.

(** Any time that RFC 3339 can write is read back with its zone. *)
Lemma time_roundtrip t old : valid_time t ->
  exists v, MarshalTime t = Some v /\ json_text 1 v /\ line_feed ∉ v /\ into_time v old = Some t.
Proof.
  intros Hv. exists (json_string (of_bytes (rfc3339 t))). rewrite MarshalTime_text by done.
  split_and!; [done|apply text_string|apply json_string_no_line|].
  rewrite json_string_plain by apply rfc3339_chars. unfold into_time.
  unfold is_null. rewrite bool_decide_eq_false_2 by discriminate. rewrite eat_cons. cbn [mbind option_bind].
  rewrite rev_app_distr. cbn [rev app]. rewrite Ascii.eqb_refl, rev_involutive. by apply parse_rfc3339_text.
Qed.

(** The zero time, the end of a leap February, and what cannot be written. *)
Example times_text :
  MarshalTime {| instant := 0; offset := 0 |} = Some (json_string "0001-01-01T00:00:00Z") /\
  MarshalTime {| instant := (day_number 2024 2 29 * 86400 + 86399) * nanos + 120000000; offset := 7200 |} =
    Some (json_string "2024-03-01T01:59:59.12+02:00") /\
  MarshalTime {| instant := (day_number 2026 1 1 * 86400) * nanos; offset := -34200 |} =
    Some (json_string "2025-12-31T14:30:00-09:30") /\
  MarshalTime {| instant := day_number 10000 1 1 * 86400 * nanos; offset := 0 |} = None /\
  MarshalTime {| instant := 0; offset := 86400 |} = None.
Proof. by vm_compute. Qed.

Example times_parsed :
  parse_rfc3339 (to_bytes "2024-02-30T00:00:00Z") = None /\
  parse_rfc3339 (to_bytes "2023-02-29T00:00:00Z") = None /\
  parse_rfc3339 (to_bytes "2024-02-29T24:00:00Z") = None /\
  parse_rfc3339 (to_bytes "2024-02-29T23:59:59.1234567891Z") =
    Some {| instant := (day_number 2024 2 29 * 86400 + 86399) * nanos + 123456789; offset := 0 |} /\
  parse_rfc3339 (to_bytes "2024-02-29T00:00:00+01:60") = None.
Proof. by vm_compute. Qed.
