(* ===== verification/Session.v ===== *)
(** * Session state machine (src/internal/core/session/state.go, src/internal/core/id/id.go)

    [State], [Event], the transition [table] and [Machine] with [Apply].
    A random identifier is an input of the operation that draws it: [rnd]
    is the hexadecimal text of the eight random bytes of [id.New]. *)

From S2P Require Import Prelude.

(** ** Identifiers *)

(** [id.New]: "prefix-<16 hex chars>". *)
Definition New (prefix rnd : string) : string := prefix +:+ "-" +:+ rnd.

(** ** States and events *)

Inductive State :=
| Disconnected | Connecting | Authenticating | Ready | RunningCommand
| Reconnecting | Error.

Inductive Event :=
| Connect | TransportReady | Authenticated | CommandStart | CommandResult
| TargetRebooted | TransportLost | HumanRetry | RetriesExhausted | Shutdown.

#[export] Instance State_eq_dec : EqDecision State.
Proof. solve_decision. Defined.

#[export] Instance Event_eq_dec : EqDecision Event.
Proof. solve_decision. Defined.

Record transition := { to : State; rotatesID : bool }.

Definition goes (s : State) : option transition := Some {| to := s; rotatesID := false |}.
Definition rotates (s : State) : option transition := Some {| to := s; rotatesID := true |}.

(** [table[state][event]]; [None] is a missing entry. *)
Definition table (s : State) (e : Event) : option transition :=
  match s, e with
  | Disconnected, Connect => rotates Connecting
  | Connecting, TransportReady => goes Authenticating
  | Connecting, TransportLost => goes Reconnecting
  | Connecting, Shutdown => goes Disconnected
  | Authenticating, Authenticated => goes Ready
  | Authenticating, TransportLost => goes Reconnecting
  | Authenticating, Shutdown => goes Disconnected
  | Ready, CommandStart => goes RunningCommand
  | Ready, TargetRebooted => goes Authenticating
  | Ready, TransportLost => goes Reconnecting
  | Ready, Shutdown => goes Disconnected
  | RunningCommand, CommandResult => goes Ready
  | RunningCommand, TargetRebooted => goes Authenticating
  | RunningCommand, TransportLost => goes Reconnecting
  | RunningCommand, Shutdown => goes Disconnected
  | Reconnecting, HumanRetry => rotates Connecting
  | Reconnecting, RetriesExhausted => goes Error
  | Reconnecting, Shutdown => goes Disconnected
  | Error, Shutdown => goes Disconnected
  | _, _ => None
  end.

Record ErrInvalidTransition := { err_From : State; err_Event : Event }.

Record Machine := { state : State; sessionID : string }.

Definition NewMachine (sid : string) : Machine :=
  {| state := Disconnected; sessionID := sid |}.

(** [Machine.Apply]: the machine after the call and the error, if any. *)
Definition Apply (rnd : string) (e : Event) (m : Machine)
  : Machine * option ErrInvalidTransition :=
  match table (state m) e with
  | None => (m, Some {| err_From := state m; err_Event := e |})
  | Some next =>
      ({| state := to next;
          sessionID := if rotatesID next then New "sess" rnd else sessionID m |}, None)
  end.

(** [_ = m.Apply(e)], the call sites that ignore the error. *)
Definition apply_ (rnd : string) (e : Event) (m : Machine) : Machine :=
  fst (Apply rnd e m).

(** A run of the machine over events, each with its random input; a refused
    event leaves the machine where it is. *)
Fixpoint run (evs : list (string * Event)) (m : Machine) : Machine :=
  match evs with
  | [] => m
  | (rnd, e) :: evs => run evs (apply_ rnd e m)
  end.

(** The two events that only a human request produces. *)
Definition human_event (e : Event) : bool :=
  match e with Connect | HumanRetry => true | _ => false end.

(** The states in which a transport is open. *)
Definition live_state (s : State) : bool :=
  match s with Connecting | Authenticating | Ready | RunningCommand => true | _ => false end.

(** ** Facts about single transitions *)

Lemma apply_state rnd e m :
  state (apply_ rnd e m) =
  match table (state m) e with Some t => to t | None => state m end.
Proof. unfold apply_, Apply. by case_match. Qed.

Lemma apply_id rnd e m :
  sessionID (apply_ rnd e m) =
  match table (state m) e with
  | Some t => if rotatesID t then New "sess" rnd else sessionID m
  | None => sessionID m
  end.
Proof. unfold apply_, Apply. by case_match. Qed.

Lemma table_rotates s e t :
  table s e = Some t -> rotatesID t = true <-> human_event e = true.
Proof. destruct s, e; unfold table, goes, rotates; intros; simplify_eq/=; by split. Qed.

Lemma table_live s e t :
  table s e = Some t -> human_event e = false -> live_state s = false ->
  live_state (to t) = false.
Proof. destruct s, e; unfold table, goes, rotates; intros; simplify_eq/=; done. Qed.

Lemma run_app evs1 evs2 m : run (evs1 ++ evs2) m = run evs2 (run evs1 m).
Proof.
  revert m. induction evs1 as [|[r e] evs1 IH]; intros m; simpl; [done|]. apply IH.
Qed.

Lemma run_no_human evs m :
  forallb (fun p => negb (human_event (snd p))) evs = true ->
  live_state (state m) = false ->
  live_state (state (run evs m)) = false /\ sessionID (run evs m) = sessionID m.
Proof.
  revert m. induction evs as [|[r e] evs IH]; intros m Hall Hm; simpl in *; [done|].
  bools. destruct (IH (apply_ r e m)) as [Hl Hid]; [done| |].
  - rewrite apply_state. destruct (table (state m) e) eqn:Ht; [|done].
    eapply table_live; eauto.
  - split; [done|]. rewrite Hid, apply_id.
    destruct (table (state m) e) as [t|] eqn:Ht; [|done].
    pose proof (table_rotates _ _ _ Ht) as Hr.
    destruct (rotatesID t); [|done]. destruct Hr as [Hr _].
    specialize (Hr eq_refl). congruence.
Qed.

(** ** Properties *)

(** [Apply] is exactly the transition table: an event the current state
    accepts moves the machine to the listed state and draws a new session
    identifier exactly for CONNECT and HUMAN_RETRY; any other event reports
    the state and event in the error and changes nothing. *)
Theorem Apply_spec rnd e m :
  match table (state m) e with
  | Some t =>
      Apply rnd e m =
      ({| state := to t;
          sessionID := if human_event e then New "sess" rnd else sessionID m |}, None)
  | None =>
      Apply rnd e m = (m, Some {| err_From := state m; err_Event := e |})
  end.
Proof.
  unfold Apply. destruct (table (state m) e) as [t|] eqn:Ht; [|done].
  pose proof (table_rotates _ _ _ Ht) as Hr.
  destruct (rotatesID t), (human_event e); destruct Hr as [H1 H2];
    [done|discriminate (H1 eq_refl)|discriminate (H2 eq_refl)|done].
Qed.

(** A session without an open transport (DISCONNECTED, RECONNECTING or
    ERROR) returns to a state with one only through an event a human
    requests: over any sequence of events, if such a machine ends up
    CONNECTING, AUTHENTICATING, READY or RUNNING_COMMAND, a CONNECT or
    HUMAN_RETRY is among them; without one, the session identifier is the
    same at the end. *)
Theorem lost_session_needs_human evs m :
  live_state (state m) = false ->
  (live_state (state (run evs m)) = true ->
   exists p, p ∈ evs /\ human_event (snd p) = true) /\
  ((forall p, p ∈ evs -> human_event (snd p) = false) ->
   sessionID (run evs m) = sessionID m).
Proof.
  intros Hm. pose proof (run_no_human evs m) as Hrun. split.
  - intros Hlive.
    destruct (forallb (fun p => negb (human_event (snd p))) evs) eqn:Hall.
    + destruct Hrun as [Hl _]; congruence.
    + apply not_true_iff_false in Hall. rewrite forallb_forall in Hall.
      destruct (List.existsb (fun p => human_event (snd p)) evs) eqn:Hex.
      * apply existsb_exists in Hex as (p & Hin & Hp).
        exists p. split; [by apply list_elem_of_In | done].
      * exfalso. apply Hall. intros p Hin. apply negb_true_iff.
        apply not_true_iff_false. intros Hp. apply not_true_iff_false in Hex.
        apply Hex, existsb_exists. eauto.
  - intros Hno. apply Hrun; [|done]. apply forallb_forall. intros p Hin.
    rewrite Hno; [done|]. by apply list_elem_of_In.
Qed.

Lemma lost_session_needs_human_witness :
  live_state (state {| state := Reconnecting; sessionID := "sess-0" |}) = false /\
  exists p, p ∈ [("aa"%string, HumanRetry); ("bb"%string, TransportReady)] /\
            human_event (snd p) = true.
Proof.
  split; [reflexivity|].
  exact (proj1 (lost_session_needs_human
    [("aa"%string, HumanRetry); ("bb"%string, TransportReady)]
    {| state := Reconnecting; sessionID := "sess-0" |} eq_refl) eq_refl).
Defined.
