(* ===== verification/Ring.v ===== *)
(** * Transcript ring (src/internal/core/transcript/ring.go)

    The bounded byte ring of the transcript, with its sequence numbers kept at
    64 bits, and its abstract specification: the ring stands for the whole
    history of appended bytes, of which the last [capacity] are readable. *)

From S2P Require Import Prelude.

(** ** Data *)

Record Chunk := { Start : Z; Next : Z; Data : bytes; Gap : bool }.

Record Ring := { buf : bytes; total : Z }.

(** ** Operations *)

(** [NewRing]; [None] is the panic on a capacity that is not positive. *)
Definition NewRing (capacity : Z) : option Ring :=
  if capacity <=? 0 then None
  else Some {| buf := replicate (Z.to_nat capacity) zero; total := 0 |}.

(** [copy(dst[pos:], src)]: the bytes that fit, at position [pos]. *)
Definition copy_at (dst : bytes) (pos : nat) (src : bytes) : bytes :=
  list_inserts pos src dst.

Definition Append (data : bytes) (r : Ring) : Ring :=
  if (length data =? 0)%nat then r
  else
    let capacity := zlen (buf r) in
    let n := zlen data in
    if capacity <=? n then
      let tail := drop (Z.to_nat (n - capacity)) data in
      let startPos := u64 (u64 (total r + n) - capacity) mod capacity in
      let first := capacity - startPos in
      let buf1 := copy_at (buf r) (Z.to_nat startPos) (take (Z.to_nat first) tail) in
      let buf2 := copy_at buf1 0 (drop (Z.to_nat first) tail) in
      {| buf := buf2; total := u64 (total r + n) |}
    else
      let start := total r mod capacity in
      let first := Z.min (capacity - start) n in
      let buf1 := copy_at (buf r) (Z.to_nat start) (take (Z.to_nat first) data) in
      let buf2 := if first <? n then copy_at buf1 0 (drop (Z.to_nat first) data) else buf1 in
      {| buf := buf2; total := u64 (total r + n) |}.

Definition Len (r : Ring) : Z := total r.

Definition readRange (from : Z) (n : nat) (r : Ring) : bytes :=
  let out := replicate n zero in
  if (n =? 0)%nat then out
  else
    let capacity := zlen (buf r) in
    let start := Z.to_nat (from mod capacity) in
    let first := Nat.min (length (buf r) - start) n in
    let out1 := copy_at out 0 (slice start (start + first) (buf r)) in
    if (first <? n)%nat then copy_at out1 first (slice 0 (n - first) (buf r)) else out1.

(** [max] is a Go [int]: a negative one means no limit. *)
Definition ReadAfter (after max : Z) (r : Ring) : Chunk :=
  let capacity := zlen (buf r) in
  let retainedStart := if capacity <? total r then total r - capacity else 0 in
  let gap := after <? retainedStart in
  let from := if gap then retainedStart else after in
  let from := if total r <? from then total r else from in
  let available := total r - from in
  let n := if (0 <=? max) && (max <? available) then max else available in
  {| Start := from; Next := u64 (from + n);
     Data := readRange from (Z.to_nat n) r; Gap := gap |}.

(** ** Specification *)

(** The ring stands for the history [h] of every byte appended so far: the
    byte with sequence number [i] sits at [i mod capacity] as long as it is
    one of the last [capacity] bytes. *)
Definition represents (cap : nat) (h : bytes) (r : Ring) : Prop :=
  (0 < cap)%nat /\ length (buf r) = cap /\ total r = zlen h /\
  forall i, (length h - cap <= i < length h)%nat ->
    buf r !! (i mod cap)%nat = h !! i.

Definition spec_start (cap : nat) (h : bytes) (after : nat) : nat :=
  Nat.min (Nat.max after (length h - cap)) (length h).

Definition spec_count (cap : nat) (h : bytes) (after : nat) (max : Z) : nat :=
  let available := (length h - spec_start cap h after)%nat in
  if 0 <=? max then Nat.min (Z.to_nat max) available else available.

(** What a reader is promised: the bytes of the history from the requested
    sequence number, or from the oldest retained one if those are gone. *)
Definition spec_read (cap : nat) (h : bytes) (after : nat) (max : Z) : Chunk :=
  let from := spec_start cap h after in
  let n := spec_count cap h after max in
  {| Start := Z.of_nat from; Next := Z.of_nat (from + n);
     Data := slice from (from + n) h;
     Gap := bool_decide (after < length h - cap)%nat |}.

(** A reader that polls: each step reads up to [max] bytes from where the
    last one ended, as [pollOutput] and [runTranscriptDrain] do. *)
Fixpoint poll (max : Z) (rounds : nat) (after : Z) (r : Ring) : bytes * Z :=
  match rounds with
  | O => ([], after)
  | S rounds =>
      let c := ReadAfter after max r in
      let '(rest, next) := poll max rounds (Next c) r in
      (Data c ++ rest, next)
  end.

(** ** Lemmas *)

Lemma copy_at_length dst pos src : length (copy_at dst pos src) = length dst.
Proof. apply length_inserts. Qed.

Lemma lookup_copy_at dst pos src i :
  (i < length dst)%nat ->
  copy_at dst pos src !! i =
  if decide (pos <= i < pos + length src)%nat then src !! (i - pos)%nat else dst !! i.
Proof.
  intros Hi. unfold copy_at. case_decide.
  - by apply list_lookup_inserts.
  - destruct (decide (i < pos)%nat).
    + apply list_lookup_inserts_lt; lia.
    + apply list_lookup_inserts_ge; lia.
Qed.

(** The position of a sequence number inside one turn of the ring. *)
Lemma mod_in_turn (cap a i : nat) :
  (0 < cap)%nat -> (a <= i < a + cap)%nat ->
  (i mod cap)%nat =
  if decide (a mod cap + (i - a) < cap)%nat then (a mod cap + (i - a))%nat
  else (a mod cap + (i - a) - cap)%nat.
Proof.
  intros Hc Hi.
  pose proof (Nat.div_mod_eq a cap) as Ha.
  pose proof (Nat.mod_upper_bound a cap ltac:(lia)).
  case_decide.
  - symmetry. apply Nat.mod_unique with (q := (a / cap)%nat); lia.
  - symmetry. apply Nat.mod_unique with (q := (a / cap + 1)%nat); lia.
Qed.

Lemma mod_distinct (cap i j : nat) :
  (0 < cap)%nat -> (i < j < i + cap)%nat -> (i mod cap <> j mod cap)%nat.
Proof.
  intros Hc Hij. rewrite (mod_in_turn cap i j) by lia.
  pose proof (Nat.mod_upper_bound i cap ltac:(lia)).
  case_decide; lia.
Qed.

(** Writing [data], of at most [cap] bytes, around the ring from the position
    of sequence number [a]: what every position holds afterwards. *)
Lemma wrap_write (cap a : nat) (b data : bytes) (first : nat) :
  length b = cap -> (0 < cap)%nat -> (length data <= cap)%nat ->
  first = Nat.min (cap - a mod cap) (length data) ->
  let b' := copy_at (copy_at b (a mod cap) (take first data)) 0 (drop first data) in
  (forall i, (a <= i < a + length data)%nat -> b' !! (i mod cap)%nat = data !! (i - a)%nat) /\
  (forall i, (a + length data <= i + cap)%nat -> (i < a)%nat ->
     b' !! (i mod cap)%nat = b !! (i mod cap)%nat).
Proof.
  intros Hb Hc Hd Hf b'.
  pose proof (Nat.mod_upper_bound a cap ltac:(lia)) as Hap.
  split; intros i Hi; subst b'.
  - pose proof (Nat.mod_upper_bound i cap ltac:(lia)) as Hip.
    rewrite lookup_copy_at by (rewrite copy_at_length; lia).
    rewrite length_drop, (lookup_copy_at b) by lia. rewrite length_take.
    rewrite (mod_in_turn cap a i) in * by lia.
    destruct (decide (a mod cap + (i - a) < cap)%nat).
    + rewrite decide_False by lia. rewrite decide_True by lia.
      rewrite lookup_take_lt by lia. f_equal. lia.
    + rewrite decide_True by lia. rewrite lookup_drop. f_equal. lia.
  - intros Hlt.
    pose proof (Nat.mod_upper_bound i cap ltac:(lia)) as Hip.
    rewrite lookup_copy_at by (rewrite copy_at_length; lia).
    rewrite length_drop, (lookup_copy_at b) by lia. rewrite length_take.
    assert (Ha : (a mod cap)%nat =
      if decide (i mod cap + (a - i) < cap)%nat then (i mod cap + (a - i))%nat
      else (i mod cap + (a - i) - cap)%nat).
    { destruct (decide (a - i = cap)%nat) as [E|].
      - assert (length data = 0)%nat by lia.
        replace a with (i + 1 * cap)%nat by lia.
        rewrite Nat.Div0.mod_add. case_decide; lia.
      - apply mod_in_turn; lia. }
    destruct (decide (i mod cap + (a - i) < cap)%nat).
    + rewrite decide_False by lia. by rewrite decide_False by lia.
    + rewrite decide_False by lia. by rewrite decide_False by lia.
Qed.

Lemma wrap_write_short (b data : bytes) (first pos : nat) :
  first = length data ->
  copy_at (copy_at b pos (take first data)) 0 (drop first data) =
  copy_at b pos (take first data).
Proof. intros ->. by rewrite drop_all. Qed.

Lemma NewRing_represents capacity r :
  NewRing capacity = Some r -> represents (Z.to_nat capacity) [] r.
Proof.
  unfold NewRing. case_match; [done|]. intros [= <-]. bools.
  repeat split; simpl; [lia|by rewrite length_replicate|lia].
Qed.

Lemma represents_total cap h r : represents cap h r -> total r = zlen h.
Proof. by intros (_ & _ & ? & _). Qed.

(** A nonempty [Append] writes the last [capacity] bytes of its data around
    the ring, starting where the first of them belongs. *)
Lemma Append_eq cap h data r :
  represents cap h r -> data <> [] -> zlen (h ++ data) < max_u64 ->
  let skip := (length data - cap)%nat in
  let a := (length h + skip)%nat in
  let tl := drop skip data in
  let first := Nat.min (cap - a mod cap) (length tl) in
  Append data r =
  {| buf := copy_at (copy_at (buf r) (a mod cap) (take first tl)) 0 (drop first tl);
     total := zlen (h ++ data) |}.
Proof.
  intros (Hc & Hb & Ht & _) Hne Hbound skip a tl first.
  rewrite length_app in *. unfold Append.
  destruct (length data =? 0)%nat eqn:E0.
  { apply Nat.eqb_eq in E0. by destruct data. }
  apply Nat.eqb_neq in E0. rewrite Hb, Ht.
  assert (Hu : u64 (zlen h + zlen data) = Z.of_nat (length h + length data))
    by (rewrite u64_small; lia).
  rewrite Hu.
  pose proof (Nat.mod_upper_bound a cap ltac:(lia)) as Hap.
  assert (Hln : length tl = (length data - skip)%nat) by (unfold tl; by rewrite length_drop).
  destruct (zlen (buf r) <=? zlen data) eqn:Hle; rewrite Hb in Hle; rewrite Hle; bools.
  - rewrite u64_small by lia.
    replace (Z.of_nat (length h + length data) - Z.of_nat cap) with (Z.of_nat a)
      by (unfold a, skip; lia).
    rewrite <- Nat2Z.inj_mod. f_equal. rewrite Nat2Z.id.
    assert (first = Z.to_nat (Z.of_nat cap - Z.of_nat (a mod cap))) as ->
      by (unfold first; rewrite Hln; unfold skip; lia).
    unfold tl, skip. repeat f_equal; lia.
  - assert (skip = 0%nat) as Hs by (unfold skip; lia).
    assert (a = length h) as Hah by (unfold a; lia).
    rewrite <- Hah, <- Nat2Z.inj_mod, Nat2Z.id.
    assert (tl = data) as Htl by (unfold tl; by rewrite Hs, drop_0).
    assert (Z.to_nat (Z.min (Z.of_nat cap - Z.of_nat (a mod cap)) (zlen data)) = first) as Hf
      by (unfold first; lia).
    rewrite Hf, Htl. f_equal. case_match; bools; [done|].
    rewrite wrap_write_short; [done|]. unfold first in *. lia.
Qed.

Lemma readRange_spec cap h r from n :
  represents cap h r ->
  (length h - cap <= from)%nat -> (from + n <= length h)%nat ->
  readRange (Z.of_nat from) n r = slice from (from + n) h.
Proof.
  intros (Hc & Hb & Ht & Hlk) Hlo Hhi.
  pose proof (Nat.mod_upper_bound from cap ltac:(lia)) as Hp.
  assert (Hncap : (n <= cap)%nat) by lia.
  unfold readRange.
  destruct (n =? 0)%nat eqn:E0.
  { apply Nat.eqb_eq in E0. subst n. simpl. unfold slice.
    by rewrite Nat.add_0_r, Nat.sub_diag. }
  apply Nat.eqb_neq in E0. rewrite Hb, <- Nat2Z.inj_mod, Nat2Z.id.
  set (p := (from mod cap)%nat) in *.
  set (first := Nat.min (cap - p) n).
  assert (Hlen1 : length (slice p (p + first) (buf r)) = first)
    by (rewrite slice_length; lia).
  assert (Hpos : forall i, (i < n)%nat ->
    h !! (from + i)%nat =
    if decide (i < first)%nat then buf r !! (p + i)%nat else buf r !! (i - first)%nat).
  { intros i Hi. rewrite <- Hlk by lia.
    rewrite (mod_in_turn cap from) by lia. fold p.
    replace (from + i - from)%nat with i by lia.
    repeat case_decide; try lia; f_equal; lia. }
  set (out1 := copy_at (replicate n zero) 0 (slice p (p + first) (buf r))).
  assert (Hout1 : length out1 = n)
    by (unfold out1; by rewrite copy_at_length, length_replicate).
  apply list_eq_same_length with (n := n);
    [ rewrite slice_length; lia
    | case_match; [by rewrite copy_at_length | done] | ].
  intros i x y Hi. rewrite lookup_slice by lia. rewrite Hpos by lia.
  assert (Ho1 : (i < first)%nat -> out1 !! i = buf r !! (p + i)%nat).
  { intros. unfold out1. rewrite lookup_copy_at by (rewrite length_replicate; lia).
    rewrite decide_True by lia. rewrite lookup_slice by lia. f_equal. lia. }
  destruct (first <? n)%nat eqn:Hfn.
  - rewrite lookup_copy_at by lia. rewrite slice_length by lia.
    destruct (decide (i < first)%nat).
    + rewrite decide_False by lia. rewrite Ho1 by lia. congruence.
    + rewrite decide_True by lia. rewrite lookup_slice by lia.
      simpl. congruence.
  - apply Nat.ltb_ge in Hfn. rewrite decide_True by lia. rewrite Ho1 by lia. congruence.
Qed.

Lemma Append_represents cap h data r :
  represents cap h r -> zlen (h ++ data) < max_u64 ->
  represents cap (h ++ data) (Append data r).
Proof.
  intros Hrep Hbound. destruct (decide (data = [])) as [->|Hne].
  { by rewrite app_nil_r. }
  rewrite (Append_eq _ _ _ _ Hrep Hne Hbound).
  destruct Hrep as (Hc & Hb & Ht & Hlk).
  set (skip := (length data - cap)%nat). set (tl := drop skip data).
  assert (Hln : length tl = (length data - skip)%nat) by (unfold tl; by rewrite length_drop).
  destruct (wrap_write cap (length h + skip) (buf r) tl
              (Nat.min (cap - (length h + skip) mod cap) (length tl)))
    as [Hnew Hold]; [done|done|rewrite Hln; unfold skip; lia|done|].
  repeat split; simpl; [done|by rewrite !copy_at_length|].
  intros i Hi. rewrite length_app in Hi.
  destruct (decide (length h + skip <= i)%nat).
  - rewrite Hnew by lia. unfold tl. rewrite lookup_drop, lookup_app_r by lia. f_equal. lia.
  - rewrite Hold, Hlk, lookup_app_l by lia. done.
Qed.

Lemma ReadAfter_represents cap h r after max :
  represents cap h r -> zlen h < max_u64 ->
  ReadAfter (Z.of_nat after) max r = spec_read cap h after max.
Proof.
  intros Hrep Hbound. pose proof Hrep as (Hc & Hb & Ht & _).
  unfold ReadAfter. rewrite Hb, Ht.
  set (gap := Z.of_nat after <? _).
  assert (Hgap : gap = bool_decide (after < length h - cap)%nat).
  { unfold gap. destruct (Z.of_nat cap <? zlen h) eqn:E; bools;
      case_bool_decide; [apply Z.ltb_lt|apply Z.ltb_ge|apply Z.ltb_lt|apply Z.ltb_ge]; lia. }
  set (from := if zlen h <? _ then _ else _).
  assert (Hfrom : from = Z.of_nat (spec_start cap h after)).
  { unfold from, spec_start, gap. destruct (Z.of_nat cap <? zlen h) eqn:E;
      repeat (case_match; bools); lia. }
  set (n := if _ && _ then max else _).
  assert (Hn : n = Z.of_nat (spec_count cap h after max)).
  { unfold n, spec_count. rewrite Hfrom.
    assert (spec_start cap h after <= length h)%nat by (unfold spec_start; lia).
    destruct (0 <=? max) eqn:E; simpl; [case_match|]; bools; lia. }
  assert (spec_start cap h after + spec_count cap h after max <= length h)%nat
    by (unfold spec_count, spec_start; case_match; lia).
  unfold spec_read. rewrite Hgap, Hn, Hfrom, Nat2Z.id. f_equal.
  - rewrite u64_small by lia. lia.
  - apply (readRange_spec cap); [done| |done]. unfold spec_start. lia.
Qed.

#[export] Hint Resolve NewRing_represents Append_represents : gw.

Fixpoint appends (chunks : list bytes) (r : Ring) : Ring :=
  match chunks with
  | [] => r
  | c :: chunks => appends chunks (Append c r)
  end.

Lemma appends_represents cap chunks h r :
  represents cap h r -> zlen (h ++ concat chunks) < max_u64 ->
  represents cap (h ++ concat chunks) (appends chunks r).
Proof.
  revert h r. induction chunks as [|c chunks IH]; intros h r Hrep Hb; simpl in *.
  - by rewrite app_nil_r.
  - rewrite app_assoc in *. apply IH; [|done]. apply Append_represents; [done|].
    rewrite length_app in Hb. lia.
Qed.

(** ** Properties *)

(** C31. The ring refines its specification. However its contents were
    appended, a fresh ring of capacity [cap] that received the chunks [chunks]
    answers every [ReadAfter] with exactly what the history of all their bytes
    promises: the bytes from the requested sequence number (or from the oldest
    of the last [cap] bytes, with [Gap] set exactly when the request was
    older), at most [max] of them, and the sequence number to continue from. *)
Theorem ReadAfter_refines (cap : Z) (r0 : Ring) (chunks : list bytes) (after : nat) (max : Z) :
  NewRing cap = Some r0 ->
  zlen (concat chunks) < max_u64 ->
  ReadAfter (Z.of_nat after) max (appends chunks r0) =
  spec_read (Z.to_nat cap) (concat chunks) after max.
Proof.
  intros Hnew Hb. apply ReadAfter_represents; [|done].
  apply (appends_represents _ chunks []); [by apply NewRing_represents|done].
Qed.

Lemma ReadAfter_refines_witness :
  exists r0, NewRing 4 = Some r0 /\
  ReadAfter 0 (-1) (appends [to_bytes "abc"; to_bytes "def"] r0) =
  spec_read 4 (to_bytes "abcdef") 0 (-1) /\
  spec_read 4 (to_bytes "abcdef") 0 (-1) =
    {| Start := 2; Next := 6; Data := to_bytes "cdef"; Gap := true |}.
Proof.
  eexists. split; [reflexivity|]. split; [|reflexivity].
  exact (ReadAfter_refines 4 _ [to_bytes "abc"; to_bytes "def"] 0 (-1) eq_refl eq_refl).
Defined.

(** Polling loses nothing and repeats nothing. A reader that follows
    [Next] from a sequence number that is still retained collects, over any
    number of rounds with any positive limit, exactly the consecutive bytes of
    the history from there, and never more than were written; once the rounds
    cover the distance it has them all. *)
Theorem poll_reassembles cap h r (after : nat) (max : Z) (rounds : nat) :
  represents cap h r -> zlen h < max_u64 -> 0 < max ->
  (length h - cap <= after <= length h)%nat ->
  exists upto : nat,
    poll max rounds (Z.of_nat after) r = (slice after upto h, Z.of_nat upto) /\
    (after <= upto <= length h)%nat /\
    (Z.of_nat (length h - after) <= Z.of_nat rounds * max -> upto = length h).
Proof.
  intros Hrep Hb Hmax. revert after.
  induction rounds as [|rounds IH]; intros after Hafter; cbn [poll].
  - exists after. split; [|lia]. unfold slice. by rewrite Nat.sub_diag.
  - rewrite (ReadAfter_represents _ _ _ _ _ Hrep Hb). cbn [Next Data spec_read].
    assert (Hs : spec_start cap h after = after) by (unfold spec_start; lia). rewrite Hs.
    assert (Hn : spec_count cap h after max = Nat.min (Z.to_nat max) (length h - after)).
    { unfold spec_count. rewrite Hs. destruct (0 <=? max) eqn:E; bools; lia. }
    rewrite Hn. destruct (IH (after + Nat.min (Z.to_nat max) (length h - after))%nat)
      as (upto & -> & Hup & Hall); [lia|].
    exists upto. split; [|split; [lia|nia]].
    rewrite slice_app_adj by lia. done.
Qed.

Lemma poll_reassembles_witness :
  exists r0, NewRing 8 = Some r0 /\
  let r := appends [to_bytes "hello"; to_bytes " wor"] r0 in
  exists upto : nat,
    poll 3 3 (Z.of_nat 2) r = (slice 2 upto (to_bytes "hello wor"), Z.of_nat upto) /\
    upto = 9%nat.
Proof.
  eexists. split; [reflexivity|]. intros r.
  destruct (poll_reassembles 8 (to_bytes "hello wor") r 2 3 3) as (u & H1 & H2 & H3).
  - apply (appends_represents 8 [to_bytes "hello"; to_bytes " wor"] []);
      [by apply (NewRing_represents 8) | vm_compute; reflexivity].
  - vm_compute; reflexivity.
  - lia.
  - simpl; lia.
  - exists u. split; [exact H1|]. apply H3. simpl. lia.
Defined.
