(* ===== verification/Secret.v ===== *)
(** * Secret window (src/internal/core/secret/window.go)

    The redaction window and the filter for target output while it is open. *)

From S2P Require Import Prelude GoStd.

Record Window := { active : bool }.

Definition NewWindow : Window := {| active := false |}.

Definition Begin (w : Window) : Window := {| active := true |}.

Definition Active (w : Window) : bool := active w.

(** [Submit] does nothing with the secret bytes. *)
Definition Submit (secretBytes : bytes) (w : Window) : Window := w.

Definition FilterTarget (data : bytes) (w : Window) : bytes :=
  if negb (Active w) then data
  else to_bytes "[redacted " ++ dec (N.of_nat (length data)) ++ to_bytes " bytes]".

Definition Finish (w : Window) : Window := {| active := false |}.

(** ** Facts *)

Lemma FilterTarget_inactive data w : Active w = false -> FilterTarget data w = data.
Proof. unfold FilterTarget. by intros ->. Qed.

(** While the window is open the filtered output is a function of the length
    alone: two outputs of the same length are indistinguishable. *)
Lemma FilterTarget_length_only d1 d2 w :
  Active w = true -> length d1 = length d2 -> FilterTarget d1 w = FilterTarget d2 w.
Proof. unfold FilterTarget. by intros -> ->. Qed.

Lemma FilterTarget_nonempty data w : data <> [] -> FilterTarget data w <> [].
Proof. intros H. unfold FilterTarget. by destruct (negb _). Qed.

#[export] Hint Resolve FilterTarget_length_only FilterTarget_nonempty : gw.
