(* ===== verification/Validate.v ===== *)
(** * Managed-command contract (src/internal/core/command/validate.go)

    The restricted lexer [ValidateManaged], a grammar of the lines it accepts,
    and where text appended to an accepted line lands in shell quoting. *)

From S2P Require Import Prelude GoStd.

(** ** The lexer *)

Inductive ValidateError :=
| ErrContainsNUL | ErrMultiline | ErrUnbalancedQuotes | ErrHeredocOperator
| ErrBackgroundList.

#[export] Instance ValidateError_eq_dec : EqDecision ValidateError.
Proof. solve_decision. Defined.

Definition NUL : ascii := zero.
Definition LF : ascii := "010".
Definition CR : ascii := "013".
Definition SQ : ascii := "'".
Definition DQ : ascii := ascii_of_nat 34.
Definition BS : ascii := "\".
Definition AMP : ascii := "&".
Definition LT : ascii := "<".
Definition GT : ascii := ">".

(** The first loop: one physical line without NUL. *)
Fixpoint check_line (l : bytes) : option ValidateError :=
  match l with
  | [] => None
  | c :: l =>
      if Ascii.eqb c NUL then Some ErrContainsNUL
      else if Ascii.eqb c LF || Ascii.eqb c CR then Some ErrMultiline
      else check_line l
  end.

(** [text[i-1]] is '>' or '<', with [prev] the byte before, if any. *)
Definition after_redirect (prev : option ascii) : bool :=
  match prev with
  | Some p => Ascii.eqb p GT || Ascii.eqb p LT
  | None => false
  end.

(** The second loop. [quote] is NUL outside quotes, else the open
    quote character; [prev] is the byte before
    the current position; skipping a byte ([i++]) drops two. *)
Fixpoint lex (quote : ascii) (prev : option ascii) (l : bytes) : option ValidateError :=
  match l with
  | [] => if Ascii.eqb quote NUL then None else Some ErrUnbalancedQuotes
  | c :: rest =>
      if Ascii.eqb quote SQ then
        lex (if Ascii.eqb c SQ then NUL else quote) (Some c) rest
      else if Ascii.eqb quote DQ then
        match rest with
        | c1 :: rest1 =>
            if Ascii.eqb c BS then lex quote (Some c1) rest1
            else lex (if Ascii.eqb c DQ then NUL else quote) (Some c) rest
        | [] => lex (if Ascii.eqb c DQ then NUL else quote) (Some c) rest
        end
      else if Ascii.eqb c SQ || Ascii.eqb c DQ then lex c (Some c) rest
      else if Ascii.eqb c BS then
        match rest with
        | c1 :: rest1 => lex quote (Some c1) rest1
        | [] => lex quote (Some c) rest
        end
      else if Ascii.eqb c AMP then
        match rest with
        | c1 :: rest1 =>
            if Ascii.eqb c1 AMP then lex quote (Some c1) rest1
            else if after_redirect prev then lex quote (Some c) rest
            else Some ErrBackgroundList
        | [] =>
            if after_redirect prev then lex quote (Some c) rest
            else Some ErrBackgroundList
        end
      else if Ascii.eqb c LT then
        match rest with
        | c1 :: _ =>
            if Ascii.eqb c1 LT then Some ErrHeredocOperator else lex quote (Some c) rest
        | [] => lex quote (Some c) rest
        end
      else lex quote (Some c) rest
  end.

(** [ValidateManaged]: [None] is the nil error. *)
Definition ValidateManaged (text : string) : option ValidateError :=
  match check_line (to_bytes text) with
  | Some e => Some e
  | None => lex NUL None (to_bytes text)
  end.

(** ** Grammar *)

Definition special (c : ascii) : bool :=
  Ascii.eqb c SQ || Ascii.eqb c DQ || Ascii.eqb c BS || Ascii.eqb c AMP || Ascii.eqb c LT.

(** The inside of double quotes. *)
Inductive dq_body : bytes -> Prop :=
| dq_nil : dq_body []
| dq_char c l : c <> DQ -> c <> BS -> dq_body l -> dq_body (c :: l)
| dq_escape c l : dq_body l -> dq_body (BS :: c :: l).

Definition starts_with (c : ascii) (l : bytes) : bool :=
  match l with c1 :: _ => Ascii.eqb c1 c | [] => false end.

(** The lines accepted after the byte [prev], as a sequence of units. *)
Inductive managed : option ascii -> bytes -> Prop :=
| m_end p : managed p []
| m_plain p c l : special c = false -> managed (Some c) l -> managed p (c :: l)
| m_single p body l :
    SQ ∉ body -> managed (Some SQ) l -> managed p (SQ :: (body ++ (SQ :: l)))
| m_double p body l :
    dq_body body -> managed (Some DQ) l -> managed p (DQ :: (body ++ (DQ :: l)))
| m_escape p c l : managed (Some c) l -> managed p (BS :: c :: l)
| m_last_backslash p : managed p [BS]
| m_and p l : managed (Some AMP) l -> managed p (AMP :: AMP :: l)
| m_dup p l :
    after_redirect p = true -> starts_with AMP l = false ->
    managed (Some AMP) l -> managed p (AMP :: l)
| m_in p l : starts_with LT l = false -> managed (Some LT) l -> managed p (LT :: l).

Definition one_line (l : bytes) : Prop := NUL ∉ l /\ LF ∉ l /\ CR ∉ l.

(** Shell quoting: every byte with whether the shell sees it as unquoted and
    unescaped. *)
Fixpoint roles (quote : ascii) (l : bytes) : list (ascii * bool) :=
  match l with
  | [] => []
  | c :: rest =>
      if Ascii.eqb quote SQ then
        (c, false) :: roles (if Ascii.eqb c SQ then NUL else quote) rest
      else if Ascii.eqb quote DQ then
        match rest with
        | c1 :: rest1 =>
            if Ascii.eqb c BS then (c, false) :: (c1, false) :: roles quote rest1
            else (c, false) :: roles (if Ascii.eqb c DQ then NUL else quote) rest
        | [] => [(c, false)]
        end
      else if Ascii.eqb c SQ || Ascii.eqb c DQ then (c, false) :: roles c rest
      else if Ascii.eqb c BS then
        match rest with
        | c1 :: rest1 => (c, true) :: (c1, false) :: roles quote rest1
        | [] => [(c, true)]
        end
      else (c, true) :: roles quote rest
  end.

(** The text ends in a backslash that escapes whatever follows. *)
Definition dangles (rs : list (ascii * bool)) : bool :=
  match last rs with Some (c, true) => Ascii.eqb c BS | _ => false end.

Definition dangling (text : string) : bool := dangles (roles NUL (to_bytes text)).

(** ** Lemmas *)

Lemma lex_unquoted_nil p : lex NUL p [] = None.
Proof. done. Qed.

Lemma lex_single_open body p l :
  SQ ∉ body -> lex SQ p (body ++ (SQ :: l)) = lex NUL (Some SQ) l.
Proof.
  revert p. induction body as [|c body IH]; intros p Hn; simpl; [done|].
  apply not_elem_of_cons in Hn as [Hc Hn].
  destruct (Ascii.eqb c SQ) eqn:E; bools; [by subst|]. by apply IH.
Qed.

Lemma lex_single_inv l p :
  lex SQ p l = None ->
  exists body rest, l = body ++ (SQ :: rest) /\ SQ ∉ body /\ lex NUL (Some SQ) rest = None.
Proof.
  revert p. induction l as [|c l IH]; intros p H; simpl in H; [done|].
  destruct (Ascii.eqb c SQ) eqn:E; bools.
  - subst. exists [], l. split; [done|]. split; [apply not_elem_of_nil|done].
  - destruct (IH _ H) as (body & rest & -> & Hn & Hr).
    exists (c :: body), rest. split; [done|]. split; [|done].
    apply not_elem_of_cons. done.
Qed.

Lemma lex_double_open body p l :
  dq_body body -> lex DQ p (body ++ (DQ :: l)) = lex NUL (Some DQ) l.
Proof.
  intros H. revert p. induction H as [|c body Hq Hb _ IH|c body _ IH]; intros p.
  - simpl. by destruct l.
  - simpl. rewrite (proj2 (Ascii.eqb_neq _ _) Hb), (proj2 (Ascii.eqb_neq _ _) Hq).
    rewrite IH. by destruct (body ++ _) eqn:E; [destruct body|].
  - simpl. apply IH.
Qed.

Lemma lex_double_inv n l p :
  (length l <= n)%nat -> lex DQ p l = None ->
  exists body rest, l = body ++ (DQ :: rest) /\ dq_body body /\ lex NUL (Some DQ) rest = None.
Proof.
  revert l p. induction n as [|n IH]; intros l p Hn H; destruct l as [|c l]; try done;
    [simpl in Hn; lia|].
  simpl in Hn. destruct (Ascii.eqb c BS) eqn:Eb.
  - bools. subst. destruct l as [|c1 l]; [done|]. simpl in H, Hn.
    destruct (IH l (Some c1)) as (body & rest & -> & Hd & Hr); [lia|done|].
    exists (BS :: c1 :: body), rest. split; [done|]. split; [by constructor|done].
  - assert (lex (if Ascii.eqb c DQ then NUL else DQ) (Some c) l = None) as H'.
    { simpl in H. destruct l; [done|]. by rewrite Eb in H. }
    destruct (Ascii.eqb c DQ) eqn:Eq; bools.
    + subst. exists [], l. split; [done|]. split; [constructor|done].
    + destruct (IH l (Some c)) as (body & rest & -> & Hd & Hr); [lia|done|].
      exists (c :: body), rest. split; [done|]. split; [by constructor|done].
Qed.

Lemma not_special c :
  special c = false ->
  Ascii.eqb c SQ = false /\ Ascii.eqb c DQ = false /\ Ascii.eqb c BS = false /\
  Ascii.eqb c AMP = false /\ Ascii.eqb c LT = false.
Proof. unfold special. intros H. bools. by rewrite !Ascii.eqb_neq. Qed.

Lemma lex_plain p c l : special c = false -> lex NUL p (c :: l) = lex NUL (Some c) l.
Proof.
  intros (E1 & E2 & E3 & E4 & E5)%not_special.
  cbn [lex]. rewrite E1, E2, E3, E4, E5. done.
Qed.

Lemma managed_lex p l : managed p l -> lex NUL p l = None.
Proof.
  induction 1 as [p|p c l Hs _ IH|p body l Hb _ IH|p body l Hb _ IH|p c l _ IH|p
                 |p l _ IH|p l Hr Hs _ IH|p l Hs _ IH].
  - done.
  - by rewrite lex_plain.
  - simpl. by rewrite lex_single_open.
  - simpl. by rewrite lex_double_open.
  - done.
  - done.
  - done.
  - simpl. rewrite Hr, IH. destruct l as [|c l]; [done|]. simpl in Hs. by rewrite Hs.
  - simpl. rewrite IH. destruct l as [|c l]; [done|]. simpl in Hs. by rewrite Hs.
Qed.

Lemma lex_managed n p l : (length l <= n)%nat -> lex NUL p l = None -> managed p l.
Proof.
  revert p l. induction n as [|n IH]; intros p l Hn H;
    (destruct l as [|c l]; [constructor|]); simpl in Hn; [lia|].
  destruct (special c) eqn:Hs.
  2: { constructor; [done|]. rewrite lex_plain in H by done. apply IH; [lia|done]. }
  unfold special in Hs. rewrite !orb_true_iff, !Ascii.eqb_eq in Hs.
  destruct Hs as [[[[->| ->]| ->]| ->]| ->]; simpl in H.
  - apply lex_single_inv in H as (body & rest & -> & Hb & Hr).
    rewrite length_app in Hn. simpl in Hn. apply m_single; [done|]. apply IH; [lia|done].
  - apply (lex_double_inv (length l)) in H as (body & rest & -> & Hb & Hr); [|done].
    rewrite length_app in Hn. simpl in Hn. apply m_double; [done|]. apply IH; [lia|done].
  - destruct l as [|c1 l]; [apply m_last_backslash|]. apply m_escape. simpl in Hn.
    apply IH; [lia|done].
  - destruct l as [|c1 l].
    + destruct (after_redirect p) eqn:Hp; [|done]. by apply m_dup; [..|constructor].
    + simpl in Hn. destruct (Ascii.eqb c1 AMP) eqn:E.
      * bools. subst. apply m_and. apply IH; [lia|done].
      * destruct (after_redirect p) eqn:Hp; [|done]. apply m_dup; [done|done|].
        apply IH; [simpl; lia|done].
  - destruct l as [|c1 l]; [by apply m_in; [|constructor]|].
    destruct (Ascii.eqb c1 LT) eqn:E; [done|]. apply m_in; [done|].
    apply IH; [simpl in *; lia|done].
Qed.

Lemma check_line_spec l : check_line l = None <-> one_line l.
Proof.
  unfold one_line. induction l as [|c l IH]; simpl.
  - split; [|done]. intros _. repeat split; apply not_elem_of_nil.
  - rewrite !not_elem_of_cons.
    destruct (Ascii.eqb c NUL) eqn:E1; bools; [naive_solver|].
    destruct (Ascii.eqb c LF || Ascii.eqb c CR) eqn:E2; bools.
    + apply orb_true_iff in E2 as [E2|E2]; bools; naive_solver.
    + rewrite IH. naive_solver.
Qed.

(** *** Roles of appended text *)

(** More than one line, or NUL, is refused. *)
Lemma multiline_unmanaged text : ~ one_line (to_bytes text) -> ValidateManaged text <> None.
Proof.
  intros H. unfold ValidateManaged. rewrite <-check_line_spec in H. by destruct (check_line (to_bytes text)).
Qed.

Lemma roles_single body l :
  SQ ∉ body ->
  roles SQ (body ++ (SQ :: l)) = ((fun c => (c, false)) <$> body) ++ ((SQ, false) :: roles NUL l).
Proof.
  induction body as [|c body IH]; intros Hn; simpl; [done|].
  apply not_elem_of_cons in Hn as [Hc Hn].
  destruct (Ascii.eqb c SQ) eqn:E; bools; [by subst|]. by rewrite IH.
Qed.

Lemma roles_double body l :
  dq_body body ->
  roles DQ (body ++ (DQ :: l)) = ((fun c => (c, false)) <$> body) ++ ((DQ, false) :: roles NUL l).
Proof.
  induction 1 as [|c body Hq Hb _ IH|c body _ IH].
  - simpl. by destruct l.
  - simpl. rewrite (proj2 (Ascii.eqb_neq _ _) Hb), (proj2 (Ascii.eqb_neq _ _) Hq).
    rewrite IH. by destruct (body ++ _) eqn:E; [destruct body|].
  - simpl. by rewrite IH.
Qed.

Lemma roles_plain c l :
  Ascii.eqb c SQ = false -> Ascii.eqb c DQ = false -> Ascii.eqb c BS = false ->
  roles NUL (c :: l) = (c, true) :: roles NUL l.
Proof. intros E1 E2 E3. cbn [roles]. rewrite E1, E2, E3. done. Qed.

Lemma last_role (x : ascii * bool) (l : list (ascii * bool)) :
  l <> [] -> last (x :: l) = last l.
Proof. by destruct l. Qed.

Lemma dangles_cons x rs :
  (snd x = false \/ Ascii.eqb (fst x) BS = false) -> dangles (x :: rs) = dangles rs.
Proof.
  destruct x as [c act]. unfold dangles. intros Hx. destruct rs; [|done]. simpl in *.
  destruct act; [|done]. by destruct Hx as [?| ->].
Qed.

Lemma dangles_quoted body x rs :
  snd x = false -> dangles (((fun c : ascii => (c, false)) <$> body) ++ (x :: rs)) = dangles rs.
Proof.
  intros Hx. induction body as [|c body IH]; simpl.
  - apply dangles_cons. auto.
  - rewrite dangles_cons by auto. apply IH.
Qed.

Lemma roles_append p l s :
  managed p l ->
  roles NUL (l ++ (";"%char :: s)) =
  roles NUL l ++ ((";"%char, negb (dangles (roles NUL l))) :: roles NUL s).
Proof.
  induction 1 as [p|p c l Hs _ IH|p body l Hb _ IH|p body l Hb _ IH|p c l _ IH|p
                 |p l _ IH|p l Hr Hs _ IH|p l Hs _ IH].
  - done.
  - apply not_special in Hs as (E1 & E2 & E3 & _).
    cbn [app]. rewrite !roles_plain by done. rewrite IH, dangles_cons by auto. done.
  - rewrite <- app_comm_cons, <- app_assoc, <- app_comm_cons.
    cbn [roles Ascii.eqb]. simpl. rewrite !roles_single by done.
    rewrite IH, dangles_cons, dangles_quoted by auto. by rewrite <- app_assoc.
  - rewrite <- app_comm_cons, <- app_assoc, <- app_comm_cons.
    simpl. rewrite !roles_double by done.
    rewrite IH, dangles_cons, dangles_quoted by auto. by rewrite <- app_assoc.
  - simpl. rewrite IH. do 2 f_equal.
    destruct (roles NUL l) as [|x rs] eqn:E; [done|]. done.
  - done.
  - cbn [app]. rewrite !roles_plain by done. rewrite IH, !dangles_cons by auto. done.
  - cbn [app]. rewrite !roles_plain by done. rewrite IH, !dangles_cons by auto. done.
  - cbn [app]. rewrite !roles_plain by done. rewrite IH, !dangles_cons by auto. done.
Qed.

(** ** Properties *)

(** C33. [ValidateManaged] accepts exactly the lines of the contract: one
    physical line without NUL that is a sequence of plain bytes, escapes,
    balanced single and double quotes, "&&", an "&" right after "<" or ">", and
    "<" not followed by another "<". NUL and line breaks are reported before
    any lexical error. *)
Theorem ValidateManaged_grammar text :
  (ValidateManaged text = None <->
     one_line (to_bytes text) /\ managed None (to_bytes text)) /\
  (~ one_line (to_bytes text) ->
     ValidateManaged text = Some ErrContainsNUL \/ ValidateManaged text = Some ErrMultiline).
Proof.
  unfold ValidateManaged. rewrite <- check_line_spec.
  destruct (check_line (to_bytes text)) as [e|] eqn:E; split.
  - split; [done|]. by intros [??].
  - intros _. revert E. generalize (to_bytes text) as l.
    induction l as [|c l IH]; simpl; [done|]. repeat case_match; naive_solver.
  - split; [intros H; split; [done|by eapply lex_managed]|].
    intros [_ H]. by apply managed_lex.
  - done.
Qed.

(** Where the completion marker lands. For every accepted command text,
    whatever is appended after ";" is read by the shell outside quotes, byte
    for byte as it would be on its own, and the ";" itself is an operator
    exactly when the text does not end in an unescaped backslash. *)
Theorem appended_text_unquoted text s :
  ValidateManaged text = None ->
  roles NUL (to_bytes text ++ (";"%char :: s)) =
  roles NUL (to_bytes text) ++ ((";"%char, negb (dangling text)) :: roles NUL s).
Proof.
  intros H. apply (roles_append None). apply lex_managed with (n := length (to_bytes text));
    [done|]. unfold ValidateManaged in H. by destruct (check_line _).
Qed.

Lemma appended_text_unquoted_witness :
  ValidateManaged "echo 'a;b' 2>&1" = None /\
  roles NUL (to_bytes "echo 'a;b' 2>&1" ++ (";"%char :: to_bytes " printf x")) =
  roles NUL (to_bytes "echo 'a;b' 2>&1") ++
    ((";"%char, true) :: roles NUL (to_bytes " printf x")).
Proof.
  split; [reflexivity|].
  exact (appended_text_unquoted "echo 'a;b' 2>&1" (to_bytes " printf x") eq_refl).
Defined.

(** A text the contract accepts although its marker cannot work: "ls \"
    ends in a backslash that escapes the appended ";", so the rest of the line
    is arguments of ls and no marker is printed. *)
Theorem trailing_backslash_accepted s :
  ValidateManaged "ls \" = None /\
  roles NUL (to_bytes "ls \" ++ (";"%char :: s)) =
    [("l", true); ("s", true); (" ", true); ("\", true); (";", false)]%char ++ roles NUL s.
Proof. split; reflexivity. Qed.

(** A background list the contract accepts: in "sleep 9 \>&" the ">" is
    escaped, so the final unquoted "&" is an operator that starts a background
    job, but the lexer looks at the raw byte before it and takes it for a
    file-descriptor duplication. *)
Theorem escaped_redirect_background_accepted :
  ValidateManaged "sleep 9 \>&" = None /\
  last (roles NUL (to_bytes "sleep 9 \>&")) = Some (AMP, true) /\
  last (removelast (roles NUL (to_bytes "sleep 9 \>&"))) = Some (GT, false).
Proof. repeat split; reflexivity. Qed.
