(* ===== verification/Command.v ===== *)
(** * Command store (src/internal/core/command/types.go, store.go)

    Proposals, transactions and results, and the store's operations. The
    clock readings ([s.now()]) and the random text of new identifiers are
    inputs of the operations that take them. Times are nanoseconds. *)

From S2P Require Import Prelude GoStd Session Validate.

(** ** Data *)

Definition MaxDiagnosticTimeoutMS : Z := 300000.

Inductive ProposalState :=
| ProposalPending | ProposalRejected | ProposalExpired | ProposalReplaced
| ProposalApproved.

#[export] Instance ProposalState_eq_dec : EqDecision ProposalState.
Proof. solve_decision. Defined.

Record Proposal := {
  prop_ID : string;
  prop_SessionID : string;
  prop_Transport : string;
  prop_Board : string;
  prop_Text : string;
  prop_Purpose : string;
  prop_Timeout : Z;
  CreatedAt : Z;
  ExpiresAt : Z;
  prop_State : ProposalState;
  ReplacesID : string;
  Advisory : string
}.

Record Transaction := {
  tx_ID : string;
  tx_SourceProposalID : string;
  tx_SessionID : string;
  tx_Transport : string;
  tx_Board : string;
  tx_Text : string;
  tx_Timeout : Z;
  ApprovedAt : Z
}.

Inductive Status :=
| StatusCompleted | StatusTimeout | StatusDisconnected | StatusInterruptedByUser
| StatusProtocolError | StatusTargetRebooted | StatusDaemonRestarted.

#[export] Instance Status_eq_dec : EqDecision Status.
Proof. solve_decision. Defined.

Record Result := {
  TransactionID : string;
  SourceProposalID : string;
  res_Status : Status;
  ExitCode : option Z;
  Duration : Z;
  Output : bytes;
  OutputTruncatedStart : bool;
  ContextBefore : bytes;
  ContextAfter : bytes;
  CompletedAt : Z
}.

Inductive StoreError :=
| ErrNotFound | ErrNotPending | ErrExpired | ErrAlreadyCompleted
| ErrInvalid (e : ValidateError).

#[export] Instance StoreError_eq_dec : EqDecision StoreError.
Proof. solve_decision. Defined.

Definition defaultInteractivePatterns : list string :=
  ["vi"; "vim"; "nano"; "top"; "htop"; "less"; "more"; "man"; "menuconfig"]%string.

Record Input := {
  in_SessionID : string; in_Transport : string; in_Board : string;
  in_Text : string; in_Purpose : string; in_Timeout : Z
}.

Record Store := {
  proposals : gmap string Proposal;
  transactions : gmap string Transaction;
  results : gmap string Result;
  proposalTTL : Z;
  interactivePatterns : list string
}.

(** ** Field updates ([p.State = st], [s.proposals = ps], ...) *)

Definition with_state (st : ProposalState) (p : Proposal) : Proposal :=
  {| prop_ID := prop_ID p; prop_SessionID := prop_SessionID p;
     prop_Transport := prop_Transport p; prop_Board := prop_Board p;
     prop_Text := prop_Text p; prop_Purpose := prop_Purpose p;
     prop_Timeout := prop_Timeout p; CreatedAt := CreatedAt p;
     ExpiresAt := ExpiresAt p; prop_State := st; ReplacesID := ReplacesID p;
     Advisory := Advisory p |}.

Definition with_source (src : string) (r : Result) : Result :=
  {| TransactionID := TransactionID r; SourceProposalID := src;
     res_Status := res_Status r; ExitCode := ExitCode r; Duration := Duration r;
     Output := Output r; OutputTruncatedStart := OutputTruncatedStart r;
     ContextBefore := ContextBefore r; ContextAfter := ContextAfter r;
     CompletedAt := CompletedAt r |}.

Definition with_proposals (ps : gmap string Proposal) (s : Store) : Store :=
  {| proposals := ps; transactions := transactions s; results := results s;
     proposalTTL := proposalTTL s; interactivePatterns := interactivePatterns s |}.

Definition with_transactions (ts : gmap string Transaction) (s : Store) : Store :=
  {| proposals := proposals s; transactions := ts; results := results s;
     proposalTTL := proposalTTL s; interactivePatterns := interactivePatterns s |}.

Definition with_results (rs : gmap string Result) (s : Store) : Store :=
  {| proposals := proposals s; transactions := transactions s; results := rs;
     proposalTTL := proposalTTL s; interactivePatterns := interactivePatterns s |}.

Definition WithProposalTTL (d : Z) (s : Store) : Store :=
  {| proposals := proposals s; transactions := transactions s; results := results s;
     proposalTTL := d; interactivePatterns := interactivePatterns s |}.

Definition WithInteractivePatterns (patterns : list string) (s : Store) : Store :=
  {| proposals := proposals s; transactions := transactions s; results := results s;
     proposalTTL := proposalTTL s; interactivePatterns := patterns |}.

(** [store.proposals[id].State = st]. *)
Definition mark (id : string) (st : ProposalState) (s : Store) : Store :=
  with_proposals (alter (with_state st) id (proposals s)) s.

(** ** Operations *)

Definition second : Z := 1000000000.
Definition minute : Z := 60 * second.

Definition NewStore (opts : list (Store -> Store)) : Store :=
  foldl (fun s opt => opt s)
    {| proposals := ∅; transactions := ∅; results := ∅; proposalTTL := 5 * minute;
       interactivePatterns := defaultInteractivePatterns |} opts.

Definition advisoryFor (text : string) (s : Store) : string :=
  match Fields text with
  | [] => ""
  | name :: _ =>
      if existsb (String.eqb name) (interactivePatterns s)
      then of_bytes [ascii_of_nat 34] +:+ name +:+ of_bytes [ascii_of_nat 34] +:+
           " commonly runs as a full-screen interactive " +:+
           "program; this warning is advisory only, cannot detect arbitrary " +:+
           "interactive scripts, and forced takeover remains the recovery " +:+
           "mechanism."
      else ""
  end.

Definition Propose (now : Z) (rnd : string) (inp : Input) (s : Store)
  : Store * result StoreError Proposal :=
  match ValidateManaged (in_Text inp) with
  | Some e => (s, Err (ErrInvalid e))
  | None =>
      let p := {| prop_ID := New "prop" rnd; prop_SessionID := in_SessionID inp;
                  prop_Transport := in_Transport inp; prop_Board := in_Board inp;
                  prop_Text := in_Text inp; prop_Purpose := in_Purpose inp;
                  prop_Timeout := in_Timeout inp; CreatedAt := now;
                  ExpiresAt := now + proposalTTL s; prop_State := ProposalPending;
                  ReplacesID := ""; Advisory := advisoryFor (in_Text inp) s |} in
      (with_proposals (<[prop_ID p := p]> (proposals s)) s, Ok p)
  end.

Definition Edit (now : Z) (rnd : string) (proposalID text purpose : string) (s : Store)
  : Store * result StoreError Proposal :=
  match ValidateManaged text with
  | Some e => (s, Err (ErrInvalid e))
  | None =>
      match proposals s !! proposalID with
      | None => (s, Err ErrNotFound)
      | Some old =>
          if decide (prop_State old <> ProposalPending) then (s, Err ErrNotPending)
          else
            let s1 := mark proposalID ProposalReplaced s in
            let next := {| prop_ID := New "prop" rnd; prop_SessionID := prop_SessionID old;
                           prop_Transport := prop_Transport old; prop_Board := prop_Board old;
                           prop_Text := text; prop_Purpose := purpose;
                           prop_Timeout := prop_Timeout old; CreatedAt := now;
                           ExpiresAt := now + proposalTTL s; prop_State := ProposalPending;
                           ReplacesID := prop_ID old; Advisory := advisoryFor text s |} in
            (with_proposals (<[prop_ID next := next]> (proposals s1)) s1, Ok next)
      end
  end.

Definition Reject (proposalID : string) (s : Store) : Store * option StoreError :=
  match proposals s !! proposalID with
  | None => (s, Some ErrNotFound)
  | Some p =>
      if decide (prop_State p <> ProposalPending) then (s, Some ErrNotPending)
      else (mark proposalID ProposalRejected s, None)
  end.

(** [now1] and [now2] are the two clock readings: the expiry check and the
    approval time. *)
Definition Approve (now1 now2 : Z) (rnd : string) (proposalID : string) (s : Store)
  : Store * result StoreError Transaction :=
  match proposals s !! proposalID with
  | None => (s, Err ErrNotFound)
  | Some p =>
      if decide (prop_State p <> ProposalPending) then (s, Err ErrNotPending)
      else if ExpiresAt p <? now1 then
        (mark proposalID ProposalExpired s, Err ErrExpired)
      else
        let s1 := mark proposalID ProposalApproved s in
        let tx := {| tx_ID := New "txn" rnd; tx_SourceProposalID := prop_ID p;
                     tx_SessionID := prop_SessionID p; tx_Transport := prop_Transport p;
                     tx_Board := prop_Board p; tx_Text := prop_Text p;
                     tx_Timeout := prop_Timeout p; ApprovedAt := now2 |} in
        (with_transactions (<[tx_ID tx := tx]> (transactions s1)) s1, Ok tx)
  end.

Definition pending_in (sessionID : string) (p : Proposal) : bool :=
  String.eqb (prop_SessionID p) sessionID && bool_decide (prop_State p = ProposalPending).

Definition InvalidateSession (sessionID : string) (s : Store) : Store :=
  with_proposals
    ((fun p => if pending_in sessionID p then with_state ProposalExpired p else p)
       <$> proposals s) s.

(** In Go's map order, which is unspecified. *)
Definition PendingForSession (sessionID : string) (s : Store) : list Proposal :=
  List.filter (pending_in sessionID) (snd <$> map_to_list (proposals s)).

Definition CompleteTransaction (res : Result) (s : Store) : Store * option StoreError :=
  match transactions s !! TransactionID res with
  | None => (s, Some ErrNotFound)
  | Some tx =>
      match results s !! tx_ID tx with
      | Some _ => (s, Some ErrAlreadyCompleted)
      | None =>
          (with_results (<[tx_ID tx := with_source (tx_SourceProposalID tx) res]> (results s)) s,
           None)
      end
  end.

(** [Store.Result]. *)
Definition GetResult (transactionID : string) (s : Store) : result StoreError Result :=
  match results s !! transactionID with
  | Some r => Ok r
  | None => Err ErrNotFound
  end.

(** ** Invariant and steps *)

Definition snapshot_of (t : Transaction) (p : Proposal) : Prop :=
  tx_SourceProposalID t = prop_ID p /\ tx_SessionID t = prop_SessionID p /\
  tx_Transport t = prop_Transport p /\ tx_Board t = prop_Board p /\
  tx_Text t = prop_Text p /\ tx_Timeout t = prop_Timeout p.

(** Every record sits under its own identifier; every command text obeys the
    managed contract; every transaction is the snapshot of the approved
    proposal it names, which no other transaction names; every result belongs
    to a transaction and carries that transaction's proposal. *)
Record store_ok (s : Store) : Prop := {
  ok_prop_id : forall k p, proposals s !! k = Some p -> prop_ID p = k;
  ok_prop_text : forall k p, proposals s !! k = Some p -> ValidateManaged (prop_Text p) = None;
  ok_tx_id : forall k t, transactions s !! k = Some t -> tx_ID t = k;
  ok_tx_snapshot : forall k t, transactions s !! k = Some t ->
    exists p, proposals s !! tx_SourceProposalID t = Some p /\
              prop_State p = ProposalApproved /\ snapshot_of t p;
  ok_tx_single : forall k1 k2 t1 t2,
    transactions s !! k1 = Some t1 -> transactions s !! k2 = Some t2 ->
    tx_SourceProposalID t1 = tx_SourceProposalID t2 -> k1 = k2;
  ok_result : forall k r, results s !! k = Some r ->
    TransactionID r = k /\
    exists t, transactions s !! k = Some t /\ SourceProposalID r = tx_SourceProposalID t
}.

(** One call of the store, with new identifiers that are not in use. *)
Inductive store_step (s : Store) : Store -> Prop :=
| st_propose now rnd inp :
    proposals s !! New "prop" rnd = None -> store_step s (fst (Propose now rnd inp s))
| st_edit now rnd pid text purpose :
    proposals s !! New "prop" rnd = None ->
    store_step s (fst (Edit now rnd pid text purpose s))
| st_reject pid : store_step s (fst (Reject pid s))
| st_approve now1 now2 rnd pid :
    transactions s !! New "txn" rnd = None ->
    store_step s (fst (Approve now1 now2 rnd pid s))
| st_invalidate sid : store_step s (InvalidateSession sid s)
| st_complete res : store_step s (fst (CompleteTransaction res s)).

(** What a step may do to the proposal stored under a key. *)
Definition prop_evolves (o o' : option Proposal) : Prop :=
  match o with
  | Some p =>
      exists st, o' = Some (with_state st p) /\
                 (prop_State p <> ProposalPending -> st = prop_State p)
  | None => True
  end.

(** Nothing recorded is ever lost or rewritten: a proposal keeps its content
    and, once decided, its state; transactions and results never change. *)
Record store_grows (s s' : Store) : Prop := {
  grow_prop : forall k, prop_evolves (proposals s !! k) (proposals s' !! k);
  grow_tx : forall k t, transactions s !! k = Some t -> transactions s' !! k = Some t;
  grow_res : forall k r, results s !! k = Some r -> results s' !! k = Some r
}.

(** ** Lemmas *)

Lemma with_state_id p : with_state (prop_State p) p = p.
Proof. by destruct p. Qed.

Lemma with_state_twice st1 st2 p : with_state st2 (with_state st1 p) = with_state st2 p.
Proof. done. Qed.

Lemma lookup_mark id st s k :
  proposals (mark id st s) !! k =
  if decide (id = k) then with_state st <$> proposals s !! k else proposals s !! k.
Proof. unfold mark. simpl. rewrite lookup_alter. by case_decide; simplify_eq. Qed.

Lemma prop_evolves_refl o : prop_evolves o o.
Proof. destruct o as [p|]; simpl; [|done]. exists (prop_State p). by rewrite with_state_id. Qed.

#[export] Hint Resolve prop_evolves_refl : gw.

Lemma prop_evolves_trans o1 o2 o3 :
  prop_evolves o1 o2 -> prop_evolves o2 o3 -> prop_evolves o1 o3.
Proof.
  destruct o1 as [p|]; simpl; [|done].
  intros (st & -> & H1) (st' & -> & H2). simpl in H2. exists st'.
  split; [done|]. intros Hp. specialize (H1 Hp). subst. auto.
Qed.

Lemma store_grows_refl s : store_grows s s.
Proof. by split; intros; auto with gw. Qed.

Lemma mark_grows id st s :
  (forall p, proposals s !! id = Some p -> prop_State p = ProposalPending) ->
  forall k, prop_evolves (proposals s !! k) (proposals (mark id st s) !! k).
Proof.
  intros Hp k. rewrite lookup_mark. case_decide; [|auto with gw]. subst.
  destruct (proposals s !! k) as [p|]; simpl; [|done].
  exists st. split; [done|]. intros Hn. by destruct Hn; apply Hp.
Qed.

Lemma insert_grows id p s :
  proposals s !! id = None ->
  forall k, prop_evolves (proposals s !! k) (<[id := p]> (proposals s) !! k).
Proof.
  intros Hn k. destruct (decide (id = k)) as [->|Hne].
  - by rewrite Hn.
  - rewrite lookup_insert_ne by done. auto with gw.
Qed.

Lemma store_grows_trans s1 s2 s3 : store_grows s1 s2 -> store_grows s2 s3 -> store_grows s1 s3.
Proof. intros [] []. split; eauto using prop_evolves_trans. Qed.

Lemma Propose_grows now rnd inp s :
  proposals s !! New "prop" rnd = None -> store_grows s (fst (Propose now rnd inp s)).
Proof.
  intros Hn. unfold Propose. case_match; [apply store_grows_refl|].
  split; simpl; [|done|done]. by apply insert_grows.
Qed.

Lemma Edit_grows now rnd pid text purpose s :
  proposals s !! New "prop" rnd = None -> store_grows s (fst (Edit now rnd pid text purpose s)).
Proof.
  intros Hn. unfold Edit. case_match; [apply store_grows_refl|].
  destruct (proposals s !! pid) as [old|] eqn:Hold; [|apply store_grows_refl].
  case_decide as Hp; [apply store_grows_refl|].
  split; simpl; [|done|done]. intros k.
  eapply prop_evolves_trans; [apply (mark_grows pid ProposalReplaced); naive_solver|].
  apply (insert_grows _ _ (mark pid ProposalReplaced s)).
  rewrite lookup_mark, Hn. by case_decide.
Qed.

Lemma mark_store_grows pid p st s :
  proposals s !! pid = Some p -> prop_State p = ProposalPending ->
  store_grows s (mark pid st s).
Proof. intros Hl Hp. split; [|done|done]. apply mark_grows. naive_solver. Qed.

Lemma Reject_grows pid s : store_grows s (fst (Reject pid s)).
Proof.
  unfold Reject. destruct (proposals s !! pid) as [p|] eqn:Hp; [|apply store_grows_refl].
  case_decide as Hs; [apply store_grows_refl|].
  by eapply mark_store_grows.
Qed.

Lemma Approve_grows now1 now2 rnd pid s :
  transactions s !! New "txn" rnd = None -> store_grows s (fst (Approve now1 now2 rnd pid s)).
Proof.
  intros Hn. unfold Approve.
  destruct (proposals s !! pid) as [p|] eqn:Hp; [|apply store_grows_refl].
  case_decide as Hs; [apply store_grows_refl|].
  case_match; [by eapply mark_store_grows|].
  destruct (mark_store_grows pid p ProposalApproved s Hp Hs) as [Hgp _ _].
  split; simpl; [done| |done]. intros k t Ht. rewrite lookup_insert_ne; congruence.
Qed.

Lemma InvalidateSession_grows sid s : store_grows s (InvalidateSession sid s).
Proof.
  split; simpl; [|done|done]. intros k. rewrite lookup_fmap.
  destruct (proposals s !! k) as [p|]; simpl; [|done].
  destruct (pending_in sid p) eqn:E.
  - exists ProposalExpired. split; [done|]. unfold pending_in in E. bools.
    by apply bool_decide_eq_true in H0.
  - exists (prop_State p). by rewrite with_state_id.
Qed.

Lemma CompleteTransaction_grows res s : store_grows s (fst (CompleteTransaction res s)).
Proof.
  unfold CompleteTransaction. case_match; [|apply store_grows_refl].
  case_match eqn:Hr; [apply store_grows_refl|].
  split; simpl; [auto with gw|done|]. intros k r Hk. rewrite lookup_insert_ne; congruence.
Qed.

#[export] Hint Resolve store_grows_refl Propose_grows Edit_grows Reject_grows Approve_grows
  InvalidateSession_grows CompleteTransaction_grows : gw.

Lemma store_step_grows s s' : store_step s s' -> store_grows s s'.
Proof. destruct 1; auto with gw. Qed.

Lemma store_run_grows s s' : rtc store_step s s' -> store_grows s s'.
Proof.
  induction 1; [apply store_grows_refl|]. eauto using store_grows_trans, store_step_grows.
Qed.

(** A proposal of the grown store that was there before is the old one in a
    possibly different state. *)
Lemma grows_lookup s s' k p :
  store_grows s s' -> proposals s !! k = Some p ->
  exists st, proposals s' !! k = Some (with_state st p) /\
             (prop_State p <> ProposalPending -> st = prop_State p).
Proof. intros [Hg _ _] Hk. specialize (Hg k). by rewrite Hk in Hg. Qed.

(** The three invariant clauses about transactions and results survive any
    change that only evolves proposals. *)
Lemma evolve_ok s s' :
  store_ok s -> store_grows s s' ->
  transactions s' = transactions s -> results s' = results s ->
  (forall k p, proposals s' !! k = Some p ->
     prop_ID p = k /\ ValidateManaged (prop_Text p) = None) ->
  store_ok s'.
Proof.
  intros Hok Hg Ht Hr Hp. split; rewrite ?Ht, ?Hr; try apply Hok.
  - intros. by apply Hp.
  - intros. by eapply Hp.
  - intros k t Hk. destruct (ok_tx_snapshot _ Hok _ _ Hk) as (p & Hl & Hs & Hsnap).
    destruct (grows_lookup _ _ _ _ Hg Hl) as (st & Hl' & Hst).
    exists (with_state st p). split; [done|]. split; [|done].
    simpl. rewrite Hst; congruence.
Qed.

Lemma mark_lookup_content id st s k p :
  proposals (mark id st s) !! k = Some p ->
  exists q st', proposals s !! k = Some q /\ p = with_state st' q.
Proof.
  rewrite lookup_mark. intros H. case_decide.
  - apply fmap_Some in H as (q & Hq & ->). eauto.
  - exists p, (prop_State p). by rewrite with_state_id.
Qed.

Lemma mark_ok id st p s :
  proposals s !! id = Some p -> prop_State p = ProposalPending ->
  store_ok s -> store_ok (mark id st s).
Proof.
  intros Hl Hp Hok. eapply evolve_ok; [done|by eapply mark_store_grows|done|done|].
  intros k q Hk. destruct (mark_lookup_content _ _ _ _ _ Hk) as (q' & st' & Hq & ->).
  simpl. split; by eapply Hok.
Qed.

Lemma insert_prop_ok p s :
  store_ok s -> proposals s !! prop_ID p = None -> ValidateManaged (prop_Text p) = None ->
  store_ok (with_proposals (<[prop_ID p := p]> (proposals s)) s).
Proof.
  intros Hok Hn Hv. eapply evolve_ok; [done| |done|done|].
  - split; simpl; [|done|done]. by apply insert_grows.
  - simpl. intros k q Hk. apply lookup_insert_Some in Hk as [[<- <-]|[Hne Hk]]; [done|].
    split; by eapply Hok.
Qed.

Lemma Propose_ok now rnd inp s :
  proposals s !! New "prop" rnd = None -> store_ok s -> store_ok (fst (Propose now rnd inp s)).
Proof. intros Hn Hok. unfold Propose. case_match; [done|]. by apply insert_prop_ok. Qed.

Lemma Edit_ok now rnd pid text purpose s :
  proposals s !! New "prop" rnd = None -> store_ok s ->
  store_ok (fst (Edit now rnd pid text purpose s)).
Proof.
  intros Hn Hok. unfold Edit. case_match; [done|].
  destruct (proposals s !! pid) as [old|] eqn:Hold; [|done].
  case_decide as Hp; [done|].
  apply insert_prop_ok; [by eapply mark_ok| |done].
  rewrite lookup_mark. change (prop_ID _) with (New "prop" rnd). rewrite Hn. by case_decide.
Qed.

Lemma Reject_ok pid s : store_ok s -> store_ok (fst (Reject pid s)).
Proof.
  intros Hok. unfold Reject. destruct (proposals s !! pid) as [p|] eqn:Hp; [|done].
  case_decide as Hs; [done|]. by eapply mark_ok.
Qed.

Lemma Approve_ok now1 now2 rnd pid s :
  transactions s !! New "txn" rnd = None -> store_ok s ->
  store_ok (fst (Approve now1 now2 rnd pid s)).
Proof.
  intros Hn Hok. unfold Approve.
  destruct (proposals s !! pid) as [p|] eqn:Hp; [|done].
  case_decide as Hs; [done|].
  case_match; [by eapply mark_ok|].
  pose proof (mark_ok _ ProposalApproved _ _ Hp Hs Hok) as Hok'.
  pose proof (ok_prop_id _ Hok _ _ Hp) as Hid.
  assert (Hnew : forall k t, transactions s !! k = Some t -> tx_SourceProposalID t <> prop_ID p).
  { intros k t Ht Heq. destruct (ok_tx_snapshot _ Hok _ _ Ht) as (q & Hq & Ha & _).
    rewrite Heq, Hid, Hp in Hq. injection Hq as <-. congruence. }
  split; simpl; try apply Hok'.
  - intros k t Hk. apply lookup_insert_Some in Hk as [[<- <-]|[_ Hk]]; [done|]. by apply Hok.
  - intros k t Hk. apply lookup_insert_Some in Hk as [[<- <-]|[_ Hk]]; [|by eapply Hok'].
    simpl. exists (with_state ProposalApproved p). rewrite Hid, lookup_alter, decide_True by done.
    rewrite Hp. done.
  - intros k1 k2 t1 t2 H1 H2 Heq.
    apply lookup_insert_Some in H1 as [[<- <-]|[_ H1]];
      apply lookup_insert_Some in H2 as [[<- <-]|[_ H2]]; [done| | |by eapply Hok].
    + by destruct (Hnew _ _ H2).
    + by destruct (Hnew _ _ H1).
  - intros k r Hk. destruct (ok_result _ Hok _ _ Hk) as (Hid' & t & Ht & Hs').
    split; [done|]. exists t. split; [|done]. rewrite lookup_insert_ne; congruence.
Qed.

Lemma InvalidateSession_ok sid s : store_ok s -> store_ok (InvalidateSession sid s).
Proof.
  intros Hok. eapply evolve_ok; [done|apply InvalidateSession_grows|done|done|].
  simpl. intros k p Hk. rewrite lookup_fmap in Hk. apply fmap_Some in Hk as (q & Hq & ->).
  case_match; simpl; split; by eapply Hok.
Qed.

Lemma CompleteTransaction_ok res s : store_ok s -> store_ok (fst (CompleteTransaction res s)).
Proof.
  intros Hok. unfold CompleteTransaction.
  destruct (transactions s !! _) as [tx|] eqn:Ht; [|done]. case_match; [done|].
  pose proof (ok_tx_id _ Hok _ _ Ht) as Hid.
  split; simpl; try apply Hok.
  intros k r Hk. apply lookup_insert_Some in Hk as [[<- <-]|[_ Hk]]; [|by apply Hok].
  simpl. split; [done|]. exists tx. by rewrite Hid.
Qed.

#[export] Hint Resolve Propose_ok Edit_ok Reject_ok Approve_ok InvalidateSession_ok
  CompleteTransaction_ok : gw.

Lemma store_step_ok s s' : store_step s s' -> store_ok s -> store_ok s'.
Proof. destruct 1; auto with gw. Qed.

Lemma NewStore_ok ttl : store_ok (NewStore [WithProposalTTL ttl]).
Proof. split; intros *; simpl; by rewrite lookup_empty. Qed.

Lemma NewStore_default_ok : store_ok (NewStore []).
Proof. split; intros *; simpl; by rewrite lookup_empty. Qed.

(** The store after a successful approval. *)
Lemma Approve_Ok_inv now1 now2 rnd pid s s1 tx :
  Approve now1 now2 rnd pid s = (s1, Ok tx) ->
  exists p, proposals s !! pid = Some p /\ prop_State p = ProposalPending /\
    now1 <= ExpiresAt p /\ snapshot_of tx p /\ tx_ID tx = New "txn" rnd /\
    proposals s1 !! pid = Some (with_state ProposalApproved p) /\
    transactions s1 = <[tx_ID tx := tx]> (transactions s) /\ results s1 = results s.
Proof.
  unfold Approve. destruct (proposals s !! pid) as [p|] eqn:Hp; [|done].
  case_decide as Hs; [done|]. case_match; [done|]. bools. intros [= <- <-].
  exists p. simpl. rewrite lookup_alter, decide_True, Hp by done. by repeat split.
Qed.

Lemma CompleteTransaction_None_inv res s s1 :
  CompleteTransaction res s = (s1, None) ->
  exists tx, transactions s !! TransactionID res = Some tx /\
    results s !! tx_ID tx = None /\
    s1 = with_results (<[tx_ID tx := with_source (tx_SourceProposalID tx) res]> (results s)) s.
Proof.
  unfold CompleteTransaction. intros H. repeat case_match; simplify_eq. eauto.
Qed.

(** No proposal of an invalidated session is pending. *)
Lemma PendingForSession_invalidated sid s : PendingForSession sid (InvalidateSession sid s) = [].
Proof.
  apply filter_none. intros q Hq. apply list_elem_of_fmap in Hq as ([k' q'] & -> & Hq).
  apply elem_of_map_to_list in Hq. simpl in *. rewrite lookup_fmap in Hq.
  apply fmap_Some in Hq as (q0 & _ & ->).
  destruct (pending_in sid q0) eqn:E; [|done]. unfold pending_in. simpl.
  by rewrite andb_false_r.
Qed.

(** ** A concrete history for the witnesses *)

Definition demo_input : Input :=
  {| in_SessionID := "sess-1"; in_Transport := "uart"; in_Board := "b";
     in_Text := "ps"; in_Purpose := "look"; in_Timeout := 5 * second |}.

Definition demo_store : Store := fst (Propose 0 "01" demo_input (NewStore [])).

Definition demo_approved : Store := fst (Approve 1 2 "02" "prop-01" demo_store).

Definition demo_tx : Transaction :=
  {| tx_ID := "txn-02"; tx_SourceProposalID := "prop-01"; tx_SessionID := "sess-1";
     tx_Transport := "uart"; tx_Board := "b"; tx_Text := "ps"; tx_Timeout := 5 * second;
     ApprovedAt := 2 |}.

Definition demo_result : Result :=
  {| TransactionID := "txn-02"; SourceProposalID := ""; res_Status := StatusCompleted;
     ExitCode := Some 0; Duration := 7; Output := []; OutputTruncatedStart := false;
     ContextBefore := []; ContextAfter := []; CompletedAt := 9 |}.

(** ** Properties *)

(** Any sequence of store calls, in any order, that draws identifiers not
    in use keeps the store well formed: each record sits under its identifier,
    every proposal obeys the managed contract, every transaction is the exact
    snapshot of one approved proposal that no other transaction shares, and
    every result names a recorded transaction with that transaction's
    proposal. *)
Lemma store_invariant s : rtc store_step (NewStore []) s -> store_ok s.
Proof.
  intros H. remember (NewStore []) as s0 eqn:E.
  assert (store_ok s0) as Hok by (subst; apply NewStore_default_ok). clear E.
  induction H; eauto using store_step_ok.
Qed.

Lemma store_invariant_witness :
  rtc store_step (NewStore []) demo_approved /\ store_ok demo_approved.
Proof.
  assert (rtc store_step (NewStore []) demo_approved) as H.
  { eapply rtc_l; [exact (st_propose (NewStore []) 0 "01" demo_input eq_refl)|].
    eapply rtc_l; [|apply rtc_refl].
    exact (st_approve demo_store 1 2 "02" "prop-01" eq_refl). }
  split; [exact H|]. exact (store_invariant _ H).
Defined.

(** Approval is single-use and irreversible. Once a proposal has been
    approved into a transaction, then after any later calls the transaction is
    still recorded unchanged, the proposal is still the approved one with the
    same content, and approving, editing or rejecting it again fails with
    "not pending" and changes nothing. *)
Theorem approve_once now1 now2 rnd pid s s1 tx s2 :
  Approve now1 now2 rnd pid s = (s1, Ok tx) ->
  rtc store_step s1 s2 ->
  transactions s2 !! tx_ID tx = Some tx /\
  (exists p, proposals s2 !! pid = Some p /\ prop_State p = ProposalApproved /\
             snapshot_of tx p) /\
  (forall n1 n2 r, Approve n1 n2 r pid s2 = (s2, Err ErrNotPending)) /\
  Reject pid s2 = (s2, Some ErrNotPending) /\
  (forall n r text purpose, ValidateManaged text = None ->
     Edit n r pid text purpose s2 = (s2, Err ErrNotPending)).
Proof.
  intros HA Hrun. apply Approve_Ok_inv in HA as (p & _ & _ & _ & Hsnap & _ & Hp & Ht & _).
  pose proof (store_run_grows _ _ Hrun) as Hg.
  destruct (grows_lookup _ _ _ _ Hg Hp) as (st & Hp2 & Hst). simpl in Hst.
  rewrite (Hst ltac:(done)) in Hp2.
  split. { eapply grow_tx; [done|]. rewrite Ht. apply lookup_insert_eq. }
  split. { eexists. by split. }
  unfold Approve, Reject, Edit. rewrite Hp2. cbn [prop_State with_state].
  split; [done|]. split; [done|]. intros n r text purpose Hv. by rewrite Hv.
Qed.

Lemma approve_once_witness :
  Approve 1 2 "02" "prop-01" demo_store = (demo_approved, Ok demo_tx) /\
  transactions demo_approved !! "txn-02"%string = Some demo_tx /\
  Approve 3 4 "05" "prop-01" demo_approved = (demo_approved, Err ErrNotPending).
Proof.
  split; [reflexivity|].
  destruct (approve_once 1 2 "02" "prop-01" demo_store demo_approved demo_tx demo_approved
              eq_refl (rtc_refl _ _)) as (H1 & _ & H2 & _).
  split; [exact H1 | apply H2].
Defined.

(** A transaction has at most one result. Once one is recorded, then after
    any later calls it is still the recorded result, carrying the identifier of
    the proposal the transaction came from, and completing the transaction
    again fails and changes nothing. *)
Theorem complete_once res s s1 s2 :
  store_ok s ->
  CompleteTransaction res s = (s1, None) ->
  rtc store_step s1 s2 ->
  (exists tx, transactions s !! TransactionID res = Some tx /\
     GetResult (TransactionID res) s2 = Ok (with_source (tx_SourceProposalID tx) res)) /\
  (forall res', TransactionID res' = TransactionID res ->
     CompleteTransaction res' s2 = (s2, Some ErrAlreadyCompleted)).
Proof.
  intros Hok HC Hrun. apply CompleteTransaction_None_inv in HC as (tx & Ht & _ & ->).
  pose proof (store_run_grows _ _ Hrun) as [_ Hgt Hgr].
  pose proof (ok_tx_id _ Hok _ _ Ht) as Hid. simpl in Hgt.
  assert (Hr : results s2 !! TransactionID res = Some (with_source (tx_SourceProposalID tx) res)).
  { apply Hgr. simpl. rewrite Hid. apply lookup_insert_eq. }
  split.
  - exists tx. split; [done|]. unfold GetResult. by rewrite Hr.
  - intros res' He. unfold CompleteTransaction. rewrite He, (Hgt _ _ Ht), Hid, Hr. done.
Qed.

Lemma complete_once_witness :
  store_ok demo_approved /\
  GetResult "txn-02" (fst (CompleteTransaction demo_result demo_approved)) =
    Ok (with_source "prop-01" demo_result) /\
  CompleteTransaction demo_result (fst (CompleteTransaction demo_result demo_approved)) =
    (fst (CompleteTransaction demo_result demo_approved), Some ErrAlreadyCompleted).
Proof.
  assert (Hok : store_ok demo_approved).
  { apply Approve_ok; [reflexivity|]. apply Propose_ok; [reflexivity|]. apply NewStore_default_ok. }
  split; [exact Hok|].
  destruct (complete_once demo_result demo_approved
              (fst (CompleteTransaction demo_result demo_approved)) _ Hok eq_refl (rtc_refl _ _))
    as ((tx & Ht & Hr) & H2).
  split; [|apply H2; reflexivity].
  assert (tx = demo_tx) as -> by (vm_compute in Ht; injection Ht as <-; reflexivity).
  exact Hr.
Defined.

(** [Approve] on every branch: an unknown proposal, one that is no longer
    pending and one whose deadline has passed are refused, only the last
    changing the store, by marking that proposal expired; otherwise the
    proposal becomes approved and its snapshot is recorded as a transaction. *)
Theorem Approve_branches now1 now2 rnd pid s :
  match proposals s !! pid with
  | None => Approve now1 now2 rnd pid s = (s, Err ErrNotFound)
  | Some p =>
      if decide (prop_State p = ProposalPending) then
        if decide (now1 <= ExpiresAt p) then
          exists tx, Approve now1 now2 rnd pid s =
            (with_transactions (<[New "txn" rnd := tx]> (transactions s))
               (mark pid ProposalApproved s), Ok tx) /\
            snapshot_of tx p /\ tx_ID tx = New "txn" rnd /\ ApprovedAt tx = now2
        else Approve now1 now2 rnd pid s = (mark pid ProposalExpired s, Err ErrExpired)
      else Approve now1 now2 rnd pid s = (s, Err ErrNotPending)
  end.
Proof.
  unfold Approve. destruct (proposals s !! pid) as [p|]; [|done].
  destruct (decide (prop_State p = ProposalPending)) as [Hp|Hp].
  - destruct (decide (prop_State p <> ProposalPending)) as [?|_]; [done|].
    destruct (decide (now1 <= ExpiresAt p)).
    + rewrite (proj2 (Z.ltb_ge _ _)) by lia. eexists. split; [reflexivity|]. done.
    + rewrite (proj2 (Z.ltb_lt _ _)) by lia. done.
  - by rewrite decide_True.
Qed.

Lemma InvalidateSession_others sid s k p :
  proposals s !! k = Some p -> prop_SessionID p <> sid -> proposals (InvalidateSession sid s) !! k = Some p.
Proof.
  intros Hp Hne. simpl. rewrite lookup_fmap, Hp. simpl.
  unfold pending_in. by rewrite (proj2 (String.eqb_neq _ _) Hne).
Qed.

(** Ending a session leaves nothing to approve in it: after
    [InvalidateSession] the session has no pending proposal, approving any of
    its proposals fails with "not pending" after every later sequence of
    calls, and the proposals of other sessions, the transactions and the
    results are untouched. *)
Theorem InvalidateSession_final sid s s2 k p :
  proposals s !! k = Some p -> prop_SessionID p = sid ->
  rtc store_step (InvalidateSession sid s) s2 ->
  PendingForSession sid (InvalidateSession sid s) = [] /\
  (forall n1 n2 r, Approve n1 n2 r k s2 = (s2, Err ErrNotPending)) /\
  (forall k' p', proposals s !! k' = Some p' -> prop_SessionID p' <> sid ->
     proposals (InvalidateSession sid s) !! k' = Some p') /\
  transactions (InvalidateSession sid s) = transactions s /\
  results (InvalidateSession sid s) = results s.
Proof.
  intros Hk Hsid Hrun. split; [|split; [|split; [|done]]].
  - apply PendingForSession_invalidated.
  - assert (exists st, proposals (InvalidateSession sid s) !! k = Some (with_state st p) /\
                       st <> ProposalPending) as (st & Hk1 & Hst).
    { simpl. rewrite lookup_fmap, Hk. simpl. unfold pending_in. subst sid.
      rewrite String.eqb_refl. simpl. case_bool_decide; [by exists ProposalExpired|].
      exists (prop_State p). by rewrite with_state_id. }
    destruct (grows_lookup _ _ _ _ (store_run_grows _ _ Hrun) Hk1) as (st' & Hk2 & Hst').
    simpl in Hst'. specialize (Hst' Hst). subst st'.
    intros. unfold Approve. rewrite Hk2. simpl. by rewrite decide_True.
  - apply InvalidateSession_others.
Qed.

Lemma InvalidateSession_final_witness :
  PendingForSession "sess-1" (InvalidateSession "sess-1" demo_store) = [] /\
  Approve 1 2 "02" "prop-01" (InvalidateSession "sess-1" demo_store) =
    (InvalidateSession "sess-1" demo_store, Err ErrNotPending).
Proof.
  destruct (InvalidateSession_final "sess-1" demo_store (InvalidateSession "sess-1" demo_store)
              "prop-01" _ eq_refl eq_refl (rtc_refl _ _)) as (H1 & H2 & _).
  split; [exact H1 | apply H2].
Defined.

(** C15. Decisions are final, across every later history of the store. Once a
    proposal has been approved into a transaction, the transaction is still
    recorded unchanged, the proposal is still the approved one with the same
    content, and approving, editing or rejecting it again fails with "not
    pending" and changes nothing. Once a transaction has a result, it is still
    the recorded result, with the identifier of the proposal it came from, and
    completing the transaction again fails and changes nothing. Once a session
    is invalidated none of its proposals is pending or can ever be approved, and
    nothing else was touched. *)
Theorem decisions_final s s1 s2 :
  store_ok s ->
  rtc store_step s1 s2 ->
  (forall now1 now2 rnd pid tx, Approve now1 now2 rnd pid s = (s1, Ok tx) ->
     transactions s2 !! tx_ID tx = Some tx /\
     (exists p, proposals s2 !! pid = Some p /\ prop_State p = ProposalApproved /\ snapshot_of tx p) /\
     (forall n1 n2 r, Approve n1 n2 r pid s2 = (s2, Err ErrNotPending)) /\
     Reject pid s2 = (s2, Some ErrNotPending) /\
     (forall n r text purpose, ValidateManaged text = None ->
        Edit n r pid text purpose s2 = (s2, Err ErrNotPending))) /\
  (forall res, CompleteTransaction res s = (s1, None) ->
     (exists tx, transactions s !! TransactionID res = Some tx /\
        GetResult (TransactionID res) s2 = Ok (with_source (tx_SourceProposalID tx) res)) /\
     (forall res', TransactionID res' = TransactionID res ->
        CompleteTransaction res' s2 = (s2, Some ErrAlreadyCompleted))) /\
  (forall sid, InvalidateSession sid s = s1 ->
     PendingForSession sid s1 = [] /\
     (forall k p, proposals s !! k = Some p -> prop_SessionID p = sid ->
        forall n1 n2 r, Approve n1 n2 r k s2 = (s2, Err ErrNotPending)) /\
     (forall k p, proposals s !! k = Some p -> prop_SessionID p <> sid -> proposals s1 !! k = Some p) /\
     transactions s1 = transactions s /\ results s1 = results s).
Proof.
  intros Hok Hrun. split_and!.
  - intros now1 now2 rnd pid tx HA. by eapply approve_once.
  - intros res HC. by eapply complete_once.
  - intros sid <-. split_and!; [apply PendingForSession_invalidated| |apply InvalidateSession_others|done|done].
    intros k p Hk Hsid. by destruct (InvalidateSession_final _ _ _ _ _ Hk Hsid Hrun) as (_ & H & _).
Qed.

Lemma decisions_final_witness :
  Reject "prop-01" demo_approved = (demo_approved, Some ErrNotPending).
Proof.
  assert (Hok : store_ok demo_store) by (apply Propose_ok; [reflexivity|apply NewStore_default_ok]).
  destruct (decisions_final demo_store demo_approved demo_approved Hok (rtc_refl _ _)) as (H & _ & _).
  destruct (H 1 2 "02"%string "prop-01"%string demo_tx eq_refl) as (_ & _ & _ & Hr & _). exact Hr.
Defined.
