(* ===== verification/Marker.v ===== *)
(** * Completion marker (src/internal/gateway/marker.go)

    The shell suffix that makes the target print a marker with the exit
    status of a managed command, and the search for that marker in console
    output: the regular expression [markerLine] as a matcher, the
    non-overlapping matches of [FindAllSubmatch], and [find]. *)

From S2P Require Import Prelude GoStd.

(** ** Data *)

Record marker := { transactionID : string; nonce : string }.

(** [newMarker]: [rnd] is the hexadecimal text of the sixteen random bytes. *)
Definition newMarker (rnd : string) (txID : string) : marker :=
  {| transactionID := txID; nonce := rnd |}.

(** Go's [%s] verbs substituted in the format of [shellSuffix]. *)
Definition shellSuffix (m : marker) : string :=
  "; printf '\nGWMARK:" +:+ transactionID m +:+ ":" +:+ nonce m +:+ ":%d\n' " +:+
  of_bytes [ascii_of_nat 34] +:+ "$?" +:+ of_bytes [ascii_of_nat 34].

(** ** The regular expression GWMARK:([^:\s]+):([0-9a-f]{32}):(-?[0-9]+) *)

(** [\s]: tab, newline, form feed, carriage return, space. *)
Definition re_space (c : ascii) : bool :=
  existsb (fun n => (nat_of_ascii c =? n)%nat) [9; 10; 12; 13; 32]%nat.

Definition id_byte (c : ascii) : bool := negb (Ascii.eqb c ":") && negb (re_space c).

(** The longest run of bytes satisfying [p], and what follows. *)
Fixpoint span (p : ascii -> bool) (l : bytes) : bytes * bytes :=
  match l with
  | [] => ([], [])
  | c :: l' => if p c then let '(a, r) := span p l' in (c :: a, r) else ([], l)
  end.

(** A literal prefix: what follows it. *)
Fixpoint strip (p l : bytes) : option bytes :=
  match p, l with
  | [], _ => Some l
  | a :: p, c :: l => if Ascii.eqb a c then strip p l else None
  | _, [] => None
  end.

Record submatch := { g1 : bytes; g2 : bytes; g3 : bytes }.

Definition tag : bytes := to_bytes "GWMARK:".
Definition colon : ascii := ":".

(** The third group: an optional minus sign and at least one digit. *)
Definition match_number (l : bytes) : option bytes :=
  match l with
  | c :: l' =>
      if Ascii.eqb c "-" then
        match fst (span is_digit l') with [] => None | ds => Some (c :: ds) end
      else match fst (span is_digit l) with [] => None | ds => Some ds end
  | [] => None
  end.

(** A match of the whole expression at the head of the text. No class
    contains its delimiter, so leftmost-first matching has one candidate. *)
Definition match_at (l : bytes) : option submatch :=
  l1 ← strip tag l;
  let '(id, l2) := span id_byte l1 in
  l3 ← strip [colon] l2;
  let hex := take 32 l3 in
  l4 ← strip [colon] (drop 32 l3);
  ds ← match_number l4;
  if (0 <? length id)%nat && (length hex =? 32)%nat && forallb is_lower_hex hex
  then Some {| g1 := id; g2 := hex; g3 := ds |} else None.

Definition match_length (s : submatch) : nat :=
  (length tag + length (g1 s) + 1 + length (g2 s) + 1 + length (g3 s))%nat.

(** [FindAllSubmatch(buf, -1)]: leftmost matches that do not overlap; [skip]
    counts the bytes of the last match still to pass. *)
Fixpoint find_all (skip : nat) (l : bytes) : list submatch :=
  match l with
  | [] => []
  | _ :: l' =>
      match skip with
      | S k => find_all k l'
      | O => match match_at l with
             | Some s => s :: find_all (match_length s - 1) l'
             | None => find_all 0 l'
             end
      end
  end.

(** The loop body of [find] on one match. *)
Definition accept (m : marker) (s : submatch) : option Z :=
  if negb (String.eqb (of_bytes (g1 s)) (transactionID m)) ||
     negb (String.eqb (of_bytes (g2 s)) (nonce m)) then None
  else scan_int (g3 s).

Fixpoint first_accepted (m : marker) (ss : list submatch) : option Z :=
  match ss with
  | [] => None
  | s :: ss => match accept m s with Some code => Some code | None => first_accepted m ss end
  end.

(** [find]: [Some code] is (code, true), [None] is (0, false). *)
Definition find (m : marker) (buf : bytes) : option Z := first_accepted m (find_all 0 buf).

(** ** Specification *)

(** The bytes that announce this transaction's marker. *)
Definition head_of (m : marker) : bytes :=
  tag ++ to_bytes (transactionID m) ++ [colon] ++ to_bytes (nonce m) ++ [colon].

(** What [printf] prints on the target for exit status [code]. *)
Definition printed (m : marker) (code : Z) : bytes := head_of m ++ dec_Z code.

(** [sub] occurs in [l]. *)
Definition occurs (sub l : bytes) : Prop := exists pre post, l = pre ++ sub ++ post.

(** The shape of the identifiers [id.New] and [newMarker] draw. *)
Definition wf_marker (m : marker) : Prop :=
  to_bytes (transactionID m) <> [] /\
  forallb (fun c => id_byte c && negb (Ascii.eqb c "G")) (to_bytes (transactionID m)) = true /\
  length (to_bytes (nonce m)) = 32%nat /\
  forallb is_lower_hex (to_bytes (nonce m)) = true.

(** ** Lemmas *)

Lemma span_app p a l : forallb p a = true ->
  span p (a ++ l) = (a ++ fst (span p l), snd (span p l)).
Proof.
  induction a as [|c a IH]; intros H; simpl in *; [by destruct (span p l)|].
  bools. rewrite H, IH by done. done.
Qed.

Lemma span_stop p c l : p c = false -> span p (c :: l) = ([], c :: l).
Proof. simpl. by intros ->. Qed.

Lemma span_spec p l :
  l = fst (span p l) ++ snd (span p l) /\ forallb p (fst (span p l)) = true /\
  match snd (span p l) with c :: _ => p c = false | [] => True end.
Proof.
  induction l as [|c l IH]; simpl; [done|].
  destruct (p c) eqn:E; [|done]. destruct (span p l) as [a r]. simpl in *.
  destruct IH as (-> & Ha & Hr). by rewrite E.
Qed.

Lemma strip_spec p l r : strip p l = Some r <-> l = p ++ r.
Proof.
  revert l. induction p as [|a p IH]; intros l; simpl; [naive_solver|].
  destruct l as [|c l]; [naive_solver|]. destruct (Ascii.eqb a c) eqn:E; bools.
  - subst. rewrite IH. naive_solver.
  - naive_solver.
Qed.

Lemma strip_app p r : strip p (p ++ r) = Some r.
Proof. by apply strip_spec. Qed.

Definition number_ok (ds : bytes) : Prop :=
  exists sign body, ds = sign ++ body /\ (sign = [] \/ sign = ["-"%char]) /\
    body <> [] /\ forallb is_digit body = true.

Lemma match_number_spec l ds :
  match_number l = Some ds ->
  number_ok ds /\ exists post, l = ds ++ post /\
    match post with c :: _ => is_digit c = false | [] => True end.
Proof.
  unfold match_number. destruct l as [|c l]; [done|]. intros H.
  destruct (Ascii.eqb c "-") eqn:E.
  - bools. subst. pose proof (span_spec is_digit l) as (Hl & Hd & Hs).
    destruct (fst (span is_digit l)) as [|d body] eqn:Hf; [done|]. simplify_eq.
    split; [exists ["-"%char], (d :: body); naive_solver|].
    exists (snd (span is_digit l)). split; [|done]. cbn [app]. f_equal. exact Hl.
  - pose proof (span_spec is_digit (c :: l)) as (Hl & Hd & Hs).
    destruct (fst (span is_digit (c :: l))) as [|d body] eqn:Hf; [done|]. simplify_eq.
    split; [exists [], (d :: body); naive_solver|].
    exists (snd (span is_digit (c :: l))). done.
Qed.

Lemma match_at_spec l s :
  match_at l = Some s ->
  number_ok (g3 s) /\ length (g2 s) = 32%nat /\
  exists post, l = tag ++ g1 s ++ [colon] ++ g2 s ++ [colon] ++ g3 s ++ post /\
    match post with c :: _ => is_digit c = false | [] => True end.
Proof.
  unfold match_at. intros H.
  apply bind_Some in H as (l1 & H1%strip_spec & H).
  pose proof (span_spec id_byte l1) as (Hl1 & _ & _).
  destruct (span id_byte l1) as [id l2]. simpl in Hl1.
  apply bind_Some in H as (l3 & H3%strip_spec & H).
  apply bind_Some in H as (l4 & H4%strip_spec & H).
  apply bind_Some in H as (ds & [Hn (post & Hl4 & Hpost)]%match_number_spec & H).
  case_match eqn:Hc; [injection H as <-|done]. bools. cbn [g1 g2 g3].
  split; [done|]. split; [done|]. exists post. split; [|done].
  rewrite H1, Hl1, H3, <- Hl4, <- H4, take_drop. done.
Qed.

(** A match computed from its parts. *)
Lemma match_at_parts id hex ds post :
  id <> [] -> forallb id_byte id = true ->
  length hex = 32%nat -> forallb is_lower_hex hex = true ->
  match_number (ds ++ post) = Some ds ->
  match_at (tag ++ id ++ [colon] ++ hex ++ [colon] ++ ds ++ post) =
  Some {| g1 := id; g2 := hex; g3 := ds |}.
Proof.
  intros Hne Hid Hlen Hhex Hnum. unfold match_at. rewrite strip_app. simpl.
  rewrite span_app by done. simpl. rewrite app_nil_r.
  rewrite take_app_length', drop_app_length' by done. simpl.
  rewrite Hnum. simpl. rewrite Hlen, Hhex. by destruct id.
Qed.

Lemma dec_Z_number_ok z : number_ok (dec_Z z).
Proof.
  unfold dec_Z. case_decide.
  - exists ["-"%char], (dec (Z.to_N (- z))). auto with gw.
  - exists [], (dec (Z.to_N z)). auto with gw.
Qed.

(** A number followed by a byte that is not a digit, or by nothing. *)
Lemma match_number_app ds post :
  number_ok ds -> match post with c :: _ => is_digit c = false | [] => True end ->
  match_number (ds ++ post) = Some ds.
Proof.
  intros (sign & body & -> & Hsign & Hne & Hd) Hpost.
  assert (Hspan : span is_digit (body ++ post) = (body, post)).
  { rewrite span_app by done. destruct post as [|c post]; simpl; [by rewrite app_nil_r|].
    rewrite Hpost. simpl. by rewrite app_nil_r. }
  unfold match_number. destruct Hsign as [->| ->]; simpl.
  - destruct body as [|c body]; [done|]. cbn [app] in *.
    destruct (Ascii.eqb c "-") eqn:E; [bools; subst; done|]. by rewrite Hspan.
  - rewrite Hspan. by destruct body.
Qed.

(** *** White space splits the search *)

(** What a match looks at: nothing beyond a white space byte. *)
Lemma strip_space p l c r :
  forallb (fun x => negb (re_space x)) p = true -> re_space c = true ->
  strip p (l ++ (c :: r)) =
  match strip p l with Some t => Some (t ++ (c :: r)) | None => None end.
Proof.
  intros Hp Hc. revert l. induction p as [|a p IH]; intros l; [done|].
  simpl in Hp. bools. destruct l as [|d l]; simpl.
  - destruct (Ascii.eqb a c) eqn:E; [|done]. bools. subst. congruence.
  - destruct (Ascii.eqb a d); [|done]. by apply IH.
Qed.

Lemma span_space p l c r :
  p c = false ->
  span p (l ++ (c :: r)) = (fst (span p l), snd (span p l) ++ (c :: r)).
Proof.
  intros Hc. induction l as [|d l IH]; simpl; [by rewrite Hc|].
  destruct (p d); [|done]. rewrite IH. by destruct (span p l).
Qed.

Lemma re_space_cases c :
  re_space c = true ->
  c = "009"%char \/ c = "010"%char \/ c = "012"%char \/ c = "013"%char \/ c = "032"%char.
Proof.
  unfold re_space. simpl. rewrite !orb_true_iff, !Nat.eqb_eq. intros H.
  rewrite <- (ascii_nat_embedding c).
  destruct H as [->|[->|[->|[->|[->|?]]]]]; [by auto 6..|done].
Qed.

Ltac space_cases H := destruct (re_space_cases _ H) as [->|[->|[->|[->| ->]]]].

Lemma match_number_space l c r :
  re_space c = true -> match_number (l ++ (c :: r)) = match_number l.
Proof.
  intros Hc. assert (Hd : is_digit c = false) by (space_cases Hc; done).
  destruct l as [|d l]; simpl.
  - rewrite Hd. space_cases Hc; done.
  - rewrite (span_space _ l) by done. destruct (Ascii.eqb d "-"); [done|].
    destruct (is_digit d); [|done]. by destruct (span is_digit l).
Qed.

Lemma forallb_hex_space l c r n :
  re_space c = true -> (length l < n)%nat ->
  forallb is_lower_hex (take n (l ++ (c :: r))) = false.
Proof.
  intros Hc Hn. rewrite take_app_ge, forallb_app by lia.
  destruct (n - length l)%nat as [|k] eqn:E; [lia|]. simpl.
  assert (is_lower_hex c = false) as -> by (space_cases Hc; done).
  by rewrite andb_false_r.
Qed.

#[local] Arguments strip : simpl never.

Lemma match_at_space l c r :
  re_space c = true -> match_at (l ++ (c :: r)) = match_at l.
Proof.
  intros Hc. assert (Hid : id_byte c = false) by (space_cases Hc; done).
  unfold match_at. rewrite strip_space by done.
  destruct (strip tag l) as [l1|]; [|done]. simpl.
  rewrite (span_space id_byte) by done.
  destruct (span id_byte l1) as [id l2]. cbn [fst snd].
  rewrite (strip_space [colon]) by done.
  destruct (strip [colon] l2) as [l3|]; [|done]. simpl.
  destruct (decide (length l3 < 32)%nat) as [Hlt|Hge].
  - rewrite forallb_hex_space by done.
    assert (Hne : (length (take 32 l3) =? 32)%nat = false)
      by (apply Nat.eqb_neq; rewrite length_take; lia).
    rewrite Hne, !andb_false_r. simpl. rewrite (drop_ge l3) by lia.
    by destruct (strip [colon] _) as [l4|]; simpl; [destruct (match_number l4)|].
  - rewrite take_app_le, drop_app_le by lia.
    rewrite (strip_space [colon]) by done.
    destruct (strip [colon] (drop 32 l3)) as [l4|]; [|done]. simpl.
    by rewrite match_number_space.
Qed.

Lemma match_at_length l s : match_at l = Some s -> (match_length s <= length l)%nat.
Proof.
  intros (_ & Hh & post & -> & _)%match_at_spec. unfold match_length.
  rewrite !length_app. simpl. lia.
Qed.

Lemma find_all_split skip a c r :
  re_space c = true -> (skip <= length a)%nat ->
  find_all skip (a ++ (c :: r)) = find_all skip a ++ find_all 0 r.
Proof.
  intros Hc. revert skip. induction a as [|d a IH]; intros skip Hs; simpl in Hs.
  - assert (skip = 0)%nat as -> by lia. cbn [app find_all].
    pose proof (match_at_space [] c r Hc) as Hm. cbn [app] in Hm. by rewrite Hm.
  - cbn [app find_all]. destruct skip as [|k]; [|apply IH; lia].
    pose proof (match_at_space (d :: a) c r Hc) as Hm. cbn [app] in Hm. rewrite Hm.
    destruct (match_at (d :: a)) as [s|] eqn:E; [|apply IH; lia].
    apply match_at_length in E. simpl in E. rewrite IH by lia. done.
Qed.

Lemma first_accepted_app m a b :
  first_accepted m (a ++ b) =
  match first_accepted m a with Some code => Some code | None => first_accepted m b end.
Proof. induction a as [|s a IH]; simpl; [done|]. rewrite IH. by destruct (accept m s). Qed.

(** White space separates what is searched: the first part decides, else the
    second. *)
Lemma find_split m a c r :
  re_space c = true ->
  find m (a ++ (c :: r)) = match find m a with Some code => Some code | None => find m r end.
Proof. intros Hc. unfold find. rewrite find_all_split by (done || lia). apply first_accepted_app. Qed.

Lemma find_all_in skip l s :
  s ∈ find_all skip l -> exists pre l', l = pre ++ l' /\ match_at l' = Some s.
Proof.
  revert skip. induction l as [|c l IH]; intros skip H; simpl in H;
    [by apply not_elem_of_nil in H|].
  assert (Hrest : forall k, s ∈ find_all k l ->
    exists pre l', c :: l = pre ++ l' /\ match_at l' = Some s).
  { intros k Hk. destruct (IH _ Hk) as (pre & l' & -> & Hm). by exists (c :: pre), l'. }
  destruct skip; [|by eapply Hrest]. destruct (match_at (c :: l)) eqn:E; [|by eapply Hrest].
  apply elem_of_cons in H as [->|H]; [|by eapply Hrest]. by exists [], (c :: l).
Qed.

Lemma first_accepted_in m ss code :
  first_accepted m ss = Some code -> exists s, s ∈ ss /\ accept m s = Some code.
Proof.
  induction ss as [|s ss IH]; simpl; [done|]. destruct (accept m s) eqn:E.
  - intros [= ->]. exists s. split; [apply list_elem_of_here|done].
  - intros (s' & Hin & Ha)%IH. exists s'. split; [by apply list_elem_of_further|done].
Qed.

Lemma accept_spec m s code :
  accept m s = Some code ->
  g1 s = to_bytes (transactionID m) /\ g2 s = to_bytes (nonce m) /\ scan_int (g3 s) = Some code.
Proof.
  unfold accept. destruct (String.eqb (of_bytes (g1 s)) _) eqn:E1; [|done].
  destruct (String.eqb (of_bytes (g2 s)) _) eqn:E2; [|done]. bools. simpl. intros Hs.
  by rewrite <- E1, <- E2, !to_of_bytes.
Qed.

Lemma accept_self m ds :
  accept m {| g1 := to_bytes (transactionID m); g2 := to_bytes (nonce m); g3 := ds |} =
  scan_int ds.
Proof. unfold accept. cbn [g1 g2 g3]. by rewrite !of_to_bytes, !String.eqb_refl. Qed.

Lemma find_at_head m l s :
  match_at l = Some s -> accept m s <> None -> find m l = accept m s.
Proof.
  intros Hm Ha. destruct l as [|c l]; [done|]. unfold find. cbn [find_all]. rewrite Hm.
  cbn [first_accepted]. by destruct (accept m s).
Qed.

Lemma find_sound_aux m buf code :
  find m buf = Some code ->
  exists pre ds post, buf = pre ++ head_of m ++ ds ++ post /\ number_ok ds /\
    scan_int ds = Some code /\
    match post with c :: _ => is_digit c = false | [] => True end.
Proof.
  intros (s & Hin & (H1 & H2 & H3)%accept_spec)%first_accepted_in.
  apply find_all_in in Hin as (pre & l' & -> & Hm).
  apply match_at_spec in Hm as (Hn & _ & post & -> & Hpost).
  exists pre, (g3 s), post. rewrite H1, H2. unfold head_of.
  rewrite <- !app_assoc. done.
Qed.

Lemma find_head m ds post :
  wf_marker m -> number_ok ds ->
  match post with c :: _ => is_digit c = false | [] => True end ->
  scan_int ds <> None ->
  find m (head_of m ++ ds ++ post) = scan_int ds.
Proof.
  intros (Hne & Hid & Hlen & Hhex) Hn Hpost Hs.
  assert (Hids : forallb id_byte (to_bytes (transactionID m)) = true).
  { apply forallb_forall. intros c Hc. rewrite forallb_forall in Hid.
    specialize (Hid _ Hc). by bools. }
  unfold head_of. rewrite <- !app_assoc.
  pose proof (match_at_parts _ _ ds post Hne Hids Hlen Hhex
                (match_number_app ds post Hn Hpost)) as Hm.
  rewrite (find_at_head m _ _ Hm); by rewrite accept_self.
Qed.


Lemma find_none m buf : ~ occurs (to_bytes (nonce m)) buf -> find m buf = None.
Proof.
  intros Hn. destruct (find m buf) as [code|] eqn:E; [|done].
  apply find_sound_aux in E as (pre & ds & post & -> & _). destruct Hn.
  exists (pre ++ tag ++ to_bytes (transactionID m) ++ [colon]), ([colon] ++ ds ++ post).
  unfold head_of. by rewrite <- !app_assoc.
Qed.

Lemma app_cons_unique {A} (x : A) l1 l2 r1 r2 :
  x ∉ l1 -> x ∉ r1 -> l1 ++ (x :: r1) = l2 ++ (x :: r2) -> l1 = l2 /\ r1 = r2.
Proof.
  revert l2. induction l1 as [|y l1 IH]; intros [|z l2] H1 H2 E; simpl in E; simplify_eq.
  - done.
  - destruct H2. apply elem_of_app. right. apply list_elem_of_here.
  - destruct H1. apply list_elem_of_here.
  - apply not_elem_of_cons in H1 as [_ H1]. destruct (IH l2) as [-> ->]; done.
Qed.

Lemma not_in_by (p : ascii -> bool) c l : forallb p l = true -> p c = false -> c ∉ l.
Proof.
  intros Hl Hc Hin. rewrite forallb_forall in Hl. apply list_elem_of_In in Hin.
  rewrite (Hl _ Hin) in Hc. done.
Qed.

(** The quoted word of the suffix: its "%d" is not a number. *)
Definition suffix_word (m : marker) : bytes :=
  to_bytes "'\n" ++ head_of m ++ to_bytes "%d\n'".

Lemma shellSuffix_bytes m :
  to_bytes (shellSuffix m) =
  [";"; " "]%char ++ to_bytes "printf" ++ " "%char :: (suffix_word m ++
    " "%char :: [ascii_of_nat 34; "$"; "?"; ascii_of_nat 34]%char).
Proof.
  unfold shellSuffix, suffix_word, head_of. rewrite !to_bytes_app, !to_of_bytes.
  rewrite <- !app_assoc. reflexivity.
Qed.

Lemma no_G (l : bytes) :
  forallb (fun c => negb (Ascii.eqb c "G")) l = true -> "G"%char ∉ l.
Proof. intros H. by eapply not_in_by. Qed.

Lemma find_suffix_word m : wf_marker m -> find m (suffix_word m) = None.
Proof.
  intros (Hne & Hid & Hlen & Hhex).
  destruct (find m (suffix_word m)) as [code|] eqn:E; [|done].
  apply find_sound_aux in E as (pre & ds & post & E & Hn & _). exfalso.
  set (rest := to_bytes "WMARK:" ++ to_bytes (transactionID m) ++ [colon] ++
               to_bytes (nonce m) ++ [colon]).
  assert (Hh : head_of m = "G"%char :: rest) by done.
  unfold suffix_word in E. rewrite Hh in E.
  change (to_bytes "'\n" ++ ("G"%char :: (rest ++ to_bytes "%d\n'")) =
          pre ++ ("G"%char :: (rest ++ ds ++ post))) in E.
  apply app_cons_unique in E as [_ E]; [|by apply no_G|].
  - apply app_inv_head in E. destruct Hn as (sign & body & -> & [->| ->] & Hb & Hd); [|done].
    destruct body as [|c body]; [done|]. simpl in E. simplify_eq.
  - unfold rest. rewrite !not_elem_of_app. split_and!; try (by apply no_G).
    + eapply not_in_by; [exact Hid|done].
    + eapply not_in_by; [exact Hhex|done].
Qed.

Lemma find_echo m text :
  wf_marker m -> ~ occurs (to_bytes (nonce m)) (to_bytes text) ->
  find m (to_bytes (text +:+ shellSuffix m)) = None.
Proof.
  intros Hwf Hn. rewrite to_bytes_app, shellSuffix_bytes.
  change ([";"; " "]%char ++ ?x) with (";"%char :: (" "%char :: x)).
  change (?a ++ ";"%char :: ?x) with (a ++ [";"%char] ++ x). rewrite app_assoc.
  rewrite (find_split m _ " "%char (to_bytes "printf" ++ _)) by done.
  rewrite (find_split m (to_bytes "printf")), (find_split m (suffix_word m)) by done.
  rewrite find_suffix_word by done.
  destruct (find m (to_bytes text ++ [";"%char])) as [code|] eqn:E; [|done].
  apply find_sound_aux in E as (pre & ds & post & E & Hnum & _). exfalso.
  destruct post as [|c post _] using rev_ind.
  - rewrite app_nil_r in E. destruct Hnum as (sign & body & -> & _ & Hb & Hd).
    destruct body as [|d body _] using rev_ind; [done|].
    rewrite !app_assoc in E. apply app_inj_tail in E as [_ <-].
    rewrite forallb_app in Hd. simpl in Hd. by rewrite andb_false_r in Hd.
  - rewrite !app_assoc in E. apply app_inj_tail in E as [E _]. apply Hn.
    exists (pre ++ tag ++ to_bytes (transactionID m) ++ [colon]), ([colon] ++ ds ++ post).
    rewrite E. unfold head_of. by rewrite <- !app_assoc.
Qed.

Lemma number_ok_one d : is_digit d = true -> number_ok [d].
Proof. intros H. exists [], [d]. split; [done|]. split; [auto|]. simpl. by rewrite H. Qed.

Lemma undec_one d : is_digit d = true -> (undec [d] < 10)%N.
Proof.
  unfold is_digit, char_in, undec, digit_val, N_of_ascii, nat_of_ascii.
  destruct d as [[] [] [] [] [] [] [] []]; by vm_compute.
Qed.

(** ** A concrete marker for the witnesses *)

Definition demo_marker : marker :=
  newMarker "0123456789abcdef0123456789abcdef" "txn-0011223344556677".

Lemma demo_marker_wf : wf_marker demo_marker.
Proof. split; [done|]. by vm_compute. Qed.

(** ** Properties *)

(** C32. No fabricated exit code: whenever [find] reports a code, the output
    contains this transaction's own announcement, identifier and nonce,
    directly followed by a number with exactly that value. *)
Theorem find_sound m buf code :
  find m buf = Some code ->
  exists pre ds post, buf = pre ++ head_of m ++ ds ++ post /\ number_ok ds /\
    scan_int ds = Some code /\
    match post with c :: _ => is_digit c = false | [] => True end.
Proof. apply find_sound_aux. Qed.

Lemma find_sound_witness :
  find demo_marker (to_bytes "x " ++ printed demo_marker 3) = Some 3 /\
  exists pre ds post, to_bytes "x " ++ printed demo_marker 3 =
    pre ++ head_of demo_marker ++ ds ++ post /\ number_ok ds /\
    scan_int ds = Some 3 /\
    match post with c :: _ => is_digit c = false | [] => True end.
Proof.
  assert (H : find demo_marker (to_bytes "x " ++ printed demo_marker 3) = Some 3)
    by (vm_compute; reflexivity).
  split; [exact H|]. exact (find_sound _ _ _ H).
Defined.

(** The marker round trip. After the terminal has echoed the command line
    with its appended marker command, and the command printed any output in
    which the nonce does not occur, the line the target prints for exit status
    [code] makes [find] report exactly [code], whatever follows; before that
    line arrives, echo and output report nothing. *)
Theorem marker_roundtrip m text out code after :
  wf_marker m ->
  ~ occurs (to_bytes (nonce m)) (to_bytes text) ->
  ~ occurs (to_bytes (nonce m)) out ->
  - 2 ^ 63 <= code < 2 ^ 63 ->
  let echo := to_bytes (text +:+ shellSuffix m) in
  find m (echo ++ ("010"%char :: out)) = None /\
  find m (echo ++ ("010"%char :: (out ++ ("010"%char :: (printed m code ++
                                   ("010"%char :: after)))))) = Some code.
Proof.
  intros Hwf Htext Hout Hcode echo. rewrite !find_split by done.
  unfold echo. rewrite find_echo, (find_none m out) by done. split; [done|].
  pose proof (scan_int_dec_Z _ Hcode) as Hs. unfold printed.
  pose proof (find_head m (dec_Z code) [] Hwf (dec_Z_number_ok code) I) as Hf.
  rewrite app_nil_r in Hf. rewrite Hf by (by rewrite Hs). by rewrite Hs.
Qed.

Lemma marker_roundtrip_witness :
  let echo := to_bytes ("ps -ef" +:+ shellSuffix demo_marker) in
  find demo_marker (echo ++ ("010"%char :: (to_bytes "PID" ++ ("010"%char ::
    (printed demo_marker 127 ++ ("010"%char :: to_bytes "# ")))))) = Some 127.
Proof.
  refine (proj2 (marker_roundtrip demo_marker "ps -ef" (to_bytes "PID") 127 (to_bytes "# ")
                   demo_marker_wf _ _ _)).
  - intros (pre & post & E). apply (f_equal length) in E. revert E.
    rewrite !length_app. simpl. lia.
  - intros (pre & post & E). apply (f_equal length) in E. revert E.
    rewrite !length_app. simpl. lia.
  - lia.
Defined.

(** The search trusts an unfinished number. The expression has nothing
    after the digits, so when a read of the console ends after the first digit
    of a two- or three-digit exit status, [find] already reports that digit
    as the exit code, which is wrong. *)
Theorem split_exit_code m out code :
  wf_marker m ->
  ~ occurs (to_bytes (nonce m)) out ->
  10 <= code < 256 ->
  exists wrong, find m (out ++ ("010"%char :: take (length (head_of m) + 1) (printed m code)))
    = Some wrong /\ wrong <> code /\ 0 <= wrong < 10.
Proof.
  intros Hwf Hout Hcode. rewrite find_split, (find_none m out) by done.
  unfold printed, dec_Z. rewrite decide_False by lia.
  pose proof (dec_digits (Z.to_N code)) as Hd.
  destruct (dec (Z.to_N code)) as [|d ds] eqn:E; [by apply dec_nonempty in E|].
  simpl in Hd. bools. rewrite take_app_add. change (take 1 (d :: ds)) with [d].
  pose proof (undec_one d ltac:(done)) as Hv.
  assert (Hs : scan_int [d] = Some (Z.of_N (undec [d]))).
  { unfold scan_int. destruct (Ascii.eqb d "-") eqn:Em; [bools; by subst|].
    rewrite (proj2 (Z.leb_le _ _)), (proj2 (Z.ltb_lt _ _)) by lia. done. }
  exists (Z.of_N (undec [d])). split; [|lia].
  pose proof (find_head m [d] [] Hwf (number_ok_one d ltac:(done)) I) as Hf.
  change ([d] ++ []) with [d] in Hf. rewrite Hf; by rewrite Hs.
Qed.

Lemma split_exit_code_witness :
  exists wrong, find demo_marker
    (to_bytes "not found" ++ ("010"%char ::
       take (length (head_of demo_marker) + 1) (printed demo_marker 127))) = Some wrong /\
    wrong <> 127 /\ 0 <= wrong < 10.
Proof.
  refine (split_exit_code demo_marker (to_bytes "not found") 127 demo_marker_wf _ _); [|lia].
  intros (pre & post & E). apply (f_equal length) in E. revert E.
  rewrite !length_app. simpl. lia.
Defined.
