(* ===== verification/Coordinator.v ===== *)
(** * Coordinator (src/internal/gateway/coordinator.go, subscriber.go)

    One board session: the session machine, the command store, the ring and
    the secret window wired to a transport stream. Every critical section of
    the coordinator's mutex is one definition on the state record; a method
    that unlocks in between is several ([retry], [EndSession], [WaitResult],
    the read loop). Clock readings, random text and the outcome of transport
    calls are inputs. A stream and a channel are identified by a number, and
    the calls on them are appended to the field [trace]. *)

From S2P Require Import Prelude GoStd Session Ring Secret Validate Command Marker.

(** ** Data *)

Inductive GwError :=
| ErrTransportActive | ErrNotConnected | ErrNotReady | ErrNotReconnecting
| ErrHumanSelectionRequired | ErrCommandActive | ErrResultWaiterLimit
| ErrCommand (e : StoreError) | ErrTransition (e : ErrInvalidTransition)
| ErrConfirm (s : State) | ErrWrite | ErrOpen | ErrClose | ErrContext.

Definition timeoutPollInterval : Z := 25000000.
Definition maxResultWaiterTransactions : Z := 1024.
Definition subscriberQueueSize : nat := 256.

(** A configured pattern: nil, or the [Match] of a compiled expression. *)
Definition pattern := option (bytes -> bool).

(** [p != nil && p.Match(buf)]. *)
Definition pat_match (p : pattern) (buf : bytes) : bool :=
  match p with Some f => f buf | None => false end.

Record LoginConfig := {
  Username : string;
  LoginPromptPattern : pattern;
  PasswordPromptPattern : pattern;
  ShellPromptPattern : pattern;
  BootBannerPattern : pattern;
  SecretPromptPatterns : list pattern;
  SecretGracePeriod : Z;
  PromptQuietPeriod : Z;
  AuthRetryPeriod : Z;
  AuthRetryLimit : Z
}.

(** [LoginConfig{}]. *)
Definition emptyLoginConfig : LoginConfig :=
  {| Username := ""; LoginPromptPattern := None; PasswordPromptPattern := None;
     ShellPromptPattern := None; BootBannerPattern := None; SecretPromptPatterns := [];
     SecretGracePeriod := 0; PromptQuietPeriod := 0; AuthRetryPeriod := 0;
     AuthRetryLimit := 0 |}.

Definition defaultPromptQuietPeriod : Z := 150000000.
Definition defaultAuthRetryPeriod : Z := 5 * second.
Definition defaultAuthRetryLimit : Z := 5.

Definition promptQuietPeriod (cfg : LoginConfig) : Z :=
  if 0 <? PromptQuietPeriod cfg then PromptQuietPeriod cfg else defaultPromptQuietPeriod.

Definition authRetryPeriod (cfg : LoginConfig) : Z :=
  if 0 <? AuthRetryPeriod cfg then AuthRetryPeriod cfg else defaultAuthRetryPeriod.

Definition authRetryLimit (cfg : LoginConfig) : Z :=
  if 0 <? AuthRetryLimit cfg then AuthRetryLimit cfg else defaultAuthRetryLimit.

Definition secretPromptMatches (cfg : LoginConfig) (buf : bytes) : bool :=
  pat_match (PasswordPromptPattern cfg) buf ||
  existsb (fun p => pat_match p buf) (SecretPromptPatterns cfg).

Record activeTransaction := {
  tx : Transaction;
  act_marker : marker;
  deadline : Z;
  startSeq : Z
}.

(** [wake] identifies the waiter's channel. *)
Record resultWaiter := { wake : nat; refs : Z }.

(** A subscriber: the queued events and the count of dropped ones. *)
Record subscriber := { ch : list bytes; dropped : Z }.

(** A pending [time.AfterFunc]: the generation its closure captured and the
    time it fires. *)
Record timer := { gen : Z; fires_at : Z }.

(** The call site of a write to the transport. *)
Inductive writer :=
| ByHuman | ByLogin | ByNudge | ByTimeout | ByTransaction (txID : string).

Inductive effect :=
| EWrite (who : writer) (s : nat) (data : bytes)
| EClose (s : nat)
| EWake (w : nat).

Record Coordinator := {
  board : string;
  sess : Machine;
  commands : Store;
  ring : Ring;
  secretW : Window;
  stream : option nat;
  transportKind : string;
  loginCfg : LoginConfig;
  opener : option nat;
  usernameSent : bool;
  manualReady : bool;
  resyncPending : bool;
  lineTail : bytes;
  rebootSuspect : bool;
  promptGen : Z;
  promptTimer : option timer;
  authRetryTimer : option timer;
  authRetries : Z;
  authGen : Z;
  readerDone : option nat;
  humanSubs : list subscriber;
  aiSubs : list subscriber;
  act : option activeTransaction;
  resultWaiters : gmap string resultWaiter;
  trace : list effect
}.

(** Assignments to one field. *)

Definition set_sess (v : Machine) (c : Coordinator) : Coordinator :=
  {| board := board c; sess := v; commands := commands c; ring := ring c; secretW := secretW
     c; stream := stream c; transportKind := transportKind c; loginCfg := loginCfg c; opener
     := opener c; usernameSent := usernameSent c; manualReady := manualReady c;
     resyncPending := resyncPending c; lineTail := lineTail c; rebootSuspect :=
     rebootSuspect c; promptGen := promptGen c; promptTimer := promptTimer c; authRetryTimer
     := authRetryTimer c; authRetries := authRetries c; authGen := authGen c; readerDone :=
     readerDone c; humanSubs := humanSubs c; aiSubs := aiSubs c; act := act c; resultWaiters
     := resultWaiters c; trace := trace c |}.

Definition set_commands (v : Store) (c : Coordinator) : Coordinator :=
  {| board := board c; sess := sess c; commands := v; ring := ring c; secretW := secretW c;
     stream := stream c; transportKind := transportKind c; loginCfg := loginCfg c; opener :=
     opener c; usernameSent := usernameSent c; manualReady := manualReady c; resyncPending
     := resyncPending c; lineTail := lineTail c; rebootSuspect := rebootSuspect c; promptGen
     := promptGen c; promptTimer := promptTimer c; authRetryTimer := authRetryTimer c;
     authRetries := authRetries c; authGen := authGen c; readerDone := readerDone c;
     humanSubs := humanSubs c; aiSubs := aiSubs c; act := act c; resultWaiters :=
     resultWaiters c; trace := trace c |}.

Definition set_ring (v : Ring) (c : Coordinator) : Coordinator :=
  {| board := board c; sess := sess c; commands := commands c; ring := v; secretW := secretW
     c; stream := stream c; transportKind := transportKind c; loginCfg := loginCfg c; opener
     := opener c; usernameSent := usernameSent c; manualReady := manualReady c;
     resyncPending := resyncPending c; lineTail := lineTail c; rebootSuspect :=
     rebootSuspect c; promptGen := promptGen c; promptTimer := promptTimer c; authRetryTimer
     := authRetryTimer c; authRetries := authRetries c; authGen := authGen c; readerDone :=
     readerDone c; humanSubs := humanSubs c; aiSubs := aiSubs c; act := act c; resultWaiters
     := resultWaiters c; trace := trace c |}.

Definition set_secretW (v : Window) (c : Coordinator) : Coordinator :=
  {| board := board c; sess := sess c; commands := commands c; ring := ring c; secretW := v;
     stream := stream c; transportKind := transportKind c; loginCfg := loginCfg c; opener :=
     opener c; usernameSent := usernameSent c; manualReady := manualReady c; resyncPending
     := resyncPending c; lineTail := lineTail c; rebootSuspect := rebootSuspect c; promptGen
     := promptGen c; promptTimer := promptTimer c; authRetryTimer := authRetryTimer c;
     authRetries := authRetries c; authGen := authGen c; readerDone := readerDone c;
     humanSubs := humanSubs c; aiSubs := aiSubs c; act := act c; resultWaiters :=
     resultWaiters c; trace := trace c |}.

Definition set_stream (v : option nat) (c : Coordinator) : Coordinator :=
  {| board := board c; sess := sess c; commands := commands c; ring := ring c; secretW :=
     secretW c; stream := v; transportKind := transportKind c; loginCfg := loginCfg c;
     opener := opener c; usernameSent := usernameSent c; manualReady := manualReady c;
     resyncPending := resyncPending c; lineTail := lineTail c; rebootSuspect :=
     rebootSuspect c; promptGen := promptGen c; promptTimer := promptTimer c; authRetryTimer
     := authRetryTimer c; authRetries := authRetries c; authGen := authGen c; readerDone :=
     readerDone c; humanSubs := humanSubs c; aiSubs := aiSubs c; act := act c; resultWaiters
     := resultWaiters c; trace := trace c |}.

Definition set_transportKind (v : string) (c : Coordinator) : Coordinator :=
  {| board := board c; sess := sess c; commands := commands c; ring := ring c; secretW :=
     secretW c; stream := stream c; transportKind := v; loginCfg := loginCfg c; opener :=
     opener c; usernameSent := usernameSent c; manualReady := manualReady c; resyncPending
     := resyncPending c; lineTail := lineTail c; rebootSuspect := rebootSuspect c; promptGen
     := promptGen c; promptTimer := promptTimer c; authRetryTimer := authRetryTimer c;
     authRetries := authRetries c; authGen := authGen c; readerDone := readerDone c;
     humanSubs := humanSubs c; aiSubs := aiSubs c; act := act c; resultWaiters :=
     resultWaiters c; trace := trace c |}.

Definition set_loginCfg (v : LoginConfig) (c : Coordinator) : Coordinator :=
  {| board := board c; sess := sess c; commands := commands c; ring := ring c; secretW :=
     secretW c; stream := stream c; transportKind := transportKind c; loginCfg := v; opener
     := opener c; usernameSent := usernameSent c; manualReady := manualReady c;
     resyncPending := resyncPending c; lineTail := lineTail c; rebootSuspect :=
     rebootSuspect c; promptGen := promptGen c; promptTimer := promptTimer c; authRetryTimer
     := authRetryTimer c; authRetries := authRetries c; authGen := authGen c; readerDone :=
     readerDone c; humanSubs := humanSubs c; aiSubs := aiSubs c; act := act c; resultWaiters
     := resultWaiters c; trace := trace c |}.

Definition set_opener (v : option nat) (c : Coordinator) : Coordinator :=
  {| board := board c; sess := sess c; commands := commands c; ring := ring c; secretW :=
     secretW c; stream := stream c; transportKind := transportKind c; loginCfg := loginCfg
     c; opener := v; usernameSent := usernameSent c; manualReady := manualReady c;
     resyncPending := resyncPending c; lineTail := lineTail c; rebootSuspect :=
     rebootSuspect c; promptGen := promptGen c; promptTimer := promptTimer c; authRetryTimer
     := authRetryTimer c; authRetries := authRetries c; authGen := authGen c; readerDone :=
     readerDone c; humanSubs := humanSubs c; aiSubs := aiSubs c; act := act c; resultWaiters
     := resultWaiters c; trace := trace c |}.

Definition set_usernameSent (v : bool) (c : Coordinator) : Coordinator :=
  {| board := board c; sess := sess c; commands := commands c; ring := ring c; secretW :=
     secretW c; stream := stream c; transportKind := transportKind c; loginCfg := loginCfg
     c; opener := opener c; usernameSent := v; manualReady := manualReady c; resyncPending
     := resyncPending c; lineTail := lineTail c; rebootSuspect := rebootSuspect c; promptGen
     := promptGen c; promptTimer := promptTimer c; authRetryTimer := authRetryTimer c;
     authRetries := authRetries c; authGen := authGen c; readerDone := readerDone c;
     humanSubs := humanSubs c; aiSubs := aiSubs c; act := act c; resultWaiters :=
     resultWaiters c; trace := trace c |}.

Definition set_manualReady (v : bool) (c : Coordinator) : Coordinator :=
  {| board := board c; sess := sess c; commands := commands c; ring := ring c; secretW :=
     secretW c; stream := stream c; transportKind := transportKind c; loginCfg := loginCfg
     c; opener := opener c; usernameSent := usernameSent c; manualReady := v; resyncPending
     := resyncPending c; lineTail := lineTail c; rebootSuspect := rebootSuspect c; promptGen
     := promptGen c; promptTimer := promptTimer c; authRetryTimer := authRetryTimer c;
     authRetries := authRetries c; authGen := authGen c; readerDone := readerDone c;
     humanSubs := humanSubs c; aiSubs := aiSubs c; act := act c; resultWaiters :=
     resultWaiters c; trace := trace c |}.

Definition set_resyncPending (v : bool) (c : Coordinator) : Coordinator :=
  {| board := board c; sess := sess c; commands := commands c; ring := ring c; secretW :=
     secretW c; stream := stream c; transportKind := transportKind c; loginCfg := loginCfg
     c; opener := opener c; usernameSent := usernameSent c; manualReady := manualReady c;
     resyncPending := v; lineTail := lineTail c; rebootSuspect := rebootSuspect c; promptGen
     := promptGen c; promptTimer := promptTimer c; authRetryTimer := authRetryTimer c;
     authRetries := authRetries c; authGen := authGen c; readerDone := readerDone c;
     humanSubs := humanSubs c; aiSubs := aiSubs c; act := act c; resultWaiters :=
     resultWaiters c; trace := trace c |}.

Definition set_lineTail (v : bytes) (c : Coordinator) : Coordinator :=
  {| board := board c; sess := sess c; commands := commands c; ring := ring c; secretW :=
     secretW c; stream := stream c; transportKind := transportKind c; loginCfg := loginCfg
     c; opener := opener c; usernameSent := usernameSent c; manualReady := manualReady c;
     resyncPending := resyncPending c; lineTail := v; rebootSuspect := rebootSuspect c;
     promptGen := promptGen c; promptTimer := promptTimer c; authRetryTimer :=
     authRetryTimer c; authRetries := authRetries c; authGen := authGen c; readerDone :=
     readerDone c; humanSubs := humanSubs c; aiSubs := aiSubs c; act := act c; resultWaiters
     := resultWaiters c; trace := trace c |}.

Definition set_rebootSuspect (v : bool) (c : Coordinator) : Coordinator :=
  {| board := board c; sess := sess c; commands := commands c; ring := ring c; secretW :=
     secretW c; stream := stream c; transportKind := transportKind c; loginCfg := loginCfg
     c; opener := opener c; usernameSent := usernameSent c; manualReady := manualReady c;
     resyncPending := resyncPending c; lineTail := lineTail c; rebootSuspect := v; promptGen
     := promptGen c; promptTimer := promptTimer c; authRetryTimer := authRetryTimer c;
     authRetries := authRetries c; authGen := authGen c; readerDone := readerDone c;
     humanSubs := humanSubs c; aiSubs := aiSubs c; act := act c; resultWaiters :=
     resultWaiters c; trace := trace c |}.

Definition set_promptGen (v : Z) (c : Coordinator) : Coordinator :=
  {| board := board c; sess := sess c; commands := commands c; ring := ring c; secretW :=
     secretW c; stream := stream c; transportKind := transportKind c; loginCfg := loginCfg
     c; opener := opener c; usernameSent := usernameSent c; manualReady := manualReady c;
     resyncPending := resyncPending c; lineTail := lineTail c; rebootSuspect :=
     rebootSuspect c; promptGen := v; promptTimer := promptTimer c; authRetryTimer :=
     authRetryTimer c; authRetries := authRetries c; authGen := authGen c; readerDone :=
     readerDone c; humanSubs := humanSubs c; aiSubs := aiSubs c; act := act c; resultWaiters
     := resultWaiters c; trace := trace c |}.

Definition set_promptTimer (v : option timer) (c : Coordinator) : Coordinator :=
  {| board := board c; sess := sess c; commands := commands c; ring := ring c; secretW :=
     secretW c; stream := stream c; transportKind := transportKind c; loginCfg := loginCfg
     c; opener := opener c; usernameSent := usernameSent c; manualReady := manualReady c;
     resyncPending := resyncPending c; lineTail := lineTail c; rebootSuspect :=
     rebootSuspect c; promptGen := promptGen c; promptTimer := v; authRetryTimer :=
     authRetryTimer c; authRetries := authRetries c; authGen := authGen c; readerDone :=
     readerDone c; humanSubs := humanSubs c; aiSubs := aiSubs c; act := act c; resultWaiters
     := resultWaiters c; trace := trace c |}.

Definition set_authRetryTimer (v : option timer) (c : Coordinator) : Coordinator :=
  {| board := board c; sess := sess c; commands := commands c; ring := ring c; secretW :=
     secretW c; stream := stream c; transportKind := transportKind c; loginCfg := loginCfg
     c; opener := opener c; usernameSent := usernameSent c; manualReady := manualReady c;
     resyncPending := resyncPending c; lineTail := lineTail c; rebootSuspect :=
     rebootSuspect c; promptGen := promptGen c; promptTimer := promptTimer c; authRetryTimer
     := v; authRetries := authRetries c; authGen := authGen c; readerDone := readerDone c;
     humanSubs := humanSubs c; aiSubs := aiSubs c; act := act c; resultWaiters :=
     resultWaiters c; trace := trace c |}.

Definition set_authRetries (v : Z) (c : Coordinator) : Coordinator :=
  {| board := board c; sess := sess c; commands := commands c; ring := ring c; secretW :=
     secretW c; stream := stream c; transportKind := transportKind c; loginCfg := loginCfg
     c; opener := opener c; usernameSent := usernameSent c; manualReady := manualReady c;
     resyncPending := resyncPending c; lineTail := lineTail c; rebootSuspect :=
     rebootSuspect c; promptGen := promptGen c; promptTimer := promptTimer c; authRetryTimer
     := authRetryTimer c; authRetries := v; authGen := authGen c; readerDone := readerDone
     c; humanSubs := humanSubs c; aiSubs := aiSubs c; act := act c; resultWaiters :=
     resultWaiters c; trace := trace c |}.

Definition set_authGen (v : Z) (c : Coordinator) : Coordinator :=
  {| board := board c; sess := sess c; commands := commands c; ring := ring c; secretW :=
     secretW c; stream := stream c; transportKind := transportKind c; loginCfg := loginCfg
     c; opener := opener c; usernameSent := usernameSent c; manualReady := manualReady c;
     resyncPending := resyncPending c; lineTail := lineTail c; rebootSuspect :=
     rebootSuspect c; promptGen := promptGen c; promptTimer := promptTimer c; authRetryTimer
     := authRetryTimer c; authRetries := authRetries c; authGen := v; readerDone :=
     readerDone c; humanSubs := humanSubs c; aiSubs := aiSubs c; act := act c; resultWaiters
     := resultWaiters c; trace := trace c |}.

Definition set_readerDone (v : option nat) (c : Coordinator) : Coordinator :=
  {| board := board c; sess := sess c; commands := commands c; ring := ring c; secretW :=
     secretW c; stream := stream c; transportKind := transportKind c; loginCfg := loginCfg
     c; opener := opener c; usernameSent := usernameSent c; manualReady := manualReady c;
     resyncPending := resyncPending c; lineTail := lineTail c; rebootSuspect :=
     rebootSuspect c; promptGen := promptGen c; promptTimer := promptTimer c; authRetryTimer
     := authRetryTimer c; authRetries := authRetries c; authGen := authGen c; readerDone :=
     v; humanSubs := humanSubs c; aiSubs := aiSubs c; act := act c; resultWaiters :=
     resultWaiters c; trace := trace c |}.

Definition set_humanSubs (v : list subscriber) (c : Coordinator) : Coordinator :=
  {| board := board c; sess := sess c; commands := commands c; ring := ring c; secretW :=
     secretW c; stream := stream c; transportKind := transportKind c; loginCfg := loginCfg
     c; opener := opener c; usernameSent := usernameSent c; manualReady := manualReady c;
     resyncPending := resyncPending c; lineTail := lineTail c; rebootSuspect :=
     rebootSuspect c; promptGen := promptGen c; promptTimer := promptTimer c; authRetryTimer
     := authRetryTimer c; authRetries := authRetries c; authGen := authGen c; readerDone :=
     readerDone c; humanSubs := v; aiSubs := aiSubs c; act := act c; resultWaiters :=
     resultWaiters c; trace := trace c |}.

Definition set_aiSubs (v : list subscriber) (c : Coordinator) : Coordinator :=
  {| board := board c; sess := sess c; commands := commands c; ring := ring c; secretW :=
     secretW c; stream := stream c; transportKind := transportKind c; loginCfg := loginCfg
     c; opener := opener c; usernameSent := usernameSent c; manualReady := manualReady c;
     resyncPending := resyncPending c; lineTail := lineTail c; rebootSuspect :=
     rebootSuspect c; promptGen := promptGen c; promptTimer := promptTimer c; authRetryTimer
     := authRetryTimer c; authRetries := authRetries c; authGen := authGen c; readerDone :=
     readerDone c; humanSubs := humanSubs c; aiSubs := v; act := act c; resultWaiters :=
     resultWaiters c; trace := trace c |}.

Definition set_act (v : option activeTransaction) (c : Coordinator) : Coordinator :=
  {| board := board c; sess := sess c; commands := commands c; ring := ring c; secretW :=
     secretW c; stream := stream c; transportKind := transportKind c; loginCfg := loginCfg
     c; opener := opener c; usernameSent := usernameSent c; manualReady := manualReady c;
     resyncPending := resyncPending c; lineTail := lineTail c; rebootSuspect :=
     rebootSuspect c; promptGen := promptGen c; promptTimer := promptTimer c; authRetryTimer
     := authRetryTimer c; authRetries := authRetries c; authGen := authGen c; readerDone :=
     readerDone c; humanSubs := humanSubs c; aiSubs := aiSubs c; act := v; resultWaiters :=
     resultWaiters c; trace := trace c |}.

Definition set_resultWaiters (v : gmap string resultWaiter) (c : Coordinator) : Coordinator :=
  {| board := board c; sess := sess c; commands := commands c; ring := ring c; secretW :=
     secretW c; stream := stream c; transportKind := transportKind c; loginCfg := loginCfg
     c; opener := opener c; usernameSent := usernameSent c; manualReady := manualReady c;
     resyncPending := resyncPending c; lineTail := lineTail c; rebootSuspect :=
     rebootSuspect c; promptGen := promptGen c; promptTimer := promptTimer c; authRetryTimer
     := authRetryTimer c; authRetries := authRetries c; authGen := authGen c; readerDone :=
     readerDone c; humanSubs := humanSubs c; aiSubs := aiSubs c; act := act c; resultWaiters
     := v; trace := trace c |}.

Definition set_trace (v : list effect) (c : Coordinator) : Coordinator :=
  {| board := board c; sess := sess c; commands := commands c; ring := ring c; secretW :=
     secretW c; stream := stream c; transportKind := transportKind c; loginCfg := loginCfg
     c; opener := opener c; usernameSent := usernameSent c; manualReady := manualReady c;
     resyncPending := resyncPending c; lineTail := lineTail c; rebootSuspect :=
     rebootSuspect c; promptGen := promptGen c; promptTimer := promptTimer c; authRetryTimer
     := authRetryTimer c; authRetries := authRetries c; authGen := authGen c; readerDone :=
     readerDone c; humanSubs := humanSubs c; aiSubs := aiSubs c; act := act c; resultWaiters
     := resultWaiters c; trace := v |}.


(** ** Small helpers *)

Definition emit (e : effect) (c : Coordinator) : Coordinator :=
  set_trace (trace c ++ [e]) c.

(** [_ = c.sess.Apply(e)]. *)
Definition apply_event (rnd : string) (e : Event) (c : Coordinator) : Coordinator :=
  set_sess (apply_ rnd e (sess c)) c.

(** [c.stream.Write(data)] with its result ignored. *)
Definition write_stream (who : writer) (data : bytes) (c : Coordinator) : Coordinator :=
  match stream c with Some s => emit (EWrite who s data) c | None => c end.

(** [c.stream.Close()]. *)
Definition close_stream (c : Coordinator) : Coordinator :=
  match stream c with Some s => emit (EClose s) c | None => c end.

Definition st (c : Coordinator) : State := state (sess c).

Definition set_deadline (d : Z) (c : Coordinator) : Coordinator :=
  match act c with
  | Some a => set_act (Some {| tx := tx a; act_marker := act_marker a; deadline := d;
                               startSeq := startSeq a |}) c
  | None => c
  end.

(** ** Subscribers *)

Definition newSubscriber : subscriber := {| ch := []; dropped := 0 |}.

Definition publish_to (e : bytes) (s : subscriber) : subscriber :=
  if (length (ch s) <? subscriberQueueSize)%nat
  then {| ch := ch s ++ [e]; dropped := dropped s |}
  else {| ch := ch s; dropped := u64 (dropped s + 1) |}.

Definition publish (data : bytes) (c : Coordinator) : Coordinator :=
  set_humanSubs (publish_to data <$> humanSubs c)
    (set_aiSubs (publish_to data <$> aiSubs c) c).

Definition SubscribeHuman (c : Coordinator) : Coordinator :=
  set_humanSubs (humanSubs c ++ [newSubscriber]) c.

Definition subscribeAI (c : Coordinator) : Coordinator :=
  set_aiSubs (aiSubs c ++ [newSubscriber]) c.

(** ** Terminal results *)

Definition finishActiveLocked (now : Z) (status : Status) (exitCode : option Z)
    (c : Coordinator) : Coordinator :=
  match act c with
  | None => c
  | Some a =>
      let chunk := Ring.ReadAfter (startSeq a) (2 ^ 20) (ring c) in
      let res := {| TransactionID := tx_ID (tx a);
                    SourceProposalID := tx_SourceProposalID (tx a);
                    res_Status := status; ExitCode := exitCode;
                    Duration := now - ApprovedAt (tx a);
                    Output := Ring.Data chunk; OutputTruncatedStart := Ring.Gap chunk;
                    ContextBefore := []; ContextAfter := []; CompletedAt := now |} in
      let c1 := set_commands (fst (CompleteTransaction res (commands c))) c in
      let c2 := match resultWaiters c1 !! TransactionID res with
                | Some w => emit (EWake (wake w))
                              (set_resultWaiters (delete (TransactionID res) (resultWaiters c1)) c1)
                | None => c1
                end in
      set_act None c2
  end.

(** ** Prompt tracking *)

Definition stopAuthRetryLocked (c : Coordinator) : Coordinator :=
  set_authRetryTimer None (set_authGen (u64 (authGen c + 1)) c).

Definition resetPromptStateLocked (c : Coordinator) : Coordinator :=
  let c := set_promptTimer None (set_promptGen (u64 (promptGen c + 1)) c) in
  let c := set_authRetries 0 (stopAuthRetryLocked c) in
  set_rebootSuspect false (set_lineTail [] c).

Definition armAuthRetryLocked (now : Z) (c : Coordinator) : Coordinator :=
  let cfg := loginCfg c in
  match stream c with
  | None => c
  | Some _ =>
      if Active (secretW c) then c
      else if authRetryLimit cfg <=? authRetries c then c
      else
        let g := u64 (authGen c + 1) in
        set_authRetryTimer (Some {| gen := g; fires_at := now + authRetryPeriod cfg |})
          (set_authGen g c)
  end.

Definition retryAuth (now : Z) (g : Z) (c : Coordinator) : Coordinator :=
  if negb (g =? authGen c) || bool_decide (st c <> Authenticating) then c
  else match stream c with
  | None => c
  | Some _ =>
      if Active (secretW c) then c
      else if pat_match (ShellPromptPattern (loginCfg c)) (lineTail c)
      then armAuthRetryLocked now c
      else
        let c := set_authRetries (authRetries c + 1) c in
        let c := write_stream ByNudge [LF] c in
        armAuthRetryLocked now (set_usernameSent false c)
  end.

(** The bytes after the last "\r" or "\n", if there is one. *)
Fixpoint after_break (l : bytes) : option bytes :=
  match l with
  | [] => None
  | c :: l' =>
      match after_break l' with
      | Some t => Some t
      | None => if Ascii.eqb c CR || Ascii.eqb c LF then Some l' else None
      end
  end.

Definition maxLineTail : nat := 1024.

(** The tail computation of [advanceLineTailLocked]. *)
Definition advance (tail chunk : bytes) : bytes :=
  let t := match after_break chunk with Some t => t | None => tail ++ chunk end in
  drop (length t - maxLineTail) t.

Definition advanceLineTailLocked (chunk : bytes) (c : Coordinator) : Coordinator :=
  set_lineTail (advance (lineTail c) chunk) c.

Definition authPromptAtLineEndLocked (c : Coordinator) : bool :=
  pat_match (LoginPromptPattern (loginCfg c)) (lineTail c) ||
  pat_match (PasswordPromptPattern (loginCfg c)) (lineTail c).

Definition armPromptConfirmLocked (now : Z) (cfg : LoginConfig) (c : Coordinator) : Coordinator :=
  if negb (pat_match (ShellPromptPattern cfg) (lineTail c)) then c
  else set_promptTimer (Some {| gen := promptGen c; fires_at := now + promptQuietPeriod cfg |}) c.

Definition confirmShellPrompt (g : Z) (c : Coordinator) : Coordinator :=
  if negb (g =? promptGen c) then c
  else if negb (pat_match (ShellPromptPattern (loginCfg c)) (lineTail c)) then c
  else
    let c := set_resyncPending false (set_rebootSuspect false (set_lineTail [] c)) in
    let c := if Active (secretW c) then set_secretW (Finish (secretW c)) c else c in
    if decide (st c = Authenticating) then apply_event "" Authenticated c else c.

Definition handleAuthenticatingLocked (now : Z) (c : Coordinator) : Coordinator :=
  let cfg := loginCfg c in
  let c := if negb (usernameSent c) && pat_match (LoginPromptPattern cfg) (lineTail c)
           then
             let c := write_stream ByLogin (to_bytes (Username cfg +:+ of_bytes [LF])) c in
             set_lineTail [] (set_usernameSent true c)
           else c in
  armAuthRetryLocked now c.

Definition handleMarkerLocked (now : Z) (c : Coordinator) : Coordinator :=
  match act c with
  | None => c
  | Some a =>
      let tail := Ring.ReadAfter (startSeq a) (2 ^ 16) (ring c) in
      match find (act_marker a) (Ring.Data tail) with
      | None => c
      | Some code =>
          let c := set_rebootSuspect false c in
          let c := finishActiveLocked now StatusCompleted (Some code) c in
          apply_event "" CommandResult c
      end
  end.

Definition handleTargetRebootLocked (now : Z) (c : Coordinator) : Coordinator :=
  let c := match act c with
           | Some _ => finishActiveLocked now StatusTargetRebooted None c
           | None => c
           end in
  let c := set_commands (InvalidateSession (sessionID (sess c)) (commands c)) c in
  let c := apply_event "" TargetRebooted c in
  let c := set_manualReady false (set_usernameSent false c) in
  let c := set_rebootSuspect false (set_resyncPending false c) in
  if Active (secretW c) then set_secretW (Finish (secretW c)) c else c.

Definition onData (now : Z) (chunk : bytes) (c : Coordinator) : Coordinator :=
  let c := set_promptGen (u64 (promptGen c + 1)) c in
  let scan := lineTail c ++ chunk in
  let c := advanceLineTailLocked chunk c in
  let cfg := loginCfg c in
  let state := st c in
  let c := if pat_match (BootBannerPattern cfg) scan &&
              (bool_decide (state = Ready) || bool_decide (state = RunningCommand))
           then set_rebootSuspect true c else c in
  if rebootSuspect c && bool_decide (state <> Authenticating) && authPromptAtLineEndLocked c
  then
    let c := handleTargetRebootLocked now (set_rebootSuspect false c) in
    handleAuthenticatingLocked now c
  else if Active (secretW c) then armPromptConfirmLocked now cfg c
  else if secretPromptMatches cfg (lineTail c)
  then
    let c := set_secretW (Begin (secretW c)) c in
    let c := set_deadline (now + SecretGracePeriod cfg) c in
    set_lineTail [] c
  else
    let c := match state with
             | Authenticating => handleAuthenticatingLocked now c
             | RunningCommand => handleMarkerLocked now c
             | _ => c
             end in
    armPromptConfirmLocked now cfg c.

(** ** The read loop *)

(** What is stored of a chunk, given the window flag read before. *)
Definition stored_bytes (active : bool) (raw : bytes) (c : Coordinator) : bytes :=
  if active then FilterTarget raw (secretW c) else raw.

Definition store_chunk (active : bool) (raw : bytes) (c : Coordinator) : Coordinator :=
  let stored := stored_bytes active raw c in
  publish stored (set_ring (Ring.Append stored (ring c)) c).

(** One turn of [readLoop] with [n > 0], undisturbed. *)
Definition readLoop_body (now : Z) (raw : bytes) (c : Coordinator) : Coordinator :=
  onData now raw (store_chunk (Active (secretW c)) raw c).

Definition onReadError (now : Z) (s : nat) (c : Coordinator) : Coordinator :=
  if bool_decide (stream c <> Some s) then c
  else
    let c := match act c with
             | Some _ => finishActiveLocked now StatusDisconnected None c
             | None => c
             end in
    let c := set_commands (InvalidateSession (sessionID (sess c)) (commands c)) c in
    let c := apply_event "" TransportLost c in
    let c := emit (EClose s) c in
    set_manualReady false (set_usernameSent false (set_stream None c)).

(** ** Starting and ending sessions *)

(** The composite literal, for any ring. *)
Definition newCoordinatorWith (r : Ring) (brd rnd : string) : Coordinator :=
  {| board := brd; sess := NewMachine (New "sess" rnd); commands := NewStore [];
     ring := r; secretW := NewWindow; stream := None; transportKind := "";
     loginCfg := emptyLoginConfig; opener := None; usernameSent := false;
     manualReady := false; resyncPending := false; lineTail := [];
     rebootSuspect := false; promptGen := 0; promptTimer := None;
     authRetryTimer := None; authRetries := 0; authGen := 0; readerDone := None;
     humanSubs := []; aiSubs := []; act := None; resultWaiters := ∅; trace := [] |}.

Definition NewCoordinator (brd rnd : string) : option Coordinator :=
  r ← NewRing (2 ^ 20); Some (newCoordinatorWith r brd rnd).

(** The end of [start] and [retry]: the transport is ready, and either it is
    authenticated or the first nudge is armed. *)
Definition begin_stream (now : Z) (alreadyAuthenticated : bool) (done : nat)
    (c : Coordinator) : Coordinator :=
  let c := apply_event "" TransportReady c in
  let c := if alreadyAuthenticated then apply_event "" Authenticated c
           else armAuthRetryLocked now c in
  set_readerDone (Some done) c.

Definition start (now : Z) (rnd : string) (done : nat) (s : nat) (cfg : LoginConfig)
    (op : option nat) (kind : string) (alreadyAuthenticated : bool) (c : Coordinator)
  : Coordinator * option GwError :=
  match stream c with
  | Some _ => (c, Some ErrTransportActive)
  | None =>
      let c := if decide (st c = Reconnecting) then apply_event "" Shutdown c else c in
      let c := set_opener op (set_loginCfg cfg (set_transportKind kind (set_stream (Some s) c))) in
      let c := set_resyncPending false (set_manualReady false (set_usernameSent false c)) in
      let c := resetPromptStateLocked c in
      let c := apply_event rnd Connect c in
      (begin_stream now alreadyAuthenticated done c, None)
  end.

Definition StartUART now rnd done s cfg op c := start now rnd done s cfg op "uart" false c.

Definition StartSSH now rnd done s op c := start now rnd done s emptyLoginConfig op "ssh" true c.

Definition StartTelnet now rnd done s cfg op c := start now rnd done s cfg op "telnet" false c.

(** The first critical section of [retry]: the opener to call. *)
Definition retry_check (c : Coordinator) : result GwError nat :=
  if decide (st c <> Reconnecting) then Err ErrNotReconnecting
  else match opener c with Some op => Ok op | None => Err ErrHumanSelectionRequired end.

(** The second one, once the opener returned the stream [s]. *)
Definition retry_install (now : Z) (rnd : string) (done : nat) (s : nat)
    (alreadyAuthenticated : bool) (c : Coordinator) : Coordinator * option GwError :=
  match Session.Apply rnd HumanRetry (sess c) with
  | (_, Some e) => (emit (EClose s) c, Some (ErrTransition e))
  | (m, None) =>
      let c := set_stream (Some s) (set_sess m c) in
      let c := set_resyncPending false (set_manualReady false (set_usernameSent false c)) in
      let c := resetPromptStateLocked c in
      (begin_stream now alreadyAuthenticated done c, None)
  end.

(** [retry], undisturbed; [open] is the opener's outcome. *)
Definition retry (now : Z) (rnd : string) (done : nat) (open : nat -> option nat)
    (alreadyAuthenticated : bool) (c : Coordinator) : Coordinator * option GwError :=
  match retry_check c with
  | Err e => (c, Some e)
  | Ok op =>
      match open op with
      | None => (c, Some ErrOpen)
      | Some s => retry_install now rnd done s alreadyAuthenticated c
      end
  end.

Definition RetryUART now rnd done open c := retry now rnd done open false c.
Definition RetryTelnet now rnd done open c := retry now rnd done open false c.
Definition RetrySSH now rnd done open c := retry now rnd done open true c.

(** [EndSession] up to the wait: closes the stream it read. *)
Definition EndSession_close (close_fails : bool) (c : Coordinator)
  : Coordinator * result GwError (option nat) :=
  match stream c with
  | None => (c, Err ErrNotConnected)
  | Some s =>
      if close_fails then (emit (EClose s) c, Err ErrClose)
      else (emit (EClose s) c, Ok (readerDone c))
  end.

(** The second critical section of [EndSession], after the reader exited. *)
Definition EndSession_finish (c : Coordinator) : Coordinator := apply_event "" Shutdown c.

Definition Stop (now : Z) (c : Coordinator) : Coordinator :=
  let c := match act c with
           | Some _ => finishActiveLocked now StatusDaemonRestarted None c
           | None => c
           end in
  resetPromptStateLocked (close_stream c).

(** ** Commands *)

(** What one call draws from its environment. *)
Record draws := {
  clock : Z;
  rnd_prop : string;
  rnd_txn : string;
  rnd_nonce : string;
  write_fails : bool
}.

Definition gw_input (sessID text purpose : string) (timeout : Z) (c : Coordinator) : Input :=
  {| in_SessionID := sessID; in_Transport := transportKind c; in_Board := board c;
     in_Text := text; in_Purpose := purpose; in_Timeout := timeout |}.

Definition Propose (d : draws) (sessID text purpose : string) (timeout : Z) (c : Coordinator)
  : Coordinator * result StoreError Proposal :=
  let '(s, r) := Command.Propose (clock d) (rnd_prop d)
                   (gw_input sessID text purpose timeout c) (commands c) in
  (set_commands s c, r).

Definition canStartLocked (c : Coordinator) : option GwError :=
  match stream c with
  | None => Some ErrNotConnected
  | Some _ =>
      if bool_decide (st c <> Ready) || Active (secretW c) || resyncPending c
      then Some ErrNotReady
      else match act c with Some _ => Some ErrCommandActive | None => None end
  end.

Definition command_line (t : Transaction) (m : marker) : bytes :=
  to_bytes (tx_Text t +:+ shellSuffix m +:+ of_bytes [LF]).

(** Go returns the transaction also when the write failed. *)
Definition startTransactionLocked (d : draws) (t : Transaction) (c : Coordinator)
  : Coordinator * (Transaction * option GwError) :=
  let m := newMarker (rnd_nonce d) (tx_ID t) in
  let c := set_act (Some {| tx := t; act_marker := m; deadline := clock d + tx_Timeout t;
                            startSeq := Ring.Len (ring c) |}) c in
  let c := apply_event "" CommandStart c in
  let c := write_stream (ByTransaction (tx_ID t)) (command_line t m) c in
  if write_fails d then
    let c := finishActiveLocked (clock d) StatusDisconnected None c in
    let c := if decide (st c = RunningCommand) then apply_event "" CommandResult c else c in
    (c, (t, Some ErrWrite))
  else (c, (t, None)).

(** A method that returns (transaction, error): either may be nil. *)
Definition tx_result : Type := option Transaction * option GwError.

Definition Approve (d : draws) (proposalID : string) (c : Coordinator)
  : Coordinator * tx_result :=
  match canStartLocked c with
  | Some e => (c, (None, Some e))
  | None =>
      let '(s, r) := Command.Approve (clock d) (clock d) (rnd_txn d) proposalID (commands c) in
      let c := set_commands s c in
      match r with
      | Err e => (c, (None, Some (ErrCommand e)))
      | Ok t => let '(c, (t, e)) := startTransactionLocked d t c in (c, (Some t, e))
      end
  end.

Definition DiagnoseStart (d : draws) (sessID text purpose : string) (timeout : Z)
    (c : Coordinator) : Coordinator * tx_result :=
  match canStartLocked c with
  | Some e => (c, (None, Some e))
  | None =>
      if negb (String.eqb sessID (sessionID (sess c))) then (c, (None, Some ErrNotReady))
      else
        let '(s, r) := Command.Propose (clock d) (rnd_prop d)
                         (gw_input sessID text purpose timeout c) (commands c) in
        let c := set_commands s c in
        match r with
        | Err e => (c, (None, Some (ErrCommand e)))
        | Ok prop =>
            let '(s, r) := Command.Approve (clock d) (clock d) (rnd_txn d) (prop_ID prop)
                             (commands c) in
            let c := set_commands s c in
            match r with
            | Err e => (set_commands (fst (Command.Reject (prop_ID prop) (commands c))) c,
                        (None, Some (ErrCommand e)))
            | Ok t => let '(c, (t, e)) := startTransactionLocked d t c in (c, (Some t, e))
            end
        end
  end.

Definition Reject (proposalID : string) (c : Coordinator) : Coordinator * option StoreError :=
  let '(s, e) := Command.Reject proposalID (commands c) in (set_commands s c, e).

Definition Edit (d : draws) (proposalID text purpose : string) (c : Coordinator)
  : Coordinator * result StoreError Proposal :=
  let '(s, r) := Command.Edit (clock d) (rnd_prop d) proposalID text purpose (commands c) in
  (set_commands s c, r).

Definition PendingForSession (sessID : string) (c : Coordinator) : list Proposal :=
  Command.PendingForSession sessID (commands c).

Definition Result (txID : string) (c : Coordinator) : result StoreError Command.Result :=
  GetResult txID (commands c).

Definition ConfirmSessionReady (c : Coordinator) : Coordinator * option GwError :=
  if decide (st c <> Authenticating) then (c, Some (ErrConfirm (st c)))
  else (apply_event "" Authenticated (set_manualReady true c), None).

Definition Takeover (now : Z) (c : Coordinator) : Coordinator :=
  match act c with
  | None => c
  | Some _ =>
      let c := finishActiveLocked now StatusInterruptedByUser None c in
      if decide (st c = RunningCommand) then apply_event "" CommandResult c else c
  end.

Definition BeginSecret (now : Z) (c : Coordinator) : Coordinator :=
  set_deadline (now + SecretGracePeriod (loginCfg c)) (set_secretW (Begin (secretW c)) c).

Definition EndSecret (c : Coordinator) : Coordinator :=
  let c := set_secretW (Finish (secretW c)) c in
  if decide (st c = Authenticating)
  then apply_event "" Authenticated (set_authRetries 0 (stopAuthRetryLocked c))
  else c.

(** [n, err := stream.Write(data)]; the outcome is the transport's. *)
Definition WriteHuman (data : bytes) (c : Coordinator) : Coordinator * option GwError :=
  match stream c with
  | None => (c, Some ErrNotConnected)
  | Some _ => (write_stream ByHuman data c, None)
  end.

Definition ReadAfter (after max : Z) (c : Coordinator) : Ring.Chunk :=
  Ring.ReadAfter after max (ring c).

Definition AIEnabled (c : Coordinator) : bool :=
  if Active (secretW c) then false
  else if resyncPending c then false
  else match st c with Ready | RunningCommand => true | _ => false end.

Definition SecretActive (c : Coordinator) : bool := Active (secretW c).

Definition SessionID (c : Coordinator) : string := sessionID (sess c).

Definition active (c : Coordinator) : option activeTransaction := act c.

Definition activeMarker (c : Coordinator) : marker :=
  match act c with
  | Some a => act_marker a
  | None => {| transactionID := ""; nonce := "" |}
  end.

Definition checkTimeout (now : Z) (c : Coordinator) : Coordinator :=
  match act c with
  | None => c
  | Some a =>
      if now <? deadline a then c
      else
        let c := write_stream ByTimeout ["003"%char] c in
        let c := finishActiveLocked now StatusTimeout None c in
        let c := if decide (st c = RunningCommand) then apply_event "" CommandResult c else c in
        let c := set_resyncPending true c in
        match ShellPromptPattern (loginCfg c) with
        | None => close_stream c
        | Some _ => c
        end
  end.

(** ** Waiting for a result *)

Inductive wait_outcome :=
| WaitDone (r : Command.Result) | WaitFailed (e : GwError) | Waiting (w : nat).

(** [WaitResult] up to the select: an immediate answer, or the channel to wait
    on. [fresh] identifies a channel made for this call. *)
Definition WaitResult_register (fresh : nat) (txID : string) (c : Coordinator)
  : Coordinator * wait_outcome :=
  match GetResult txID (commands c) with
  | Ok r => (c, WaitDone r)
  | Err _ =>
      match resultWaiters c !! txID with
      | Some w =>
          (set_resultWaiters (<[txID := {| wake := wake w; refs := refs w + 1 |}]>
                                (resultWaiters c)) c, Waiting (wake w))
      | None =>
          if maxResultWaiterTransactions <=? Z.of_nat (size (resultWaiters c))
          then (c, WaitFailed ErrResultWaiterLimit)
          else (set_resultWaiters (<[txID := {| wake := fresh; refs := 1 |}]>
                                     (resultWaiters c)) c, Waiting fresh)
      end
  end.

(** The select's first case: the channel was closed. *)
Definition WaitResult_woken (txID : string) (c : Coordinator) : result StoreError Command.Result :=
  GetResult txID (commands c).

(** The select's second case: the context ended. *)
Definition WaitResult_cancel (w : nat) (txID : string) (c : Coordinator)
  : Coordinator * option GwError :=
  match resultWaiters c !! txID with
  | Some x =>
      if (wake x =? w)%nat then
        if refs x - 1 =? 0
        then (set_resultWaiters (delete txID (resultWaiters c)) c, Some ErrContext)
        else (set_resultWaiters (<[txID := {| wake := wake x; refs := refs x - 1 |}]>
                                   (resultWaiters c)) c, Some ErrContext)
      else (c, Some ErrContext)
  | None => (c, Some ErrContext)
  end.
