(* ===== verification/Login.v ===== *)
(** * Default prompt recognition (src/cmd/gatewayd/main.go: defaultLoginConfig)

    The regular expressions the daemon compiles, as matchers, and the login
    configuration of every session. *)

From S2P Require Import Prelude GoStd Coordinator.

(** ** Regular expressions *)

(** [\s]. *)
Definition re_space (c : ascii) : bool :=
  existsb (fun n => (nat_of_ascii c =? n)%nat) [9; 10; 12; 13; 32]%nat.

(** [\s*$] at this point. *)
Definition blank_to_end (s : bytes) : bool := forallb re_space s.

Definition lower (c : ascii) : ascii :=
  if char_in "A" "Z" c then ascii_of_nat (nat_of_ascii c + 32) else c.

(** A lower-case letter under [(?i)]: besides its upper case, the long s matches
    s and the Kelvin sign k. *)
Definition fold_char (p : ascii) (s : bytes) : option bytes :=
  match s with
  | c :: r =>
      if Ascii.eqb (lower c) p then Some r
      else match p, r with
           | "s"%char, d :: r =>
               if (nat_of_ascii c =? 197)%nat && (nat_of_ascii d =? 191)%nat then Some r else None
           | "k"%char, d :: e :: r =>
               if (nat_of_ascii c =? 226)%nat && (nat_of_ascii d =? 132)%nat && (nat_of_ascii e =? 170)%nat
               then Some r else None
           | _, _ => None
           end
  | [] => None
  end.

(** A literal under [(?i)], in lower case: the text after it. *)
Fixpoint fold_literal (p s : bytes) : option bytes :=
  match p with [] => Some s | c :: p => fold_char c s ≫= fold_literal p end.

(** An expression without [^]: at some position. *)
Fixpoint anywhere (m : bytes -> bool) (s : bytes) : bool :=
  m s || match s with [] => false | _ :: s => anywhere m s end.

(** [(?i)WORD\s*$] and [(?i)WORD]. *)
Definition fold_at_end (w : string) (s : bytes) : bool :=
  match fold_literal (to_bytes w) s with Some r => blank_to_end r | None => false end.
Definition fold_here (w : string) (s : bytes) : bool :=
  match fold_literal (to_bytes w) s with Some _ => true | None => false end.

(** [[#$]\s*$]. *)
Definition prompt_at_end (s : bytes) : bool :=
  match s with c :: r => (Ascii.eqb c "#" || Ascii.eqb c "$") && blank_to_end r | [] => false end.

Definition LoginPrompt : bytes -> bool := anywhere (fold_at_end "login:").
Definition PasswordPrompt : bytes -> bool := anywhere (fold_at_end "password:").
Definition ShellPrompt : bytes -> bool := anywhere prompt_at_end.
Definition BootBanner : bytes -> bool := anywhere (fold_here "booting linux").
Definition SudoPrompt : bytes -> bool := anywhere (list_prefix (to_bytes "[sudo] password")).
Definition CurrentPassword : bytes -> bool := anywhere (fold_here "(current) unix password").

(** [defaultLoginConfig]; [run] gives "root" for a missing user name. *)
Definition defaultLoginConfig (username : string) : LoginConfig :=
  {| Username := username;
     LoginPromptPattern := Some LoginPrompt;
     PasswordPromptPattern := Some PasswordPrompt;
     ShellPromptPattern := Some ShellPrompt;
     BootBannerPattern := Some BootBanner;
     SecretPromptPatterns := [Some SudoPrompt; Some CurrentPassword];
     SecretGracePeriod := 30 * 10 ^ 9;
     PromptQuietPeriod := 0; AuthRetryPeriod := 0; AuthRetryLimit := 0 |}.

Definition daemon_username (env_username : string) : string :=
  if String.eqb env_username "" then "root" else env_username.

(** ** Lemmas *)

Lemma anywhere_spec m s : anywhere m s = true <-> exists before rest, s = before ++ rest /\ m rest = true.
Proof.
  induction s as [|c s IH]; cbn [anywhere].
  - rewrite orb_false_r. split; [intros H; by exists [], []|].
    intros (before & rest & Heq & Hm). symmetry in Heq. apply app_eq_nil in Heq as [-> ->]. done.
  - rewrite orb_true_iff, IH. split.
    + intros [H|(before & rest & -> & H)]; [by exists [], (c :: s)|by exists (c :: before), rest].
    + intros ([|b before] & rest & Heq & Hm); [left; by rewrite Heq|right].
      injection Heq as <- ->. by exists before, rest.
Qed.

(** The last byte that is not white space. *)
Definition last_mark (s : bytes) (c : ascii) : Prop :=
  exists before spaces, s = before ++ c :: spaces /\ re_space c = false /\ blank_to_end spaces = true.

Lemma last_mark_last s c : last_mark s c -> last (List.filter (fun x => negb (re_space x)) s) = Some c.
Proof.
  intros (b & w & -> & Hc & Hw). rewrite List.filter_app. cbn [List.filter]. rewrite Hc. cbn [negb].
  rewrite (filter_none _ w); [by rewrite last_snoc|].
  intros x Hx. unfold blank_to_end in Hw. rewrite forallb_forall in Hw. apply negb_false_iff, Hw. by apply list_elem_of_In.
Qed.

Lemma last_mark_unique s c d : last_mark s c -> last_mark s d -> c = d.
Proof. intros Hc%last_mark_last Hd%last_mark_last. congruence. Qed.

(** A shell prompt: the line ends in # or $ and white space. *)
Lemma ShellPrompt_spec s : ShellPrompt s = true <-> last_mark s "#" \/ last_mark s "$".
Proof.
  unfold ShellPrompt. rewrite anywhere_spec. split.
  - intros (before & [|c r] & -> & H); [done|]. cbn in H. apply andb_prop in H as [Hc Hb].
    apply orb_prop in Hc as [Hc|Hc]; bools; subst c; [left|right]; by exists before, r.
  - intros [(before & w & -> & _ & Hb)|(before & w & -> & _ & Hb)]; [exists before, ("#"%char :: w)|exists before, ("$"%char :: w)];
      by cbn; rewrite Hb.
Qed.

(** A folded literal reads a beginning of the text. *)
Lemma fold_char_suffix p s r : fold_char p s = Some r -> exists before, s = before ++ r.
Proof.
  unfold fold_char. destruct s as [|c s]; [done|]. destruct (Ascii.eqb (lower c) p).
  { intros [= ->]. by exists [c]. }
  intros H. repeat case_match; simplify_eq; first [by eexists [_; _]|by eexists [_; _; _]].
Qed.

Lemma fold_literal_suffix p s r : fold_literal p s = Some r -> exists before, s = before ++ r.
Proof.
  revert s. induction p as [|c p IH]; intros s; cbn [fold_literal]; [intros [= ->]; by exists []|].
  intros (mid & [b1 ->]%fold_char_suffix & [b2 ->]%IH)%bind_Some. exists (b1 ++ b2). by rewrite app_assoc.
Qed.

Lemma fold_literal_app p q s : fold_literal (p ++ q) s = fold_literal p s ≫= fold_literal q.
Proof.
  revert s. induction p as [|c p IH]; intros s; cbn [app fold_literal]; [done|].
  destruct (fold_char c s) as [s1|]; cbn; [apply IH|done].
Qed.

Lemma fold_colon s r : fold_char ":" s = Some r -> s = ":"%char :: r.
Proof.
  unfold fold_char. destruct s as [|c s]; [done|]. destruct (Ascii.eqb (lower c) ":") eqn:E; [|by repeat case_match].
  intros [= ->]. f_equal. bools. unfold lower in E. destruct (char_in "A" "Z" c) eqn:Hc; [|done]. exfalso.
  revert E Hc. destruct c as [[] [] [] [] [] [] [] []]; vm_compute; discriminate.
Qed.

(** An expression of this form matches only where the last mark is its colon. *)
Lemma fold_at_end_mark w s : anywhere (fold_at_end (w +:+ ":")) s = true -> last_mark s ":".
Proof.
  intros (before & rest & -> & H)%anywhere_spec. unfold fold_at_end in H. rewrite to_bytes_app, fold_literal_app in H.
  destruct (fold_literal (to_bytes w) rest) as [mid|] eqn:Hm; [|done].
  apply fold_literal_suffix in Hm as [b ->]. cbn in H. destruct (fold_char ":" mid) as [r|] eqn:Hc; [|done].
  apply fold_colon in Hc as ->. cbn in H. exists (before ++ b), r. split_and!; [by rewrite <-(assoc_L (++))|done|done].
Qed.

(** With the default configuration a line that looks like a shell prompt is
    never a login or a password prompt: no line both confirms a session and
    asks for a user name. *)
Lemma prompts_exclusive s : ShellPrompt s = true -> LoginPrompt s = false /\ PasswordPrompt s = false.
Proof.
  intros Hs%ShellPrompt_spec. split; apply not_true_iff_false; intros H.
  - apply (fold_at_end_mark "login") in H. destruct Hs as [Hs|Hs]; by pose proof (last_mark_unique _ _ _ Hs H).
  - apply (fold_at_end_mark "password") in H. destruct Hs as [Hs|Hs]; by pose proof (last_mark_unique _ _ _ Hs H).
Qed.

Example prompt_examples :
  LoginPrompt (to_bytes "mt7981 LOGIN: ") = true /\ PasswordPrompt (to_bytes "Password:") = true /\
  ShellPrompt (to_bytes "root@box:~# ") = true /\ ShellPrompt (to_bytes "Linux version 5.15 #2 SMP") = false /\
  BootBanner (to_bytes "[    0.000000] Booting Linux on physical CPU") = true /\
  CurrentPassword (to_bytes "(current) UNIX password: ") = true /\ SudoPrompt (to_bytes "[Sudo] password") = false.
Proof. vm_compute. by split_and!. Qed.
