(* ===== verification/CoordinatorSteps.v ===== *)
(** * Coordinator runs (src/internal/gateway/coordinator.go)

    Every critical section of the coordinator is a label; a run is any
    interleaving of them. The invariants of all runs and of the runs of a
    serving coordinator (one that was not stopped), with the tactic that
    carries an invariant through the nested calls of a handler. *)

From S2P Require Import Prelude GoStd Session Ring Secret Validate Command Marker Coordinator.

(** ** Labels *)

Inductive label :=
| LStart (now : Z) (rnd : string) (done s : nat) (cfg : LoginConfig) (op : option nat)
    (kind : string) (alreadyAuthenticated : bool)
| LRetry (now : Z) (rnd : string) (done s : nat) (alreadyAuthenticated : bool)
| LEndClose (close_fails : bool)
| LEndFinish
| LStop (now : Z)
| LPropose (d : draws) (sessID text purpose : string) (timeout : Z)
| LApprove (d : draws) (proposalID : string)
| LDiagnose (d : draws) (sessID text purpose : string) (timeout : Z)
| LReject (proposalID : string)
| LEdit (d : draws) (proposalID text purpose : string)
| LConfirmReady
| LTakeover (now : Z)
| LBeginSecret (now : Z)
| LEndSecret
| LWriteHuman (data : bytes)
| LSubscribe (human : bool)
| LStore (active : bool) (raw : bytes)
| LData (now : Z) (raw : bytes)
| LReadError (now : Z) (s : nat)
| LTimeout (now : Z)
| LPrompt (g : Z)
| LRetryAuth (now g : Z)
| LWait (fresh : nat) (txID : string)
| LCancel (w : nat) (txID : string).

(** A timer callback with generation [g] runs: the pending timer is spent
    when it is its own. *)
Definition fire_auth (now g : Z) (c : Coordinator) : Coordinator :=
  retryAuth now g (if g =? authGen c then set_authRetryTimer None c else c).

Definition exec (l : label) (c : Coordinator) : Coordinator :=
  match l with
  | LStart now rnd done s cfg op kind auth => fst (start now rnd done s cfg op kind auth c)
  | LRetry now rnd done s auth => fst (retry_install now rnd done s auth c)
  | LEndClose fails => fst (EndSession_close fails c)
  | LEndFinish => EndSession_finish c
  | LStop now => Stop now c
  | LPropose d sid text purpose timeout => fst (Propose d sid text purpose timeout c)
  | LApprove d pid => fst (Approve d pid c)
  | LDiagnose d sid text purpose timeout => fst (DiagnoseStart d sid text purpose timeout c)
  | LReject pid => fst (Reject pid c)
  | LEdit d pid text purpose => fst (Edit d pid text purpose c)
  | LConfirmReady => fst (ConfirmSessionReady c)
  | LTakeover now => Takeover now c
  | LBeginSecret now => BeginSecret now c
  | LEndSecret => EndSecret c
  | LWriteHuman data => fst (WriteHuman data c)
  | LSubscribe human => if human then SubscribeHuman c else subscribeAI c
  | LStore active raw => store_chunk active raw c
  | LData now raw => onData now raw c
  | LReadError now s => onReadError now s c
  | LTimeout now => checkTimeout now c
  | LPrompt g => confirmShellPrompt g c
  | LRetryAuth now g => fire_auth now g c
  | LWait fresh txID => fst (WaitResult_register fresh txID c)
  | LCancel w txID => fst (WaitResult_cancel w txID c)
  end.

(** New identifiers are not in use; a reader exists only for the current
    stream; a timer callback whose generation is current is the pending one. *)
Definition enabled (l : label) (c : Coordinator) : Prop :=
  match l with
  | LPropose d _ _ _ _ | LEdit d _ _ _ => proposals (commands c) !! New "prop" (rnd_prop d) = None
  | LApprove d _ => transactions (commands c) !! New "txn" (rnd_txn d) = None
  | LDiagnose d _ _ _ _ =>
      proposals (commands c) !! New "prop" (rnd_prop d) = None /\
      transactions (commands c) !! New "txn" (rnd_txn d) = None
  | LStore _ _ | LData _ _ => stream c <> None
  | LRetryAuth _ g => g = authGen c -> authRetryTimer c <> None
  | _ => True
  end.

Inductive step (c : Coordinator) : Coordinator -> Prop :=
| step_exec l : enabled l c -> step c (exec l c).

Definition reachable (c : Coordinator) : Prop :=
  exists r brd rnd, rtc step (newCoordinatorWith r brd rnd) c.

(** The steps of a coordinator that was not stopped and whose [EndSession]
    calls find the session still ended when they take the lock again. *)
Definition serving (l : label) (c : Coordinator) : Prop :=
  match l with
  | LStop _ => False
  | LEndFinish => stream c = None
  | _ => True
  end.

Inductive serving_step (c : Coordinator) : Coordinator -> Prop :=
| serving_exec l : enabled l c -> serving l c -> serving_step c (exec l c).

Definition serving_reachable (c : Coordinator) : Prop :=
  exists r brd rnd, rtc serving_step (newCoordinatorWith r brd rnd) c.

(** ** Invariants *)

(** The transactions whose command was written, in order. *)
Definition written (tr : list effect) : list string :=
  omap (fun e => match e with EWrite (ByTransaction id) _ _ => Some id | _ => None end) tr.

(** What the coordinator itself types, other than commands. *)
Definition auto_write_ok (e : effect) : Prop :=
  match e with
  | EWrite ByNudge _ data => data = [LF]
  | EWrite ByTimeout _ data => data = ["003"%char]
  | EWrite ByLogin _ data => exists user, data = to_bytes (user +:+ of_bytes [LF])
  | _ => True
  end.

Record core_ok (s : Store) (a : option activeTransaction) (ws : gmap string resultWaiter)
    (tr : list effect) : Prop := {
  core_store : store_ok s;
  core_result : forall id t, transactions s !! id = Some t ->
    is_Some (results s !! id) \/ exists x, a = Some x /\ tx x = t;
  core_act : forall x, a = Some x ->
    transactions s !! tx_ID (tx x) = Some (tx x) /\ results s !! tx_ID (tx x) = None /\
    transactionID (act_marker x) = tx_ID (tx x);
  core_wait : forall id w, ws !! id = Some w -> results s !! id = None /\ 1 <= refs w;
  core_bound : Z.of_nat (size ws) <= maxResultWaiterTransactions;
  core_written : forall id sm data, EWrite (ByTransaction id) sm data ∈ tr ->
    exists t m, transactions s !! id = Some t /\ transactionID m = id /\ data = command_line t m;
  core_once : NoDup (written tr);
  core_auto : Forall auto_write_ok tr
}.

Definition core (c : Coordinator) : Prop :=
  core_ok (commands c) (act c) (resultWaiters c) (trace c).

Definition tail_ok (c : Coordinator) : Prop := (length (lineTail c) <= maxLineTail)%nat.

Definition nudge_ok (c : Coordinator) : Prop :=
  0 <= authRetries c <= authRetryLimit (loginCfg c) /\
  (authRetryTimer c <> None -> authRetries c < authRetryLimit (loginCfg c)).

Definition inv (c : Coordinator) : Prop := core c /\ tail_ok c /\ nudge_ok c.

(** State, stream and active transaction of a serving coordinator. *)
Definition live_ok (c : Coordinator) : Prop :=
  match st c with
  | Disconnected | Reconnecting => stream c = None /\ act c = None
  | Authenticating | Ready => stream c <> None /\ act c = None
  | RunningCommand => stream c <> None /\ act c <> None
  | Connecting | Error => False
  end.

(** ** Tactics *)

(** [P (set_f v c)] where [P] does not read the field [f]. *)
Ltac peel_setter :=
  match goal with
  | |- ?P (?f _ ?c) =>
      match f with
      | set_sess => idtac | set_commands => idtac | set_ring => idtac | set_secretW => idtac
      | set_stream => idtac | set_transportKind => idtac | set_loginCfg => idtac
      | set_opener => idtac | set_usernameSent => idtac | set_manualReady => idtac
      | set_resyncPending => idtac | set_lineTail => idtac | set_rebootSuspect => idtac
      | set_promptGen => idtac | set_promptTimer => idtac | set_authRetryTimer => idtac
      | set_authRetries => idtac | set_authGen => idtac | set_readerDone => idtac
      | set_humanSubs => idtac | set_aiSubs => idtac | set_act => idtac
      | set_resultWaiters => idtac | set_trace => idtac
      end; change (P c)
  end.

(** Split the conditional that produces the state, or the pair it projects. *)
Ltac split_state :=
  match goal with
  | |- _ (if ?b then _ else _) => destruct b eqn:?
  | |- _ (match ?x with _ => _ end) => destruct x eqn:?
  | |- _ (fst (match ?x with _ => _ end)) => destruct x eqn:?
  | |- _ (fst (_, _)) => cbn [fst]
  end.

Create HintDb coord discriminated.

#[export] Hint Extern 2 (core _) => first [peel_setter | split_state] : coord.
#[export] Hint Extern 2 (inv _) => first [peel_setter | split_state] : coord.

(** Carry an invariant through a handler's nested calls. *)
Ltac carry := cbv zeta; eauto 30 with coord.

(** ** The store, the active transaction and the waiters *)

Definition plain (e : effect) : Prop :=
  auto_write_ok e /\ forall id s data, e <> EWrite (ByTransaction id) s data.

Lemma written_app t1 t2 : written (t1 ++ t2) = written t1 ++ written t2.
Proof. apply omap_app. Qed.

Lemma written_plain e : plain e -> written [e] = [].
Proof. intros [_ H]. destruct e as [[]| |]; try done. by destruct (H txID s data). Qed.

Lemma elem_of_written tr id : id ∈ written tr -> exists s data, EWrite (ByTransaction id) s data ∈ tr.
Proof.
  intros H. apply list_elem_of_omap in H as (e & He & Hs). destruct e as [[]| |]; simplify_eq. eauto.
Qed.

Lemma core_emit e c : plain e -> core c -> core (emit e c).
Proof.
  intros He [H1 H2 H3 H4 H5 H6 H7 H8]. split; try done; simpl.
  - intros id sm data [H|H]%elem_of_app; [eauto|].
    apply list_elem_of_singleton in H. destruct He as [_ He]. by destruct (He id sm data).
  - by rewrite written_app, (written_plain _ He), app_nil_r.
  - apply Forall_app. split; [done|]. by apply Forall_singleton, He.
Qed.

Lemma core_write who data c :
  (forall s, plain (EWrite who s data)) -> core c -> core (write_stream who data c).
Proof. intros Hp H. unfold write_stream. case_match; [|done]. by apply core_emit. Qed.

Lemma plain_close s : plain (EClose s).
Proof. by split. Qed.

Lemma plain_wake w : plain (EWake w).
Proof. by split. Qed.

Lemma plain_human s data : plain (EWrite ByHuman s data).
Proof. by split. Qed.

Lemma plain_login s user : plain (EWrite ByLogin s (to_bytes (user +:+ of_bytes [LF]))).
Proof. split; [by eexists|done]. Qed.

Lemma plain_nudge s : plain (EWrite ByNudge s [LF]).
Proof. by split. Qed.

Lemma plain_timeout s : plain (EWrite ByTimeout s ["003"%char]).
Proof. by split. Qed.

#[export] Hint Resolve core_emit core_write plain_close plain_wake plain_human plain_login
  plain_nudge plain_timeout : coord.

Lemma core_close c : core c -> core (close_stream c).
Proof. intros H. unfold close_stream. case_match; auto with coord. Qed.

Lemma core_event rnd e c : core c -> core (apply_event rnd e c).
Proof. done. Qed.

(** A store that grew no transaction and no result. *)
Lemma core_commands s' c :
  store_ok s' -> transactions s' = transactions (commands c) ->
  results s' = results (commands c) -> core c -> core (set_commands s' c).
Proof.
  intros Hok Ht Hr [H1 H2 H3 H4 H5 H6 H7 H8].
  split; simpl; rewrite ?Ht, ?Hr; done.
Qed.

Lemma core_store_ok c : core c -> store_ok (commands c).
Proof. by intros []. Qed.

#[export] Hint Resolve core_close core_event core_store_ok : coord.

Lemma core_invalidate sid c : core c -> core (set_commands (InvalidateSession sid (commands c)) c).
Proof. intros H. apply core_commands; auto with gw coord. Qed.

Lemma core_deadline d c : core c -> core (set_deadline d c).
Proof.
  intros H. unfold set_deadline. destruct (act c) as [a|] eqn:Ha; [|done].
  destruct H as [H1 H2 H3 H4 H5 H6 H7 H8]. rewrite Ha in *. split; simpl; try done.
  - intros id t Ht. destruct (H2 id t Ht) as [?|(x & [= <-] & Hx)]; [by left|]. eauto.
  - intros x [= <-]. apply (H3 a eq_refl).
Qed.

#[export] Hint Resolve core_invalidate core_deadline : coord.

(** The store after the active transaction's result was recorded. *)
Lemma complete_active s res x :
  transactions s !! tx_ID (tx x) = Some (tx x) -> results s !! tx_ID (tx x) = None ->
  TransactionID res = tx_ID (tx x) ->
  CompleteTransaction res s =
    (with_results (<[tx_ID (tx x) := with_source (tx_SourceProposalID (tx x)) res]> (results s)) s,
     None).
Proof. intros Ht Hr He. unfold CompleteTransaction. by rewrite He, Ht, Hr. Qed.

Lemma core_finish now status code c : core c -> core (finishActiveLocked now status code c).
Proof.
  intros Hc. unfold finishActiveLocked. destruct (act c) as [a|] eqn:Ha; [|done]. cbv zeta.
  set (res := {| TransactionID := _ |}).
  destruct Hc as [H1 H2 H3 H4 H5 H6 H7 H8].
  destruct (H3 a Ha) as (Htx & Hres & _).
  pose proof (CompleteTransaction_ok res _ H1) as Hok.
  rewrite (complete_active _ res a Htx Hres eq_refl) in Hok |- *. cbn [fst] in *.
  set (s' := with_results _ _) in *.
  assert (Htx' : forall id t, transactions s' !! id = Some t -> is_Some (results s' !! id)).
  { simpl. intros id t Ht. destruct (H2 id t Ht) as [[r Hr]|(x & Hx & <-)].
    - destruct (decide (tx_ID (tx a) = id)) as [<-|Hne]; [rewrite lookup_insert_eq; eauto|].
      rewrite lookup_insert_ne by done. eauto.
    - rewrite Ha in Hx. injection Hx as <-.
      pose proof (ok_tx_id _ H1 _ _ Ht) as <-. rewrite lookup_insert_eq. eauto. }
  assert (Hws : forall id w, id <> tx_ID (tx a) -> resultWaiters c !! id = Some w ->
                  results s' !! id = None /\ 1 <= refs w).
  { simpl. intros id w Hne Hw. rewrite lookup_insert_ne by done. eauto. }
  cbn [TransactionID res resultWaiters set_commands].
  change (resultWaiters (set_commands s' c)) with (resultWaiters c).
  assert (Hdone : forall ws tr, (forall id w, ws !! id = Some w -> results s' !! id = None /\ 1 <= refs w) ->
     Z.of_nat (size ws) <= maxResultWaiterTransactions ->
     tr = [] \/ (exists w, tr = [EWake w]) ->
     core_ok s' None ws (trace c ++ tr)).
  { intros ws tr Hw Hs Htr.
    assert (written tr = []) as Hwr by (by destruct Htr as [->|[w ->]]).
    split; try done; simpl; eauto.
    - intros id sm data [H|H]%elem_of_app; [by eapply H6|].
      destruct Htr as [->|[w ->]]; [by apply elem_of_nil in H|].
      by apply list_elem_of_singleton in H.
    - by rewrite written_app, Hwr, app_nil_r.
    - apply Forall_app. split; [done|]. by destruct Htr as [->|[w ->]]; repeat constructor. }
  destruct (resultWaiters c !! tx_ID (tx a)) as [w|] eqn:Hw; unfold core; simpl.
  - apply Hdone; [| |by right; eexists].
    + intros id w' [Hne Hl]%lookup_delete_Some. by eapply Hws.
    + rewrite map_size_delete, Hw. simpl. lia.
  - rewrite <- (app_nil_r (trace c)). apply Hdone; [|done|by left].
    intros id w' Hl. apply (Hws id); [congruence|done].
Qed.

#[export] Hint Resolve core_finish : coord.

(** Installing a fresh transaction and writing its command. *)
Lemma core_start d t s1 c :
  core c -> act c = None -> transactions (commands c) !! tx_ID t = None ->
  store_ok s1 -> transactions s1 = <[tx_ID t := t]> (transactions (commands c)) ->
  results s1 = results (commands c) ->
  core (fst (startTransactionLocked d t (set_commands s1 c))).
Proof.
  intros [H1 H2 H3 H4 H5 H6 H7 H8] Ha Hn Hok Ht Hr.
  assert (Hnr : results (commands c) !! tx_ID t = None).
  { destruct (results (commands c) !! tx_ID t) as [r|] eqn:E; [|done].
    destruct (ok_result _ H1 _ _ E) as (_ & t' & Ht' & _). congruence. }
  unfold startTransactionLocked. cbv zeta.
  set (m := newMarker _ _). set (a := {| tx := t |}).
  assert (Hc : core (write_stream (ByTransaction (tx_ID t)) (command_line t m)
             (apply_event "" CommandStart (set_act (Some a) (set_commands s1 c))))).
  { assert (Htx : forall id t', transactions (commands c) !! id = Some t' -> transactions s1 !! id = Some t').
    { intros id t' Hl. rewrite Ht, lookup_insert_ne; congruence. }
    assert (Hbase : forall tr, tr = [] \/ (exists s, tr = [EWrite (ByTransaction (tx_ID t)) s (command_line t m)]) ->
      core_ok s1 (Some a) (resultWaiters c) (trace c ++ tr)).
    { intros tr Htr. split; try done.
      - intros id t' Hl. rewrite Ht in Hl. rewrite Hr.
        apply lookup_insert_Some in Hl as [[<- <-]|[_ Hl]]; [eauto|].
        destruct (H2 id t' Hl) as [?|(x & Hx & _)]; [by left|congruence].
      - intros x [= <-]. simpl. rewrite Ht, Hr, lookup_insert_eq. done.
      - intros id w Hw. rewrite Hr. eauto.
      - intros id sm data [Hin|Hin]%elem_of_app.
        + destruct (H6 _ _ _ Hin) as (t' & m' & Hl & ?). eauto.
        + destruct Htr as [->|[s ->]]; [by apply elem_of_nil in Hin|].
          apply list_elem_of_singleton in Hin. injection Hin as -> -> ->.
          exists t, m. rewrite Ht, lookup_insert_eq. done.
      - rewrite written_app. apply NoDup_app. split; [done|].
        destruct Htr as [->|[s ->]]; simpl; (split; [|repeat constructor; set_solver]);
          intros id Hid; [set_solver|].
        apply elem_of_written in Hid as (s' & data & Hin). intros ->%list_elem_of_singleton.
        destruct (H6 _ _ _ Hin) as (t' & _ & Hl & _). congruence.
      - apply Forall_app. split; [done|]. destruct Htr as [->|[s ->]]; repeat constructor. }
    unfold write_stream. case_match; unfold core; simpl;
      [|rewrite <- (app_nil_r (trace c))]; apply Hbase; eauto. }
  carry.
Qed.

(** The approvals: both entry points share this case. *)
Lemma core_approve d pid c :
  core c -> act c = None -> transactions (commands c) !! New "txn" (rnd_txn d) = None ->
  forall s r, Command.Approve (clock d) (clock d) (rnd_txn d) pid (commands c) = (s, r) ->
  match r with
  | Ok t => core (fst (startTransactionLocked d t (set_commands s c)))
  | Err _ => core (set_commands s c)
  end.
Proof.
  intros Hc Ha Hn s r HA.
  pose proof (Approve_ok (clock d) (clock d) _ pid _ Hn (core_store_ok _ Hc)) as Hok.
  rewrite HA in Hok. cbn [fst] in Hok. destruct r as [t|e].
  - destruct (Approve_Ok_inv _ _ _ _ _ _ _ HA) as (p & _ & _ & _ & _ & Hid & _ & Ht & Hr).
    apply core_start; try done. by rewrite Hid.
  - assert (transactions s = transactions (commands c) /\ results s = results (commands c)) as [Ht Hr].
    { unfold Command.Approve in HA. repeat case_match; simplify_eq; done. }
    by apply core_commands.
Qed.

Lemma core_propose now rnd inp c :
  proposals (commands c) !! New "prop" rnd = None -> core c ->
  core (set_commands (fst (Command.Propose now rnd inp (commands c))) c).
Proof.
  intros Hn Hc. apply core_commands; auto with gw coord; unfold Command.Propose; by case_match.
Qed.

Lemma core_Approve d pid c :
  transactions (commands c) !! New "txn" (rnd_txn d) = None -> core c -> core (fst (Approve d pid c)).
Proof.
  intros Hn Hc. unfold Approve. destruct (canStartLocked c) eqn:E; [done|].
  assert (act c = None) as Ha by (unfold canStartLocked in E; repeat case_match; done).
  destruct (Command.Approve _ _ _ _ _) as [s r] eqn:HA.
  pose proof (core_approve d pid c Hc Ha Hn s r HA) as H.
  destruct r; [|done]. cbv zeta. by destruct (startTransactionLocked _ _ _) as [? []].
Qed.

Lemma core_Reject pid c : core c -> core (set_commands (fst (Command.Reject pid (commands c))) c).
Proof.
  intros Hc. apply core_commands; auto with gw coord; unfold Command.Reject;
    repeat case_match; done.
Qed.

Lemma core_Diagnose d sid text purpose timeout c :
  proposals (commands c) !! New "prop" (rnd_prop d) = None ->
  transactions (commands c) !! New "txn" (rnd_txn d) = None ->
  core c -> core (fst (DiagnoseStart d sid text purpose timeout c)).
Proof.
  intros Hp Hn Hc. unfold DiagnoseStart. destruct (canStartLocked c) eqn:E; [done|].
  assert (act c = None) as Ha by (unfold canStartLocked in E; repeat case_match; done).
  case_match; [done|].
  pose proof (core_propose (clock d) (rnd_prop d) (gw_input sid text purpose timeout c) c Hp Hc) as Hc1.
  assert (transactions (fst (Command.Propose (clock d) (rnd_prop d)
            (gw_input sid text purpose timeout c) (commands c))) = transactions (commands c)) as Ht.
  { unfold Command.Propose. by case_match. }
  destruct (Command.Propose _ _ _ _) as [s r]. cbn [fst] in *. cbv zeta. destruct r as [p|]; [|done].
  destruct (Command.Approve _ _ _ _ _) as [s2 r2] eqn:HA.
  pose proof (core_approve d (prop_ID p) (set_commands s c) Hc1 Ha) as HP.
  rewrite <- Ht in Hn. specialize (HP Hn s2 r2 HA). destruct r2.
  - by destruct (startTransactionLocked _ _ _) as [? []].
  - by apply (core_Reject _ (set_commands s2 c)).
Qed.

Lemma core_Edit d pid text purpose c :
  proposals (commands c) !! New "prop" (rnd_prop d) = None -> core c ->
  core (fst (Edit d pid text purpose c)).
Proof.
  intros Hn Hc. unfold Edit.
  assert (core (set_commands (fst (Command.Edit (clock d) (rnd_prop d) pid text purpose (commands c))) c)).
  { apply core_commands; auto with gw coord; unfold Command.Edit; repeat case_match; done. }
  by destruct (Command.Edit _ _ _ _ _ _).
Qed.

(** Replacing or adding the waiter of a transaction without a result. *)
Lemma core_waiter id w c :
  core c -> results (commands c) !! id = None -> 1 <= refs w ->
  (resultWaiters c !! id = None -> Z.of_nat (size (resultWaiters c)) < maxResultWaiterTransactions) ->
  core (set_resultWaiters (<[id := w]> (resultWaiters c)) c).
Proof.
  intros [H1 H2 H3 H4 H5 H6 H7 H8] Hr Hw Hs. split; simpl; try done.
  - intros id' w' [[<- <-]|[_ Hl]]%lookup_insert_Some; eauto.
  - rewrite map_size_insert. case_match; [done|]. specialize (Hs eq_refl). lia.
Qed.

Lemma core_register fresh id c : core c -> core (fst (WaitResult_register fresh id c)).
Proof.
  intros Hc. unfold WaitResult_register.
  destruct (GetResult id (commands c)) eqn:Hg; [done|].
  assert (results (commands c) !! id = None) as Hr by (unfold GetResult in Hg; by case_match).
  destruct (resultWaiters c !! id) as [w|] eqn:Hw.
  - apply core_waiter; simpl; [done|done| |congruence]. destruct (core_wait _ _ _ _ Hc _ _ Hw). lia.
  - case_match; [done|]. bools. by apply core_waiter.
Qed.

Lemma core_cancel w id c : core c -> core (fst (WaitResult_cancel w id c)).
Proof.
  intros Hc. unfold WaitResult_cancel. destruct (resultWaiters c !! id) as [x|] eqn:Hx; [|done].
  destruct (core_wait _ _ _ _ Hc _ _ Hx) as [Hr Hx1].
  case_match; [|done]. case_match; cbn [fst].
  - destruct Hc as [H1 H2 H3 H4 H5 H6 H7 H8]. split; simpl; try done.
    + intros id' w' [_ Hl]%lookup_delete_Some. eauto.
    + rewrite map_size_delete. case_match; simpl; lia.
  - bools. apply core_waiter; simpl; [done|done|lia|congruence].
Qed.

#[export] Hint Resolve core_Approve core_Diagnose core_Edit core_register core_cancel : coord.

(** ** Carrying the invariant through the handlers *)

Lemma authRetryLimit_pos cfg : 0 < authRetryLimit cfg.
Proof. unfold authRetryLimit. case_match; bools; [done|]. unfold defaultAuthRetryLimit. lia. Qed.

Lemma advance_length tail chunk : (length (advance tail chunk) <= maxLineTail)%nat.
Proof. unfold advance. rewrite length_drop. lia. Qed.

Lemma inv_core c : inv c -> core c.
Proof. by intros []. Qed.

Lemma finish_frame now status code c :
  lineTail (finishActiveLocked now status code c) = lineTail c /\
  authRetries (finishActiveLocked now status code c) = authRetries c /\
  authRetryTimer (finishActiveLocked now status code c) = authRetryTimer c /\
  loginCfg (finishActiveLocked now status code c) = loginCfg c /\
  sess (finishActiveLocked now status code c) = sess c /\
  stream (finishActiveLocked now status code c) = stream c /\
  secretW (finishActiveLocked now status code c) = secretW c /\
  resyncPending (finishActiveLocked now status code c) = resyncPending c /\
  ring (finishActiveLocked now status code c) = ring c /\
  act (finishActiveLocked now status code c) = None.
Proof.
  unfold finishActiveLocked. destruct (act c) eqn:Ha; [|done]. cbv zeta.
  set (c1 := set_commands _ _). destruct (resultWaiters c1 !! _); done.
Qed.

(** The [if c.act != nil] around a call repeats the callee's own test. *)
Lemma finish_guard now status code c :
  match act c with Some _ => finishActiveLocked now status code c | None => c end =
  finishActiveLocked now status code c.
Proof. unfold finishActiveLocked. by destruct (act c). Qed.

Lemma inv_frame c c' :
  core c' -> lineTail c' = lineTail c -> authRetries c' = authRetries c ->
  authRetryTimer c' = authRetryTimer c -> loginCfg c' = loginCfg c -> inv c -> inv c'.
Proof.
  intros Hc H1 H2 H3 H4 (_ & Ht & Hn). split; [done|split]; unfold tail_ok, nudge_ok in *; congruence.
Qed.

Lemma inv_finish now status code c : inv c -> inv (finishActiveLocked now status code c).
Proof.
  intros H. destruct (finish_frame now status code c) as (? & ? & ? & ? & _).
  apply (inv_frame c); try done. apply core_finish, H.
Qed.

Lemma inv_emit e c : plain e -> inv c -> inv (emit e c).
Proof. intros He H. apply (inv_frame c); try done. by apply core_emit, H. Qed.

Lemma inv_write who data c :
  (forall s, plain (EWrite who s data)) -> inv c -> inv (write_stream who data c).
Proof. intros He H. unfold write_stream. case_match; [by apply inv_emit|done]. Qed.

Lemma inv_close c : inv c -> inv (close_stream c).
Proof. intros H. unfold close_stream. case_match; [by apply inv_emit|done]. Qed.

Lemma inv_event rnd e c : inv c -> inv (apply_event rnd e c).
Proof. done. Qed.

Lemma inv_invalidate sid c : inv c -> inv (set_commands (InvalidateSession sid (commands c)) c).
Proof. intros H. apply (inv_frame c); try done. apply core_invalidate, H. Qed.

Lemma inv_deadline d c : inv c -> inv (set_deadline d c).
Proof.
  intros H. apply (inv_frame c); [by apply core_deadline, H|..|done];
    unfold set_deadline; by case_match.
Qed.

Lemma inv_lineTail t c : (length t <= maxLineTail)%nat -> inv c -> inv (set_lineTail t c).
Proof. intros Ht (? & ? & ?). by split. Qed.

Lemma inv_stop_timer c : inv c -> inv (set_authRetryTimer None c).
Proof. intros (? & ? & ? & ?). by split. Qed.

Lemma inv_reset_retries c : inv c -> inv (set_authRetries 0 c).
Proof.
  intros (? & ? & _). pose proof (authRetryLimit_pos (loginCfg c)).
  split; [done|split; [done|split; simpl; lia]].
Qed.

#[export] Hint Resolve inv_core inv_finish inv_emit inv_write inv_close inv_event inv_invalidate
  inv_deadline inv_stop_timer inv_reset_retries : coord.

Lemma inv_advance chunk c : inv c -> inv (advanceLineTailLocked chunk c).
Proof. intros. apply inv_lineTail; [apply advance_length|done]. Qed.

Lemma inv_clear_tail c : inv c -> inv (set_lineTail [] c).
Proof. intros. apply inv_lineTail; [simpl; lia|done]. Qed.

Lemma inv_stopAuth c : inv c -> inv (stopAuthRetryLocked c).
Proof. intros. unfold stopAuthRetryLocked. carry. Qed.

#[export] Hint Resolve inv_advance inv_clear_tail inv_stopAuth : coord.

(** A reset establishes the prompt-tracking part of the invariant. *)
Lemma inv_reset c : core c -> inv (resetPromptStateLocked c).
Proof.
  intros Hc. pose proof (authRetryLimit_pos (loginCfg c)).
  split; [exact Hc|split; [unfold tail_ok; simpl; lia|split; simpl; [lia|done]]].
Qed.

Lemma inv_arm now c : inv c -> inv (armAuthRetryLocked now c).
Proof.
  intros H. unfold armAuthRetryLocked. case_match; [|done]. case_match; [done|].
  case_match; [done|]. bools. by destruct H as (? & ? & ? & ?).
Qed.

Lemma inv_armPrompt now cfg c : inv c -> inv (armPromptConfirmLocked now cfg c).
Proof. intros H. unfold armPromptConfirmLocked. case_match; [done|]. carry. Qed.

#[export] Hint Resolve inv_reset inv_arm inv_armPrompt : coord.

Lemma inv_auth now c : inv c -> inv (handleAuthenticatingLocked now c).
Proof. intros H. unfold handleAuthenticatingLocked. cbv zeta. apply inv_arm. carry. Qed.

Lemma inv_marker now c : inv c -> inv (handleMarkerLocked now c).
Proof. intros H. unfold handleMarkerLocked. carry. Qed.

Lemma inv_reboot now c : inv c -> inv (handleTargetRebootLocked now c).
Proof.
  intros H. unfold handleTargetRebootLocked. cbv zeta. rewrite finish_guard.
  pose proof (inv_finish now StatusTargetRebooted None c H) as H1.
  set (c1 := finishActiveLocked _ _ _ _) in *. clearbody c1.
  pose proof (inv_invalidate (sessionID (sess c1)) c1 H1) as H2.
  set (c2 := set_commands _ _) in *. clearbody c2. carry.
Qed.

#[export] Hint Resolve inv_auth inv_marker inv_reboot : coord.

Lemma inv_onData now raw c : inv c -> inv (onData now raw c).
Proof.
  intros H. unfold onData. cbv zeta.
  assert (H1 : inv (advanceLineTailLocked raw (set_promptGen (u64 (promptGen c + 1)) c)))
    by (apply inv_advance; by peel_setter).
  revert H1. set (c1 := advanceLineTailLocked _ _). clearbody c1. intros H1.
  match goal with |- context [if ?b then set_rebootSuspect true c1 else c1] =>
    set (c2 := if b then set_rebootSuspect true c1 else c1) end.
  assert (H2 : inv c2) by (unfold c2; carry). clearbody c2.
  case_match; [|case_match; [|case_match]].
  - apply inv_auth, inv_reboot. by peel_setter.
  - auto with coord.
  - apply inv_clear_tail, inv_deadline. by peel_setter.
  - apply inv_armPrompt. carry.
Qed.

Lemma inv_onReadError now s c : inv c -> inv (onReadError now s c).
Proof.
  intros H. unfold onReadError. case_match; [done|]. cbv zeta. rewrite finish_guard.
  pose proof (inv_finish now StatusDisconnected None c H) as H1.
  set (c1 := finishActiveLocked _ _ _ _) in *. clearbody c1.
  pose proof (inv_invalidate (sessionID (sess c1)) c1 H1) as H2.
  set (c2 := set_commands _ _) in *. clearbody c2. carry.
Qed.

Lemma inv_fire now g c :
  (g = authGen c -> authRetryTimer c <> None) -> inv c -> inv (fire_auth now g c).
Proof.
  intros Hen H. unfold fire_auth, retryAuth. destruct (Z.eqb_spec g (authGen c)) as [Hg|Hg].
  2:{ cbn iota. rewrite (proj2 (Z.eqb_neq _ _) Hg). done. }
  destruct H as (Hc & Ht & Hn & Hlt). specialize (Hlt (Hen Hg)).
  set (c0 := set_authRetryTimer None c).
  assert (Hspent : inv c0) by (by split).
  case_match; [done|]. case_match; [|done]. case_match; [done|]. case_match; [auto with coord|].
  assert (Hcount : inv (set_authRetries (authRetries c0 + 1) c0)).
  { split; [done|split; [done|split; simpl; [lia|done]]]. }
  clearbody c0. set (c1 := set_authRetries _ _) in *. clearbody c1. carry.
Qed.

Lemma inv_confirmPrompt g c : inv c -> inv (confirmShellPrompt g c).
Proof.
  intros H. unfold confirmShellPrompt. case_match; [done|]. case_match; [done|]. cbv zeta.
  carry.
Qed.

Lemma inv_begin now auth done c : inv c -> inv (begin_stream now auth done c).
Proof. intros H. unfold begin_stream. carry. Qed.

#[export] Hint Resolve inv_onData inv_onReadError inv_fire inv_confirmPrompt inv_begin : coord.

Lemma inv_start now rnd done s cfg op kind auth c :
  inv c -> inv (fst (start now rnd done s cfg op kind auth c)).
Proof.
  intros H. unfold start. case_match; [done|]. cbv zeta. cbn [fst].
  apply inv_begin, inv_event, inv_reset. case_match; apply H.
Qed.

Lemma inv_retry now rnd done s auth c : inv c -> inv (fst (retry_install now rnd done s auth c)).
Proof.
  intros H. unfold retry_install. destruct (Session.Apply _ _ _) as [m [e|]]; cbv zeta; cbn [fst].
  - auto with coord.
  - apply inv_begin, inv_reset. apply H.
Qed.

#[export] Hint Resolve inv_start inv_retry : coord.

(** Commands touch none of the prompt-tracking fields. *)
Definition same_prompt (c c' : Coordinator) : Prop :=
  lineTail c' = lineTail c /\ authRetries c' = authRetries c /\
  authRetryTimer c' = authRetryTimer c /\ loginCfg c' = loginCfg c.

Lemma inv_same_prompt c c' : same_prompt c c' -> core c' -> inv c -> inv c'.
Proof. intros (? & ? & ? & ?) ? ?. by apply (inv_frame c). Qed.

Lemma same_prompt_trans c1 c2 c3 : same_prompt c1 c2 -> same_prompt c2 c3 -> same_prompt c1 c3.
Proof. unfold same_prompt. intuition congruence. Qed.

Lemma same_prompt_write who data c : same_prompt c (write_stream who data c).
Proof. unfold write_stream. by case_match. Qed.

Lemma same_prompt_finish now status code c : same_prompt c (finishActiveLocked now status code c).
Proof. destruct (finish_frame now status code c) as (? & ? & ? & ? & _). done. Qed.

Lemma same_prompt_start d t c : same_prompt c (fst (startTransactionLocked d t c)).
Proof.
  unfold startTransactionLocked. cbv zeta. set (c1 := write_stream _ _ _).
  assert (same_prompt c c1) as H1.
  { eapply same_prompt_trans; [|apply same_prompt_write]. done. }
  destruct (write_fails d); [|exact H1]. cbn [fst].
  eapply same_prompt_trans; [exact H1|]. clearbody c1.
  set (c2 := finishActiveLocked _ _ _ c1).
  assert (same_prompt c1 c2) by apply same_prompt_finish.
  by destruct (decide _).
Qed.

Lemma same_prompt_Approve d pid c : same_prompt c (fst (Approve d pid c)).
Proof.
  unfold Approve. case_match; [done|]. destruct (Command.Approve _ _ _ _ _) as [s [t|e]]; [|done].
  pose proof (same_prompt_start d t (set_commands s c)) as H1. cbv zeta.
  by destruct (startTransactionLocked _ _ _) as [? []].
Qed.

Lemma same_prompt_Diagnose d sid text purpose timeout c :
  same_prompt c (fst (DiagnoseStart d sid text purpose timeout c)).
Proof.
  unfold DiagnoseStart. case_match; [done|]. case_match; [done|].
  destruct (Command.Propose _ _ _ _) as [s [p|e]]; [|done]. cbv zeta.
  destruct (Command.Approve _ _ _ _ _) as [s2 [t|e]]; [|done].
  pose proof (same_prompt_start d t (set_commands s2 (set_commands s c))) as H1.
  by destruct (startTransactionLocked _ _ _) as [? []].
Qed.

Lemma inv_Propose d sid text purpose timeout c :
  proposals (commands c) !! New "prop" (rnd_prop d) = None -> inv c ->
  inv (fst (Propose d sid text purpose timeout c)).
Proof.
  intros Hn H. unfold Propose.
  pose proof (core_propose (clock d) (rnd_prop d) (gw_input sid text purpose timeout c) c Hn
                (inv_core _ H)) as Hc.
  destruct (Command.Propose _ _ _ _) as [s r]. by apply (inv_same_prompt c).
Qed.

Lemma inv_Reject pid c : inv c -> inv (fst (Reject pid c)).
Proof.
  intros H. unfold Reject. pose proof (core_Reject pid c (inv_core _ H)) as Hc.
  destruct (Command.Reject _ _) as [s r]. by apply (inv_same_prompt c).
Qed.

Lemma inv_Edit d pid text purpose c :
  proposals (commands c) !! New "prop" (rnd_prop d) = None -> inv c ->
  inv (fst (Edit d pid text purpose c)).
Proof.
  intros Hn H. apply (inv_same_prompt c); [|by apply core_Edit, inv_core|done].
  unfold Edit. by destruct (Command.Edit _ _ _ _ _ _).
Qed.

Lemma inv_register fresh id c : inv c -> inv (fst (WaitResult_register fresh id c)).
Proof.
  intros H. apply (inv_same_prompt c); [|by apply core_register, inv_core|done].
  unfold WaitResult_register. repeat case_match; done.
Qed.

Lemma inv_cancel w id c : inv c -> inv (fst (WaitResult_cancel w id c)).
Proof.
  intros H. apply (inv_same_prompt c); [|by apply core_cancel, inv_core|done].
  unfold WaitResult_cancel. repeat case_match; done.
Qed.

Lemma inv_end now status c :
  inv c ->
  inv (let c := finishActiveLocked now status None c in
       if decide (st c = RunningCommand) then apply_event "" CommandResult c else c).
Proof. intros H. carry. Qed.

Lemma inv_checkTimeout now c : inv c -> inv (checkTimeout now c).
Proof.
  intros H. unfold checkTimeout. case_match; [|done]. case_match; [done|]. cbv zeta.
  pose proof (inv_write ByTimeout ["003"%char] c plain_timeout H) as H2.
  set (c1 := write_stream _ _ _) in *. clearbody c1.
  pose proof (inv_end now StatusTimeout c1 H2) as H3. cbv zeta in H3.
  match type of H3 with inv ?x => set (c2 := x) in * end. clearbody c2. carry.
Qed.

Lemma inv_Takeover now c : inv c -> inv (Takeover now c).
Proof. intros H. unfold Takeover. case_match; [|done]. by apply inv_end. Qed.

#[export] Hint Resolve inv_Propose inv_Reject inv_Edit inv_register inv_cancel inv_checkTimeout
  inv_Takeover : coord.

Lemma inv_exec l c : enabled l c -> inv c -> inv (exec l c).
Proof.
  intros He Hc. destruct l; simpl in He |- *; auto with coord.
  - unfold EndSession_close. carry.
  - unfold Stop. cbv zeta. rewrite finish_guard. carry.
  - apply (inv_same_prompt c); [apply same_prompt_Approve|by apply core_Approve, inv_core|done].
  - apply (inv_same_prompt c); [apply same_prompt_Diagnose| |done].
    apply core_Diagnose; [apply He|apply He|by apply inv_core].
  - unfold ConfirmSessionReady. carry.
  - unfold BeginSecret. carry.
  - unfold EndSecret. carry.
  - unfold WriteHuman. carry.
Qed.

Lemma inv_new r brd rnd : inv (newCoordinatorWith r brd rnd).
Proof.
  split; [|split; [unfold tail_ok; simpl; lia|split; [by split; vm_compute|done]]].
  split; try done; simpl; try constructor. by intros id sm data ?%elem_of_nil.
Qed.

Lemma reachable_inv c : reachable c -> inv c.
Proof.
  intros (r & brd & rnd & H). pose proof (inv_new r brd rnd) as H0.
  induction H as [|x y z [l He] _ IH]; [done|]. apply IH. by apply inv_exec.
Qed.

(** ** Serving runs *)

(** The invariant depends on three fields. *)
Lemma live_frame c c' :
  st c' = st c -> stream c' = stream c -> act c' = act c -> live_ok c -> live_ok c'.
Proof. unfold live_ok. by intros -> -> ->. Qed.

Lemma live_emit e c : live_ok c -> live_ok (emit e c).
Proof. done. Qed.

Lemma live_write who data c : live_ok c -> live_ok (write_stream who data c).
Proof. unfold write_stream. by case_match. Qed.

Lemma live_close c : live_ok c -> live_ok (close_stream c).
Proof. unfold close_stream. by case_match. Qed.

Lemma live_arm now c : live_ok c -> live_ok (armAuthRetryLocked now c).
Proof. unfold armAuthRetryLocked. repeat case_match; done. Qed.

Lemma live_armPrompt now cfg c : live_ok c -> live_ok (armPromptConfirmLocked now cfg c).
Proof. unfold armPromptConfirmLocked. by case_match. Qed.

Lemma live_auth now c : live_ok c -> live_ok (handleAuthenticatingLocked now c).
Proof.
  intros H. unfold handleAuthenticatingLocked. cbv zeta. apply live_arm. case_match; [|done].
  by apply (live_write ByLogin _ c).
Qed.

Lemma live_deadline d c : live_ok c -> live_ok (set_deadline d c).
Proof.
  unfold set_deadline. destruct (act c) eqn:Ha; [|done]. unfold live_ok, st. simpl. rewrite Ha.
  by destruct (state (sess c)); intros []; split.
Qed.

(** An event applied in the states where it is accepted. *)
Lemma st_event rnd e c :
  st (apply_event rnd e c) = match table (st c) e with Some t => to t | None => st c end.
Proof. apply apply_state. Qed.

(** Finishing the transaction of a running command, then CommandResult. *)
Lemma live_end now status code c :
  live_ok c ->
  live_ok (let c := finishActiveLocked now status code c in
           if decide (st c = RunningCommand) then apply_event "" CommandResult c else c).
Proof.
  intros H. cbv zeta.
  destruct (finish_frame now status code c) as (_ & _ & _ & _ & Hs & Hst & _ & _ & _ & Ha).
  set (c1 := finishActiveLocked now status code c) in *.
  assert (st c1 = st c) as Hst1 by (unfold st; congruence).
  unfold live_ok in *. destruct (decide (st c1 = RunningCommand)) as [Hr|Hr].
  - rewrite st_event, Hr. simpl. rewrite Hst1 in Hr. rewrite Hr, <- Hst in H. by destruct H.
  - rewrite Hst1, Hst, Ha in *. by destruct (st c); naive_solver.
Qed.

Lemma live_reboot now c :
  live_ok c -> stream c <> None -> st c <> Authenticating -> live_ok (handleTargetRebootLocked now c).
Proof.
  intros H Hs Hna. unfold handleTargetRebootLocked. cbv zeta. rewrite finish_guard.
  destruct (finish_frame now StatusTargetRebooted None c) as (_ & _ & _ & _ & Hse & Hst & _ & _ & _ & Ha).
  set (c1 := finishActiveLocked _ _ _ _) in *. set (c2 := set_commands _ _).
  assert (live_ok (apply_event "" TargetRebooted c2)) as H2.
  { unfold live_ok. rewrite st_event. change (st c2) with (st c1).
    change (stream (apply_event _ _ c2)) with (stream c1).
    change (act (apply_event _ _ c2)) with (act c1).
    replace (st c1) with (st c) by (unfold st; congruence). rewrite Hst, Ha.
    unfold live_ok in H. destruct (st c); simpl; try naive_solver. }
  clearbody c2. by destruct (Active _).
Qed.

Lemma live_marker now c : live_ok c -> live_ok (handleMarkerLocked now c).
Proof.
  intros H. unfold handleMarkerLocked. destruct (act c) as [a|] eqn:Ha; [|done]. cbv zeta.
  case_match; [|done].
  assert (st c = RunningCommand) as Hr.
  { unfold live_ok in H. rewrite Ha in H. destruct (st c); naive_solver. }
  pose proof (live_end now StatusCompleted (Some z) (set_rebootSuspect false c) H) as H1.
  cbv zeta in H1. destruct (finish_frame now StatusCompleted (Some z) (set_rebootSuspect false c))
    as (_ & _ & _ & _ & Hse & _).
  destruct (decide _) as [_|Hn]; [done|]. destruct Hn. unfold st in *. rewrite Hse. done.
Qed.

Lemma live_onData now raw c : live_ok c -> stream c <> None -> live_ok (onData now raw c).
Proof.
  intros H Hs. unfold onData. cbv zeta.
  set (c1 := advanceLineTailLocked _ _).
  assert (H1 : live_ok c1 /\ stream c1 <> None) by done. clearbody c1. clear H Hs.
  match goal with |- context [if ?b then set_rebootSuspect true c1 else c1] =>
    set (c2 := if b then set_rebootSuspect true c1 else c1) end.
  assert (H2 : live_ok c2 /\ stream c2 <> None /\ st c2 = st c1) by (unfold c2; case_match; naive_solver).
  clearbody c2. destruct H2 as (H2 & Hs & <-). clear H1.
  case_match eqn:E; [|case_match; [|case_match]].
  - bools. apply live_auth, live_reboot; [done|done|]. by eapply bool_decide_eq_true.
  - by apply live_armPrompt.
  - by apply (live_deadline _ (set_secretW _ c2)).
  - apply live_armPrompt. case_match; auto using live_auth, live_marker.
Qed.

Lemma live_onReadError now s c : live_ok c -> live_ok (onReadError now s c).
Proof.
  intros H. unfold onReadError. case_bool_decide as Hs; [done|]. cbv zeta. rewrite finish_guard.
  destruct (finish_frame now StatusDisconnected None c) as (_ & _ & _ & _ & Hse & Hst & _ & _ & _ & Ha).
  set (c1 := finishActiveLocked _ _ _ _) in *. set (c2 := set_commands _ _).
  unfold live_ok. change (act _) with (act c1). change (stream _) with (@None nat).
  change (st _) with (st (apply_event "" TransportLost c2)). rewrite st_event.
  change (st c2) with (st c1). replace (st c1) with (st c) by (unfold st; congruence). rewrite Ha.
  unfold live_ok in H. destruct (st c); simpl; naive_solver.
Qed.

Lemma live_event_from rnd e c s t :
  st c = s -> table s e = goes t -> 
  match t with
  | Disconnected | Reconnecting => stream c = None /\ act c = None
  | Authenticating | Ready => stream c <> None /\ act c = None
  | RunningCommand => stream c <> None /\ act c <> None
  | Connecting | Error => False
  end -> live_ok (apply_event rnd e c).
Proof. intros Hs Ht H. unfold live_ok. rewrite st_event, Hs, Ht. done. Qed.

Lemma live_begin now auth done c :
  st c = Connecting -> stream c <> None -> act c = None -> live_ok (begin_stream now auth done c).
Proof.
  intros Hc Hs Ha. unfold begin_stream. cbv zeta.
  assert (H1 : live_ok (apply_event "" TransportReady c)).
  { by apply (live_event_from _ _ _ Connecting Authenticating). }
  destruct auth.
  - apply (live_frame (apply_event "" Authenticated (apply_event "" TransportReady c))); try done.
    apply (live_event_from _ _ _ Authenticating Ready); [by rewrite st_event, Hc|done|done].
  - apply (live_frame (armAuthRetryLocked now (apply_event "" TransportReady c))); try done.
    by apply live_arm.
Qed.

Lemma live_start now rnd done s cfg op kind auth c :
  live_ok c -> live_ok (fst (start now rnd done s cfg op kind auth c)).
Proof.
  intros H. unfold start. destruct (stream c) eqn:Hs; [done|]. cbv zeta. cbn [fst].
  set (c1 := if decide _ then _ else _).
  assert (st c1 = Disconnected /\ act c1 = None) as [Hst Ha].
  { unfold live_ok in H. subst c1. destruct (decide (st c = Reconnecting)) as [E|E].
    - rewrite st_event, E. rewrite E in H. naive_solver.
    - rewrite Hs in H. destruct (st c); naive_solver. }
  clearbody c1. apply live_begin; [|done|done].
  rewrite st_event. change (st (resetPromptStateLocked _)) with (st c1). by rewrite Hst.
Qed.

Lemma live_retry now rnd done s auth c :
  live_ok c -> live_ok (fst (retry_install now rnd done s auth c)).
Proof.
  intros H. unfold retry_install. destruct (Session.Apply _ _ _) as [m [e|]] eqn:E; cbv zeta; cbn [fst].
  - done.
  - unfold Session.Apply in E. unfold live_ok, st in H.
    destruct (state (sess c)) eqn:Hst; simpl in E; try discriminate. injection E as <-.
    destruct H as [_ Ha]. by apply live_begin.
Qed.

Lemma live_confirmPrompt g c : live_ok c -> live_ok (confirmShellPrompt g c).
Proof.
  intros H. unfold confirmShellPrompt. case_match; [done|]. case_match; [done|]. cbv zeta.
  set (c1 := set_resyncPending _ _).
  match goal with |- context [if Active ?w then ?x else ?y] => set (c2 := if Active w then x else y) end.
  assert (live_ok c2) as H2 by (unfold c2; by case_match). clearbody c2.
  destruct (decide _) as [E|]; [|done]. unfold live_ok in H2. rewrite E in H2.
  by apply (live_event_from _ _ _ Authenticating Ready).
Qed.

Lemma live_fire now g c : live_ok c -> live_ok (fire_auth now g c).
Proof.
  intros H. unfold fire_auth, retryAuth. set (c0 := if g =? authGen c then _ else _).
  assert (live_ok c0) as H0 by (unfold c0; by case_match). clearbody c0.
  repeat (case_match; try done; auto using live_arm).
  cbv zeta. apply live_arm. apply (live_frame (write_stream ByNudge [LF] (set_authRetries (authRetries c0 + 1) c0)));
    try done. by apply live_write.
Qed.

Lemma live_startTx d t c :
  live_ok c -> canStartLocked c = None -> live_ok (fst (startTransactionLocked d t c)).
Proof.
  intros H Hcan. unfold canStartLocked in Hcan. destruct (stream c) eqn:Hs; [|done].
  destruct (bool_decide _) eqn:Hb; [done|]. apply bool_decide_eq_false, dec_stable in Hb.
  unfold startTransactionLocked. cbv zeta. set (m := newMarker _ _). set (c1 := set_act _ _).
  assert (H1 : live_ok (write_stream (ByTransaction (tx_ID t)) (command_line t m)
                          (apply_event "" CommandStart c1))).
  { apply live_write, (live_event_from _ _ _ Ready RunningCommand); [done|done|].
    change (stream c1) with (stream c). by rewrite Hs. }
  destruct (write_fails d); [|done]. by apply live_end.
Qed.

Lemma canStart_commands s c : canStartLocked (set_commands s c) = canStartLocked c.
Proof. done. Qed.

Lemma live_Approve d pid c : live_ok c -> live_ok (fst (Approve d pid c)).
Proof.
  intros H. unfold Approve. destruct (canStartLocked c) eqn:E; [done|].
  destruct (Command.Approve _ _ _ _ _) as [s [t|e]]; [|done].
  pose proof (live_startTx d t (set_commands s c) H E) as H1. cbv zeta.
  by destruct (startTransactionLocked _ _ _) as [? []].
Qed.

Lemma live_Diagnose d sid text purpose timeout c :
  live_ok c -> live_ok (fst (DiagnoseStart d sid text purpose timeout c)).
Proof.
  intros H. unfold DiagnoseStart. destruct (canStartLocked c) eqn:E; [done|]. case_match; [done|].
  destruct (Command.Propose _ _ _ _) as [s [p|e]]; [|done]. cbv zeta.
  destruct (Command.Approve _ _ _ _ _) as [s2 [t|e]]; [|done].
  pose proof (live_startTx d t (set_commands s2 (set_commands s c)) H E) as H1.
  by destruct (startTransactionLocked _ _ _) as [? []].
Qed.

Lemma live_checkTimeout now c : live_ok c -> live_ok (checkTimeout now c).
Proof.
  intros H. unfold checkTimeout. case_match; [|done]. case_match; [done|]. cbv zeta.
  pose proof (live_write ByTimeout ["003"%char] c H) as H2.
  set (c1 := write_stream _ _ _) in *. clearbody c1.
  pose proof (live_end now StatusTimeout None c1 H2) as H3. cbv zeta in H3.
  match type of H3 with live_ok ?x => set (c2 := x) in * end. clearbody c2.
  case_match; [done|]. by apply (live_close (set_resyncPending true c2)).
Qed.

Lemma live_EndSecret c : live_ok c -> live_ok (EndSecret c).
Proof.
  intros H. unfold EndSecret. cbv zeta. destruct (decide _) as [E|]; [|done].
  unfold live_ok in H. change (st (set_secretW _ c)) with (st c) in E. rewrite E in H.
  by apply (live_event_from _ _ _ Authenticating Ready).
Qed.

Lemma live_exec l c : enabled l c -> serving l c -> live_ok c -> live_ok (exec l c).
Proof.
  intros He Hs H. destruct l; simpl in He, Hs |- *;
    auto using live_start, live_retry, live_Approve, live_Diagnose, live_checkTimeout,
      live_confirmPrompt, live_fire, live_onReadError, live_onData, live_EndSecret.
  - unfold EndSession_close. repeat case_match; done.
  - unfold live_ok, EndSession_finish in *. rewrite st_event. change (stream _) with (stream c).
    change (act _) with (act c). rewrite Hs in H |- *. by destruct (st c); simpl; naive_solver.
  - done.
  - unfold Propose. by destruct (Command.Propose _ _ _ _).
  - unfold Reject. by destruct (Command.Reject _ _).
  - unfold Edit. by destruct (Command.Edit _ _ _ _ _ _).
  - unfold ConfirmSessionReady. case_decide as E; [done|]. unfold live_ok in H. rewrite E in H.
    by apply (live_event_from _ _ _ Authenticating Ready).
  - unfold Takeover. case_match; [|done]. by apply live_end.
  - by apply (live_deadline _ (set_secretW _ c)).
  - unfold WriteHuman. case_match; [|done]. by apply live_write.
  - unfold SubscribeHuman, subscribeAI. by destruct human.
  - unfold WaitResult_register. repeat case_match; done.
  - unfold WaitResult_cancel. repeat case_match; done.
Qed.
