(* ===== verification/CoordinatorCarry.v ===== *)
(** * Carried predicates (src/internal/gateway/coordinator.go)

    A predicate on the coordinator that reads only the trace, the
    resynchronisation flag and the nudge counter is carried through every
    handler that leaves these alone, by one proof per handler. *)

From S2P Require Import Prelude GoStd Session Ring Secret Validate Command Marker Coordinator.
From S2P Require Import CoordinatorSteps.

(** A write that is not a nudge, or no write. *)
Definition not_nudge (e : effect) : Prop :=
  match e with EWrite ByNudge _ _ => False | _ => True end.

Class Carried (P : Coordinator -> Prop) : Prop := {
  carried_frame : forall c c', trace c' = trace c -> resyncPending c' = resyncPending c ->
    authRetries c' = authRetries c -> P c -> P c';
  carried_emit : forall e c, not_nudge e -> P c -> P (emit e c);
  carried_resync : forall c, P c -> P (set_resyncPending true c)
}.

Section Carry.

Context {P : Coordinator -> Prop} `{!Carried P}.

Lemma carry_write who data c :
  (forall s, not_nudge (EWrite who s data)) -> P c -> P (write_stream who data c).
Proof. intros. unfold write_stream. case_match; [by apply carried_emit|done]. Qed.

Lemma carry_close c : P c -> P (close_stream c).
Proof. intros. unfold close_stream. case_match; [by apply carried_emit|done]. Qed.

Lemma carry_event rnd e c : P c -> P (apply_event rnd e c).
Proof. by apply carried_frame. Qed.

Lemma carry_commands s c : P c -> P (set_commands s c).
Proof. by apply carried_frame. Qed.

Lemma carry_deadline d c : P c -> P (set_deadline d c).
Proof. unfold set_deadline. case_match; [by apply carried_frame|done]. Qed.

Lemma carry_finish now status code c : P c -> P (finishActiveLocked now status code c).
Proof.
  intros H. unfold finishActiveLocked. case_match; [|done]. cbv zeta.
  set (c1 := set_commands _ c). assert (H1 : P c1) by (by apply carry_commands).
  clearbody c1. case_match; [|by apply (carried_frame c1)].
  apply (carried_frame (emit (EWake (wake r)) c1)); try done. by apply carried_emit.
Qed.

Lemma carry_end now status c :
  P c ->
  P (let c := finishActiveLocked now status None c in
     if decide (st c = RunningCommand) then apply_event "" CommandResult c else c).
Proof. intros. cbv zeta. case_match; [apply carry_event|]; by apply carry_finish. Qed.

Lemma carry_arm now c : P c -> P (armAuthRetryLocked now c).
Proof.
  intros. unfold armAuthRetryLocked. repeat (case_match; try done). by apply (carried_frame c).
Qed.

Lemma carry_armPrompt now cfg c : P c -> P (armPromptConfirmLocked now cfg c).
Proof. intros. unfold armPromptConfirmLocked. case_match; [done|]. by apply (carried_frame c). Qed.

Lemma carry_auth now c : P c -> P (handleAuthenticatingLocked now c).
Proof.
  intros. unfold handleAuthenticatingLocked. cbv zeta. apply carry_arm. case_match; [|done].
  eapply carried_frame; [| | |by apply (carry_write ByLogin)]; done.
Qed.

Lemma carry_marker now c : P c -> P (handleMarkerLocked now c).
Proof.
  intros. unfold handleMarkerLocked. repeat (case_match; try done). cbv zeta.
  apply carry_event, carry_finish. by apply (carried_frame c).
Qed.

(** [onData] up to its branching. *)
Lemma carry_scan (b : bool) chunk g c :
  P c -> let c1 := advanceLineTailLocked chunk (set_promptGen g c) in
  P (if b then set_rebootSuspect true c1 else c1).
Proof. intros. cbv zeta. case_match; by apply (carried_frame c). Qed.

Lemma carry_startTx d t c : P c -> P (fst (startTransactionLocked d t c)).
Proof.
  intros. unfold startTransactionLocked. cbv zeta. set (c1 := write_stream _ _ _).
  assert (P c1).
  { apply carry_write; [done|]. apply carry_event. by apply (carried_frame c). }
  clearbody c1. destruct (write_fails d); [|done]. by apply carry_end.
Qed.

Lemma carry_Approve d pid c : P c -> P (fst (Approve d pid c)).
Proof.
  intros. unfold Approve. case_match; [done|].
  destruct (Command.Approve _ _ _ _ _) as [s [t|e]]; [|by apply carry_commands].
  pose proof (carry_startTx d t (set_commands s c)) as Hgo. cbv zeta.
  destruct (startTransactionLocked _ _ _) as [? []]; apply Hgo; by apply carry_commands.
Qed.

Lemma carry_Diagnose d sid text purpose timeout c :
  P c -> P (fst (DiagnoseStart d sid text purpose timeout c)).
Proof.
  intros. unfold DiagnoseStart. case_match; [done|]. case_match; [done|].
  destruct (Command.Propose _ _ _ _) as [s [p|e]]; [|by apply carry_commands]. cbv zeta.
  destruct (Command.Approve _ _ _ _ _) as [s2 [t|e]]; [|by repeat apply carry_commands].
  pose proof (carry_startTx d t (set_commands s2 (set_commands s c))) as Hgo.
  destruct (startTransactionLocked _ _ _) as [? []]; apply Hgo; by repeat apply carry_commands.
Qed.

Lemma carry_onReadError now s c : P c -> P (onReadError now s c).
Proof.
  intros. unfold onReadError. case_match; [done|]. cbv zeta. rewrite finish_guard.
  set (c1 := finishActiveLocked _ _ _ _).
  assert (P c1) as Hc1 by (by apply carry_finish). clearbody c1.
  apply (carried_frame (emit (EClose s) c1)); try done. by apply carried_emit.
Qed.

Lemma carry_checkTimeout now c : P c -> P (checkTimeout now c).
Proof.
  intros. unfold checkTimeout. case_match; [|done]. case_match; [done|]. cbv zeta.
  set (c1 := write_stream _ _ _).
  assert (P c1) as Hc1 by (by apply carry_write). clearbody c1.
  pose proof (carry_end now StatusTimeout c1 Hc1) as Hc2. cbv zeta in Hc2.
  match type of Hc2 with P ?x => set (c2 := x) in * end. clearbody c2.
  case_match; [|apply carry_close]; by apply carried_resync.
Qed.

Lemma carry_Takeover now c : P c -> P (Takeover now c).
Proof. intros. unfold Takeover. case_match; [|done]. by apply carry_end. Qed.

(** Every label whose handler leaves the flag and the counter alone. *)
Definition simple (l : label) : bool :=
  match l with
  | LStart _ _ _ _ _ _ _ _ | LRetry _ _ _ _ _ | LStop _ | LEndSecret
  | LData _ _ | LPrompt _ | LRetryAuth _ _ => false
  | _ => true
  end.

Lemma carry_simple l c : simple l = true -> P c -> P (exec l c).
Proof.
  intros Hl H. destruct l; try done; simpl;
    auto using carry_Approve, carry_Diagnose, carry_onReadError, carry_checkTimeout, carry_Takeover.
  - unfold EndSession_close. repeat (case_match; try done); by apply carried_emit.
  - by apply carry_event.
  - unfold Propose. destruct (Command.Propose _ _ _ _). by apply carry_commands.
  - unfold Reject. destruct (Command.Reject _ _). by apply carry_commands.
  - unfold Edit. destruct (Command.Edit _ _ _ _ _ _). by apply carry_commands.
  - unfold ConfirmSessionReady. case_match; [done|]. by apply (carried_frame c).
  - by apply carry_deadline, (carried_frame c).
  - unfold WriteHuman. case_match; [|done]. by apply carry_write.
  - unfold SubscribeHuman, subscribeAI. destruct human; by apply (carried_frame c).
  - by apply (carried_frame c).
  - unfold WaitResult_register. repeat (case_match; try done); by apply (carried_frame c).
  - unfold WaitResult_cancel. repeat (case_match; try done); by apply (carried_frame c).
Qed.

(** A chunk that does not confirm a reboot. *)
Lemma carry_onData now raw c :
  P c ->
  (exists c2, P c2 /\ onData now raw c = handleAuthenticatingLocked now
                       (handleTargetRebootLocked now c2) /\
     rebootSuspect c2 = false /\ st c2 = st c /\ st c <> Authenticating /\
     authPromptAtLineEndLocked c2 = true /\ lineTail c2 = advance (lineTail c) raw /\
     loginCfg c2 = loginCfg c) \/
  P (onData now raw c).
Proof.
  intros H. unfold onData. cbv zeta.
  match goal with |- context [if ?b then set_rebootSuspect true ?x else ?x] =>
    pose proof (carry_scan b raw (u64 (promptGen c + 1)) c H) as H2; cbv zeta in H2;
    set (c2 := if b then set_rebootSuspect true x else x) in *;
    assert (st c2 = st c /\ lineTail c2 = advance (lineTail c) raw /\ loginCfg c2 = loginCfg c)
      as (Hst & Htl & Hcfg)
      by (unfold c2; by destruct b)
  end.
  change (st (advanceLineTailLocked _ _)) with (st c). clearbody c2.
  case_match eqn:E; [left|right; case_match; [|case_match]].
  - bools. exists (set_rebootSuspect false c2). repeat split; try done.
    + by apply (carried_frame c2).
    + by eapply bool_decide_eq_true.
  - by apply carry_armPrompt.
  - apply (carried_frame (set_deadline (now + SecretGracePeriod (loginCfg c))
             (set_secretW (Begin (secretW c2)) c2))); try done.
    by apply carry_deadline, (carried_frame c2).
  - apply carry_armPrompt. case_match; auto using carry_auth, carry_marker.
Qed.

End Carry.
