(* ===== verification/CoordinatorProps.v ===== *)
(** * Coordinator properties (src/internal/gateway/coordinator.go)

    What the coordinator promises over all its runs: which commands reach the
    target, what a transaction ends in, when AI execution is enabled, what a
    timeout, a secret window and a lost transport do. *)

From S2P Require Import Prelude GoStd Session Ring Secret Validate Command Marker Coordinator.
From S2P Require Import CoordinatorSteps CoordinatorCarry.

(** ** Observations *)

(** The nudges typed so far. *)
Definition nudges (tr : list effect) : nat :=
  length (List.filter (fun e => match e with EWrite ByNudge _ _ => true | _ => false end) tr).

(** The labels that reset the nudge counter. *)
Definition resets_nudges (l : label) : bool :=
  match l with
  | LStart _ _ _ _ _ _ _ _ | LRetry _ _ _ _ _ | LStop _ | LEndSecret => true
  | _ => false
  end.

(** Runs without such a label. *)
Inductive nudge_step (c : Coordinator) : Coordinator -> Prop :=
| nudge_exec l : enabled l c -> resets_nudges l = false -> nudge_step c (exec l c).

(** ** A concrete run for the witnesses *)

Definition ends_with (s : string) : pattern := Some (fun b => HasSuffix (of_bytes b) s).

Definition demo_cfg : LoginConfig :=
  {| Username := "root"; LoginPromptPattern := ends_with "login: ";
     PasswordPromptPattern := ends_with "Password: ";
     ShellPromptPattern := ends_with "# ";
     BootBannerPattern := Some (fun b => Contains (of_bytes b) "Booting");
     SecretPromptPatterns := []; SecretGracePeriod := 10 * second;
     PromptQuietPeriod := 0; AuthRetryPeriod := 0; AuthRetryLimit := 3 |}.

Definition demo_ring : Ring := {| buf := replicate 512 zero; total := 0 |}.

Definition demo_draws : draws :=
  {| clock := 1000; rnd_prop := "aa"; rnd_txn := "0011223344556677";
     rnd_nonce := "0123456789abcdef0123456789abcdef"; write_fails := false |}.

(** A session that has logged in, up to the shell prompt. *)
Definition demo_login : list label :=
  [LStart 0 "01" 0 1 demo_cfg (Some 7%nat) "uart" false;
   LData 5 (to_bytes "box login: "); LData 6 (to_bytes "root"); LPrompt 3;
   LData 7 (to_bytes "# "); LPrompt 4].

Definition demo_command : list label :=
  demo_login ++ [LPropose demo_draws "sess-01" "ps" "look" (5 * second);
                 LApprove demo_draws "prop-aa"].

Definition runs (ls : list label) (c : Coordinator) : Coordinator :=
  foldl (fun c l => exec l c) c ls.

Definition demo_start : Coordinator := newCoordinatorWith demo_ring "box" "00".

(** A list of labels that can run in this order from [c]. *)
Fixpoint runnable (ls : list label) (c : Coordinator) : Prop :=
  match ls with
  | [] => True
  | l :: ls => enabled l c /\ serving l c /\ runnable ls (exec l c)
  end.

(** ** Lemmas *)

Lemma serving_rtc ls c : runnable ls c -> rtc serving_step c (runs ls c).
Proof.
  revert c. induction ls as [|l ls IH]; intros c; simpl; [intros; apply rtc_refl|].
  intros (He & Hs & Hr). eapply rtc_l; [by constructor|]. by apply IH.
Qed.

Lemma serving_is_reachable c : serving_reachable c -> reachable c.
Proof.
  intros (r & brd & rnd & H). exists r, brd, rnd.
  induction H as [|x y z [l He _] _ IH]; [apply rtc_refl|]. eapply rtc_l; [by constructor|done].
Qed.

Lemma serving_live c : serving_reachable c -> live_ok c.
Proof.
  intros (r & brd & rnd & H). assert (live_ok (newCoordinatorWith r brd rnd)) as H0 by done.
  induction H as [|x y z [l He Hs] _ IH]; [done|]. apply IH. by apply live_exec.
Qed.

Lemma runs_serving ls : runnable ls demo_start -> serving_reachable (runs ls demo_start).
Proof. intros H. exists demo_ring, "box"%string, "00"%string. by apply serving_rtc. Qed.

Lemma demo_command_runnable : runnable demo_command demo_start.
Proof. vm_compute. intuition discriminate. Qed.

(** The recorded outcome of the active transaction. *)
Lemma finish_result now status code c a :
  core c -> act c = Some a ->
  let c' := finishActiveLocked now status code c in
  GetResult (tx_ID (tx a)) (commands c') = Ok
    {| TransactionID := tx_ID (tx a); SourceProposalID := tx_SourceProposalID (tx a);
       res_Status := status; ExitCode := code; Duration := now - ApprovedAt (tx a);
       Output := Ring.Data (Ring.ReadAfter (startSeq a) (2 ^ 20) (ring c));
       OutputTruncatedStart := Ring.Gap (Ring.ReadAfter (startSeq a) (2 ^ 20) (ring c));
       ContextBefore := []; ContextAfter := []; CompletedAt := now |} /\
  (forall w, resultWaiters c !! tx_ID (tx a) = Some w -> EWake (wake w) ∈ trace c') /\
  (exists es, trace c' = trace c ++ es).
Proof.
  intros Hc Ha. unfold finishActiveLocked. rewrite Ha. cbv zeta.
  destruct (core_act _ _ _ _ Hc a Ha) as (Ht & Hr & _).
  set (res := {| TransactionID := _ |}).
  rewrite (complete_active _ res a Ht Hr eq_refl). cbn [fst].
  set (c1 := set_commands _ c). change (resultWaiters c1) with (resultWaiters c).
  assert (Hg : GetResult (tx_ID (tx a)) (commands c1) = Ok res).
  { unfold GetResult, c1. simpl. by rewrite lookup_insert_eq. }
  change (TransactionID res) with (tx_ID (tx a)).
  destruct (resultWaiters c !! tx_ID (tx a)) as [w|].
  - split; [exact Hg|]. split; simpl; [|by eexists]. intros w' [= <-]. set_solver.
  - split; [exact Hg|]. split; [done|]. exists []. by rewrite app_nil_r.
Qed.

Lemma canStart_spec c :
  canStartLocked c = None <->
  stream c <> None /\ st c = Ready /\ Active (secretW c) = false /\
  resyncPending c = false /\ act c = None.
Proof.
  unfold canStartLocked. destruct (stream c); [|naive_solver].
  case_bool_decide as Hs; simpl; [naive_solver|].
  destruct (Active _), (resyncPending c), (act c); simpl; naive_solver.
Qed.

Lemma AIEnabled_spec c :
  AIEnabled c = true <->
  Active (secretW c) = false /\ resyncPending c = false /\ (st c = Ready \/ st c = RunningCommand).
Proof. unfold AIEnabled. destruct (Active _), (resyncPending c), (st c); naive_solver. Qed.

#[export] Instance resync_carried : Carried (fun c => resyncPending c = true).
Proof. split; intros; simpl; congruence. Qed.

(** The nudges typed beyond those the counter still remembers. *)
Definition nudge_gap (k : Z) (c : Coordinator) : Prop :=
  Z.of_nat (nudges (trace c)) = authRetries c + k.

Lemma nudges_emit e c :
  nudges (trace (emit e c)) = (nudges (trace c) + nudges [e])%nat.
Proof. unfold nudges, emit. simpl trace. by rewrite List.filter_app, length_app. Qed.

#[export] Instance nudge_gap_carried k : Carried (nudge_gap k).
Proof.
  split; unfold nudge_gap.
  - by intros c c' -> _ ->.
  - intros e c He. rewrite nudges_emit. change (authRetries (emit e c)) with (authRetries c).
    destruct e as [[]| |]; try done; unfold nudges in *; simpl; lia.
  - done.
Qed.

Lemma AIEnabled_not_resync c : resyncPending c = true -> AIEnabled c = false.
Proof. unfold AIEnabled. intros ->. by case_match. Qed.

Lemma rebooted_disabled now c :
  AIEnabled (handleAuthenticatingLocked now (handleTargetRebootLocked now c)) = false.
Proof.
  set (c1 := handleTargetRebootLocked now c).
  assert (H : st c1 <> Ready /\ st c1 <> RunningCommand).
  { unfold c1, handleTargetRebootLocked. cbv zeta. rewrite finish_guard.
    set (c2 := set_commands _ _).
    assert (Hr : st (apply_event "" TargetRebooted c2) <> Ready /\
                 st (apply_event "" TargetRebooted c2) <> RunningCommand).
    { rewrite st_event. by destruct (st c2). }
    clearbody c2. by destruct (Active _). }
  assert (Ha : forall now c, st (handleAuthenticatingLocked now c) = st c).
  { intros. unfold handleAuthenticatingLocked, armAuthRetryLocked, write_stream.
    repeat case_match; done. }
  unfold AIEnabled. rewrite Ha. destruct (st c1); repeat case_match; naive_solver.
Qed.

Lemma stop_resync now c : resyncPending (Stop now c) = resyncPending c.
Proof.
  unfold Stop. cbv zeta. rewrite finish_guard. unfold close_stream.
  destruct (finish_frame now StatusDaemonRestarted None c) as (_ & _ & _ & _ & _ & _ & _ & Hr & _).
  case_match; exact Hr.
Qed.

Lemma retry_refused now rnd done s auth c :
  st c <> Reconnecting -> fst (retry_install now rnd done s auth c) = emit (EClose s) c.
Proof.
  intros H. unfold retry_install, Session.Apply. unfold st in H.
  by destruct (state (sess c)).
Qed.

Lemma fire_cases now g c :
  fire_auth now g c = c \/ fire_auth now g c = set_authRetryTimer None c \/
  fire_auth now g c = armAuthRetryLocked now (set_authRetryTimer None c) \/
  (exists s, stream c = Some s /\ fire_auth now g c =
     armAuthRetryLocked now (set_usernameSent false (emit (EWrite ByNudge s [LF])
       (set_authRetries (authRetries c + 1) (set_authRetryTimer None c))))).
Proof.
  unfold fire_auth, retryAuth. destruct (g =? authGen c) eqn:E.
  - change (authGen (set_authRetryTimer None c)) with (authGen c). rewrite E. simpl negb. simpl orb.
    destruct (bool_decide _); [auto|].
    change (stream (set_authRetryTimer None c)) with (stream c).
    destruct (stream c) as [s|] eqn:Hs; [|auto]. destruct (Active _); [auto|].
    destruct (pat_match _ _); [auto|]. right. right. right. exists s. split; [done|].
    cbv zeta. unfold write_stream. change (stream (set_authRetries _ _)) with (stream c). by rewrite Hs.
  - rewrite E. auto.
Qed.

Lemma nudge_gap_exec k l c :
  resets_nudges l = false -> nudge_gap k c -> nudge_gap k (exec l c).
Proof.
  intros Hl H. destruct (simple l) eqn:Hs; [by apply carry_simple|].
  destruct l; try discriminate; simpl exec.
  - destruct (carry_onData now raw c H) as [(c2 & H2 & -> & _)|?]; [|done].
    apply carry_auth. unfold handleTargetRebootLocked. cbv zeta. rewrite finish_guard.
    set (c3 := finishActiveLocked _ _ _ _).
    assert (nudge_gap k c3) by (by apply carry_finish). clearbody c3. by case_match.
  - unfold confirmShellPrompt. repeat (case_match; try done).
  - destruct (fire_cases now g c) as [->|[->|[->|(s & _ & ->)]]]; try done.
    + by apply carry_arm.
    + apply carry_arm. revert H. unfold nudge_gap. simpl.
      unfold nudges. rewrite List.filter_app, length_app. simpl. lia.
Qed.

(** Data handling never touches the ring or the subscribers. *)
Definition same_stores (c c' : Coordinator) : Prop :=
  ring c' = ring c /\ humanSubs c' = humanSubs c /\ aiSubs c' = aiSubs c.

(** The three fields a prompt candidate does not touch. *)
Definition same_core (c c' : Coordinator) : Prop :=
  act c' = act c /\ st c' = st c /\ commands c' = commands c.

Lemma same_stores_trans c1 c2 c3 : same_stores c1 c2 -> same_stores c2 c3 -> same_stores c1 c3.
Proof. unfold same_stores. intuition congruence. Qed.

Lemma same_stores_arm now c : same_stores c (armAuthRetryLocked now c).
Proof. unfold armAuthRetryLocked. repeat case_match; done. Qed.

Lemma same_stores_armPrompt now cfg c : same_stores c (armPromptConfirmLocked now cfg c).
Proof. unfold armPromptConfirmLocked. by case_match. Qed.

Lemma same_stores_auth now c : same_stores c (handleAuthenticatingLocked now c).
Proof.
  unfold handleAuthenticatingLocked. cbv zeta. eapply same_stores_trans; [|apply same_stores_arm].
  unfold write_stream. repeat case_match; done.
Qed.

Lemma same_stores_finish now status code c : same_stores c (finishActiveLocked now status code c).
Proof.
  unfold finishActiveLocked. destruct (act c); [|done]. cbv zeta.
  set (c1 := set_commands _ _). by destruct (resultWaiters c1 !! _).
Qed.

Lemma same_stores_marker now c : same_stores c (handleMarkerLocked now c).
Proof.
  unfold handleMarkerLocked. case_match; [|done]. cbv zeta. case_match; [|done].
  apply (same_stores_finish _ _ _ (set_rebootSuspect false c)).
Qed.

Lemma same_stores_reboot now c : same_stores c (handleTargetRebootLocked now c).
Proof.
  unfold handleTargetRebootLocked. cbv zeta. rewrite finish_guard.
  eapply same_stores_trans; [apply (same_stores_finish now StatusTargetRebooted None)|].
  set (c1 := finishActiveLocked _ _ _ _). clearbody c1. by case_match.
Qed.

Lemma onData_stores now raw c : same_stores c (onData now raw c).
Proof.
  unfold onData. cbv zeta. set (c1 := advanceLineTailLocked _ _).
  assert (same_stores c c1) as H1 by done. clearbody c1.
  match goal with |- context [if ?b then set_rebootSuspect true c1 else c1] =>
    set (c2 := if b then set_rebootSuspect true c1 else c1) end.
  assert (same_stores c c2) as H2 by (unfold c2; by case_match). clearbody c2.
  eapply same_stores_trans; [exact H2|]. clear H1 H2.
  case_match; [|case_match; [|case_match]].
  - eapply same_stores_trans; [|apply same_stores_auth].
    apply (same_stores_reboot _ (set_rebootSuspect false c2)).
  - apply same_stores_armPrompt.
  - unfold set_deadline. by case_match.
  - eapply same_stores_trans; [|apply same_stores_armPrompt].
    case_match; auto using same_stores_auth, same_stores_marker; done.
Qed.

Lemma after_break_app a b :
  after_break (a ++ b) =
  match after_break b with
  | Some t => Some t
  | None => match after_break a with Some t => Some (t ++ b) | None => None end
  end.
Proof.
  induction a as [|x a IH]; simpl; [by destruct (after_break b)|]. rewrite IH.
  destruct (after_break b); [done|]. destruct (after_break a); [done|]. by case_match.
Qed.

(** Keeping the last bytes commutes with extending at the end. *)
Lemma drop_last_app {A} n (l b : list A) :
  drop (length (drop (length l - n) l ++ b) - n) (drop (length l - n) l ++ b) =
  drop (length (l ++ b) - n) (l ++ b).
Proof.
  rewrite !length_app, length_drop.
  destruct (decide (length l <= n)%nat) as [H|H].
  - replace (length l - n)%nat with 0%nat by lia. rewrite drop_0. f_equal. lia.
  - rewrite !drop_app, drop_drop, length_drop. f_equal; f_equal; lia.
Qed.

(** A read from [n] that reaches the end of the history and lost nothing. *)
Lemma read_to_end cap h r n max :
  represents cap h r -> zlen h < max_u64 -> (length h - cap <= n <= length h)%nat ->
  zlen h - Z.of_nat n <= max ->
  Ring.Data (Ring.ReadAfter (Z.of_nat n) max r) = drop n h /\
  Ring.Gap (Ring.ReadAfter (Z.of_nat n) max r) = false.
Proof.
  intros Hr Hb Hn Hm. rewrite (ReadAfter_represents _ _ _ _ _ Hr Hb). simpl.
  assert (Hs : spec_start cap h n = n) by (unfold spec_start; lia). rewrite Hs.
  assert (Hc : spec_count cap h n max = (length h - n)%nat).
  { unfold spec_count. rewrite Hs. case_match; [|done]. lia. }
  rewrite Hc. split; [|by rewrite bool_decide_false by lia].
  unfold slice. apply take_ge. rewrite length_drop. lia.
Qed.

(** A read of [k] bytes from [n] that are all still there. *)
Lemma read_window cap h r n (k : nat) :
  represents cap h r -> zlen h < max_u64 -> (length h - cap <= n)%nat -> (n + k <= length h)%nat ->
  Ring.Data (Ring.ReadAfter (Z.of_nat n) (Z.of_nat k) r) = slice n (n + k) h.
Proof.
  intros Hr Hb Hn Hk. rewrite (ReadAfter_represents _ _ _ _ _ Hr Hb). simpl.
  assert (Hs : spec_start cap h n = n) by (unfold spec_start; lia). rewrite Hs.
  assert (Hc : spec_count cap h n (Z.of_nat k) = k).
  { unfold spec_count. rewrite Hs. case_match; bools; lia. }
  by rewrite Hc.
Qed.

(** What [start] leaves behind when it installs a stream. *)
Lemma start_installs now rnd done s cfg op kind auth c :
  stream c = None ->
  stream (fst (start now rnd done s cfg op kind auth c)) = Some s /\
  rebootSuspect (fst (start now rnd done s cfg op kind auth c)) = false.
Proof.
  intros Hs. unfold start. rewrite Hs. cbv zeta. cbn [fst]. unfold begin_stream, armAuthRetryLocked.
  cbv zeta. destruct auth; [done|]. repeat case_match; done.
Qed.

(** A chunk in a session that is DISCONNECTED. *)
Lemma onData_disconnected now raw c :
  st c = Disconnected -> rebootSuspect c = false -> st (onData now raw c) = Disconnected.
Proof.
  intros Hst Hsus. unfold onData. cbv zeta. set (c1 := advanceLineTailLocked _ _).
  change (st c1) with (st c). rewrite Hst. cbn [bool_decide decide].
  rewrite !bool_decide_false by done. rewrite andb_false_r.
  change (rebootSuspect c1) with (rebootSuspect c). rewrite Hsus. cbn [andb].
  unfold armPromptConfirmLocked, set_deadline. repeat case_match; exact Hst.
Qed.

(** ** Properties *)





(** C14. State, transport and transaction agree. In every run of a serving
    coordinator the session is DISCONNECTED or RECONNECTING exactly when no
    transport is installed, it is RUNNING_COMMAND exactly when a transaction
    is active, and it is never left in CONNECTING or ERROR. *)
Theorem session_state_agrees c :
  serving_reachable c ->
  (stream c = None <-> st c = Disconnected \/ st c = Reconnecting) /\
  (act c <> None <-> st c = RunningCommand) /\
  st c <> Connecting /\ st c <> Error.
Proof.
  intros H. apply serving_live in H. unfold live_ok in H.
  destruct (st c); naive_solver.
Qed.

Lemma session_state_agrees_witness :
  serving_reachable (runs demo_command demo_start) /\
  st (runs demo_command demo_start) = RunningCommand /\
  act (runs demo_command demo_start) <> None.
Proof.
  assert (H : serving_reachable (runs demo_command demo_start))
    by apply runs_serving, demo_command_runnable.
  assert (Hs : st (runs demo_command demo_start) = RunningCommand) by (vm_compute; reflexivity).
  split; [exact H|]. split; [exact Hs|].
  destruct (session_state_agrees _ H) as (_ & Ha & _). exact (proj2 Ha Hs).
Defined.

(** C5. Execution is gated. When the AI is not enabled, a command is already
    running or no transport is connected, neither an approval nor a diagnostic request changes
    anything: both return an error and no transaction. A command is started
    exactly when a transport is connected, the session is READY, no secret
    window is open, no resynchronisation is pending and nothing is active. *)
Theorem execution_gated d pid sid text purpose timeout c :
  (canStartLocked c = None <->
     stream c <> None /\ st c = Ready /\ Active (secretW c) = false /\
     resyncPending c = false /\ act c = None) /\
  (AIEnabled c = false \/ act c <> None \/ stream c = None ->
     exists e, Approve d pid c = (c, (None, Some e)) /\
               DiagnoseStart d sid text purpose timeout c = (c, (None, Some e))).
Proof.
  split; [apply canStart_spec|]. intros Hd.
  destruct (canStartLocked c) as [e|] eqn:E.
  - exists e. unfold Approve, DiagnoseStart. by rewrite E.
  - apply canStart_spec in E as (Hst & Hs & Hw & Hr & Ha). exfalso.
    destruct Hd as [Hd|[Hd|Hd]]; [|by rewrite Ha in Hd|by rewrite Hd in Hst].
    assert (AIEnabled c = true) by (apply AIEnabled_spec; auto). congruence.
Qed.

Lemma execution_gated_witness :
  AIEnabled (runs (take 4 demo_login) demo_start) = false /\
  exists e, Approve demo_draws "prop-aa" (runs (take 4 demo_login) demo_start) =
    (runs (take 4 demo_login) demo_start, (None, Some e)).
Proof.
  assert (H : AIEnabled (runs (take 4 demo_login) demo_start) = false) by (vm_compute; reflexivity).
  split; [exact H|].
  destruct (proj2 (execution_gated demo_draws "prop-aa" "" "" "" 0
                     (runs (take 4 demo_login) demo_start)) (or_introl H)) as (e & He & _).
  exists e. exact He.
Defined.

(** C28. A timeout is final and fails safe. Once the deadline has passed the
    check interrupts the target, records a timeout result with no exit code
    and the output since the start, closes the waiters' channel, returns the
    session to READY with AI execution disabled, leaves the secret window as
    it is, and closes the transport when no prompt is configured to
    resynchronise on. Before the deadline it does nothing. *)
Theorem timeout_semantics now c a :
  serving_reachable c -> act c = Some a ->
  (now < deadline a -> checkTimeout now c = c) /\
  (deadline a <= now ->
   let c' := checkTimeout now c in
   act c' = None /\ st c' = Ready /\ AIEnabled c' = false /\ resyncPending c' = true /\
   secretW c' = secretW c /\
   (exists r, GetResult (tx_ID (tx a)) (commands c') = Ok r /\ res_Status r = StatusTimeout /\
      ExitCode r = None /\ Output r = Ring.Data (Ring.ReadAfter (startSeq a) (2 ^ 20) (ring c))) /\
   (forall w, resultWaiters c !! tx_ID (tx a) = Some w -> EWake (wake w) ∈ trace c') /\
   exists s es, stream c = Some s /\
     trace c' = trace c ++ EWrite ByTimeout s ["003"%char] :: es /\
     (ShellPromptPattern (loginCfg c) = None -> EClose s ∈ es)).
Proof.
  intros Hr Ha. pose proof (serving_live _ Hr) as Hl.
  pose proof (reachable_inv _ (serving_is_reachable _ Hr)) as [Hc _].
  unfold checkTimeout. rewrite Ha. split; intros Hd.
  { by rewrite (proj2 (Z.ltb_lt _ _)). }
  rewrite (proj2 (Z.ltb_ge _ _)) by done. cbv zeta.
  assert (st c = RunningCommand /\ exists s, stream c = Some s) as (Hst & s & Hs).
  { unfold live_ok in Hl. rewrite Ha in Hl. destruct (st c), (stream c); naive_solver. }
  unfold write_stream. rewrite Hs. set (c1 := emit _ c).
  assert (Hc1 : core c1) by (by apply core_emit).
  destruct (finish_result now StatusTimeout None c1 a Hc1 Ha) as (Hres & Hw & es & Htr).
  destruct (finish_frame now StatusTimeout None c1)
    as (_ & _ & _ & Hcfg & Hse & Hstr & Hsec & _ & Hrg & Hact).
  set (c2 := finishActiveLocked now StatusTimeout None c1) in *.
  change (sess c1) with (sess c) in Hse. change (stream c1) with (stream c) in Hstr.
  assert (Hst2 : st c2 = RunningCommand) by (unfold st; rewrite Hse; exact Hst).
  rewrite decide_True by done.
  set (c3 := set_resyncPending true (apply_event "" CommandResult c2)).
  assert (Hc3 : st c3 = Ready) by (unfold c3; change (st _) with (st (apply_event "" CommandResult c2));
                                   by rewrite st_event, Hst2).
  assert (Htr' : trace c2 = trace c ++ EWrite ByTimeout s ["003"%char] :: es).
  { rewrite Htr. unfold c1. simpl. by rewrite <- app_assoc. }
  assert (Hcl : close_stream c3 = emit (EClose s) c3).
  { unfold close_stream. change (stream c3) with (stream c2). by rewrite Hstr, Hs. }
  change (ShellPromptPattern (loginCfg c3)) with (ShellPromptPattern (loginCfg c2)).
  rewrite Hcfg. change (loginCfg c1) with (loginCfg c). rewrite Hcl.
  assert (HAI : AIEnabled c3 = false) by (unfold AIEnabled; by case_match).
  destruct (ShellPromptPattern (loginCfg c)) as [p|].
  - repeat (split; [done|]). split; [by eexists|]. split; [done|].
    exists s, es. done.
  - repeat (split; [done|]). split; [by eexists|]. split.
    + intros w Hww. simpl. apply elem_of_app. left. by apply Hw.
    + exists s, (es ++ [EClose s]). split; [done|]. split; [|set_solver].
      simpl. by rewrite Htr', <- app_assoc.
Qed.

Definition demo_timeout : Coordinator := runs demo_command demo_start.

Lemma timeout_semantics_witness :
  exists a, act demo_timeout = Some a /\ deadline a <= 6 * second /\
  AIEnabled (checkTimeout (6 * second) demo_timeout) = false.
Proof.
  eexists. split; [vm_compute; reflexivity|]. split; [vm_compute; discriminate|].
  destruct (timeout_semantics (6 * second) demo_timeout _
              (runs_serving _ demo_command_runnable) ltac:(vm_compute; reflexivity)) as [_ H].
  apply H. vm_compute. discriminate.
Defined.

(** C29. After a timeout nothing runs until the shell has proved itself. While
    a resynchronisation is pending AI execution is disabled, and every step
    keeps it pending except a new transport, the confirmation of the
    configured shell prompt at the end of the current line, and a login or
    password prompt that confirms a reboot, after which execution is still
    disabled because the target has to be logged in to again. *)
Theorem resync_blocks l c :
  resyncPending c = true ->
  AIEnabled c = false /\
  ((resyncPending (exec l c) = true /\ AIEnabled (exec l c) = false) \/
   match l with
   | LStart _ _ _ _ _ _ _ _ => stream c = None
   | LRetry _ _ _ _ _ => st c = Reconnecting
   | LPrompt g => g = promptGen c /\
                  pat_match (ShellPromptPattern (loginCfg c)) (lineTail c) = true
   | LData _ raw => st c <> Authenticating /\ AIEnabled (exec l c) = false /\
       let tail := advance (lineTail c) raw in
       pat_match (LoginPromptPattern (loginCfg c)) tail = true \/
       pat_match (PasswordPromptPattern (loginCfg c)) tail = true
   | _ => False
   end).
Proof.
  intros H. split; [by apply AIEnabled_not_resync|].
  assert (Hk : forall c', resyncPending c' = true -> resyncPending c' = true /\ AIEnabled c' = false).
  { intros c' Hc'. split; [done|by apply AIEnabled_not_resync]. }
  destruct (simple l) eqn:Hl; [left; by apply Hk, (carry_simple (P := fun c => resyncPending c = true))|].
  destruct l; try discriminate Hl; simpl exec.
  - unfold start. destruct (stream c); [left; by apply Hk|by right].
  - destruct (decide (st c = Reconnecting)) as [E|E]; [by right|left].
    apply Hk. by rewrite retry_refused.
  - left. apply Hk. by rewrite stop_resync.
  - left. apply Hk. unfold EndSecret. cbv zeta. by case_match.
  - destruct (carry_onData (P := fun c => resyncPending c = true) now raw c H)
      as [(c2 & _ & -> & _ & _ & Hna & Hp & Htl & Hcfg)|Hr]; [|left; by apply Hk].
    right. split; [done|]. split; [apply rebooted_disabled|]. cbv zeta.
    unfold authPromptAtLineEndLocked in Hp. rewrite Htl, Hcfg in Hp. by apply orb_true_iff in Hp.
  - unfold confirmShellPrompt. case_match eqn:E1; [left; by apply Hk|].
    case_match eqn:E2; [left; by apply Hk|]. bools. by right.
  - left. apply Hk. destruct (fire_cases now g c) as [->|[->|[->|(s & _ & ->)]]]; try done;
      apply (carry_arm (P := fun c => resyncPending c = true)); done.
Qed.

Lemma resync_blocks_witness :
  resyncPending (checkTimeout (6 * second) demo_timeout) = true /\
  AIEnabled (checkTimeout (6 * second) demo_timeout) = false.
Proof.
  assert (H : resyncPending (checkTimeout (6 * second) demo_timeout) = true)
    by (vm_compute; reflexivity).
  split; [exact H|]. exact (proj1 (resync_blocks LEndSecret _ H)).
Defined.

(** C39. The console is nudged a bounded number of times. Between two events
    that reset the counter (a start, a retry, a stop or the end of a secret)
    the login retry types at most [AuthRetryLimit] of its bare newlines, which
    the trace records as nudges, whatever the target prints and however the
    timers interleave. *)
Theorem nudges_bounded c c' :
  reachable c -> rtc nudge_step c c' ->
  Z.of_nat (nudges (trace c')) - Z.of_nat (nudges (trace c)) <= authRetryLimit (loginCfg c').
Proof.
  intros Hr Hrun. pose proof (reachable_inv _ Hr) as H0.
  set (k := Z.of_nat (nudges (trace c)) - authRetries c).
  assert (Hk : nudge_gap k c) by (unfold nudge_gap, k; lia).
  assert (inv c' /\ nudge_gap k c') as [(_ & _ & Hn & _) Hg].
  { clearbody k. clear Hr. induction Hrun as [|x y z [l He Hl] _ IH]; [done|].
    apply IH; [by apply inv_exec|]. by apply nudge_gap_exec. }
  destruct H0 as (_ & _ & Hn0 & _). unfold nudge_gap, k in Hg. lia.
Qed.

Lemma nudges_bounded_witness :
  let c := runs [LStart 0 "01" 0 1 demo_cfg None "uart" false] demo_start in
  reachable c /\
  nudges (trace (exec (LRetryAuth 9 2) c)) = 1%nat /\
  Z.of_nat (nudges (trace (exec (LRetryAuth 9 2) c))) - Z.of_nat (nudges (trace c)) <= 3.
Proof.
  intros c. assert (H : reachable c).
  { apply serving_is_reachable, runs_serving. vm_compute. intuition discriminate. }
  split; [exact H|]. split; [vm_compute; reflexivity|].
  refine (nudges_bounded c (exec (LRetryAuth 9 2) c) H _).
  eapply rtc_l; [|apply rtc_refl].
  apply (nudge_exec c (LRetryAuth 9 2)); [vm_compute; discriminate|reflexivity].
Defined.

(** C30. An open secret window hides the bytes. While it is open, what one turn
    of the read loop leaves in the ring and in every subscriber's queue is the
    same for any two chunks of the same length, so nothing the AI can read
    depends on the secret. *)
Theorem secret_not_observable now1 now2 raw1 raw2 c :
  Active (secretW c) = true -> length raw1 = length raw2 ->
  let c1 := readLoop_body now1 raw1 c in
  let c2 := readLoop_body now2 raw2 c in
  ring c1 = ring c2 /\ humanSubs c1 = humanSubs c2 /\ aiSubs c1 = aiSubs c2.
Proof.
  intros Hw Hl. cbv zeta. unfold readLoop_body.
  assert (Hs : store_chunk (Active (secretW c)) raw1 c = store_chunk (Active (secretW c)) raw2 c).
  { unfold store_chunk, stored_bytes. rewrite Hw. by rewrite (FilterTarget_length_only raw1 raw2). }
  rewrite Hs. set (c0 := store_chunk _ _ c). 
  destruct (onData_stores now1 raw1 c0) as (-> & -> & ->).
  by destruct (onData_stores now2 raw2 c0) as (-> & -> & ->).
Qed.

Lemma secret_not_observable_witness :
  let c := BeginSecret 9 (runs demo_login demo_start) in
  Active (secretW c) = true /\
  ring (readLoop_body 10 (to_bytes "hunter2") c) = ring (readLoop_body 10 (to_bytes "letmein") c).
Proof.
  intros c. assert (H : Active (secretW c) = true) by (vm_compute; reflexivity).
  split; [exact H|].
  exact (proj1 (secret_not_observable 10 10 (to_bytes "hunter2") (to_bytes "letmein") c H eq_refl)).
Defined.

(** How the output is cut into reads does not matter to prompt matching:
    folding two chunks into the current line gives the same tail as folding
    their concatenation, and the tail is the end of the current line, at most
    1024 bytes of it. *)
Theorem advance_chunks t a b :
  (length t <= maxLineTail)%nat ->
  advance (advance t a) b = advance t (a ++ b) /\
  (length (advance t a) <= maxLineTail)%nat.
Proof.
  intros Ht. split; [|apply advance_length]. unfold advance.
  rewrite after_break_app. destruct (after_break b) as [tb|]; [done|].
  destruct (after_break a) as [ta|]; rewrite ?app_assoc; apply drop_last_app.
Qed.

Lemma advance_chunks_witness :
  advance (advance (to_bytes "log") (to_bytes "in")) (to_bytes ": ") = to_bytes "login: ".
Proof.
  rewrite (proj1 (advance_chunks (to_bytes "log") (to_bytes "in") (to_bytes ": ")
                    ltac:(vm_compute; lia))).
  reflexivity.
Defined.

Lemma finish_proposals now status code c :
  proposals (commands (finishActiveLocked now status code c)) = proposals (commands c).
Proof.
  unfold finishActiveLocked. destruct (act c); [|done]. cbv zeta.
  match goal with |- context [CompleteTransaction ?r ?s] =>
    assert (H : proposals (fst (CompleteTransaction r s)) = proposals s)
      by (unfold CompleteTransaction; repeat case_match; done) end.
  destruct (resultWaiters _ !! _); exact H.
Qed.

(** C36. Losing the transport ends everything that depended on it. When the
    reader of the current stream fails, the active transaction gets a
    disconnected result without exit code, no proposal under the session's
    identifier stays pending, those under any other identifier stay as they
    were, the stream is closed and removed, and the session waits in
    RECONNECTING with AI execution disabled and its identifier unchanged; a
    reader of an already replaced stream changes nothing. *)
Theorem transport_lost now s c :
  serving_reachable c ->
  (stream c <> Some s -> onReadError now s c = c) /\
  (stream c = Some s ->
   let c' := onReadError now s c in
   st c' = Reconnecting /\ stream c' = None /\ act c' = None /\ AIEnabled c' = false /\
   SessionID c' = SessionID c /\ EClose s ∈ trace c' /\
   PendingForSession (SessionID c) c' = [] /\
   (forall id p, proposals (commands c) !! id = Some p -> prop_SessionID p <> SessionID c ->
      proposals (commands c') !! id = Some p) /\
   (forall a, act c = Some a -> exists r,
      Result (tx_ID (tx a)) c' = Ok r /\ res_Status r = StatusDisconnected /\ ExitCode r = None)).
Proof.
  intros Hr. pose proof (serving_live _ Hr) as Hl.
  pose proof (reachable_inv _ (serving_is_reachable _ Hr)) as [Hc _].
  unfold onReadError. split; intros Hs; [by rewrite bool_decide_true|].
  rewrite bool_decide_false by (intros Hn; by apply Hn). cbv zeta. rewrite finish_guard.
  destruct (finish_frame now StatusDisconnected None c)
    as (_ & _ & _ & _ & Hse & _ & _ & _ & _ & Hact).
  assert (Hres : forall a, act c = Some a -> exists r,
     GetResult (tx_ID (tx a)) (commands (finishActiveLocked now StatusDisconnected None c)) = Ok r /\
     res_Status r = StatusDisconnected /\ ExitCode r = None).
  { intros a Ha. destruct (finish_result now StatusDisconnected None c a Hc Ha) as [Hg _]. eauto. }
  set (c1 := finishActiveLocked now StatusDisconnected None c) in *.
  set (c2 := set_commands _ c1). set (c' := set_manualReady _ _).
  assert (Hst : st c' = Reconnecting).
  { change (st c') with (st (apply_event "" TransportLost c2)). rewrite st_event.
    change (st c2) with (st c1). unfold st at 1 2. rewrite Hse. fold (st c).
    unfold live_ok in Hl. rewrite Hs in Hl. by destruct (st c); naive_solver. }
  split; [exact Hst|]. split; [done|]. split; [exact Hact|].
  split. { unfold AIEnabled. rewrite Hst. by repeat case_match. }
  split. { change (SessionID c') with (sessionID (apply_ "" TransportLost (sess c1))).
    rewrite apply_id, Hse. unfold SessionID. by destruct (state (sess c)). }
  split. { change (trace c') with (trace c1 ++ [EClose s]). set_solver. }
  split; [|split; [|exact Hres]].
  - change (PendingForSession (SessionID c) c')
      with (Command.PendingForSession (SessionID c) (InvalidateSession (sessionID (sess c1)) (commands c1))).
    rewrite Hse. apply PendingForSession_invalidated.
  - intros id p Hp Hne. change (commands c') with (InvalidateSession (sessionID (sess c1)) (commands c1)).
    rewrite Hse. apply InvalidateSession_others; [|done]. unfold c1. by rewrite finish_proposals.
Qed.

Lemma transport_lost_witness :
  serving_reachable demo_timeout /\ stream demo_timeout = Some 1%nat /\
  st (onReadError 2000 1 demo_timeout) = Reconnecting.
Proof.
  assert (H : serving_reachable demo_timeout) by apply runs_serving, demo_command_runnable.
  assert (Hs : stream demo_timeout = Some 1%nat) by (vm_compute; reflexivity).
  split; [exact H|]. split; [exact Hs|].
  exact (proj1 (proj2 (transport_lost 2000 1 demo_timeout H) Hs)).
Defined.

(** A proposal made under another session's identifier, which the store does
    not check, is still pending after the connection is lost. *)
Lemma stale_proposal_pending :
  let c := runs (demo_login ++ [LPropose demo_draws "sess-old" "ps" "look" (5 * second)]) demo_start in
  stream c = Some 1%nat /\
  prop_ID <$> PendingForSession "sess-old" (onReadError 2000 1 c) = ["prop-aa"%string].
Proof. vm_compute. by split. Qed.

(** C27. A command completes when its marker arrives. Whenever a transaction is
    active outside a secret window, nothing in the new bytes looks like a boot
    banner or a secret prompt, and the output since the command was sent (at
    most 64 KiB of it, all still in the ring) contains the transaction's own
    marker, the read-loop turn that brings the last byte records a completed
    result with that exit code and exactly that output, and returns the
    session to READY. *)
Theorem command_completes now raw c a cap h n code :
  serving_reachable c -> act c = Some a ->
  Active (secretW c) = false -> rebootSuspect c = false ->
  pat_match (BootBannerPattern (loginCfg c)) (lineTail c ++ raw) = false ->
  secretPromptMatches (loginCfg c) (advance (lineTail c) raw) = false ->
  represents cap h (ring c) -> zlen (h ++ raw) < max_u64 ->
  startSeq a = Z.of_nat n ->
  (length (h ++ raw) - cap <= n <= length (h ++ raw))%nat ->
  zlen (h ++ raw) - Z.of_nat n <= 2 ^ 16 ->
  find (act_marker a) (drop n (h ++ raw)) = Some code ->
  let c' := readLoop_body now raw c in
  act c' = None /\ st c' = Ready /\
  exists r, Result (tx_ID (tx a)) c' = Ok r /\ res_Status r = StatusCompleted /\
    ExitCode r = Some code /\ Output r = drop n (h ++ raw) /\ OutputTruncatedStart r = false.
Proof.
  intros Hr Ha Hw Hsus Hboot Hsec Hring Hb Hseq Hn Hmax Hfind.
  pose proof (serving_live _ Hr) as Hl.
  pose proof (reachable_inv _ (serving_is_reachable _ Hr)) as [Hc _].
  assert (Hst : st c = RunningCommand).
  { unfold live_ok in Hl. rewrite Ha in Hl. destruct (st c); naive_solver. }
  cbv zeta. unfold readLoop_body. rewrite Hw. set (c0 := store_chunk false raw c).
  assert (Hring' : represents cap (h ++ raw) (ring c0)) by (by apply Append_represents).
  unfold onData. cbv zeta. set (c1 := advanceLineTailLocked raw _).
  change (loginCfg c1) with (loginCfg c).
  change (lineTail (set_promptGen _ c0)) with (lineTail c).
  change (lineTail c1) with (advance (lineTail c) raw).
  change (st c1) with (st c). rewrite Hboot. cbn [andb].
  change (rebootSuspect c1) with (rebootSuspect c). rewrite Hsus. cbn [andb].
  change (secretW c1) with (secretW c). rewrite Hw.
  change (lineTail c1) with (advance (lineTail c) raw). rewrite Hsec, Hst.
  assert (Hp : forall c2, same_core c2 (armPromptConfirmLocked now (loginCfg c) c2)).
  { intros c2. unfold armPromptConfirmLocked. by case_match. }
  destruct (Hp (handleMarkerLocked now c1)) as (Hp1 & Hp2 & Hp3).
  unfold Result. rewrite Hp1, Hp2, Hp3. clear Hp Hp1 Hp2 Hp3.
  unfold handleMarkerLocked. change (act c1) with (act c). rewrite Ha.
  change (ring c1) with (ring c0). rewrite Hseq.
  destruct (read_to_end _ _ _ n (2 ^ 16) Hring' Hb Hn Hmax) as [-> _]. rewrite Hfind. cbv zeta.
  set (c2 := set_rebootSuspect false c1).
  destruct (finish_result now StatusCompleted (Some code) c2 a Hc Ha) as (Hg & _).
  destruct (finish_frame now StatusCompleted (Some code) c2) as (_ & _ & _ & _ & Hse & _ & _ & _ & _ & Hact).
  set (c3 := finishActiveLocked _ _ _ c2) in *.
  split; [exact Hact|]. split.
  - rewrite st_event. unfold st at 1 2. rewrite Hse. change (state (sess c2)) with (st c). by rewrite Hst.
  - eexists. split; [exact Hg|].
    cbn [res_Status ExitCode Output OutputTruncatedStart]. change (ring c2) with (ring c0). rewrite Hseq.
    destruct (read_to_end _ _ _ n (2 ^ 20) Hring' Hb Hn ltac:(lia)) as [-> ->]. done.
Qed.

Definition demo_output : bytes :=
  to_bytes "PID" ++ ["010"%char] ++ to_bytes "GWMARK:txn-0011223344556677:0123456789abcdef0123456789abcdef:0"
  ++ ["010"%char].

Lemma command_completes_witness :
  act (readLoop_body 2000 demo_output demo_timeout) = None /\
  exists r, Result "txn-0011223344556677" (readLoop_body 2000 demo_output demo_timeout) = Ok r /\
    ExitCode r = Some 0.
Proof.
  destruct (command_completes 2000 demo_output demo_timeout _ 512 [] 0 0
     (runs_serving _ demo_command_runnable) ltac:(vm_compute; reflexivity)) as (H1 & _ & r & H2 & _ & H3 & _).
  - vm_compute; reflexivity.
  - vm_compute; reflexivity.
  - vm_compute; reflexivity.
  - vm_compute; reflexivity.
  - exact (NewRing_represents 512 demo_ring eq_refl).
  - vm_compute; reflexivity.
  - reflexivity.
  - vm_compute; lia.
  - vm_compute; discriminate.
  - vm_compute; reflexivity.
  - split; [exact H1|]. exists r. split; [exact H2|exact H3].
Defined.

(** A marker that comes late is never seen. Completion is searched for
    only in the first 64 KiB after the command was sent. Once that much output
    has arrived without the marker, no data that arrives while all of it is
    still in the ring, the marker included, completes the transaction: it can
    only time out. *)
Theorem late_marker_missed now c a cap h n data :
  act c = Some a -> startSeq a = Z.of_nat n ->
  represents cap h (ring c) -> zlen (h ++ data) < max_u64 ->
  zlen (h ++ data) <= Z.of_nat n + Z.of_nat cap ->
  Z.of_nat n + 2 ^ 16 <= zlen h ->
  find (act_marker a) (slice n (n + Z.to_nat (2 ^ 16)) h) = None ->
  handleMarkerLocked now (store_chunk false data c) = store_chunk false data c.
Proof.
  intros Ha Hseq Hring Hb Hcap Hlong Hfind. unfold handleMarkerLocked.
  change (act (store_chunk false data c)) with (act c). rewrite Ha. cbv zeta.
  change (ring (store_chunk false data c)) with (Append data (ring c)). rewrite Hseq.
  change (2 ^ 16) with (Z.of_nat (Z.to_nat (2 ^ 16))).
  rewrite (read_window cap (h ++ data)); [|by apply Append_represents|done|lia|rewrite length_app; lia].
  assert (slice n (n + Z.to_nat (2 ^ 16)) (h ++ data) = slice n (n + Z.to_nat (2 ^ 16)) h) as ->.
  { unfold slice. rewrite drop_app_le by lia. apply take_app_le. rewrite length_drop. lia. }
  by rewrite Hfind.
Qed.

Lemma act_set_ring r c : act (set_ring r c) = act c.
Proof. reflexivity. Qed.

(** A running command whose target has printed 70000 spaces. *)
Definition demo_flood : bytes := replicate (Z.to_nat 70000) " "%char.

Definition demo_flooded : Coordinator :=
  set_ring (Append demo_flood {| buf := replicate (Z.to_nat 75000) zero; total := 0 |}) demo_timeout.

Lemma late_marker_missed_witness :
  find (activeMarker demo_timeout) demo_output = Some 0 /\
  exists a, act demo_flooded = Some a /\
  handleMarkerLocked 9 (store_chunk false demo_output demo_flooded) =
  store_chunk false demo_output demo_flooded.
Proof.
  split; [vm_compute; reflexivity|].
  destruct (act demo_timeout) as [a|] eqn:Ha; [|vm_compute in Ha; discriminate].
  assert (startSeq a = 0 /\ activeMarker demo_timeout = act_marker a) as [Hseq Hm].
  { unfold activeMarker. rewrite Ha. split; [|reflexivity].
    vm_compute in Ha. injection Ha as <-. reflexivity. }
  exists a. unfold demo_flooded. rewrite act_set_ring. split; [exact Ha|].
  apply (late_marker_missed 9 _ a (Z.to_nat 75000) demo_flood 0 demo_output).
  - rewrite act_set_ring. exact Ha.
  - exact Hseq.
  - apply (Append_represents _ [] demo_flood);
      [exact (NewRing_represents 75000 _ eq_refl)|vm_compute; reflexivity].
  - vm_compute; reflexivity.
  - vm_compute; discriminate.
  - vm_compute; discriminate.
  - rewrite <- Hm. vm_compute; reflexivity.
Defined.

(** Ending a session can kill the next one. [EndSession] releases the lock
    while it waits for the reader and then applies SHUTDOWN to whatever
    session it finds. If a new session is started in between, that session is
    left DISCONNECTED with its transport still installed: it ignores all
    target output, cannot be confirmed, and a start is refused because a
    transport is active. *)
Theorem end_session_kills_next now1 now2 rnd done s s2 cfg op kind auth c :
  serving_reachable c -> stream c = Some s ->
  let c' := runs [LEndClose false; LReadError now1 s;
                  LStart now2 rnd done s2 cfg op kind auth; LEndFinish] c in
  reachable c' /\ stream c' = Some s2 /\ st c' = Disconnected /\ AIEnabled c' = false /\
  (forall now raw, st (onData now raw c') = Disconnected) /\
  fst (ConfirmSessionReady c') = c' /\
  (forall now rnd done s cfg op kind auth,
     start now rnd done s cfg op kind auth c' = (c', Some ErrTransportActive)).
Proof.
  intros Hr Hs. cbv zeta. unfold runs. cbn [foldl].
  set (c1 := exec (LEndClose false) c).
  assert (Hc1 : c1 = emit (EClose s) c).
  { unfold c1. simpl. unfold EndSession_close. by rewrite Hs. }
  assert (Hlive1 : live_ok c1) by (rewrite Hc1; by apply (serving_live c)).
  assert (Hs1 : stream c1 = Some s) by (by rewrite Hc1).
  set (c2 := exec (LReadError now1 s) c1).
  assert (Hlive2 : live_ok c2) by (by apply live_onReadError).
  assert (Hs2 : stream c2 = None).
  { unfold c2. simpl. unfold onReadError. rewrite bool_decide_false; [done|]. intros Hn. by apply Hn. }
  set (c3 := exec (LStart now2 rnd done s2 cfg op kind auth) c2).
  assert (Hlive3 : live_ok c3) by (by apply live_start).
  destruct (start_installs now2 rnd done s2 cfg op kind auth c2 Hs2) as [Hs3 Hsus].
  change (fst (start now2 rnd done s2 cfg op kind auth c2)) with c3 in Hs3, Hsus.
  set (c' := exec LEndFinish c3).
  assert (Hs' : stream c' = Some s2) by exact Hs3.
  assert (Hst : st c' = Disconnected).
  { unfold c'. simpl. unfold EndSession_finish. rewrite st_event. unfold live_ok in Hlive3.
    rewrite Hs3 in Hlive3. destruct (st c3); naive_solver. }
  split.
  { destruct (serving_is_reachable _ Hr) as (r & brd & rn & Hrun). exists r, brd, rn.
    eapply rtc_trans; [exact Hrun|].
    eapply rtc_l; [by apply (step_exec c (LEndClose false))|]. fold c1.
    eapply rtc_l; [by apply (step_exec c1 (LReadError now1 s))|]. fold c2.
    eapply rtc_l; [by apply (step_exec c2 (LStart now2 rnd done s2 cfg op kind auth))|]. fold c3.
    eapply rtc_l; [by apply (step_exec c3 LEndFinish)|apply rtc_refl]. }
  split; [exact Hs'|]. split; [exact Hst|].
  split. { unfold AIEnabled. rewrite Hst. by repeat case_match. }
  split. { intros. by apply onData_disconnected. }
  split. { unfold ConfirmSessionReady. rewrite Hst. done. }
  intros. unfold start. by rewrite Hs'.
Qed.

Lemma end_session_kills_next_witness :
  let c := runs demo_login demo_start in
  serving_reachable c /\ stream c = Some 1%nat /\
  st (runs [LEndClose false; LReadError 20 1; LStart 21 "02" 1 2 demo_cfg None "uart" false;
            LEndFinish] c) = Disconnected.
Proof.
  intros c. assert (H : serving_reachable c) by (apply runs_serving; vm_compute; intuition discriminate).
  assert (Hs : stream c = Some 1%nat) by (vm_compute; reflexivity).
  split; [exact H|]. split; [exact Hs|].
  exact (proj1 (proj2 (proj2 (end_session_kills_next 20 21 "02" 1 1 2 demo_cfg None "uart" false c H Hs)))).
Defined.

(** Approval does not look at the proposal's session. [Propose] takes the
    session identifier from the caller, and whenever a command may start, a
    pending proposal made for any other session is approved and written to
    the current session's target just the same; only [DiagnoseStart] compares
    the identifiers. *)
Theorem foreign_proposal_executes d pid p c :
  canStartLocked c = None -> write_fails d = false ->
  proposals (commands c) !! pid = Some p -> prop_State p = ProposalPending ->
  clock d <= ExpiresAt p -> prop_SessionID p <> SessionID c ->
  exists s t, stream c = Some s /\ snd (Approve d pid c) = (Some t, None) /\
    tx_SessionID t = prop_SessionID p /\ tx_Text t = prop_Text p /\
    trace (fst (Approve d pid c)) = trace c ++ [EWrite (ByTransaction (tx_ID t)) s
      (command_line t (newMarker (rnd_nonce d) (tx_ID t)))].
Proof.
  intros Hcan Hw Hp Hpend Hexp _. unfold Approve. rewrite Hcan.
  unfold Command.Approve. rewrite Hp, decide_False by (by intros []).
  rewrite (proj2 (Z.ltb_ge _ _)) by done.
  apply canStart_spec in Hcan as (Hs & _). destruct (stream c) as [s|] eqn:Es; [|done].
  set (t := {| tx_ID := _ |}). exists s, t.
  unfold startTransactionLocked. rewrite Hw. cbv zeta. simpl fst. simpl snd.
  unfold write_stream. set (c1 := apply_event _ _ _). change (stream c1) with (stream c). rewrite Es.
  done.
Qed.

Lemma foreign_proposal_executes_witness :
  let c := runs (demo_login ++ [LPropose demo_draws "sess-old" "reboot" "x" 1]) demo_start in
  SessionID c = "sess-01"%string /\
  exists s t, stream c = Some s /\ snd (Approve demo_draws "prop-aa" c) = (Some t, None) /\
    tx_SessionID t = "sess-old"%string.
Proof.
  intros c. split; [vm_compute; reflexivity|].
  destruct (foreign_proposal_executes demo_draws "prop-aa"
    {| prop_ID := "prop-aa"; prop_SessionID := "sess-old"; prop_Transport := "uart";
       prop_Board := "box"; prop_Text := "reboot"; prop_Purpose := "x"; prop_Timeout := 1;
       CreatedAt := 1000; ExpiresAt := 300000001000; prop_State := ProposalPending;
       ReplacesID := ""; Advisory := "" |} c) as (s & t & H1 & H2 & H3 & _).
  - vm_compute; reflexivity.
  - reflexivity.
  - vm_compute; reflexivity.
  - reflexivity.
  - vm_compute; discriminate.
  - vm_compute; discriminate.
  - exists s, t. split; [exact H1|]. split; [exact H2|exact H3].
Defined.
