(* ===== verification/Shell.v ===== *)
(** * Shell-line contract (src/internal/policy/shellparse.go, policy.go)

    [evaluateShellLine] and the policy that classifies literal argument
    vectors. The parser and the traversal come from a third-party package:
    [Parse] is a parameter, and so is [Walk] with its documented contract. Of
    the syntax tree the model keeps what the visitor looks at: the kind of
    each node with the fields it reads, and the children. *)

From S2P Require Import Prelude GoStd.

(** ** Decisions *)

Record Decision := { Allowed : bool; Rule : string; Reason : string }.

Abbreviation validator := (list string -> Decision).

Definition deny (rule reason : string) : Decision :=
  {| Allowed := false; Rule := rule; Reason := reason |}.

Definition allow (rule : string) : Decision :=
  {| Allowed := true; Rule := rule; Reason := "command is explicitly read-only" |}.

(** ** Syntax trees *)

Inductive WordPart :=
| Lit (value : string)
| SglQuoted (value : string)
| DblQuoted (parts : list WordPart)
| OtherPart.

Inductive RedirOperator := Hdoc | DashHdoc | OtherRedir.

Inductive BinCmdOperator := AndStmt | OrStmt | Pipe | PipeAll.

#[export] Instance BinCmdOperator_eq_dec : EqDecision BinCmdOperator.
Proof. solve_decision. Defined.

(** The dynamic type of a node, with the fields the visitor reads. *)
Inductive kind :=
| KFile (stmts : nat)
| KComment | KWord | KLit | KSglQuoted
| KStmt (negated background coprocess disown : bool) (redirs : nat)
| KRedirect (op : RedirOperator)
| KBinaryCmd (op : BinCmdOperator)
| KDblQuoted (parts : list WordPart)
| KCallExpr (assigns : nat) (args : list (list WordPart))
| KOther (type_name : string).

Inductive tree := Node (k : kind) (children : list tree).

Definition kind_of (t : tree) : kind := match t with Node k _ => k end.

(** The documented traversal: [f] is called on the node; if it returns true,
    on each child recursively and then on nil. *)
Fixpoint walk_documented {S : Type} (f : option tree -> S -> S * bool) (t : tree) (s : S) : S :=
  match t with
  | Node _ cs =>
      let '(s1, go) := f (Some t) s in
      if go then
        let fix children cs s :=
          match cs with
          | [] => s
          | c :: cs => children cs (walk_documented f c s)
          end in
        fst (f None (children cs s1))
      else s1
  end.

(** The third-party package. *)
Class ShellSyntax := {
  Parse : string -> result string tree;
  Walk : forall S : Type, (option tree -> S -> S * bool) -> tree -> S -> S;
  Walk_contract : forall S f t (s : S), Walk S f t s = walk_documented f t s
}.

(** ** The visitor *)

Definition is_lit (p : WordPart) : bool := match p with Lit _ => true | _ => false end.

Definition lit_value (p : WordPart) : option string :=
  match p with Lit v => Some v | _ => None end.

(** The loop over [part.Parts] of a double-quoted part. *)
Fixpoint quoted_value (ps : list WordPart) : option string :=
  match ps with
  | [] => Some ""%string
  | p :: ps => v ← lit_value p; rest ← quoted_value ps; Some (v +:+ rest)
  end.

Fixpoint word_value (ps : list WordPart) : option string :=
  match ps with
  | [] => Some ""%string
  | p :: ps =>
      v ← match p with
          | Lit v => Some v
          | SglQuoted v => Some v
          | DblQuoted qs => quoted_value qs
          | OtherPart => None
          end;
      rest ← word_value ps;
      Some (v +:+ rest)
  end.

Fixpoint literalArgv (words : list (list WordPart)) : option (list string) :=
  match words with
  | [] => Some []
  | w :: words => v ← word_value w; rest ← literalArgv words; Some (v :: rest)
  end.

Record walkOptions := { allowRedirection : bool; classify : validator }.

(** The variables the visitor's closure captures. *)
Record visitState := { decision : Decision; callCount : nat; fileRuleUsed : bool }.

Definition decide_as (d : Decision) (s : visitState) : visitState :=
  {| decision := d; callCount := callCount s; fileRuleUsed := fileRuleUsed s |}.

Definition unsupported (name : string) : Decision :=
  deny "syntax.unsupported" ("unsupported shell syntax " +:+ name).

(** The closure passed to [Walk]. *)
Definition visit (opts : walkOptions) (node : option tree) (s : visitState)
  : visitState * bool :=
  match node with
  | None => (s, false)
  | Some t =>
      if negb (Allowed (decision s)) then (s, false)
      else match kind_of t with
      | KFile _ | KComment | KWord | KLit | KSglQuoted => (s, true)
      | KStmt negated background coprocess disown redirs =>
          if negated || background || coprocess || disown then
            (decide_as (deny "syntax.statement"
               "negation, background, and coprocess syntax are not allowed") s, false)
          else if negb (allowRedirection opts) && negb (redirs =? 0)%nat then
            (decide_as (deny "syntax.statement"
               "redirection, background, negation, and coprocess syntax are not allowed") s, false)
          else (s, true)
      | KRedirect op =>
          if negb (allowRedirection opts) then (decide_as (unsupported "*syntax.Redirect") s, false)
          else match op with
               | Hdoc | DashHdoc =>
                   (decide_as (deny "syntax.heredoc" "here-document redirection is not allowed") s,
                    false)
               | OtherRedir => (s, true)
               end
      | KBinaryCmd op =>
          if negb (bool_decide (op = AndStmt)) && negb (bool_decide (op = OrStmt)) &&
             negb (bool_decide (op = Pipe)) then
            (decide_as (deny "syntax.operator" "only ;, &&, ||, and pipelines are allowed") s, false)
          else (s, true)
      | KDblQuoted parts =>
          if forallb is_lit parts then (s, true)
          else (decide_as (deny "syntax.expansion" "shell expansions are not allowed") s, false)
      | KCallExpr assigns args =>
          let s := {| decision := decision s; callCount := S (callCount s);
                      fileRuleUsed := fileRuleUsed s |} in
          if negb (assigns =? 0)%nat then
            (decide_as (deny "syntax.assignment" "shell assignments are not allowed") s, false)
          else match literalArgv args with
          | None =>
              (decide_as (deny "syntax.expansion" "command arguments must be literal") s, false)
          | Some argv =>
              let d := classify opts argv in
              let used := if Allowed d && String.eqb (Rule d) "file.allow" then true
                          else fileRuleUsed s in
              ({| decision := d; callCount := callCount s; fileRuleUsed := used |}, Allowed d)
          end
      | KOther name => (decide_as (unsupported name) s, false)
      end
  end.

Section Evaluate.

Context `{ShellSyntax}.

Definition evaluateShellLine (text : string) (opts : walkOptions) : Decision :=
  match Parse text with
  | Err e => deny "syntax.parse" e
  | Ok file =>
      if match kind_of file with KFile 0 => true | _ => false end
      then deny "syntax.empty" "empty shell input is not allowed"
      else
        let s := Walk _ (visit opts) file
                   {| decision := allow "common"; callCount := 0; fileRuleUsed := false |} in
        if Allowed (decision s) && (callCount s =? 0)%nat
        then deny "syntax.no-command" "input contains no command"
        else if Allowed (decision s) && fileRuleUsed s && negb (callCount s =? 1)%nat
        then deny "file.exact" "board policy rules must be used as a single exact command"
        else decision s
  end.

End Evaluate.

(** ** The allowlist policy *)

Record Policy := { commands : gmap string validator }.

Definition evaluateArgv `{GoQuote} (p : Policy) (argv : list string) : Decision :=
  match argv with
  | [] => deny "command.empty" "empty commands are not allowed"
  | name :: _ =>
      match commands p !! name with
      | None => deny "command.unknown" ("executable " +:+ Quote name +:+ " is not allowlisted")
      | Some validate => validate argv
      end
  end.

Definition Evaluate `{ShellSyntax, GoQuote} (p : Policy) (text : string) : Decision :=
  evaluateShellLine text {| allowRedirection := false; classify := evaluateArgv p |}.

(** ** Specification *)

(** The nodes of a tree in the order of the traversal. *)
Fixpoint preorder (t : tree) : list kind :=
  match t with Node k cs => k :: concat (map preorder cs) end.

(** The verdict on one node: a denial, or nothing. *)
Definition node_denial (opts : walkOptions) (k : kind) : option Decision :=
  match k with
  | KFile _ | KComment | KWord | KLit | KSglQuoted => None
  | KStmt negated background coprocess disown redirs =>
      if negated || background || coprocess || disown then
        Some (deny "syntax.statement" "negation, background, and coprocess syntax are not allowed")
      else if negb (allowRedirection opts) && negb (redirs =? 0)%nat then
        Some (deny "syntax.statement"
                "redirection, background, negation, and coprocess syntax are not allowed")
      else None
  | KRedirect op =>
      if negb (allowRedirection opts) then Some (unsupported "*syntax.Redirect")
      else match op with
           | OtherRedir => None
           | _ => Some (deny "syntax.heredoc" "here-document redirection is not allowed")
           end
  | KBinaryCmd op =>
      match op with
      | AndStmt | OrStmt | Pipe => None
      | PipeAll => Some (deny "syntax.operator" "only ;, &&, ||, and pipelines are allowed")
      end
  | KDblQuoted parts =>
      if forallb is_lit parts then None
      else Some (deny "syntax.expansion" "shell expansions are not allowed")
  | KCallExpr assigns args =>
      if negb (assigns =? 0)%nat
      then Some (deny "syntax.assignment" "shell assignments are not allowed")
      else match literalArgv args with
           | None => Some (deny "syntax.expansion" "command arguments must be literal")
           | Some argv => if Allowed (classify opts argv) then None else Some (classify opts argv)
           end
  | KOther name => Some (unsupported name)
  end.

(** The classification of the simple commands, in order. *)
Definition call_verdicts (opts : walkOptions) (ks : list kind) : list Decision :=
  omap (fun k => match k with
                 | KCallExpr _ args => classify opts <$> literalArgv args
                 | _ => None
                 end) ks.

Definition uses_file_rule (d : Decision) : bool := String.eqb (Rule d) "file.allow".

(** The contract of a shell line whose tree has the nodes [ks]: the first
    node that is denied decides; otherwise there must be a command, and a
    board-file rule must be the only one; the verdict is the last one. *)
Definition line_contract (opts : walkOptions) (ks : list kind) : Decision :=
  match omap (node_denial opts) ks with
  | d :: _ => d
  | [] =>
      let ds := call_verdicts opts ks in
      match last ds with
      | None => deny "syntax.no-command" "input contains no command"
      | Some d =>
          if existsb uses_file_rule ds && negb (length ds =? 1)%nat
          then deny "file.exact" "board policy rules must be used as a single exact command"
          else d
      end
  end.

(** ** Lemmas *)

(** One node seen by the traversal. *)
Definition visit_kind (opts : walkOptions) (s : visitState) (k : kind) : visitState :=
  if negb (Allowed (decision s)) then s else fst (visit opts (Some (Node k [])) s).

Lemma visit_children opts k cs s : visit opts (Some (Node k cs)) s = visit opts (Some (Node k [])) s.
Proof. done. Qed.

Lemma visit_go opts k s :
  snd (visit opts (Some (Node k [])) s) =
  Allowed (decision (visit_kind opts s k)).
Proof.
  unfold visit_kind, visit. destruct (Allowed (decision s)) eqn:Ha; simpl negb; cbv iota; [|done].
  cbn [kind_of]. destruct k; simpl; repeat case_match; simplify_eq/=; try done.
Qed.

Lemma visit_stopped opts ks s :
  Allowed (decision s) = false -> foldl (visit_kind opts) s ks = s.
Proof.
  intros Hs. induction ks as [|k ks IH]; [done|]. simpl. unfold visit_kind at 2. by rewrite Hs.
Qed.

(** Induction on trees through the lists of children. *)
Lemma tree_ind' (P : tree -> Prop) :
  (forall k cs, Forall P cs -> P (Node k cs)) -> forall t, P t.
Proof.
  intros Hstep. fix IH 1. intros [k cs]. apply Hstep.
  induction cs as [|c cs IHcs]; constructor; [apply IH|exact IHcs].
Qed.

(** The traversal visits the nodes in preorder until one is denied. *)
Lemma walk_fold opts t s :
  walk_documented (visit opts) t s = foldl (visit_kind opts) s (preorder t).
Proof.
  revert s. induction t as [k cs IH] using tree_ind'. intros s.
  cbn [walk_documented preorder foldl]. rewrite visit_children.
  destruct (visit opts (Some (Node k [])) s) as [s1 go] eqn:E.
  pose proof (visit_go opts k s) as Hgo. rewrite E in Hgo. cbn [snd] in Hgo.
  assert (Hs1 : visit_kind opts s k = s1).
  { unfold visit_kind. rewrite E. destruct (Allowed (decision s)) eqn:Ha; [done|].
    unfold visit in E. rewrite Ha in E. by injection E as <- _. }
  rewrite Hs1 in Hgo |- *. subst go.
  destruct (Allowed (decision s1)) eqn:Ha; [|by rewrite visit_stopped].
  cbn [fst visit]. clear E Hs1 Ha. revert s1. induction IH as [|c cs Hc _ IHcs]; intros s1; [done|].
  rewrite Hc, IHcs. cbn [map concat]. by rewrite foldl_app.
Qed.

(** What one allowed node does to the state. *)
Lemma visit_kind_allowed opts s k :
  Allowed (decision s) = true ->
  match node_denial opts k with
  | Some d => decision (visit_kind opts s k) = d /\ Allowed d = false
  | None =>
      visit_kind opts s k =
      match call_verdicts opts [k] with
      | [d] => {| decision := d; callCount := S (callCount s);
                  fileRuleUsed := uses_file_rule d || fileRuleUsed s |}
      | _ => s
      end /\ forall d, d ∈ call_verdicts opts [k] -> Allowed d = true
  end.
Proof.
  intros Ha. unfold visit_kind, visit, uses_file_rule. rewrite Ha. cbn [negb kind_of].
  destruct k as [| | | | |neg bg cop dis r|op|op|parts|assigns args|name]; cbn [node_denial];
    try (split; [done|intros d Hd; by apply elem_of_nil in Hd]).
  - destruct (neg || bg || cop || dis); [done|].
    destruct (negb _ && _); [done|]. split; [done|]. intros d Hd. by apply elem_of_nil in Hd.
  - destruct (negb _); [done|]. destruct op; try done. split; [done|].
    intros d Hd. by apply elem_of_nil in Hd.
  - destruct op; try done; (split; [done|intros d Hd; by apply elem_of_nil in Hd]).
  - destruct (forallb is_lit parts); [|done]. split; [done|]. intros d Hd. by apply elem_of_nil in Hd.
  - destruct (negb _); [done|]. simpl. destruct (literalArgv args) as [argv|]; [|done]. simpl.
    destruct (Allowed (classify opts argv)) eqn:Hc; simpl; [|done].
    split; [by destruct (String.eqb _ _)|]. intros d Hd.
    by apply list_elem_of_singleton in Hd as ->.
  - done.
Qed.

Lemma call_verdicts_cons opts k ks :
  call_verdicts opts (k :: ks) = call_verdicts opts [k] ++ call_verdicts opts ks.
Proof. apply (omap_app _ [k] ks). Qed.

(** The traversal of allowed nodes counts the commands and keeps the last
    verdict. *)
Lemma fold_visit opts ks s :
  Allowed (decision s) = true ->
  let s' := foldl (visit_kind opts) s ks in
  match omap (node_denial opts) ks with
  | d :: _ => decision s' = d /\ Allowed d = false
  | [] =>
      let ds := call_verdicts opts ks in
      decision s' = default (decision s) (last ds) /\ Allowed (decision s') = true /\
      callCount s' = (callCount s + length ds)%nat /\
      fileRuleUsed s' = existsb uses_file_rule ds || fileRuleUsed s
  end.
Proof.
  revert s. induction ks as [|k ks IH]; intros s Ha; [by cbn; rewrite Nat.add_0_r|].
  cbn [foldl omap list_omap]. pose proof (visit_kind_allowed opts s k Ha) as Hk.
  destruct (node_denial opts k) as [d|] eqn:Hd.
  - destruct Hk as [Hk Hna]. cbv zeta. cbn. rewrite visit_stopped; rewrite Hk; done.
  - destruct Hk as [-> Hall]. cbv zeta. rewrite (call_verdicts_cons opts k ks).
    assert (Hone : call_verdicts opts [k] = [] \/ exists d, call_verdicts opts [k] = [d]).
    { unfold call_verdicts. destruct k; cbn; try (by left).
      destruct (literalArgv args); cbn; eauto. }
    destruct Hone as [Hone|[d Hone]]; rewrite Hone in Hall |- *.
    + exact (IH s Ha).
    + assert (Hd' : Allowed d = true) by (apply Hall; by apply list_elem_of_singleton).
      set (s1 := {| decision := d |}). specialize (IH s1 Hd'). cbv zeta in IH |- *.
      destruct (omap (node_denial opts) ks) as [|d' ds']; [|exact IH].
      destruct IH as (H1 & H2 & H3 & H4). rewrite H1 in H2 |- *. rewrite H3, H4.
      rewrite last_app. cbn [last app existsb length callCount s1 decision fileRuleUsed] in *.
      split; [by destruct (last (call_verdicts opts ks))|]. split; [exact H2|].
      split; [lia|]. by destruct (uses_file_rule d), (existsb _ _), (fileRuleUsed s).
Qed.

(** ** Properties *)

(** C4. [evaluateShellLine] decides on the syntax tree alone, and exactly so.
    Whatever the tree the parser returns, the decision is the verdict of the
    first node, in traversal order, that is denied: a statement that is negated, in the
    background, disowned or a coprocess, a redirection where none is allowed
    or a here-document, an operator other than ;, &&, || and |, an expansion,
    an assignment, an argument that is not literal, an unsupported construct,
    or a command the policy denies. If no node is denied there must be a
    command, and a command allowed by a board-file rule must be the only one.
    The comment above walkOptions (shellparse.go:9) also promises exactly one
    physical line and no NUL. This function does not check that
    ([multiline_allowed]); [ValidateManaged] does, when the command is
    recorded (System.v, [multiline_refused]). *)
Theorem evaluate_contract `{ShellSyntax} text opts :
  evaluateShellLine text opts =
  match Parse text with
  | Err e => deny "syntax.parse" e
  | Ok file =>
      match kind_of file with
      | KFile 0 => deny "syntax.empty" "empty shell input is not allowed"
      | _ => line_contract opts (preorder file)
      end
  end.
Proof.
  unfold evaluateShellLine. destruct (Parse text) as [file|e]; [|done].
  assert (Hmain : forall s, s = Walk _ (visit opts) file
            {| decision := allow "common"; callCount := 0; fileRuleUsed := false |} ->
    (if Allowed (decision s) && (callCount s =? 0)%nat
     then deny "syntax.no-command" "input contains no command"
     else if Allowed (decision s) && fileRuleUsed s && negb (callCount s =? 1)%nat
     then deny "file.exact" "board policy rules must be used as a single exact command"
     else decision s) = line_contract opts (preorder file)).
  { intros s ->. rewrite Walk_contract, walk_fold. unfold line_contract.
    set (s0 := {| decision := allow "common" |}).
    pose proof (fold_visit opts (preorder file) s0 eq_refl) as Hf. cbv zeta in Hf |- *.
    set (s' := foldl _ s0 _) in *.
    destruct (omap (node_denial opts) (preorder file)) as [|d ds].
    - destruct Hf as (H1 & H2 & H3 & H4). rewrite H2, H3, H4, H1. cbn [andb callCount s0 fileRuleUsed].
      rewrite orb_false_r. destruct (call_verdicts opts (preorder file)) as [|d ds]; [done|].
      destruct (last (d :: ds)) as [d'|] eqn:El; [done|].
      by apply last_None in El.
    - destruct Hf as [-> ->]. done. }
  destruct (kind_of file) as [[|n]| | | | | | | | | |]; try done; by apply Hmain.
Qed.

(** ** A small parser for the witnesses *)

(** One simple command of plain words, with at most one input redirection. *)
Definition demo_word (w : string) : tree := Node KWord [Node KLit []].

Definition demo_tree (args : list string) (redirs : list string) : tree :=
  Node (KFile 1)
    [Node (KStmt false false false false (length redirs))
       (Node (KCallExpr 0 ((fun a => [Lit a]) <$> args)) (demo_word <$> args) ::
        ((fun w => Node (KRedirect OtherRedir) [demo_word w]) <$> redirs))].

Definition demo_parse (text : string) : result string tree :=
  match Split text "<" with
  | [cmd] => Ok (demo_tree (Fields cmd) [])
  | [cmd; target] => Ok (demo_tree (Fields cmd) (Fields target))
  | _ => Err "unsupported"%string
  end.

Definition demo_shell : ShellSyntax :=
  {| Parse := demo_parse; Walk := @walk_documented; Walk_contract := fun _ _ _ _ => eq_refl |}.

Lemma evaluate_contract_witness :
  @evaluateShellLine demo_shell "ps -ef"
    {| allowRedirection := false; classify := fun argv => allow "demo" |} = allow "demo".
Proof. rewrite (@evaluate_contract demo_shell). reflexivity. Defined.

(** A parser for which, as in the shell, a newline ends a command. *)
Definition demo_lines_parse (text : string) : result string tree :=
  let lines := Split text "010"%char in
  Ok (Node (KFile (length lines))
        ((fun line => let words := Fields line in
            Node (KStmt false false false false 0)
              [Node (KCallExpr 0 ((fun a => [Lit a]) <$> words)) (demo_word <$> words)]) <$> lines)).

Definition demo_lines_shell : ShellSyntax :=
  {| Parse := demo_lines_parse; Walk := @walk_documented; Walk_contract := fun _ _ _ _ => eq_refl |}.

(** Two physical lines are one allowed input, although the comment of
    walkOptions says that a shell line is exactly one. *)
Lemma multiline_allowed :
  @evaluateShellLine demo_lines_shell ("ps" +:+ String "010" "uptime")
    {| allowRedirection := false; classify := fun argv => allow "demo" |} = allow "demo".
Proof. vm_compute. reflexivity. Qed.
