(* ===== verification/Common.v ===== *)
(** * Common allowlist (src/internal/policy/common.go)

    The validators of the read-only commands, the path rules, and the policy
    that maps each executable to its validator. A validator receives the whole
    argument vector; an index loop over it is a recursion on what remains. *)

From S2P Require Import Prelude GoStd Shell.

(** ** Helpers *)

Fixpoint contains (values : list string) (value : string) : bool :=
  match values with
  | [] => false
  | candidate :: values => if String.eqb candidate value then true else contains values value
  end.

(** Ranging over runes: a byte outside ASCII belongs to a rune that is not a
    digit. *)
Definition isDecimal (value : string) : bool :=
  negb (String.eqb value "") && forallb is_digit (to_bytes value).

Definition isCount (value : string) : bool :=
  isDecimal (TrimPrefix (TrimPrefix value "+") "-").

Definition procFacts : list string :=
  ["/proc/cpuinfo"; "/proc/meminfo"; "/proc/uptime"; "/proc/loadavg"; "/proc/version";
   "/proc/filesystems"; "/proc/mounts"]%string.

(** ** Paths *)

Definition unsafePseudoFilesystemPath (relative : string) : string :=
  match Split relative "/" with
  | [] => ""
  | first :: _ =>
      if String.eqb first "proc" then
        if contains ["proc/cpuinfo"; "proc/meminfo"; "proc/uptime"; "proc/loadavg";
                     "proc/version"; "proc/filesystems"; "proc/mounts"]%string relative
        then "" else "procfs reads are limited to explicitly allowlisted global diagnostics"
      else if String.eqb first "sys" then "sysfs reads are not allowlisted"
      else if String.eqb first "dev" then "device-node reads are not allowed"
      else ""
  end.

(** [for strings.HasPrefix(relative, "../") { ... }]. Each turn removes three
    bytes, so the length is fuel enough. *)
Fixpoint strip_dotdot (fuel : nat) (relative : string) : string :=
  match fuel with
  | O => relative
  | S fuel =>
      if HasPrefix relative "../" then strip_dotdot fuel (TrimPrefix relative "../") else relative
  end.

Section Paths.

Context `{UnicodeLower}.

Definition unsafePath (name : string) : string :=
  let clean := Clean name in
  let lower := ToLower clean in
  let relative := strip_dotdot (String.length lower) lower in
  let relative := TrimPrefix (TrimPrefix relative "./") "/" in
  let reason := unsafePseudoFilesystemPath relative in
  if negb (String.eqb reason "") then reason
  else if contains ["etc/shadow"; "etc/gshadow"; "etc/passwd-"; "etc/shadow-"]%string relative
  then "password database reads are not allowed"
  else
    let base := Base lower in
    if (Contains ("/" +:+ relative) "/.ssh/" &&
        ((HasPrefix base "id_" && negb (HasSuffix base ".pub")) ||
         String.eqb base "authorized_keys")) ||
       (HasPrefix base "ssh_host_" && HasSuffix base "_key")
    then "SSH key material reads are not allowed"
    else if Contains lower "ai-debug-gateway" || Contains lower "/gatewayd/"
    then "gateway state reads are not allowed"
    else "".

Fixpoint validatePaths (command : string) (paths : list string) : Decision :=
  match paths with
  | [] => allow ("command." +:+ command)
  | name :: paths =>
      if HasPrefix name "-" then deny ("command." +:+ command) "unknown option is not allowed"
      else
        let reason := unsafePath name in
        if negb (String.eqb reason "") then deny "path.sensitive" reason
        else validatePaths command paths
  end.

(** ** Validator factories *)

Definition withInformationOptions (command : string) (validate : validator) : validator :=
  fun argv =>
    match argv with
    | [_; arg] =>
        if String.eqb arg "--help" || String.eqb arg "--version"
        then allow ("command." +:+ command +:+ ".information") else validate argv
    | _ => validate argv
    end.

Definition exactOptions (command : string) (options : list string) : validator :=
  fun argv =>
    if forallb (contains options) (tail argv) then allow ("command." +:+ command)
    else deny ("command." +:+ command) "unknown option or positional operand is not allowed".

Definition exactOptionsWithOperands (command : string) (options : list string) : validator :=
  fun argv =>
    if existsb (fun arg => HasPrefix arg "-" && negb (contains options arg)) (tail argv)
    then deny ("command." +:+ command) "unknown option is not allowed"
    else allow ("command." +:+ command).

(** The loop of [exactPathOptions]. *)
Fixpoint exact_path_loop (command : string) (options : list string) (endOptions : bool)
    (args : list string) : Decision :=
  match args with
  | [] => allow ("command." +:+ command)
  | arg :: args =>
      if String.eqb arg "--" && negb endOptions then exact_path_loop command options true args
      else if negb endOptions && HasPrefix arg "-" then
        if negb (contains options arg)
        then deny ("command." +:+ command) "unknown option is not allowed"
        else exact_path_loop command options endOptions args
      else
        let reason := unsafePath arg in
        if negb (String.eqb reason "") then deny "path.sensitive" reason
        else exact_path_loop command options endOptions args
  end.

Definition exactPathOptions (command : string) (options : list string) : validator :=
  fun argv => exact_path_loop command options false (tail argv).

(** The loop of [exactContentPathOptions]: the denial, or [seenPath]. *)
Fixpoint content_loop (endOptions seenPath : bool) (args : list string) : option bool :=
  match args with
  | [] => Some seenPath
  | arg :: args =>
      if String.eqb arg "--" && negb endOptions then content_loop true seenPath args
      else if negb endOptions && HasPrefix arg "-" then content_loop endOptions seenPath args
      else if negb (contains procFacts (Clean arg)) then None
      else content_loop endOptions true args
  end.

Definition exactContentPathOptions (command : string) (options : list string) : validator :=
  fun argv =>
    let d := exactPathOptions command options argv in
    if negb (Allowed d) then d
    else match content_loop false false (tail argv) with
         | None => deny "path.content"
                     "target file content is limited to exact kernel-defined proc facts"
         | Some seenPath =>
             if negb seenPath && String.eqb command "cat"
             then deny "command.cat" "cat requires an allowed proc fact path"
             else allow ("command." +:+ command)
         end.

(** ** Validators *)

Definition printenvCommand : validator :=
  fun argv =>
    let allowed := ["PATH"; "LANG"; "LC_ALL"; "TERM"; "SHELL"; "USER"; "LOGNAME"; "HOSTNAME";
                    "TZ"]%string in
    if (length argv <? 2)%nat
    then deny "command.printenv" "dumping the complete environment is not allowed"
    else if forallb (contains allowed) (tail argv) then allow "command.printenv"
    else deny "command.printenv" "environment name is not on the safe allowlist".

Fixpoint head_tail_loop (command : string) (args : list string) : Decision :=
  match args with
  | [] => allow ("command." +:+ command)
  | arg :: rest =>
      if String.eqb arg "--" then validatePaths command rest
      else if contains ["-q"; "--quiet"; "-v"; "--verbose"]%string arg
      then head_tail_loop command rest
      else if contains ["-n"; "--lines"; "-c"; "--bytes"]%string arg then
        match rest with
        | [] => deny ("command." +:+ command) "count option requires a numeric value"
        | value :: rest' =>
            if negb (isCount value)
            then deny ("command." +:+ command) "count option requires a numeric value"
            else head_tail_loop command rest'
        end
      else if (HasPrefix arg "-n" || HasPrefix arg "-c") && (2 <? String.length arg)%nat &&
              isCount (of_bytes (drop 2 (to_bytes arg)))
      then head_tail_loop command rest
      else if HasPrefix arg "-" then deny ("command." +:+ command) "unknown option is not allowed"
      else exactContentPathOptions command [] (command :: args)
  end.

Definition headTailCommand (command : string) : validator :=
  fun argv => head_tail_loop command (tail argv).

Fixpoint stat_loop (args : list string) : Decision :=
  match args with
  | [] => deny "command.stat" "a path operand is required"
  | arg :: rest =>
      if contains ["-L"; "--dereference"; "-f"; "--file-system"; "-t"; "--terse"]%string arg
      then stat_loop rest
      else if contains ["-c"; "--format"; "--printf"]%string arg then
        match rest with
        | [] => deny "command.stat" "format option requires a value"
        | _ :: rest' => stat_loop rest'
        end
      else if HasPrefix arg "-" then deny "command.stat" "unknown option is not allowed"
      else validatePaths "stat" args
  end.

Definition statCommand : validator := fun argv => stat_loop (tail argv).

Fixpoint du_loop (args : list string) : Decision :=
  match args with
  | [] => allow "command.du"
  | arg :: rest =>
      if contains ["-a"; "-h"; "-s"; "-k"; "-m"; "-x"; "-L"; "-P"; "-sh"; "-hs"]%string arg
      then du_loop rest
      else if contains ["-d"; "--max-depth"]%string arg then
        match rest with
        | [] => deny "command.du" "max depth requires a decimal value"
        | value :: rest' =>
            if negb (isDecimal value) then deny "command.du" "max depth requires a decimal value"
            else du_loop rest'
        end
      else if HasPrefix arg "--max-depth=" && isDecimal (TrimPrefix arg "--max-depth=")
      then du_loop rest
      else if HasPrefix arg "-" then deny "command.du" "unknown option is not allowed"
      else validatePaths "du" args
  end.

Definition duCommand : validator := fun argv => du_loop (tail argv).

(** The bytes [program[:len(program)-1]] allowed in a print program; a byte
    outside ASCII belongs to a rune that is not allowed. *)
Definition sed_byte (c : ascii) : bool :=
  is_digit c || existsb (Ascii.eqb c) [","%char; "$"%char; " "%char; "009"%char].

Definition safeSedPrintProgram (program : string) : bool :=
  match rev (to_bytes program) with
  | [] => false
  | c :: init =>
      if negb (Ascii.eqb c "p") then false
      else forallb sed_byte (to_bytes (TrimSpace (of_bytes (rev init))))
  end.

Definition sedCommand : validator :=
  fun argv =>
    match argv with
    | _ :: opt :: program :: rest =>
        if negb (String.eqb opt "-n") then deny "command.sed" "only sed -n is allowed"
        else if negb (safeSedPrintProgram program)
        then deny "command.sed" "only numeric-address print programs are allowed"
        else exactContentPathOptions "sed" [] ("sed"%string :: rest)
    | _ => deny "command.sed" "only sed -n is allowed"
    end.

Definition trCommand : validator :=
  fun argv =>
    if (length argv <? 2)%nat || (3 <? length argv)%nat
    then deny "command.tr" "tr requires one or two literal character sets"
    else allow "command.tr".

Definition topCommand : validator :=
  fun argv =>
    if negb (forallb (fun arg => String.eqb arg "-b" || String.eqb arg "-n" || isDecimal arg)
               (tail argv))
    then deny "command.top" "top must use batch-mode options only"
    else if negb (contains (tail argv) "-b")
    then deny "command.top" "interactive top is not allowed"
    else allow "command.top".

Definition routeCommand : validator :=
  fun argv =>
    match argv with
    | [_] => allow "command.route"
    | [_; arg] => if String.eqb arg "-n" then allow "command.route"
                  else deny "command.route" "only route -n is allowed"
    | _ => deny "command.route" "only route -n is allowed"
    end.

(** The option loop of [ipCommand]: the remaining arguments, or a denial. *)
Fixpoint ip_options (args : list string) : option (list string) :=
  match args with
  | [] => Some []
  | arg :: rest =>
      if HasPrefix arg "-" then
        if contains ["-brief"; "-details"; "-statistics"; "-json"; "-oneline"; "-4"; "-6"]%string arg
        then ip_options rest else None
      else Some args
  end.

Definition ipCommand : validator :=
  fun argv =>
    match ip_options (tail argv) with
    | None => deny "command.ip" "unknown ip option is not allowed"
    | Some [] => deny "command.ip" "an ip object is required"
    | Some (object :: rest) =>
        if negb (contains ["address"; "addr"; "link"; "route"; "rule"; "neighbour"; "neighbor";
                           "netns"; "maddress"; "tunnel"]%string object)
        then deny "command.ip" "ip object is not read-only"
        else match rest with
             | verb :: _ =>
                 if negb (contains ["show"; "list"; "get"]%string verb)
                 then deny "command.ip" "only ip show, list, and get forms are allowed"
                 else allow "command.ip"
             | [] => allow "command.ip"
             end
    end.

Definition ethtoolCommand : validator :=
  fun argv =>
    match argv with
    | _ :: arg :: rest =>
        if negb (HasPrefix arg "-") then
          match rest with
          | [] => allow "command.ethtool"
          | _ => deny "command.ethtool" "extra ethtool operands are not allowed"
          end
        else if negb (contains
              ["-i"; "--driver"; "-k"; "--show-features"; "-g"; "--show-ring"; "-c";
               "--show-coalesce"; "-a"; "--show-pause"; "-S"; "--statistics"; "-T";
               "--show-time-stamping"; "-P"; "--show-permaddr"; "-l"; "--show-channels"; "-m";
               "--dump-module-eeprom"; "-e"; "--eeprom-dump"; "-d"; "--register-dump"]%string arg) ||
              negb (length argv =? 3)%nat
        then deny "command.ethtool" "only explicit read-only ethtool queries are allowed"
        else allow "command.ethtool"
    | _ => deny "command.ethtool" "an interface or read-only query is required"
    end.

Definition mountCommand : validator :=
  fun argv =>
    match argv with
    | [_] => allow "command.mount"
    | [_; arg] => if contains ["-l"; "--show-labels"]%string arg then allow "command.mount"
                  else deny "command.mount" "only listing mounted filesystems is allowed"
    | _ => deny "command.mount" "only listing mounted filesystems is allowed"
    end.

Definition dmesgCommand : validator :=
  fun argv =>
    if forallb (contains ["-H"; "--human"; "-T"; "--ctime"; "-t"; "--notime"; "-x"; "--decode";
                          "-r"; "--raw"; "-k"; "--kernel"; "-u"; "--userspace"]%string) (tail argv)
    then allow "command.dmesg"
    else deny "command.dmesg" "unknown or state-changing dmesg options are not allowed".

Definition hostnameCommand : validator :=
  fun argv =>
    match argv with
    | [_] => allow "command.hostname"
    | [_; arg] =>
        if contains ["-s"; "--short"; "-f"; "--fqdn"; "-d"; "--domain"; "-i"; "--ip-address"; "-a";
                     "--alias"]%string arg
        then allow "command.hostname"
        else deny "command.hostname" "setting the hostname is not allowed"
    | _ => deny "command.hostname" "setting the hostname is not allowed"
    end.

Definition dateCommand : validator :=
  fun argv =>
    if forallb (fun arg => HasPrefix arg "+" ||
                  contains ["-u"; "--utc"; "--universal"; "-R"; "--rfc-2822"; "-I";
                            "--iso-8601"]%string arg ||
                  HasPrefix arg "--iso-8601=") (tail argv)
    then allow "command.date"
    else deny "command.date" "date setters and unknown date forms are not allowed".

(** The three loops of [findCommand]. *)
Fixpoint find_globals (args : list string) : list string :=
  match args with
  | arg :: rest => if contains ["-H"; "-L"; "-P"]%string arg then find_globals rest else args
  | [] => []
  end.

(** The starting points: a denial, or the expression that remains. *)
Fixpoint find_paths (args : list string) : Decision + list string :=
  match args with
  | arg :: rest =>
      if negb (HasPrefix arg "-") && negb (String.eqb arg "!") && negb (String.eqb arg "(") &&
         negb (String.eqb arg ")") then
        let reason := unsafePath arg in
        if negb (String.eqb reason "") then inl (deny "path.sensitive" reason) else find_paths rest
      else inr args
  | [] => inr []
  end.

Definition find_plain : list string :=
  ["!"; "("; ")"; "-not"; "-a"; "-and"; "-o"; "-or"; "-print"; "-print0"; "-ls"; "-prune"; "-quit";
   "-empty"; "-readable"; "-xdev"; "-mount"]%string.

Definition find_tests : list string :=
  ["-name"; "-iname"; "-path"; "-ipath"; "-type"; "-user"; "-group"; "-size"; "-mtime"; "-mmin";
   "-maxdepth"; "-mindepth"; "-links"; "-inum"; "-perm"]%string.

Fixpoint find_expr (args : list string) : Decision :=
  match args with
  | [] => allow "command.find"
  | arg :: rest =>
      if contains find_plain arg then find_expr rest
      else if contains find_tests arg then
        match rest with
        | [] => deny "command.find" "find test requires exactly one operand"
        | _ :: rest' => find_expr rest'
        end
      else deny "command.find" "unknown find option, predicate, or action is not allowed"
  end.

Definition findCommand : validator :=
  fun argv =>
    match find_paths (find_globals (tail argv)) with
    | inl d => d
    | inr args => find_expr args
    end.

Definition literalOutput (command : string) : validator :=
  fun _ => allow ("command." +:+ command).

(** The loop of the "type" lookup; [i] is the index in argv[1:]. *)
Fixpoint type_loop (first : bool) (args : list string) : bool :=
  match args with
  | [] => true
  | arg :: rest =>
      if HasPrefix arg "-" && (negb first || negb (contains ["-a"; "-f"; "-p"; "-P"; "-t"]%string arg))
      then false else type_loop false rest
  end.

Definition lookupCommand (command : string) : validator :=
  fun argv =>
    if String.eqb command "command" then
      if (length argv <? 3)%nat ||
         negb (match argv with _ :: arg :: _ => String.eqb arg "-v" | _ => false end)
      then deny "command.command" "only command -v lookups are allowed"
      else allow "command.command"
    else if (length argv <? 2)%nat
    then deny ("command." +:+ command) "only executable lookup is allowed"
    else if type_loop true (tail argv) then allow ("command." +:+ command)
    else deny "command.type" "unknown type option is not allowed".

(** ** The policy *)

Definition common_table : list (string * validator) :=
  [("ps", exactOptions "ps" ["-A"; "-a"; "-e"; "-f"; "-l"; "-T"; "-w"; "-x"; "-ef"]);
   ("free", exactOptions "free" ["-b"; "-k"; "-m"; "-g"; "-h"; "-w"; "-t"]);
   ("uptime", exactOptions "uptime" ["-p"; "--pretty"; "-s"; "--since"; "-V"; "--version"]);
   ("df", exactPathOptions "df" ["-a"; "-h"; "-H"; "-i"; "-k"; "-l"; "-P"; "-T"]);
   ("findmnt", exactOptions "findmnt"
      ["-a"; "--all"; "-l"; "--list"; "-r"; "--raw"; "-n"; "--noheadings"]);
   ("ss", exactOptions "ss" ["-a"; "-l"; "-n"; "-t"; "-u"; "-x"; "-4"; "-6"; "-s"]);
   ("netstat", exactOptions "netstat" ["-a"; "-l"; "-n"; "-r"; "-s"; "-t"; "-u"; "-x"; "-w"]);
   ("logread", exactOptions "logread" ["-r"]);
   ("uname", exactOptions "uname" ["-a"; "-s"; "-n"; "-r"; "-v"; "-m"; "-p"; "-i"; "-o"]);
   ("id", exactOptionsWithOperands "id" ["-a"; "-g"; "-G"; "-n"; "-r"; "-u"; "-Z"]);
   ("groups", exactOptionsWithOperands "groups" []);
   ("whoami", exactOptions "whoami" []);
   ("pwd", exactOptions "pwd" ["-L"; "-P"]);
   ("printenv", printenvCommand);
   ("which", exactOptionsWithOperands "which" ["-a"]);
   ("mount", mountCommand);
   ("dmesg", dmesgCommand);
   ("cat", exactContentPathOptions "cat"
      ["-A"; "-b"; "-e"; "-E"; "-n"; "-s"; "-t"; "-T"; "-u"; "-v"]);
   ("head", headTailCommand "head");
   ("tail", headTailCommand "tail");
   ("wc", exactContentPathOptions "wc"
      ["-c"; "--bytes"; "-l"; "--lines"; "-m"; "--chars"; "-w"; "--words"; "-L";
       "--max-line-length"]);
   ("ls", exactPathOptions "ls"
      ["-a"; "-A"; "-d"; "-F"; "-h"; "-i"; "-l"; "-la"; "-al"; "-lh"; "-hl"; "-lah"; "-alh"; "-n";
       "-r"; "-R"; "-s"; "-t"; "-u"]);
   ("stat", statCommand);
   ("du", duCommand);
   ("sed", sedCommand);
   ("tr", trCommand);
   ("top", topCommand);
   ("route", routeCommand);
   ("ip", ipCommand);
   ("ethtool", ethtoolCommand);
   ("hostname", hostnameCommand);
   ("date", dateCommand);
   ("find", findCommand);
   ("echo", literalOutput "echo");
   ("printf", literalOutput "printf");
   ("command", lookupCommand "command");
   ("type", lookupCommand "type")]%string.

Definition Common : Policy :=
  {| commands := map_imap (fun name validate => Some (withInformationOptions name validate))
                   (list_to_map common_table : gmap string validator) |}.

End Paths.

(** ** Specification *)

(** The operands of an argument list: what is not an option, and everything
    after "--". *)
Fixpoint operands (endOptions : bool) (args : list string) : list string :=
  match args with
  | [] => []
  | arg :: args =>
      if String.eqb arg "--" && negb endOptions then operands true args
      else if negb endOptions && HasPrefix arg "-" then operands endOptions args
      else arg :: operands endOptions args
  end.

(** The options before "--". *)
Fixpoint options (endOptions : bool) (args : list string) : list string :=
  match args with
  | [] => []
  | arg :: args =>
      if String.eqb arg "--" && negb endOptions then options true args
      else if negb endOptions && HasPrefix arg "-" then arg :: options endOptions args
      else options endOptions args
  end.

(** The options of [cat] and [wc] that change only how the content is shown or
    counted: none takes a file name. *)
Definition content_options (name : string) : list string :=
  if String.eqb name "cat" then ["-A"; "-b"; "-e"; "-E"; "-n"; "-s"; "-t"; "-T"; "-u"; "-v"]%string
  else ["-c"; "--bytes"; "-l"; "--lines"; "-m"; "--chars"; "-w"; "--words"; "-L"; "--max-line-length"]%string.

(** The files that say facts of the kernel and nothing else. *)
Definition kernel_facts : list string :=
  ["/proc/cpuinfo"; "/proc/meminfo"; "/proc/uptime"; "/proc/loadavg"; "/proc/version"; "/proc/filesystems";
   "/proc/mounts"]%string.

(** An argument [findCommand] takes as a starting point. *)
Definition starting_point (arg : string) : bool :=
  negb (HasPrefix arg "-") && negb (String.eqb arg "!") && negb (String.eqb arg "(") &&
  negb (String.eqb arg ")").

(** The expressions [findCommand] accepts. *)
Inductive find_grammar : list string -> Prop :=
| fg_nil : find_grammar []
| fg_plain a rest : a ∈ find_plain -> find_grammar rest -> find_grammar (a :: rest)
| fg_test a x rest : a ∈ find_tests -> find_grammar rest -> find_grammar (a :: x :: rest).

(** ** Lemmas *)

Section Lemmas.

Context `{UnicodeLower}.

Lemma contains_spec values value : contains values value = true <-> value ∈ values.
Proof.
  induction values as [|v values IH]; simpl; [split; [done|by intros ?%elem_of_nil]|].
  rewrite elem_of_cons. destruct (String.eqb_spec v value) as [->|Hne]; [by split; [left|]|].
  rewrite IH. naive_solver.
Qed.

Lemma exact_path_allowed command opts e args :
  Allowed (exact_path_loop command opts e args) = true <->
  Forall (fun o => o ∈ opts) (options e args) /\ Forall (fun p => unsafePath p = ""%string) (operands e args).
Proof.
  revert e. induction args as [|arg args IH]; intros e; cbn [exact_path_loop options operands].
  { split; [|done]. intros _. split; constructor. }
  destruct (String.eqb arg "--" && negb e); [apply IH|].
  destruct (negb e && HasPrefix arg "-").
  - rewrite Forall_cons. destruct (contains opts arg) eqn:E; simpl.
    + apply contains_spec in E. rewrite IH. naive_solver.
    + split; [done|]. intros [[Hin _] _]. apply contains_spec in Hin. congruence.
  - rewrite Forall_cons. cbv zeta. destruct (String.eqb_spec (unsafePath arg) "") as [E|E]; simpl.
    + rewrite IH. naive_solver.
    + split; [done|]. naive_solver.
Qed.

Lemma content_loop_spec e seen args :
  content_loop e seen args =
  if forallb (fun p => contains procFacts (Clean p)) (operands e args)
  then Some (seen || negb (length (operands e args) =? 0)%nat) else None.
Proof.
  revert e seen. induction args as [|arg args IH]; intros e seen; cbn [content_loop operands].
  { simpl. by rewrite orb_false_r. }
  destruct (String.eqb arg "--" && negb e); [apply IH|].
  destruct (negb e && HasPrefix arg "-"); [apply IH|].
  cbn [forallb length]. destruct (contains procFacts (Clean arg)); cbn [negb andb]; [|done].
  rewrite IH. destruct (forallb _ _); [|done]. by rewrite orb_true_r.
Qed.

Lemma content_allowed command opts argv :
  Allowed (exactContentPathOptions command opts argv) = true <->
  Forall (fun o => o ∈ opts) (options false (tail argv)) /\
  Forall (fun p => Clean p ∈ procFacts /\ unsafePath p = ""%string) (operands false (tail argv)) /\
  (command = "cat"%string -> operands false (tail argv) <> []).
Proof.
  unfold exactContentPathOptions, exactPathOptions.
  pose proof (exact_path_allowed command opts false (tail argv)) as Hp.
  destruct (Allowed (exact_path_loop command opts false (tail argv))) eqn:E; cbv zeta; cbn [negb].
  - destruct (proj1 Hp eq_refl) as [Ho Hu]. rewrite content_loop_spec, Forall_and.
    destruct (forallb _ _) eqn:Hf.
    + assert (Hc : Forall (fun p => Clean p ∈ procFacts) (operands false (tail argv))).
      { apply Forall_forall. intros p Hp'. apply contains_spec.
        rewrite forallb_forall in Hf. apply Hf. by apply list_elem_of_In. }
      simpl. destruct (operands false (tail argv)) as [|x l]; simpl.
      * destruct (String.eqb_spec command "cat"); simpl; naive_solver.
      * naive_solver.
    + simpl. split; [done|]. intros (_ & [Hc _] & _).
      assert (Hf' : forallb (fun p => contains procFacts (Clean p)) (operands false (tail argv)) = true).
      { apply forallb_forall. intros p Hp'. apply list_elem_of_In in Hp'. apply contains_spec.
        by eapply (proj1 (Forall_forall _ _) Hc). }
      congruence.
  - split; [congruence|]. intros (Ho & Hc & _).
    assert (false = true); [|done]. apply Hp. split; [done|].
    eapply Forall_impl; [exact Hc|]. naive_solver.
Qed.

Lemma validatePaths_allowed command paths :
  Allowed (validatePaths command paths) = true <->
  Forall (fun p => HasPrefix p "-" = false /\ unsafePath p = ""%string) paths.
Proof.
  induction paths as [|p paths IH]; cbn [validatePaths]; [by split; [constructor|]|].
  rewrite Forall_cons. destruct (HasPrefix p "-") eqn:E; [naive_solver|]. cbv zeta.
  destruct (String.eqb_spec (unsafePath p) "") as [Eu|Eu]; simpl; rewrite ?IH; naive_solver.
Qed.

Lemma find_expr_allowed args : Allowed (find_expr args) = true <-> find_grammar args.
Proof.
  split.
  - remember (length args) as n eqn:Hn. revert args Hn.
    induction n as [n IH] using lt_wf_ind. intros args -> Ha.
    destruct args as [|a rest]; [constructor|]. cbn [find_expr] in Ha.
    destruct (contains find_plain a) eqn:E1.
    { apply fg_plain; [by apply contains_spec|]. eapply IH; [|done|done]. simpl. lia. }
    destruct (contains find_tests a) eqn:E2; [|done]. destruct rest as [|x rest]; [done|].
    apply fg_test; [by apply contains_spec|]. eapply IH; [|done|done]. simpl. lia.
  - induction 1 as [|a rest Ha _ IH|a x rest Ha _ IH]; [done| |]; cbn [find_expr].
    + apply contains_spec in Ha. by rewrite Ha.
    + assert (contains find_plain a = false) as ->.
      { assert (Hd : forallb (fun t => negb (contains find_plain t)) find_tests = true)
          by (vm_compute; reflexivity).
        rewrite forallb_forall in Hd. apply negb_true_iff, Hd. by apply list_elem_of_In. }
      apply contains_spec in Ha. by rewrite Ha.
Qed.

Lemma common_names : NoDup common_table.*1.
Proof. apply (proj1 (bool_decide_eq_true (NoDup common_table.*1))). vm_compute. reflexivity. Qed.

Lemma common_lookup name validate :
  (name, validate) ∈ common_table ->
  commands Common !! name = Some (withInformationOptions name validate).
Proof.
  intros Hin. unfold Common. cbn [commands].
  pose proof (elem_of_list_to_map_1 (M := gmap string) _ _ _ common_names Hin) as Hl.
  revert Hl. generalize (list_to_map common_table : gmap string validator).
  intros m Hl. by rewrite map_lookup_imap, Hl.
Qed.

Lemma information_allowed name validate argv :
  Allowed (withInformationOptions name validate argv) = true <->
  (exists a0 a1, argv = [a0; a1] /\ (a1 = "--help" \/ a1 = "--version")%string) \/
  Allowed (validate argv) = true.
Proof.
  unfold withInformationOptions. destruct argv as [|a0 [|a1 [|a2 l]]];
    try (split; [by right|intros [(x & y & ? & _)|?]; [done|done]]).
  destruct (String.eqb_spec a1 "--help") as [->|H1]; [naive_solver|].
  destruct (String.eqb_spec a1 "--version") as [->|H2]; naive_solver.
Qed.

Lemma find_grammar_head a l : find_grammar (a :: l) -> starting_point a = false.
Proof.
  intros Hg. assert (Hin : a ∈ find_plain ++ find_tests) by (rewrite elem_of_app; inversion Hg; auto).
  assert (Hd : forallb (fun t => negb (starting_point t)) (find_plain ++ find_tests) = true)
    by (vm_compute; reflexivity).
  rewrite forallb_forall in Hd. apply negb_true_iff, Hd. by apply list_elem_of_In.
Qed.

(** [head] or [tail] on an operand. *)
Lemma head_tail_operand command p rest :
  HasPrefix p "-" = false ->
  head_tail_loop command (p :: rest) = exactContentPathOptions command [] (command :: p :: rest).
Proof.
  intros Hd. cbn [head_tail_loop].
  assert (Hne : forall o, HasPrefix o "-" = true -> String.eqb p o = false).
  { intros o Ho. apply String.eqb_neq. congruence. }
  assert (Hnc : forall os, forallb (fun o => HasPrefix o "-") os = true -> contains os p = false).
  { intros os Hos. apply not_true_iff_false. rewrite contains_spec. intros Hin.
    rewrite forallb_forall in Hos. rewrite Hos in Hd; [done|]. by apply list_elem_of_In. }
  rewrite Hne, !Hnc, Hd by done.
  assert (HasPrefix p "-n" = false /\ HasPrefix p "-c" = false) as [-> ->]; [|done].
  destruct p as [|c p]; [done|]. unfold HasPrefix in *. cbn [String.prefix] in *.
  destruct (ascii_dec "-" c); [by destruct p|done].
Qed.

End Lemmas.

(** Lower-casing for the witnesses, whose text is ASCII. *)
Definition demo_lower : UnicodeLower := fun s => s.

(** Printing of unusual runes, which the witnesses do not have. *)
Definition demo_quote : GoQuote := fun s => s.

Section Rooted.

Context `{UnicodeLower}.

Lemma prefix_refl_app a b : String.prefix a (a +:+ b) = true.
Proof. induction a as [|c a IH]; simpl; [by destruct b|]. by destruct (ascii_dec c c). Qed.

Lemma strip_dotdot_slash fuel s : strip_dotdot fuel ("/" +:+ s) = "/" +:+ s.
Proof. by destruct fuel. Qed.

Lemma trim_slash s : TrimPrefix (TrimPrefix ("/" +:+ s) "./") "/" = s.
Proof.
  unfold TrimPrefix at 2. change (HasPrefix ("/" +:+ s) "./") with false. cbv iota.
  unfold TrimPrefix, HasPrefix. rewrite prefix_refl_app. apply of_to_bytes.
Qed.

Lemma split_first s t : "/"%char ∉ to_bytes s -> (t = ""%string \/ exists t', t = "/" +:+ t') ->
  exists ws, Split (s +:+ t) "/" = s :: ws.
Proof.
  intros Hs Ht. unfold Split. rewrite to_bytes_app. destruct Ht as [->|[t' ->]].
  - rewrite app_nil_r, split_on_no_sep by done. exists []. cbn. by rewrite of_to_bytes.
  - cbn [to_bytes String.append]. change (to_bytes ("/" +:+ t')) with ("/"%char :: to_bytes t').
    rewrite split_on_app by done. eexists. cbn. by rewrite of_to_bytes.
Qed.

End Rooted.

(** Find an entry in the table. *)
Ltac in_table := unfold common_table; repeat first [apply list_elem_of_here | apply list_elem_of_further].

(** ** Properties *)

(** C34. File contents are limited to kernel facts. [cat] and [wc] are allowed,
    beyond the two information forms, exactly when every option is one of the
    ten that only change how the content is shown or counted, and every
    operand, after cleaning, is one of the seven files of kernel facts under
    /proc (and [cat] has at least one); no option names a file, and nothing
    else on the target can be read with them, however the path is spelled. *)
Theorem content_reads_limited `{UnicodeLower, GoQuote} name argv :
  name = "cat"%string \/ name = "wc"%string ->
  Allowed (evaluateArgv Common (name :: argv)) = true <->
  (argv = ["--help"%string] \/ argv = ["--version"%string]) \/
  (Forall (fun o => o ∈ content_options name) (options false argv) /\
   Forall (fun p => Clean p ∈ kernel_facts /\ unsafePath p = ""%string) (operands false argv) /\
   (name = "cat"%string -> operands false argv <> [])).
Proof.
  intros Hname.
  assert (Hl : (name, exactContentPathOptions name (content_options name)) ∈ common_table).
  { destruct Hname as [-> | ->]; in_table. }
  unfold evaluateArgv. rewrite (common_lookup _ _ Hl).
  rewrite information_allowed, content_allowed. cbn [tail]. naive_solver.
Qed.

Lemma content_reads_limited_witness :
  Allowed (evaluateArgv (H := demo_quote) (@Common demo_lower)
             ["wc"; "-l"; "--"; "/proc/./net/../uptime"]%string) = true /\
  Allowed (evaluateArgv (H := demo_quote) (@Common demo_lower) ["wc"; "--files0-from=/etc/shadow"]%string) <> true.
Proof.
  split.
  - apply (proj2 (content_reads_limited (H := demo_lower) (H0 := demo_quote) "wc"
              ["-l"; "--"; "/proc/./net/../uptime"]%string (or_intror eq_refl))).
    right. split; [|split; [|discriminate]].
    + constructor; [|constructor]. apply contains_spec. vm_compute; reflexivity.
    + constructor; [|constructor]. split; [|reflexivity]. apply contains_spec. vm_compute; reflexivity.
  - rewrite (content_reads_limited (H := demo_lower) (H0 := demo_quote) "wc"
      ["--files0-from=/etc/shadow"]%string (or_intror eq_refl)).
    intros [[H|H]|(H & _)]; [discriminate H|discriminate H|].
    apply Forall_cons in H as [H _]. apply contains_spec in H. vm_compute in H. discriminate H.
Defined.

(** Spelling a path differently does not help. A path and its cleaned form
    get the same verdict from [unsafePath], and cleaning is idempotent: extra
    slashes, "." and ".." elements never hide a sensitive path. Every path
    that cleans to something under /sys or /dev, in any letter case, or to the
    shadow password database is refused. *)
Theorem unsafePath_spelling `{UnicodeLower} p :
  unsafePath (Clean p) = unsafePath p /\
  (forall first t, first = "sys"%string \/ first = "dev"%string ->
     t = ""%string \/ (exists t', t = "/" +:+ t') ->
     ToLower (Clean p) = "/" +:+ first +:+ t -> unsafePath p <> ""%string) /\
  (ToLower (Clean p) = "/etc/shadow"%string -> unsafePath p <> ""%string).
Proof.
  split; [|split].
  - unfold unsafePath. by rewrite Clean_Clean.
  - intros first t Hf Ht Hl. unfold unsafePath. rewrite Hl. cbv zeta.
    rewrite strip_dotdot_slash, trim_slash. unfold unsafePseudoFilesystemPath.
    destruct (split_first first t) as [ws ->];
      [destruct Hf as [-> | ->]; cbn; rewrite !not_elem_of_cons; repeat split; try done;
       apply not_elem_of_nil|done|].
    by destruct Hf as [-> | ->].
  - intros Hl. unfold unsafePath. rewrite Hl. vm_compute. discriminate.
Qed.

Lemma unsafePath_spelling_witness :
  @unsafePath demo_lower "//dev/./x/..//MEM" <> ""%string.
Proof.
  refine (proj1 (proj2 (@unsafePath_spelling demo_lower "//dev/./x/..//MEM")) "dev"%string "/mem"%string _ _ _).
  - right. reflexivity.
  - right. exists "mem"%string. reflexivity.
  - reflexivity.
Defined.

(** [find] can only search. It is allowed exactly when, after the link
    options, every starting point is a path that is not sensitive and the rest
    is a sequence of the listed operators, actions that print or stop, and
    tests with one operand each: no action that executes, deletes or writes. *)
Theorem find_only_searches `{UnicodeLower} args :
  Allowed (findCommand ("find"%string :: args)) = true <->
  exists paths expr,
    find_globals args = paths ++ expr /\
    Forall (fun p => unsafePath p = ""%string /\ starting_point p = true) paths /\
    find_grammar expr.
Proof.
  unfold findCommand. cbn [tail]. generalize (find_globals args) as l. intros l.
  induction l as [|a l IH]; cbn [find_paths].
  - rewrite find_expr_allowed. split.
    + intros _. exists [], []. by repeat constructor.
    + intros ([|? ?] & [|? ?] & Heq & _ & Hg); done.
  - fold (starting_point a). destruct (starting_point a) eqn:E.
    + cbv zeta. destruct (String.eqb_spec (unsafePath a) "") as [Hu|Hu]; cbn [negb].
      * rewrite IH. split.
        -- intros (paths & expr & -> & Hp & He). exists (a :: paths), expr. by repeat constructor.
        -- intros ([|p paths] & expr & Heq & Hp & He); simpl in Heq.
           { subst. by apply find_grammar_head in He; rewrite E in He. }
           injection Heq as -> ->. inversion Hp; subst. by exists paths, expr.
      * split; [done|]. intros ([|p paths] & expr & Heq & Hp & He); simpl in Heq.
        { subst. by apply find_grammar_head in He; rewrite E in He. }
        injection Heq as -> ->. inversion Hp; subst. naive_solver.
    + rewrite find_expr_allowed. split.
      * intros Hg. exists [], (a :: l). split; [done|]. split; [constructor|done].
      * intros ([|p paths] & expr & Heq & Hp & He); simpl in Heq; [by subst|].
        injection Heq as -> ->. inversion Hp as [|? ? [_ Hnd] _]; subst. congruence.
Qed.

(** The end-of-options form of [head] and [tail] skips the content limit:
    "head -- p" is allowed for every path that is not on the sensitive list,
    while "head p" is denied unless the path is one of the kernel facts. *)
Theorem head_dashdash_bypass `{UnicodeLower, GoQuote} name p :
  name = "head"%string \/ name = "tail"%string ->
  HasPrefix p "-" = false -> unsafePath p = ""%string -> Clean p ∉ procFacts ->
  Allowed (evaluateArgv Common [name; "--"; p]%string) = true /\
  Allowed (evaluateArgv Common [name; p]) = false.
Proof.
  intros Hname Hd Hu Hc. unfold evaluateArgv.
  assert ((name, headTailCommand name) ∈ common_table) as Hl by (destruct Hname as [-> | ->]; in_table).
  rewrite (common_lookup _ _ Hl). split.
  - apply information_allowed. right. unfold headTailCommand. cbn [tail head_tail_loop].
    rewrite String.eqb_refl. apply validatePaths_allowed. by repeat constructor.
  - apply not_true_iff_false. rewrite information_allowed. intros [(a & b & Heq & Hb)|Ha].
    + injection Heq as -> ->. by destruct Hb as [-> | ->].
    + revert Ha. unfold headTailCommand. cbn [tail]. rewrite head_tail_operand by done.
      rewrite content_allowed. intros (_ & Hf & _). revert Hf. cbn [tail operands].
      rewrite Hd, andb_false_r. destruct (String.eqb_spec p "--") as [->|_]; [done|]. cbn [andb].
      intros Hf. inversion Hf as [|? ? [Hin _] _]; subst. done.
Qed.

Lemma head_dashdash_bypass_witness :
  Allowed (evaluateArgv (H := demo_quote) (@Common demo_lower) ["head"; "--"; "/etc/passwd"]%string) = true /\
  Allowed (evaluateArgv (H := demo_quote) (@Common demo_lower) ["head"; "/etc/passwd"]%string) = false.
Proof.
  refine (head_dashdash_bypass (H := demo_lower) (H0 := demo_quote) "head" "/etc/passwd"
            (or_introl eq_refl) _ _ _).
  - reflexivity.
  - vm_compute; reflexivity.
  - rewrite <- contains_spec. vm_compute. discriminate.
Defined.

(** The path rules read the text, not the file name the shell will use. A
    wildcard or a backslash in an unquoted argument reaches the validators as
    it is, so names the shell turns into the password database, a device node,
    a private key or a sysfs path pass the path rules, while the same names
    written plainly are denied. *)
Theorem shell_spelling_bypass `{UnicodeLower, GoQuote} :
  Forall (fun p => unsafePath p = ""%string /\ Allowed (evaluateArgv Common ["ls"; p]%string) = true /\
                   Allowed (evaluateArgv Common ["head"; "--"; p]%string) = true)
    ["/etc/shado?"; "/d\ev/mem"; "/root/.ssh/i?_rsa"; "/sy[s]/class"]%string /\
  Forall (fun p => Allowed (evaluateArgv Common ["ls"; p]%string) = false)
    ["/etc/shadow"; "/dev/mem"; "/root/.ssh/id_rsa"; "/sys/class"]%string.
Proof.
  split; repeat (constructor; [repeat split; vm_compute; reflexivity|]); constructor.
Qed.
