(* ===== verification/PolicyFile.v ===== *)
(** * Board policy files (src/internal/policy/file.go)

    Exact rules over argument vectors, their JSON keys, rule validation, and
    [LoadFile], which narrows or extends a base policy. What the operating
    system and the JSON decoder return for a file is the record [file_input]. *)

From S2P Require Import Prelude GoStd Json JsonStrings JsonTexts Shell.

(** ** Keys of argument vectors *)

(** The elements of a JSON array after the first. *)
Fixpoint json_rest (args : list string) : bytes :=
  match args with
  | [] => ["]"%char]
  | a :: args => ","%char :: json_string a ++ json_rest args
  end.

(** [argvKey] of a slice that is not nil. *)
Definition argvKey (args : list string) : string :=
  of_bytes (match args with
            | [] => to_bytes "[]"
            | a :: args => "["%char :: json_string a ++ json_rest args
            end).

(** ** Rules *)

Record ArgvRule := { Executable : string; Args : list string }.

Record File := { Allow : list ArgvRule; Deny : list ArgvRule }.

Record argvRuleWire := { wire_Executable : string; wire_Args : option (list string) }.

Record fileWire := { wire_Allow : list argvRuleWire; wire_Deny : list argvRuleWire }.

Inductive PolicyFileError :=
| ErrNilBase | ErrStat | ErrNotRegular | ErrPermissions (perm : Z) | ErrOpenFile
| ErrInvalidJSON | ErrMultipleValues | ErrArgsNotArray | ErrEmptyExecutable
| ErrNotBasename (name : string) | ErrNULArgument | ErrForbiddenExecutable (name : string)
| ErrContradictory (name : string) | ErrRiskNotAccepted.

Abbreviation exact_rules := (gmap string (gset string)).

Definition addExactRule (rules : exact_rules) (rule : ArgvRule) : exact_rules :=
  <[Executable rule := {[argvKey (Args rule)]} ∪ default ∅ (rules !! Executable rule)]> rules.

(** [set[executable][key]]; a missing set has no members. *)
Definition has_rule (rules : exact_rules) (executable key : string) : bool :=
  match rules !! executable with Some set => bool_decide (key ∈ set) | None => false end.

Fixpoint convert (entries : list argvRuleWire) : result PolicyFileError (list ArgvRule) :=
  match entries with
  | [] => Ok []
  | entry :: entries =>
      match wire_Args entry with
      | None => Err ErrArgsNotArray
      | Some args =>
          match convert entries with
          | Ok rest => Ok ({| Executable := wire_Executable entry; Args := args |} :: rest)
          | Err e => Err e
          end
      end
  end.

Definition materializeRules (wire : fileWire) : result PolicyFileError File :=
  match convert (wire_Allow wire) with
  | Err e => Err e
  | Ok allow =>
      match convert (wire_Deny wire) with
      | Err e => Err e
      | Ok deny => Ok {| Allow := allow; Deny := deny |}
      end
  end.

Definition metacharacters : string :=
  "*?[]{};&|<>$`\/" +:+ of_bytes [ascii_of_nat 34] +:+ "'".

Section Files.

Context `{UnicodeLower, GoQuote}.

Definition forbiddenExecutable (name : string) : bool :=
  existsb (String.eqb (ToLower name))
    ["sh"; "bash"; "dash"; "ash"; "zsh"; "ksh"; "fish"; "python"; "python3"; "perl"; "ruby"; "lua";
     "node"; "rm"; "mv"; "cp"; "install"; "dd"; "tee"; "touch"; "mkdir"; "rmdir"; "chmod"; "chown";
     "chgrp"; "ln"; "kill"; "killall"; "pkill"; "reboot"; "poweroff"; "halt"; "shutdown"; "mount";
     "umount"; "systemctl"; "service"; "modprobe"; "insmod"; "rmmod"; "sysctl"; "ip"; "ifconfig";
     "route"; "ethtool"; "apt"; "apt-get"; "dpkg"; "rpm"; "yum"; "dnf"; "opkg"; "apk"; "sed"; "awk";
     "find"; "xargs"]%string.

(** [None] is the nil error. *)
Definition validateRule (rule : ArgvRule) (allowing : bool) : option PolicyFileError :=
  let name := Executable rule in
  if String.eqb name "" then Some ErrEmptyExecutable
  else if ContainsAny name metacharacters || has_space name then Some (ErrNotBasename name)
  else if existsb (fun arg => HasByte arg zero) (Args rule) then Some ErrNULArgument
  else if allowing && forbiddenExecutable name then Some (ErrForbiddenExecutable name)
  else None.

(** The closure [wrapExactRules] installs. *)
Definition exact_validator (base : option validator) (executable : string)
    (allowed denied : exact_rules) : validator :=
  fun argv =>
    let key := argvKey (tail argv) in
    if has_rule denied executable key
    then deny "file.deny" "command is explicitly denied by the board policy"
    else match base with
         | Some baseValidate => baseValidate argv
         | None =>
             if has_rule allowed executable key then allow "file.allow"
             else deny "command.unknown" ("executable " +:+ Quote executable +:+ " is not allowlisted")
         end.

Definition wrapExactRules (result : Policy) (executable : string) (allowed denied : exact_rules)
  : Policy :=
  {| commands := <[executable := exact_validator (commands result !! executable) executable
                                   allowed denied]> (commands result) |}.

(** The loop over the deny rules. *)
Fixpoint load_denied (rules : list ArgvRule) (denied : exact_rules)
  : result PolicyFileError exact_rules :=
  match rules with
  | [] => Ok denied
  | rule :: rules =>
      match validateRule rule false with
      | Some e => Err e
      | None => load_denied rules (addExactRule denied rule)
      end
  end.

(** The loop over the allow rules. *)
Fixpoint load_allowed (rules : list ArgvRule) (denied allowed : exact_rules)
  : result PolicyFileError exact_rules :=
  match rules with
  | [] => Ok allowed
  | rule :: rules =>
      match validateRule rule true with
      | Some e => Err e
      | None =>
          if has_rule denied (Executable rule) (argvKey (Args rule))
          then Err (ErrContradictory (Executable rule))
          else load_allowed rules denied (addExactRule allowed rule)
      end
  end.

(** The two loops that build the result, in some order of the keys. *)
Definition apply_rules (base : Policy) (allowed denied : exact_rules) : Policy :=
  let p := foldl (fun p e => wrapExactRules p e allowed denied) base (elements (dom denied)) in
  foldl (fun p e => if decide (e ∈ dom denied) then p else wrapExactRules p e allowed ∅)
    p (elements (dom allowed)).

(** What [os.Stat], [os.Open] and the decoder return. *)
Record file_input (W : Type) := {
  stat : option (bool * Z);
  opens : bool;
  decoded : option W;
  trailing : option bool
}.
Arguments stat {W} _.
Arguments opens {W} _.
Arguments decoded {W} _.
Arguments trailing {W} _.

(** [trailing] is [None] at the end of the input, otherwise whether what
    follows is another JSON value. *)
Definition ensureJSONEOF (t : option bool) : option PolicyFileError :=
  match t with
  | None => None
  | Some true => Some ErrMultipleValues
  | Some false => Some ErrInvalidJSON
  end.

(** The checks both loaders make before they look at the rules. *)
Definition read_wire {W} (f : file_input W) : result PolicyFileError W :=
  match stat f with
  | None => Err ErrStat
  | Some (regular, perm) =>
      if negb regular then Err ErrNotRegular
      else if negb (perm =? 384) then Err (ErrPermissions perm)
      else if negb (opens f) then Err ErrOpenFile
      else match decoded f with
           | None => Err ErrInvalidJSON
           | Some wire =>
               match ensureJSONEOF (trailing f) with
               | Some e => Err e
               | None => Ok wire
               end
           end
  end.

Definition LoadFile (f : file_input fileWire) (base : option Policy)
  : result PolicyFileError Policy :=
  match base with
  | None => Err ErrNilBase
  | Some base =>
      match read_wire f with
      | Err e => Err e
      | Ok wire =>
          match materializeRules wire with
          | Err e => Err e
          | Ok rules =>
              match load_denied (Deny rules) ∅ with
              | Err e => Err e
              | Ok denied =>
                  match load_allowed (Allow rules) denied ∅ with
                  | Err e => Err e
                  | Ok allowed => Ok (apply_rules base allowed denied)
                  end
              end
          end
      end
  end.

End Files.

Arguments stat {W} _.
Arguments opens {W} _.
Arguments decoded {W} _.
Arguments trailing {W} _.

(** ** Specification *)

(** Some rule names this executable with arguments of this key. *)
Definition listed (rules : list ArgvRule) (executable : string) (args : list string) : Prop :=
  exists r, r ∈ rules /\ Executable r = executable /\ argvKey (Args r) = argvKey args.

(** ** Lemmas *)

(** *** Keys *)

Lemma json_rest_inj l1 l2 :
  Forall (fun a => is_ascii a = true) l1 -> Forall (fun a => is_ascii a = true) l2 ->
  json_rest l1 = json_rest l2 -> l1 = l2.
Proof.
  intros H1. revert l2. induction H1 as [|a l1 Ha _ IH]; intros l2 H2 H; destruct H2 as [|b l2 Hb H2];
    try done. apply (f_equal tail) in H. cbn [json_rest tail] in H.
  apply json_string_inj in H as [-> H]; [|done|done]. f_equal. by apply IH.
Qed.

Lemma argvKey_inj l1 l2 :
  Forall (fun a => is_ascii a = true) l1 -> Forall (fun a => is_ascii a = true) l2 ->
  argvKey l1 = argvKey l2 -> l1 = l2.
Proof.
  intros H1 H2 H. apply (f_equal to_bytes) in H. unfold argvKey in H. rewrite !to_of_bytes in H.
  destruct H1 as [|a l1 Ha H1], H2 as [|b l2 Hb H2]; try done. apply (f_equal tail) in H. cbn [tail] in H.
  apply json_string_inj in H as [-> H]; [|done|done]. f_equal. by apply json_rest_inj.
Qed.

(** *** Rule sets *)

Lemma has_rule_add rules rule e k :
  has_rule (addExactRule rules rule) e k = true <->
  (Executable rule = e /\ argvKey (Args rule) = k) \/ has_rule rules e k = true.
Proof.
  unfold has_rule, addExactRule. destruct (decide (Executable rule = e)) as [<-|Hne].
  - rewrite lookup_insert_eq, bool_decide_eq_true, elem_of_union, elem_of_singleton.
    destruct (rules !! Executable rule); simpl; rewrite ?bool_decide_eq_true; set_solver.
  - rewrite lookup_insert_ne by done. naive_solver.
Qed.

Lemma has_rule_empty e k : has_rule ∅ e k = false.
Proof. unfold has_rule. by rewrite lookup_empty. Qed.

Lemma has_rule_dom rules e k : has_rule rules e k = true -> e ∈ dom rules.
Proof. unfold has_rule. intros H. case_match; [|done]. by eapply elem_of_dom_2. Qed.

Section Loading.

Context `{UnicodeLower, GoQuote}.

Lemma load_denied_spec rules d0 d :
  load_denied rules d0 = Ok d ->
  (forall r, r ∈ rules -> validateRule r false = None) /\
  forall e k, has_rule d e k = true <->
    (exists r, r ∈ rules /\ Executable r = e /\ argvKey (Args r) = k) \/ has_rule d0 e k = true.
Proof.
  revert d0. induction rules as [|r rules IH]; intros d0 Hl; cbn [load_denied] in Hl.
  - injection Hl as <-. split; [by intros r ?%elem_of_nil|]. set_solver.
  - destruct (validateRule r false) eqn:Hv; [done|]. destruct (IH _ Hl) as [Hall Hd].
    split; [intros r' [->|Hr]%elem_of_cons; auto|]. intros e k. rewrite Hd, has_rule_add. set_solver.
Qed.

Lemma load_allowed_spec rules denied a0 a :
  load_allowed rules denied a0 = Ok a ->
  (forall r, r ∈ rules -> validateRule r true = None /\
     has_rule denied (Executable r) (argvKey (Args r)) = false) /\
  forall e k, has_rule a e k = true <->
    (exists r, r ∈ rules /\ Executable r = e /\ argvKey (Args r) = k) \/ has_rule a0 e k = true.
Proof.
  revert a0. induction rules as [|r rules IH]; intros a0 Hl; cbn [load_allowed] in Hl.
  - injection Hl as <-. split; [by intros r ?%elem_of_nil|]. set_solver.
  - destruct (validateRule r true) eqn:Hv; [done|]. destruct (has_rule denied _ _) eqn:Hd; [done|].
    destruct (IH _ Hl) as [Hall Hs].
    split; [intros r' [->|Hr]%elem_of_cons; auto|]. intros e k. rewrite Hs, has_rule_add. set_solver.
Qed.

Lemma fold_wrap_lookup (f : Policy -> string -> Policy) (base : Policy) (g : string -> option validator)
    (es : list string) n :
  NoDup es ->
  (forall p e, commands p !! e = commands base !! e -> commands (f p e) !! e = g e) ->
  (forall p e n, n <> e -> commands (f p e) !! n = commands p !! n) ->
  commands (foldl f base es) !! n = if decide (n ∈ es) then g n else commands base !! n.
Proof.
  intros Hnd Hg Hne.
  assert (Hgen : forall es p, NoDup es ->
     (forall e, e ∈ es -> commands p !! e = commands base !! e) ->
     commands (foldl f p es) !! n = if decide (n ∈ es) then g n else commands p !! n).
  { clear es Hnd. induction es as [|e es IH]; intros p Hnd Hp; cbn [foldl].
    - by rewrite decide_False by apply not_elem_of_nil.
    - apply NoDup_cons in Hnd as [Hni Hnd]. rewrite IH; [|done|].
      + destruct (decide (n ∈ es)) as [Hin|Hin].
        * by rewrite decide_True by (by right).
        * destruct (decide (n = e)) as [->|Hn].
          -- rewrite decide_True by left. apply Hg, Hp. by left.
          -- rewrite decide_False by (by intros [?|?]%elem_of_cons). by apply Hne.
      + intros e' He'. rewrite Hne by (by intros ->). apply Hp. by right. }
  by apply Hgen.
Qed.

Lemma apply_rules_lookup base allowed denied n :
  commands (apply_rules base allowed denied) !! n =
  if decide (n ∈ dom denied ∪ dom allowed)
  then Some (exact_validator (commands base !! n) n allowed
               (if decide (n ∈ dom denied) then denied else ∅))
  else commands base !! n.
Proof.
  unfold apply_rules.
  set (p1 := foldl (fun p e => wrapExactRules p e allowed denied) base (elements (dom denied))).
  assert (H1 : forall n, commands p1 !! n = if decide (n ∈ elements (dom denied))
            then Some (exact_validator (commands base !! n) n allowed denied)
            else commands base !! n).
  { intros m. unfold p1.
    rewrite (fold_wrap_lookup _ base (fun m => Some (exact_validator (commands base !! m) m allowed denied)));
      [done|apply NoDup_elements|..].
    - intros p e He. simpl. by rewrite lookup_insert_eq, He.
    - intros p e k Hk. simpl. by rewrite lookup_insert_ne. }
  rewrite (fold_wrap_lookup _ p1 (fun e => if decide (e ∈ dom denied) then commands p1 !! e
             else Some (exact_validator (commands p1 !! e) e allowed ∅)));
    [|apply NoDup_elements|..].
  - rewrite !H1. repeat case_decide; set_solver.
  - intros p e He. case_decide; [done|]. simpl. by rewrite lookup_insert_eq, He.
  - intros p e k Hk. case_decide; [done|]. simpl. by rewrite lookup_insert_ne.
Qed.

Lemma read_wire_ok {W} (f : file_input W) wire :
  read_wire f = Ok wire -> stat f = Some (true, 384) /\ decoded f = Some wire.
Proof.
  unfold read_wire. intros H1. repeat case_match; simplify_eq; bools; by subst.
Qed.

Lemma validateRule_ok r allowing :
  validateRule r allowing = None ->
  Executable r <> ""%string /\ ContainsAny (Executable r) metacharacters = false /\
  has_space (Executable r) = false /\ (allowing = true -> forbiddenExecutable (Executable r) = false).
Proof.
  unfold validateRule. destruct (String.eqb_spec (Executable r) "") as [|Hne]; [done|].
  destruct (ContainsAny _ _); [done|]. destruct (has_space _); [done|]. simpl.
  destruct (existsb _ _); [done|]. intros Hf. repeat split; try done. intros ->.
  by destruct (forbiddenExecutable _).
Qed.

(** The verdict of the loaded policy on a command. *)
Lemma loaded_verdict base allowed denied exe args :
  evaluateArgv (apply_rules base allowed denied) (exe :: args) =
  if has_rule denied exe (argvKey args)
  then deny "file.deny" "command is explicitly denied by the board policy"
  else match commands base !! exe with
       | Some v => v (exe :: args)
       | None =>
           if has_rule allowed exe (argvKey args) then allow "file.allow"
           else deny "command.unknown" ("executable " +:+ Quote exe +:+ " is not allowlisted")
       end.
Proof.
  unfold evaluateArgv. rewrite apply_rules_lookup.
  destruct (decide (exe ∈ dom denied ∪ dom allowed)) as [Hin|Hin].
  - unfold exact_validator. cbn [tail]. destruct (decide (exe ∈ dom denied)) as [Hd|Hd]; [done|].
    rewrite has_rule_empty. destruct (has_rule denied exe (argvKey args)) eqn:E; [|done].
    by apply has_rule_dom in E.
  - apply not_elem_of_union in Hin as [Hd Ha].
    destruct (has_rule denied exe (argvKey args)) eqn:E; [by apply has_rule_dom in E|].
    destruct (commands base !! exe); [done|].
    destruct (has_rule allowed exe (argvKey args)) eqn:E2; [by apply has_rule_dom in E2|done].
Qed.

End Loading.

(** ** Properties *)

Section Properties.

Context `{UnicodeLower, GoQuote}.

(** C35. A board file narrows the policy and adds only exact commands. When
    [LoadFile] succeeds, the new policy denies every listed command, keeps the
    verdict of the base policy for every executable the base knows, and for
    any other executable allows exactly the listed commands and nothing else.
    No command is both listed as allowed and as denied; every allowed rule
    names a non-empty literal basename that is not an interpreter or a
    mutating tool; and for ASCII arguments "listed" means that the argument
    vector is exactly the one in the file. The file is a regular one with mode
    0600. *)
Theorem board_policy f base p :
  LoadFile f (Some base) = Ok p ->
  stat f = Some (true, 384) /\
  exists wire rules, decoded f = Some wire /\ materializeRules wire = Ok rules /\
  (forall exe args,
     (listed (Deny rules) exe args ->
        evaluateArgv p (exe :: args) =
        deny "file.deny" "command is explicitly denied by the board policy") /\
     (~ listed (Deny rules) exe args -> is_Some (commands base !! exe) ->
        evaluateArgv p (exe :: args) = evaluateArgv base (exe :: args)) /\
     (~ listed (Deny rules) exe args -> commands base !! exe = None ->
        (listed (Allow rules) exe args -> evaluateArgv p (exe :: args) = allow "file.allow") /\
        (~ listed (Allow rules) exe args -> Allowed (evaluateArgv p (exe :: args)) = false)) /\
     ~ (listed (Allow rules) exe args /\ listed (Deny rules) exe args)) /\
  (forall r, r ∈ Allow rules -> Executable r <> ""%string /\
     ContainsAny (Executable r) metacharacters = false /\ has_space (Executable r) = false /\
     forbiddenExecutable (Executable r) = false) /\
  (forall r args, r ∈ Allow rules ++ Deny rules -> Forall (fun a => is_ascii a = true) (Args r) ->
     Forall (fun a => is_ascii a = true) args -> argvKey (Args r) = argvKey args -> Args r = args).
Proof.
  intros Hload. unfold LoadFile in Hload.
  destruct (read_wire f) as [wire|] eqn:Hread; [|done].
  destruct (materializeRules wire) as [rules|] eqn:Hm; [|done].
  destruct (load_denied _ _) as [denied|] eqn:Hd; [|done].
  destruct (load_allowed _ _ _) as [allowed|] eqn:Ha; [|done]. injection Hload as <-.
  destruct (load_denied_spec _ _ _ Hd) as [_ Hdr].
  destruct (load_allowed_spec _ _ _ _ Ha) as [Hav Har].
  destruct (read_wire_ok _ _ Hread) as [Hstat Hdec]. split; [exact Hstat|].
  exists wire, rules. split; [exact Hdec|]. split; [exact Hm|].
  assert (HD : forall exe args, has_rule denied exe (argvKey args) = true <-> listed (Deny rules) exe args).
  { intros. rewrite Hdr, has_rule_empty. unfold listed. naive_solver. }
  assert (HA : forall exe args, has_rule allowed exe (argvKey args) = true <-> listed (Allow rules) exe args).
  { intros. rewrite Har, has_rule_empty. unfold listed. naive_solver. }
  split; [|split].
  - intros exe args. rewrite <- HD, <- HA.
    pose proof (loaded_verdict base allowed denied exe args) as Hv.
    split; [|split; [|split]].
    + intros Hl. by rewrite Hv, Hl.
    + intros Hn [v Hb]. apply not_true_is_false in Hn. rewrite Hv, Hn. unfold evaluateArgv. by rewrite Hb.
    + intros Hn Hb. apply not_true_is_false in Hn. rewrite Hv, Hn, Hb.
      split; [by intros ->|]. intros Hna. apply not_true_is_false in Hna. by rewrite Hna.
    + intros [Hl Hdl]. apply HA in Hl as (r & Hr & <- & Hk).
      destruct (Hav r Hr) as [_ Hno]. rewrite Hk in Hno. congruence.
  - intros r Hr. destruct (Hav r Hr) as [Hv _].
    apply validateRule_ok in Hv as (? & ? & ? & Hf). auto.
  - intros r args _. apply argvKey_inj.
Qed.

End Properties.

(** A board file for the witness. *)
Definition demo_file : file_input fileWire :=
  {| stat := Some (true, 384); opens := true;
     decoded := Some {| wire_Allow := [{| wire_Executable := "lsusb"; wire_Args := Some [] |}];
                        wire_Deny := [{| wire_Executable := "ps"; wire_Args := Some ["-ef"%string] |}] |};
     trailing := None |}.

Definition demo_base : Policy := {| commands := {["ps"%string := fun _ => allow "command.ps"]} |}.

Lemma board_policy_witness :
  exists p, @LoadFile (fun s => s) (fun s => s) demo_file (Some demo_base) = Ok p /\
  Allowed (@evaluateArgv (fun s => s) p ["ps"; "-ef"]%string) = false.
Proof.
  eexists. split; [reflexivity|].
  destruct (@board_policy (fun s => s) (fun s => s) demo_file demo_base _ eq_refl)
    as (_ & wire & rules & Hw & Hm & Hall & _).
  injection Hw as <-. injection Hm as <-.
  rewrite (proj1 (Hall "ps"%string ["-ef"%string])); [reflexivity|].
  eexists. split; [apply list_elem_of_here|]. split; reflexivity.
Defined.
