(* ===== verification/Denylist.v ===== *)
(** * Board denylist (src/internal/policy/denylist.go, unsafefile.go)

    The policy that allows every simple command except hard denials, the
    board's own rules and sensitive paths, and the loader of its file. *)

From S2P Require Import Prelude GoStd Shell Common PolicyFile.

(** ** Hard denials *)

Definition hardDenyInterpreters : list string :=
  ["sh"; "bash"; "dash"; "ash"; "zsh"; "ksh"; "fish"; "csh"; "tcsh"; "python"; "python2"; "python3";
   "perl"; "perl5"; "ruby"; "lua"; "node"; "nodejs"; "php"; "tclsh"; "wish"; "expect"; "busybox"]%string.

Section Denylist.

Context `{UnicodeLower, GoQuote}.

(** [argv[0]] and [argv[1:]] of a vector that is not empty. *)
Definition hardDenyReason (name : string) (args : list string) : string :=
  let base := ToLower (Base name) in
  if contains hardDenyInterpreters base
  then "interpreter and shell invocation is never allowed in denylist mode"
  else if String.eqb base "eval" then "eval is never allowed in denylist mode"
  else if String.eqb base "exec" then "exec is never allowed in denylist mode"
  else if String.eqb base "env" then "env is never allowed in denylist mode"
  else if String.eqb base "xargs" then "xargs is never allowed in denylist mode"
  else if String.eqb base "find" &&
          existsb (contains ["-exec"; "-execdir"; "-ok"; "-okdir"]%string) args
  then "find -exec, -execdir, -ok, and -okdir are never allowed in denylist mode"
  else "".

(** ** The policy *)

Record DenylistRules := {
  DenyExecutables : list string;
  DenyExact : list ArgvRule;
  AllowAllPaths : bool
}.

Record DenylistPolicy := {
  denyExecutables : gset string;
  denyExact : exact_rules;
  allowAllPaths : bool
}.

Definition Denylist (rules : DenylistRules) : DenylistPolicy :=
  {| denyExecutables := list_to_set (DenyExecutables rules);
     denyExact := foldl addExactRule ∅ (DenyExact rules);
     allowAllPaths := AllowAllPaths rules |}.

(** The first argument that is a sensitive path. *)
Fixpoint sensitive_argument (args : list string) : option string :=
  match args with
  | [] => None
  | arg :: args =>
      let reason := unsafePath arg in
      if negb (String.eqb reason "") then Some reason else sensitive_argument args
  end.

Definition classifyArgv (p : DenylistPolicy) : validator :=
  fun argv =>
    match argv with
    | [] => deny "command.empty" "empty commands are not allowed"
    | exe :: args =>
        let reason := hardDenyReason exe args in
        if negb (String.eqb reason "") then deny "denylist.hard" reason
        else match (if negb (allowAllPaths p) then sensitive_argument args else None) with
        | Some reason => deny "path.sensitive" reason
        | None =>
            if decide (exe ∈ denyExecutables p)
            then deny "denylist.executable"
                   ("executable " +:+ Quote exe +:+ " is denied by the board denylist")
            else if has_rule (denyExact p) exe (argvKey args)
            then deny "denylist.exact"
                   ("this exact invocation of " +:+ Quote exe +:+ " is denied by the board denylist")
            else allow "denylist.allow"
        end
    end.

Definition Evaluate `{ShellSyntax} (p : DenylistPolicy) (text : string) : Decision :=
  evaluateShellLine text {| allowRedirection := true; classify := classifyArgv p |}.

(** ** The board file *)

Record unsafeShellFileWire := {
  RiskAccepted : bool;
  wire_AllowAllPaths : bool;
  wire_DenyExecutables : list string;
  wire_DenyExact : list argvRuleWire
}.

Fixpoint check_names (names : list string) : option PolicyFileError :=
  match names with
  | [] => None
  | name :: names =>
      match validateRule {| Executable := name; Args := [] |} false with
      | Some e => Some e
      | None => check_names names
      end
  end.

Fixpoint load_exact (entries : list argvRuleWire) : result PolicyFileError (list ArgvRule) :=
  match entries with
  | [] => Ok []
  | entry :: entries =>
      match wire_Args entry with
      | None => Err ErrArgsNotArray
      | Some args =>
          let rule := {| Executable := wire_Executable entry; Args := args |} in
          match validateRule rule false with
          | Some e => Err e
          | None => match load_exact entries with Ok rest => Ok (rule :: rest) | Err e => Err e end
          end
      end
  end.

Definition LoadUnsafeShellFile (f : file_input unsafeShellFileWire)
  : result PolicyFileError DenylistPolicy :=
  match read_wire f with
  | Err e => Err e
  | Ok wire =>
      if negb (RiskAccepted wire) then Err ErrRiskNotAccepted
      else match check_names (wire_DenyExecutables wire) with
      | Some e => Err e
      | None =>
          match load_exact (wire_DenyExact wire) with
          | Err e => Err e
          | Ok denyExact =>
              Ok (Denylist {| DenyExecutables := wire_DenyExecutables wire; DenyExact := denyExact;
                              AllowAllPaths := wire_AllowAllPaths wire |})
          end
      end
  end.

(** ** Specification *)

(** The executables that run other programs, whatever the board allows. *)
Definition hard_denied (name : string) (args : list string) : Prop :=
  let base := ToLower (Base name) in
  base ∈ hardDenyInterpreters ++ ["eval"; "exec"; "env"; "xargs"]%string \/
  (base = "find"%string /\
   exists arg, arg ∈ args /\ arg ∈ ["-exec"; "-execdir"; "-ok"; "-okdir"]%string).

(** ** Lemmas *)

Lemma hardDenyReason_spec name args : hardDenyReason name args <> ""%string <-> hard_denied name args.
Proof.
  unfold hardDenyReason, hard_denied. cbv zeta. set (base := ToLower (Base name)). clearbody base.
  rewrite elem_of_app, <- contains_spec. destruct (contains hardDenyInterpreters base) eqn:Ei.
  { split; [by left; left|done]. }
  assert (Hone : forall x, String.eqb base x = false -> base <> x) by (intros x; apply String.eqb_neq).
  destruct (String.eqb_spec base "eval") as [->|H1]; [split; [intros _; left; right; set_solver|done]|].
  destruct (String.eqb_spec base "exec") as [->|H2]; [split; [intros _; left; right; set_solver|done]|].
  destruct (String.eqb_spec base "env") as [->|H3]; [split; [intros _; left; right; set_solver|done]|].
  destruct (String.eqb_spec base "xargs") as [->|H4]; [split; [intros _; left; right; set_solver|done]|].
  destruct (String.eqb_spec base "find") as [->|H5]; cbn [andb].
  - destruct (existsb _ args) eqn:E.
    + apply existsb_exists in E as (arg & Hin & Hc). apply contains_spec in Hc.
      split; [|done]. intros _. right. split; [done|]. exists arg. by rewrite list_elem_of_In.
    + split; [done|]. intros [[?|Hin]|(_ & arg & Hin & Ho)]; [done|set_solver|].
      apply list_elem_of_In in Hin. apply contains_spec in Ho.
      assert (existsb (contains ["-exec"; "-execdir"; "-ok"; "-okdir"]%string) args = true)
        by (apply existsb_exists; eauto). congruence.
  - split; [done|]. intros [[?|Hin]|[? _]]; [done|set_solver|done].
Qed.

Lemma sensitive_argument_None args :
  sensitive_argument args = None <-> Forall (fun a => unsafePath a = ""%string) args.
Proof.
  induction args as [|a args IH]; cbn [sensitive_argument]; [by split; [constructor|]|].
  cbv zeta. rewrite Forall_cons. destruct (String.eqb_spec (unsafePath a) "") as [E|E]; cbn [negb];
    [rewrite IH|]; naive_solver.
Qed.

Lemma has_rule_fold rules d e k :
  has_rule (foldl addExactRule d rules) e k = true <->
  (exists r, r ∈ rules /\ Executable r = e /\ argvKey (Args r) = k) \/ has_rule d e k = true.
Proof.
  revert d. induction rules as [|r rules IH]; intros d; cbn [foldl]; [set_solver|].
  rewrite IH, has_rule_add. set_solver.
Qed.

(** ** Properties *)

(** The denylist allows a simple command exactly when it is not hard
    denied, its arguments are not sensitive paths (unless the board accepted
    all paths), its executable is not on the board's list and the invocation
    is not one of the board's exact rules. No configuration lifts a hard
    denial: an interpreter or shell under any directory and in any letter
    case, eval, exec, env, xargs and an executing find are denied for every
    set of rules. *)
Theorem denylist_verdict rules exe args :
  (Allowed (classifyArgv (Denylist rules) (exe :: args)) = true <->
   ~ hard_denied exe args /\
   (AllowAllPaths rules = false -> Forall (fun a => unsafePath a = ""%string) args) /\
   exe ∉ DenyExecutables rules /\
   ~ listed (DenyExact rules) exe args) /\
  (hard_denied exe args ->
   Rule (classifyArgv (Denylist rules) (exe :: args)) = "denylist.hard"%string).
Proof.
  unfold classifyArgv. cbv zeta. pose proof (hardDenyReason_spec exe args) as Hh.
  destruct (String.eqb_spec (hardDenyReason exe args) "") as [E|E]; cbn [negb].
  - assert (Hn : ~ hard_denied exe args) by (rewrite <- Hh; naive_solver).
    split; [|done]. cbn [Denylist allowAllPaths denyExecutables denyExact].
    destruct (if negb (AllowAllPaths rules) then _ else _) as [r|] eqn:Es.
    + split; [done|]. intros (_ & Hp & _). destruct (AllowAllPaths rules); [done|].
      cbn [negb] in Es. assert (sensitive_argument args = None); [|congruence].
      apply sensitive_argument_None. by apply Hp.
    + assert (Hp : AllowAllPaths rules = false -> Forall (fun a => unsafePath a = ""%string) args).
      { intros Ha. rewrite Ha in Es. by apply sensitive_argument_None. }
      destruct (decide _) as [Hd|Hd].
      { apply elem_of_list_to_set in Hd. split; [done|]. naive_solver. }
      rewrite elem_of_list_to_set in Hd.
      pose proof (has_rule_fold (DenyExact rules) ∅ exe (argvKey args)) as Hr.
      rewrite has_rule_empty in Hr. unfold listed.
      destruct (has_rule _ _ _); naive_solver.
  - assert (Hn : hard_denied exe args) by (by rewrite <- Hh). split; [|done]. split; [done|naive_solver].
Qed.

End Denylist.

(** The denylist checks text that the shell still transforms, and never
    looks at redirections. With no board rules a backslash inside a shell's
    name lifts the hard denial, a wildcard hides the password database, and
    every sensitive file can be read through an input redirection, although
    the plain spellings of all three are denied. *)
Theorem denylist_bypasses `{UnicodeLower, GoQuote, ShellSyntax} :
  let p := Denylist {| DenyExecutables := []; DenyExact := []; AllowAllPaths := false |} in
  Allowed (classifyArgv p ["s\h"; "-c"; "reboot"]%string) = true /\
  Allowed (classifyArgv p ["sh"; "-c"; "reboot"]%string) = false /\
  Allowed (classifyArgv p ["cat"; "/etc/shado?"]%string) = true /\
  Allowed (classifyArgv p ["cat"; "/etc/shadow"]%string) = false /\
  (forall text target, Parse text = Ok (demo_tree ["cat"%string] [target]) ->
     Allowed (Evaluate p text) = true).
Proof.
  intros p. repeat (split; [vm_compute; reflexivity|]).
  intros text target Hp. unfold Evaluate, evaluateShellLine. rewrite Hp. cbv iota.
  rewrite Walk_contract, walk_fold. reflexivity.
Qed.

Lemma denylist_bypasses_witness :
  let p := @Denylist {| DenyExecutables := []; DenyExact := []; AllowAllPaths := false |} in
  Allowed (@Evaluate demo_lower demo_quote demo_shell p "cat </etc/shadow") = true.
Proof.
  intros p. destruct (@denylist_bypasses demo_lower demo_quote demo_shell) as (_ & _ & _ & _ & Hr).
  exact (Hr "cat </etc/shadow"%string "/etc/shadow"%string eq_refl).
Defined.

(** A configuration for the witness. *)
Definition demo_rules : DenylistRules :=
  {| DenyExecutables := ["dd"%string]; DenyExact := []; AllowAllPaths := true |}.

Lemma denylist_verdict_witness :
  @hard_denied demo_lower "/usr/bin/sh" [] /\
  Rule (@classifyArgv demo_lower demo_quote (Denylist demo_rules) ["/usr/bin/sh"%string]) =
  "denylist.hard"%string.
Proof.
  assert (Hd : @hard_denied demo_lower "/usr/bin/sh" []).
  { left. change (ToLower (Base "/usr/bin/sh")) with "sh"%string. set_solver. }
  split; [exact Hd|].
  exact (proj2 (@denylist_verdict demo_lower demo_quote demo_rules "/usr/bin/sh" []) Hd).
Defined.
