(* ===== verification/Records.v ===== *)
(** * Durable records (src/internal/core/audit/store.go, transcript/store.go,
    framing/framing.go, and records.export of src/cmd/gatewayd/dispatcher.go)

    The append-only record files, their writers with the in-memory sequence
    counter, and the bounded export. A file is the list of the records its
    lines decode to: each line is the JSON text of one record. RecordFiles.v
    has the same over the bytes of the files, and proves that it refines this. *)

From S2P Require Import Prelude.

(** ** Files of JSON lines *)

(** [AppendJSONL]: [ok] is whether the file could be opened and written. *)
Definition AppendJSONL {T} (ok : bool) (v : T) (file : list T) : list T * bool :=
  if ok then (file ++ [v], true) else (file, false).

(** [ReadAllJSONL]: a missing file is [None]. *)
Definition ReadAllJSONL {T} (file : option (list T)) : list T := default [] file.

(** ** Audit *)

Module Audit.

Record Record_ := {
  Board : string; Session : string; Transport : string; Seq : Z; Timestamp : Z;
  Kind : string; Detail : string
}.

(** [seq] lives in memory, [file] on disk. *)
Record Writer := { seq : Z; file : list Record_ }.

(** A writer on a file that may already hold records. *)
Definition NewWriter (file : list Record_) : Writer := {| seq := 0; file := file |}.

(** [now] is used when the timestamp is the zero time. *)
Definition Append (now : Z) (ok : bool) (rec : Record_) (w : Writer) : Writer * option Record_ :=
  let n := u64 (seq w + 1) in
  let rec := {| Board := Board rec; Session := Session rec; Transport := Transport rec; Seq := n;
                Timestamp := if Timestamp rec =? 0 then now else Timestamp rec;
                Kind := Kind rec; Detail := Detail rec |} in
  let '(file', written) := AppendJSONL ok rec (file w) in
  ({| seq := n; file := file' |}, if written then Some rec else None).

Definition ReadAll (w : Writer) : list Record_ := ReadAllJSONL (Some (file w)).

End Audit.

(** ** Transcript *)

Module Transcript.

Record Record_ := {
  Board : string; Session : string; Transport : string; Seq : Z; Timestamp : Z;
  Direction : string; Source : string; Redacted : bool; Data : bytes
}.

Record Writer := { seq : Z; file : list Record_ }.

Definition NewWriter (file : list Record_) : Writer := {| seq := 0; file := file |}.

Definition Append (now : Z) (ok : bool) (rec : Record_) (w : Writer) : Writer * option Record_ :=
  let n := u64 (seq w + 1) in
  let rec := {| Board := Board rec; Session := Session rec; Transport := Transport rec; Seq := n;
                Timestamp := if Timestamp rec =? 0 then now else Timestamp rec;
                Direction := Direction rec; Source := Source rec; Redacted := Redacted rec;
                Data := Data rec |} in
  let '(file', written) := AppendJSONL ok rec (file w) in
  ({| seq := n; file := file' |}, if written then Some rec else None).

Definition ReadAll (w : Writer) : list Record_ := ReadAllJSONL (Some (file w)).

End Transcript.

(** ** Export *)

Definition applyRetention {T} (records : list T) (limit : Z) : list T :=
  if (limit <=? 0) || (zlen records <=? limit) then records
  else drop (length records - Z.to_nat limit) records.

Definition defaultRetentionLimit : Z := 5000.

(** The result of [recordsExport]: transcript and audit records. *)
Definition recordsExport (after_transcript after_audit limit : Z)
    (tw : Transcript.Writer) (aw : Audit.Writer)
  : list Transcript.Record_ * list Audit.Record_ :=
  (List.filter (fun r => after_transcript <? Transcript.Seq r)
     (applyRetention (Transcript.ReadAll tw) limit),
   List.filter (fun r => after_audit <? Audit.Seq r)
     (applyRetention (Audit.ReadAll aw) limit)).

(** ** Specification *)

(** Every record of the writer's own run: number [i] from 1. *)
Definition numbered (rs : list Audit.Record_) : Prop :=
  forall i r, rs !! i = Some r -> Audit.Seq r = Z.of_nat i + 1.

Fixpoint append_all (rs : list (Z * Audit.Record_)) (w : Audit.Writer) : Audit.Writer :=
  match rs with
  | [] => w
  | (now, r) :: rs => append_all rs (fst (Audit.Append now true r w))
  end.

(** ** Lemmas *)

Lemma numbered_nil : numbered [].
Proof. intros i r Hr. by rewrite lookup_nil in Hr. Qed.

Lemma append_all_file rs w :
  numbered (Audit.file w) -> Audit.seq w = zlen (Audit.file w) ->
  zlen (Audit.file w) + zlen rs < max_u64 ->
  numbered (Audit.file (append_all rs w)) /\
  length (Audit.file (append_all rs w)) = (length (Audit.file w) + length rs)%nat /\
  Audit.seq (append_all rs w) = zlen (Audit.file (append_all rs w)) /\
  exists tl, Audit.file (append_all rs w) = Audit.file w ++ tl.
Proof.
  revert w. induction rs as [|[now r] rs IH]; intros w Hn Hs Hb; cbn [append_all length] in *.
  { split; [done|]. split; [lia|]. split; [done|]. exists []. by rewrite app_nil_r. }
  set (w1 := fst (Audit.Append now true r w)).
  assert (Hfile : exists r', Audit.file w1 = Audit.file w ++ [r'] /\ Audit.Seq r' = zlen (Audit.file w) + 1).
  { eexists. split; [reflexivity|]. simpl. rewrite Hs. apply u64_small. lia. }
  destruct Hfile as (r' & Hf & Hr').
  assert (Hseq : Audit.seq w1 = zlen (Audit.file w) + 1).
  { unfold w1. simpl. rewrite Hs. apply u64_small. lia. }
  clearbody w1. destruct (IH w1) as (H1 & H2 & H3 & tl & H4).
  - unfold numbered. rewrite Hf. intros i x [Hx|[Hi Hx]]%lookup_app_Some; [by apply Hn|].
    apply list_lookup_singleton_Some in Hx as [Hi0 <-]. lia.
  - rewrite Hseq, Hf, length_app. simpl. lia.
  - rewrite Hf, length_app. simpl. lia.
  - split; [done|]. split; [rewrite H2, Hf, length_app; simpl; lia|]. split; [done|].
    exists ([r'] ++ tl). by rewrite H4, Hf, app_assoc.
Qed.

(** A writer over a file that already has records numbers from one again. *)
Lemma append_all_restart rs (f acc : list Audit.Record_) (n : nat) :
  Z.of_nat n + zlen rs < max_u64 ->
  exists tl, Audit.file (append_all rs {| Audit.seq := Z.of_nat n; Audit.file := f ++ acc |}) =
             f ++ acc ++ tl /\
    length tl = length rs /\
    forall i r, tl !! i = Some r -> Audit.Seq r = Z.of_nat (n + i) + 1.
Proof.
  revert acc n. induction rs as [|[now r] rs IH]; intros acc n Hb; cbn [append_all length] in *.
  { exists []. rewrite app_nil_r. done. }
  set (r' := {| Audit.Board := Audit.Board r; Audit.Session := Audit.Session r;
                Audit.Transport := Audit.Transport r; Audit.Seq := Z.of_nat n + 1;
                Audit.Timestamp := if Audit.Timestamp r =? 0 then now else Audit.Timestamp r;
                Audit.Kind := Audit.Kind r; Audit.Detail := Audit.Detail r |}).
  assert (E : fst (Audit.Append now true r {| Audit.seq := Z.of_nat n; Audit.file := f ++ acc |}) =
              {| Audit.seq := Z.of_nat (S n); Audit.file := f ++ (acc ++ [r']) |}).
  { unfold Audit.Append. simpl. rewrite u64_small by lia. rewrite <- app_assoc. f_equal. lia. }
  rewrite E. destruct (IH (acc ++ [r']) (S n)) as (tl & Hf & Hl & Hs); [lia|].
  exists (r' :: tl). split; [by rewrite Hf, <- app_assoc|]. split; [simpl; lia|].
  intros [|i] x Hx; simpl in Hx.
  - injection Hx as <-. simpl. lia.
  - rewrite (Hs i x Hx). lia.
Qed.

Lemma filter_numbered (rs : list Audit.Record_) (k j : nat) :
  (forall i r, rs !! i = Some r -> Audit.Seq r = Z.of_nat (j + i) + 1) ->
  List.filter (fun r => Z.of_nat (j + k) <? Audit.Seq r) rs = drop k rs.
Proof.
  revert k j. induction rs as [|r rs IH]; intros k j Hn; [by destruct k|]. cbn [List.filter].
  pose proof (Hn 0%nat r eq_refl) as Hr. rewrite Nat.add_0_r in Hr.
  assert (Htl : forall i x, rs !! i = Some x -> Audit.Seq x = Z.of_nat (S j + i) + 1).
  { intros i x Hx. rewrite (Hn (S i) x Hx). lia. }
  destruct k as [|k].
  - rewrite (proj2 (Z.ltb_lt _ _)) by lia. cbn [drop]. f_equal.
    rewrite <- (drop_0 rs) at 2. rewrite <- (IH 0%nat (S j) Htl). 
    apply filter_ext_in. intros x Hx. apply list_elem_of_In, list_elem_of_lookup in Hx as [i Hi].
    rewrite (Htl i x Hi). rewrite !(proj2 (Z.ltb_lt _ _)) by lia. done.
  - rewrite (proj2 (Z.ltb_ge _ _)) by lia. cbn [drop]. rewrite <- (IH k (S j) Htl).
    by replace (j + S k)%nat with (S j + k)%nat by lia.
Qed.

(** ** Properties *)

(** Incremental export is complete within one run. For a writer that
    started on an empty file, an export after sequence number [k] returns
    exactly the records appended since the [k]-th, in order, without loss or
    repetition, as long as the file is within the retention limit; beyond it
    the newest [limit] records are still all there. *)
Theorem export_incremental (rs : list (Z * Audit.Record_)) (k : nat) (limit : Z) tw at_ :
  zlen rs < max_u64 -> 0 < limit ->
  let w := append_all rs (Audit.NewWriter []) in
  length (Audit.ReadAll w) = length rs /\
  (zlen rs <= limit ->
   snd (recordsExport at_ (Z.of_nat k) limit tw w) = drop k (Audit.ReadAll w)) /\
  (limit < zlen rs ->
   snd (recordsExport at_ 0 limit tw w) = drop (length rs - Z.to_nat limit) (Audit.ReadAll w)).
Proof.
  intros Hb Hl w. destruct (append_all_file rs (Audit.NewWriter [])) as (Hn & Hlen & _);
    [exact numbered_nil|done|done|].
  fold w in Hn, Hlen. simpl in Hlen. change (Audit.ReadAll w) with (Audit.file w).
  split; [done|]. unfold recordsExport, applyRetention. cbn [snd].
  change (Audit.ReadAll w) with (Audit.file w). rewrite Hlen. split; intros Hr.
  - rewrite (proj2 (Z.leb_le (zlen rs) limit)) by lia. rewrite orb_true_r.
    apply (filter_numbered _ k 0). intros i r Hi. rewrite (Hn i r Hi). lia.
  - rewrite (proj2 (Z.leb_gt limit 0)), (proj2 (Z.leb_gt (zlen rs) limit)) by lia. cbn [orb].
    set (m := (length rs - Z.to_nat limit)%nat).
    rewrite <- (drop_0 (drop m (Audit.file w))) at 2.
    rewrite <- (filter_numbered _ 0 m).
    + apply filter_ext_in. intros x Hx.
      apply list_elem_of_In, list_elem_of_lookup in Hx as [i Hi]. rewrite lookup_drop in Hi.
      rewrite (Hn _ _ Hi). rewrite !(proj2 (Z.ltb_lt _ _)) by lia. done.
    + intros i r Hi. rewrite lookup_drop in Hi. by apply Hn.
Qed.

(** A record for the witnesses. *)
Definition demo_record (kind : string) : Audit.Record_ :=
  {| Audit.Board := "b"; Audit.Session := "s"; Audit.Transport := ""; Audit.Seq := 0;
     Audit.Timestamp := 0; Audit.Kind := kind; Audit.Detail := "" |}.

Lemma export_incremental_witness :
  let w := append_all [(1, demo_record "proposal"); (2, demo_record "result")] (Audit.NewWriter []) in
  Audit.Kind <$> snd (recordsExport 0 1 10 (Transcript.NewWriter []) w) = ["result"%string].
Proof.
  intros w. 
  destruct (export_incremental [(1, demo_record "proposal"); (2, demo_record "result")] 1 10
              (Transcript.NewWriter []) 0 eq_refl eq_refl) as (_ & H & _).
  change (Z.of_nat 1) with 1 in H. unfold w. rewrite H by (vm_compute; discriminate). reflexivity.
Defined.

(** A restart hides new records. The sequence counter starts again from zero
    while the file keeps its records, so a client that has read [k] records
    and asks for what came after them receives none of the first [k] records
    of the next daemon run. *)
Theorem restart_hides_records (old new_ : list (Z * Audit.Record_)) tw at_ limit :
  zlen old < max_u64 -> zlen new_ < max_u64 -> (length new_ <= length old)%nat -> limit <= 0 ->
  let before := append_all old (Audit.NewWriter []) in
  let after := append_all new_ (Audit.NewWriter (Audit.ReadAll before)) in
  length (Audit.ReadAll after) = (length old + length new_)%nat /\
  snd (recordsExport at_ (zlen old) limit tw after) = [].
Proof.
  intros Ho Hn Hle Hlim before after.
  destruct (append_all_file old (Audit.NewWriter [])) as (Hnum & Hlen & _);
    [exact numbered_nil|done|done|].
  fold before in Hnum, Hlen. simpl in Hlen.
  destruct (append_all_restart new_ (Audit.file before) [] 0) as (tl & Hf & Hl & Hs); [simpl; lia|].
  rewrite app_nil_r in Hf. cbn [app] in Hf.
  change (append_all new_ {| Audit.seq := Z.of_nat 0; Audit.file := Audit.file before |})
    with after in Hf.
  change (Audit.ReadAll after) with (Audit.file after). split.
  - rewrite Hf, length_app. lia.
  - unfold recordsExport, applyRetention. rewrite (proj2 (Z.leb_le limit 0)) by done. cbn [orb snd].
    change (Audit.ReadAll after) with (Audit.file after).
    assert (Hall : forall r, r ∈ Audit.file after -> Audit.Seq r <= zlen old).
    { intros r. rewrite Hf. intros [Hr|Hr]%elem_of_app; apply list_elem_of_lookup in Hr as [i Hi].
      - rewrite (Hnum _ _ Hi). apply lookup_lt_Some in Hi. lia.
      - rewrite (Hs _ _ Hi). apply lookup_lt_Some in Hi. lia. }
    apply filter_none. intros r Hr. apply Z.ltb_ge. by apply Hall.
Qed.
