(* ===== verification/OpenSet.v ===== *)
(** * Open transactions (src/cmd/gatewayd/openset.go)

    The durable set of approved transactions without a result: its file, the
    claim-once finalisation that writes the terminal audit record, the
    reconciler and the recovery at startup. The outcomes of file operations
    are inputs. *)

From S2P Require Import Prelude GoStd Session Validate Command Records.

(** ** Data *)

(** What the file decodes to. *)
Inductive open_file :=
| NoFile
| CurrentFormat (ids : gmap string string)
| LegacyFormat (ids : list string)
| BadFile.

Record openSet := { ids : gmap string string; disk : open_file }.

(** [loadOpenSet]; [None] is an error. *)
Definition loadOpenSet (f : open_file) : option openSet :=
  match f with
  | NoFile => Some {| ids := ∅; disk := f |}
  | CurrentFormat m => Some {| ids := m; disk := f |}
  | LegacyFormat l => Some {| ids := foldl (fun m id => <[id := ""%string]> m) ∅ l; disk := f |}
  | BadFile => None
  end.

(** [saveLocked]: the rename at its end either happens or not. *)
Definition saveLocked (ok : bool) (s : openSet) : openSet * bool :=
  if ok then ({| ids := ids s; disk := CurrentFormat (ids s) |}, true) else (s, false).

Definition add (ok : bool) (id session : string) (s : openSet) : openSet * bool :=
  saveLocked ok {| ids := <[id := session]> (ids s); disk := disk s |}.

(** In Go's map order, which is unspecified. *)
Definition list_ids (s : openSet) : list string := (map_to_list (ids s)).*1.

(** The outcomes of one finalisation: the clock, the audit append, the save. *)
Record io := { now : Z; append_ok : bool; save_ok : bool }.

(** The result: the set, the audit writer, (ok, err == nil). *)
Definition finalize (o : io) (aw : option Audit.Writer) (board id detail : string) (s : openSet)
  : openSet * option Audit.Writer * (bool * bool) :=
  match ids s !! id with
  | None => (s, aw, (false, true))
  | Some session =>
      let rec := {| Audit.Board := board; Audit.Session := session; Audit.Transport := "";
                    Audit.Seq := 0; Audit.Timestamp := 0; Audit.Kind := "result";
                    Audit.Detail := detail |} in
      let '(aw', written) :=
        match aw with
        | None => (None, true)
        | Some w => let '(w', r) := Audit.Append (now o) (append_ok o) rec w in
                    (Some w', match r with Some _ => true | None => false end)
        end in
      if negb written then (s, aw', (false, false))
      else
        let '(s', saved) := saveLocked (save_ok o) {| ids := delete id (ids s); disk := disk s |} in
        (s', aw', (true, saved))
  end.

(** ** Details *)

Definition status_text (s : Status) : string :=
  match s with
  | StatusCompleted => "completed"
  | StatusTimeout => "timeout"
  | StatusDisconnected => "disconnected"
  | StatusInterruptedByUser => "interrupted-by-user"
  | StatusProtocolError => "protocol-error"
  | StatusTargetRebooted => "target-rebooted"
  | StatusDaemonRestarted => "daemon-restarted"
  end.

Definition resultDetail (txID : string) (res : Command.Result) : string :=
  "transaction=" +:+ txID +:+ " status=" +:+ status_text (res_Status res) +:+
  match ExitCode res with
  | Some code => " exit_code=" +:+ of_bytes (dec_Z code)
  | None => ""
  end.

Definition restartedDetail (txID : string) : string :=
  "transaction=" +:+ txID +:+ " status=daemon-restarted".

(** ** Reconciler and recovery *)

(** The loop over a list of open transactions; [ios] gives the outcomes in
    turn, [res] is [coord.Result]. *)
Fixpoint reconcile_loop (res : string -> option Command.Result) (board : string)
    (todo : list (string * io)) (aw : option Audit.Writer) (s : openSet)
  : openSet * option Audit.Writer :=
  match todo with
  | [] => (s, aw)
  | (txID, o) :: todo =>
      match res txID with
      | None => reconcile_loop res board todo aw s
      | Some r =>
          let '(s', aw', _) := finalize o aw board txID (resultDetail txID r) s in
          reconcile_loop res board todo aw' s'
      end
  end.

Definition reconcileOpenTransactions (res : string -> option Command.Result) (board : string)
    (ios : string -> io) (aw : option Audit.Writer) (s : openSet) : openSet * option Audit.Writer :=
  reconcile_loop res board ((fun id => (id, ios id)) <$> list_ids s) aw s.

(** The loop of recovery: it stops at the first error. *)
Fixpoint recover_loop (board : string) (todo : list (string * io)) (aw : option Audit.Writer)
    (s : openSet) : openSet * option Audit.Writer * bool :=
  match todo with
  | [] => (s, aw, true)
  | (txID, o) :: todo =>
      let '(s', aw', (_, fine)) := finalize o aw board txID (restartedDetail txID) s in
      if fine then recover_loop board todo aw' s' else (s', aw', false)
  end.

Definition recoverIncompleteTransactions (board : string) (ios : string -> io)
    (aw : option Audit.Writer) (s : openSet) : openSet * option Audit.Writer * bool :=
  recover_loop board ((fun id => (id, ios id)) <$> list_ids s) aw s.

(** ** Runs *)

(** Identifiers have no space: they are "txn-" and hexadecimal digits. *)
Definition no_space (id : string) : Prop := " "%char ∉ to_bytes id.

(** The daemon's durable bookkeeping, with the transactions ever added. *)
Record books := { open_set : openSet; audit : Audit.Writer; added : gset string }.

(** Both wordings below have this shape. *)
Definition detail_of (id rest : string) : string := "transaction=" +:+ id +:+ " status=" +:+ rest.

(** The two ways a terminal record is worded. *)
Inductive terminal (id : string) : string -> Prop :=
| terminal_result res : terminal id (resultDetail id res)
| terminal_restarted : terminal id (restartedDetail id).

(** The steps of the dispatcher and of the reconciler (one iteration of its
    loop) in any order, other audit records, and restarts. Saves succeed;
    audit appends may fail. *)
Inductive books_step (b : books) : books -> Prop :=
| bs_add id session :
    id ∉ added b -> no_space id ->
    books_step b {| open_set := fst (add true id session (open_set b)); audit := audit b;
                    added := {[id]} ∪ added b |}
| bs_finalize t ok board id detail s' w' r :
    terminal id detail ->
    finalize {| now := t; append_ok := ok; save_ok := true |} (Some (audit b)) board id detail
      (open_set b) = (s', Some w', r) ->
    books_step b {| open_set := s'; audit := w'; added := added b |}
| bs_other t ok rec :
    Audit.Kind rec <> "result"%string ->
    books_step b {| open_set := open_set b; audit := fst (Audit.Append t ok rec (audit b));
                    added := added b |}
| bs_restart board ios s0 s' w' r :
    (forall id, save_ok (ios id) = true) ->
    loadOpenSet (disk (open_set b)) = Some s0 ->
    recoverIncompleteTransactions board ios (Some (Audit.NewWriter (Audit.file (audit b)))) s0 =
      (s', Some w', r) ->
    books_step b {| open_set := s'; audit := w'; added := added b |}.

(** The same bookkeeping when any file operation may fail: a save that fails
    is where the daemon may die. [added] holds the transactions whose entry
    was saved; the dispatcher adds them after the approval and ignores the
    error of the save. *)
Inductive life_step (b : books) : books -> Prop :=
| ls_add ok id session :
    life_step b {| open_set := fst (add ok id session (open_set b)); audit := audit b;
                   added := if snd (add ok id session (open_set b)) then {[id]} ∪ added b
                            else added b |}
| ls_finalize o board id detail s' w' r :
    terminal id detail ->
    finalize o (Some (audit b)) board id detail (open_set b) = (s', Some w', r) ->
    life_step b {| open_set := s'; audit := w'; added := added b |}
| ls_reconcile res board ios s' w' :
    reconcileOpenTransactions res board ios (Some (audit b)) (open_set b) = (s', Some w') ->
    life_step b {| open_set := s'; audit := w'; added := added b |}
| ls_other t ok rec :
    life_step b {| open_set := open_set b; audit := fst (Audit.Append t ok rec (audit b));
                   added := added b |}
| ls_restart board ios s0 s' w' r :
    loadOpenSet (disk (open_set b)) = Some s0 ->
    recoverIncompleteTransactions board ios (Some (Audit.NewWriter (Audit.file (audit b)))) s0 =
      (s', Some w', r) ->
    life_step b {| open_set := s'; audit := w'; added := added b |}.

Definition empty_books : books :=
  {| open_set := {| ids := ∅; disk := NoFile |}; audit := Audit.NewWriter []; added := ∅ |}.

(** A terminal record of this transaction. *)
Definition is_result_of (id : string) (r : Audit.Record_) : bool :=
  String.eqb (Audit.Kind r) "result" &&
  HasPrefix (Audit.Detail r) ("transaction=" +:+ id +:+ " ").

Definition results_of (id : string) (w : Audit.Writer) : list Audit.Record_ :=
  List.filter (is_result_of id) (Audit.file w).

(** ** Lemmas *)

Lemma prefix_app_str a b : HasPrefix (a +:+ b) a = true.
Proof. unfold HasPrefix. induction a as [|c a IH]; simpl; [by destruct b|]. by destruct (ascii_dec c c). Qed.

Lemma prefix_cancel a b c : HasPrefix (a +:+ b) (a +:+ c) = HasPrefix b c.
Proof. unfold HasPrefix. induction a as [|x a IH]; simpl; [done|]. by destruct (ascii_dec x x). Qed.

Lemma app_cons c a b : String c a +:+ b = String c (a +:+ b).
Proof. done. Qed.

Lemma app_empty a : "" +:+ a = a.
Proof. done. Qed.

Lemma prefix_sep x id id' rest :
  x ∉ to_bytes id -> x ∉ to_bytes id' ->
  HasPrefix (id' +:+ String x rest) (id +:+ String x "") = true -> id = id'.
Proof.
  unfold HasPrefix. revert id'. induction id as [|c id IH]; intros [|c' id'] H1 H2 Hp;
    rewrite ?app_cons, ?app_empty in Hp; cbn in H1, H2, Hp; try done.
  - apply not_elem_of_cons in H2 as [H2 _]. by destruct (ascii_dec x c').
  - apply not_elem_of_cons in H1 as [H1 _]. destruct (ascii_dec c x) as [E|]; [by destruct H1|done].
  - destruct (ascii_dec c c') as [<-|]; [|done]. f_equal.
    apply not_elem_of_cons in H1 as [_ H1]. apply not_elem_of_cons in H2 as [_ H2]. by apply IH.
Qed.

Lemma prefix_space id id' rest :
  no_space id -> no_space id' ->
  HasPrefix (id' +:+ (" " +:+ rest)) (id +:+ " ") = true -> id = id'.
Proof. apply prefix_sep. Qed.

Lemma resultDetail_of id res : exists rest, resultDetail id res = detail_of id rest.
Proof. by eexists. Qed.

Lemma terminal_of id d : terminal id d -> exists rest, d = detail_of id rest.
Proof. intros []; [apply resultDetail_of|by eexists]. Qed.

Lemma detail_is_result id id' rest r :
  no_space id -> no_space id' -> Audit.Kind r = "result"%string -> Audit.Detail r = detail_of id' rest ->
  is_result_of id r = bool_decide (id = id').
Proof.
  intros H1 H2 Hk Hd. unfold is_result_of. rewrite Hk, Hd. unfold detail_of.
  rewrite prefix_cancel. change (" status=" +:+ rest) with (" " +:+ ("status=" +:+ rest)).
  case_bool_decide as E.
  - subst. rewrite prefix_cancel. reflexivity.
  - apply andb_false_iff. right. apply not_true_is_false. intros Hp. apply E.
    by apply prefix_space in Hp.
Qed.

Definition open_count (id : string) (s : openSet) : nat :=
  if ids s !! id is Some _ then 1%nat else 0%nat.

(** The invariant of the bookkeeping. *)
Record booked (s : openSet) (w : Audit.Writer) (ever : gset string) : Prop := {
  bk_disk : (disk s = NoFile /\ ids s = ∅) \/ disk s = CurrentFormat (ids s);
  bk_open : forall id, is_Some (ids s !! id) -> id ∈ ever;
  bk_names : forall id, id ∈ ever -> no_space id;
  bk_once : forall id, no_space id ->
    (open_count id s + length (results_of id w) = if decide (id ∈ ever) then 1 else 0)%nat
}.

(** What one append adds to the results of a transaction. *)
Lemma results_of_append id t ok rec w :
  length (results_of id (fst (Audit.Append t ok rec w))) =
  (length (results_of id w) + (if ok && is_result_of id rec then 1 else 0))%nat.
Proof.
  unfold results_of, Audit.Append, AppendJSONL. destruct ok; simpl; [|lia].
  rewrite List.filter_app, length_app. simpl.
  change (is_result_of id _) with (is_result_of id rec). by destruct (is_result_of id rec).
Qed.

Lemma booked_finalize s w ever t ok board id detail s' w' r :
  booked s w ever -> terminal id detail ->
  finalize {| now := t; append_ok := ok; save_ok := true |} (Some w) board id detail s =
    (s', Some w', r) ->
  booked s' w' ever.
Proof.
  intros [Hd Ho Hn Hc] Hdet Hf. unfold finalize in Hf.
  destruct (ids s !! id) as [session|] eqn:Hid; [|by simplify_eq].
  set (rec := Audit.Build_Record_ _ _ _ _ _ _ _) in Hf. cbn [now append_ok save_ok] in Hf.
  destruct (Audit.Append t ok rec w) as [w1 o] eqn:Ha.
  assert (Hid_in : id ∈ ever) by (apply Ho; by eexists).
  assert (Hw1 : w1 = fst (Audit.Append t ok rec w)) by by rewrite Ha.
  assert (Ho1 : o = if ok then o else None) by (destruct ok; [done|]; by injection Ha as <- <-).
  assert (Ho2 : ok = true -> exists x, o = Some x) by (intros ->; injection Ha as <- <-; by eexists).
  assert (Hres : forall k, no_space k -> is_result_of k rec = bool_decide (k = id)).
  { intros k Hk. destruct (terminal_of _ _ Hdet) as [rest Hrest].
    by apply (detail_is_result k id rest); [|apply Hn|..]. }
  destruct ok.
  - destruct (Ho2 eq_refl) as [x ->]. cbn in Hf. injection Hf as <- <- _.
    split; cbn [ids disk]; [by right|..|done|].
    + intros k [v Hv]. apply lookup_delete_Some in Hv as [_ Hv]. apply Ho. by eexists.
    + intros k Hk. rewrite Hw1, results_of_append, (Hres k Hk), <-(Hc k Hk).
      unfold open_count. cbn [ids]. case_bool_decide as E; cbn [andb].
      * subst k. rewrite lookup_delete_eq, Hid. lia.
      * rewrite lookup_delete_ne by done. lia.
  - subst o. cbn in Hf. injection Hf as <- <- _. split; [done..|].
    intros k Hk. rewrite Hw1, results_of_append. cbn [andb]. rewrite <-(Hc k Hk). lia.
Qed.

Lemma finalize_some_writer o w board id detail s :
  exists s' w' r, finalize o (Some w) board id detail s = (s', Some w', r).
Proof.
  unfold finalize. destruct (ids s !! id); [|by eauto].
  destruct (Audit.Append _ _ _ w) as [w1 [x|]]; cbn; [|by eauto].
  destruct (saveLocked _ _). by eauto.
Qed.

Lemma recover_writer board todo w s s' aw' r :
  recover_loop board todo (Some w) s = (s', aw', r) -> exists w', aw' = Some w'.
Proof.
  revert w s. induction todo as [|[id o] todo IH]; intros w s Hr; cbn [recover_loop] in Hr; [simplify_eq; by exists w|].
  destruct (finalize_some_writer o w board id (restartedDetail id) s) as (s1 & w1 & [okr fine] & Hf).
  rewrite Hf in Hr. destruct fine; [by apply (IH w1 s1)|simplify_eq; by exists w1].
Qed.

Lemma booked_recover board todo s w ever s' w' r :
  Forall (fun p => save_ok p.2 = true) todo -> booked s w ever ->
  recover_loop board todo (Some w) s = (s', Some w', r) -> booked s' w' ever.
Proof.
  revert s w. induction todo as [|[id [t ok sv]] todo IH]; intros s w Hsv Hb Hr.
  { by simplify_eq/=. }
  apply Forall_cons in Hsv as [Hs Hsv]. cbn in Hs. subst sv. cbn [recover_loop] in Hr.
  destruct (finalize_some_writer {| now := t; append_ok := ok; save_ok := true |} w board id
    (restartedDetail id) s) as (s1 & w1 & [okr fine] & Hf).
  rewrite Hf in Hr. pose proof (booked_finalize _ _ _ _ _ _ _ _ _ _ _ Hb (terminal_restarted id) Hf).
  destruct fine; [by apply (IH s1 w1)|by simplify_eq].
Qed.

Lemma booked_load s w ever s0 :
  booked s w ever -> loadOpenSet (disk s) = Some s0 -> booked s0 (Audit.NewWriter (Audit.file w)) ever.
Proof.
  intros [Hd Ho Hn Hc] Hl.
  assert (E : ids s0 = ids s /\ disk s0 = disk s).
  { destruct Hd as [[Hd Hi]|Hd]; rewrite Hd in Hl; injection Hl as <-; by rewrite ?Hi. }
  destruct E as [E1 E2]. split; rewrite ?E1, ?E2; try done.
  intros k Hk. rewrite <-(Hc k Hk). unfold open_count. by rewrite E1.
Qed.

Lemma booked_step b b' :
  books_step b b' -> booked (open_set b) (audit b) (added b) ->
  booked (open_set b') (audit b') (added b').
Proof.
  intros Hs Hb. destruct Hs as [id session Hnew Hns|t ok board id detail s' w' r Hdet Hf|t ok rec Hk|
    board ios s0 s' w' r Hio Hl Hr]; cbn [open_set audit added].
  - destruct Hb as [Hd Ho Hn Hc]. split; cbn [add saveLocked fst ids disk]; [by right|..].
    + intros k [v Hv]. destruct (decide (k = id)) as [->|Hne]; [set_solver|].
      rewrite lookup_insert_ne in Hv by done. apply elem_of_union_r, Ho. by eexists.
    + intros k [->%elem_of_singleton|Hk]%elem_of_union; [done|by apply Hn].
    + intros k Hk. unfold open_count. cbn [ids]. destruct (decide (k = id)) as [->|Hne].
      * rewrite lookup_insert_eq, decide_True by set_solver. specialize (Hc id Hk).
        rewrite decide_False in Hc by done. lia.
      * rewrite lookup_insert_ne by done. specialize (Hc k Hk). unfold open_count in Hc. rewrite Hc.
        repeat case_decide; set_solver.
  - by eapply booked_finalize.
  - destruct Hb as [Hd Ho Hn Hc]. split; [done..|]. intros k Hk'. rewrite results_of_append.
    replace (is_result_of k rec) with false; [rewrite andb_false_r, <-(Hc k Hk'); lia|].
    unfold is_result_of. symmetry. apply andb_false_iff. left. by apply String.eqb_neq.
  - eapply booked_recover; [|by eapply booked_load|exact Hr].
    apply Forall_forall. intros p (id & -> & _)%list_elem_of_fmap. apply Hio.
Qed.

Lemma booked_run b : rtc books_step empty_books b -> booked (open_set b) (audit b) (added b).
Proof.
  intros H. apply (rtc_ind_r (R := books_step) (fun b => booked (open_set b) (audit b) (added b))
    empty_books); [..|done].
  - split; cbn; [by left|by intros id []|set_solver|]. intros id _. case_decide; [set_solver|done].
  - intros x y _ Hs Hb. by eapply booked_step.
Qed.

(** A finalisation that succeeds leaves its transaction closed and closes
    no other. *)
Lemma finalize_closes o aw board id detail s s' aw' ok :
  finalize o aw board id detail s = (s', aw', (ok, true)) -> ids s' = delete id (ids s).
Proof.
  unfold finalize. destruct (ids s !! id) eqn:Hid.
  - destruct aw as [w|]; cbn.
    + unfold AppendJSONL, saveLocked. destruct (append_ok o), (save_ok o); intros; by simplify_eq/=.
    + unfold saveLocked. destruct (save_ok o); intros; by simplify_eq/=.
  - intros. simplify_eq. by rewrite delete_id.
Qed.

Lemma recover_closes board todo aw s s' aw' id :
  recover_loop board todo aw s = (s', aw', true) ->
  ids s !! id = None \/ id ∈ todo.*1 -> ids s' !! id = None.
Proof.
  revert s aw. induction todo as [|[k o] todo IH]; intros s aw Hr Hid; cbn [recover_loop] in Hr.
  { simplify_eq. destruct Hid as [Hid|Hid]; [done|by apply elem_of_nil in Hid]. }
  destruct (finalize _ _ _ _ _ _) as [[s1 aw1] [okr fine]] eqn:Hf. destruct fine; [|by simplify_eq].
  apply (IH _ _ Hr). apply finalize_closes in Hf. rewrite Hf, lookup_delete_None.
  destruct Hid as [Hid|Hid]; [by left; right|].
  apply list_elem_of_fmap in Hid as ([k' o'] & -> & [Hin|Hin]%elem_of_cons).
  - left; left. by injection Hin as -> ->.
  - right. apply list_elem_of_fmap. by exists (k', o').
Qed.

Lemma recover_all board ios aw s s' aw' id :
  recoverIncompleteTransactions board ios aw s = (s', aw', true) -> ids s' !! id = None.
Proof.
  intros Hr. apply (recover_closes _ _ _ _ _ _ id Hr).
  destruct (ids s !! id) as [v|] eqn:Hid; [right|by left].
  rewrite <-list_fmap_compose. apply list_elem_of_fmap. exists id. split; [done|].
  apply list_elem_of_fmap. exists (id, v). split; [done|]. by apply elem_of_map_to_list.
Qed.

(** ** Failing saves *)

(** The entry of a transaction, or its result. *)
Definition kept (m : gmap string string) (w : Audit.Writer) (id : string) : Prop :=
  is_Some (m !! id) \/ results_of id w <> [].

(** Both the set in memory and what the file loads to keep every saved
    transaction: the next save may write the former, a crash leaves the
    latter. *)
Record remembered (s : openSet) (w : Audit.Writer) (ever : gset string) : Prop := {
  rm_load : exists s0, loadOpenSet (disk s) = Some s0 /\ forall id, id ∈ ever -> kept (ids s0) w id;
  rm_memory : forall id, id ∈ ever -> kept (ids s) w id
}.

Lemma results_kept m t ok rec w id :
  kept m w id -> kept m (fst (Audit.Append t ok rec w)) id.
Proof.
  intros [H|H]; [by left|right]. intros E. apply H, length_zero_iff_nil.
  pose proof (results_of_append id t ok rec w) as L. rewrite E in L. cbn in L. lia.
Qed.

(** A terminal record on file keeps its transaction, entry or no entry. *)
Lemma result_keeps m t rec w id :
  is_result_of id rec = true -> kept m (fst (Audit.Append t true rec w)) id.
Proof.
  intros H. right. intros E. pose proof (results_of_append id t true rec w) as L.
  rewrite E, H in L. cbn in L. lia.
Qed.

Lemma own_result id detail rec :
  terminal id detail -> Audit.Kind rec = "result"%string -> Audit.Detail rec = detail ->
  is_result_of id rec = true.
Proof.
  intros [rest ->]%terminal_of Hk Hd. unfold is_result_of. rewrite Hk, Hd. unfold detail_of.
  rewrite prefix_cancel. change (" status=" +:+ rest) with (" " +:+ ("status=" +:+ rest)).
  by rewrite prefix_cancel.
Qed.

Lemma remembered_append s w ever t ok rec :
  remembered s w ever -> remembered s (fst (Audit.Append t ok rec w)) ever.
Proof.
  intros [(s0 & Hl & H0) Hm]. split; [exists s0; split; [done|]|]; intros k Hk; by apply results_kept; auto.
Qed.

(** A save puts on file what memory keeps; one that fails leaves the file. *)
Lemma remembered_save ok s w ever :
  remembered s w ever -> remembered (fst (saveLocked ok s)) w ever.
Proof.
  intros [Hl Hm]. destruct ok; [|by split]. split; [|done]. by exists {| ids := ids s; disk := CurrentFormat (ids s) |}.
Qed.

Lemma remembered_finalize o s w ever board id detail s' w' r :
  remembered s w ever -> terminal id detail ->
  finalize o (Some w) board id detail s = (s', Some w', r) -> remembered s' w' ever.
Proof.
  intros Hr Ht Hf. unfold finalize in Hf.
  destruct (ids s !! id) as [session|] eqn:Hid; [|by simplify_eq].
  set (rec := Audit.Build_Record_ _ _ _ _ _ _ _) in Hf.
  pose proof (remembered_append s w ever (now o) (append_ok o) rec Hr) as Hr1.
  destruct (Audit.Append _ _ rec w) as [w1 x] eqn:Ha. cbn [fst] in Hr1.
  destruct x as [x|]; cbn [negb] in Hf; [|by injection Hf as <- <- _].
  assert (Hok : append_ok o = true) by (destruct (append_ok o); [done|by cbn in Ha; simplify_eq]).
  assert (Hw1 : w1 = fst (Audit.Append (now o) true rec w)) by by rewrite <-Hok, Ha.
  destruct (saveLocked _ _) as [s1 saved] eqn:Hs. injection Hf as <- <- _.
  replace s1 with (fst (saveLocked (save_ok o) {| ids := delete id (ids s); disk := disk s |}))
    by by rewrite Hs.
  apply remembered_save. destruct Hr1 as [Hl Hm]. split; [exact Hl|]. intros k Hk. cbn [ids].
  destruct (decide (k = id)) as [->|Hne]; [subst w1; by apply result_keeps, (own_result id detail)|].
  destruct (Hm k Hk); [left; by rewrite lookup_delete_ne|by right].
Qed.

Lemma remembered_reconcile res board todo s w ever s' w' :
  remembered s w ever -> reconcile_loop res board todo (Some w) s = (s', Some w') ->
  remembered s' w' ever.
Proof.
  revert s w. induction todo as [|[id o] todo IH]; intros s w Hr Hl; cbn [reconcile_loop] in Hl.
  { by simplify_eq. }
  destruct (res id) as [x|]; [|by apply (IH s w)].
  destruct (finalize_some_writer o w board id (resultDetail id x) s) as (s1 & w1 & r & Hf).
  rewrite Hf in Hl. apply (IH s1 w1); [|done].
  exact (remembered_finalize _ _ _ _ _ _ _ _ _ _ Hr (terminal_result id x) Hf).
Qed.

Lemma remembered_recover board todo s w ever s' w' r :
  remembered s w ever -> recover_loop board todo (Some w) s = (s', Some w', r) ->
  remembered s' w' ever.
Proof.
  revert s w. induction todo as [|[id o] todo IH]; intros s w Hr Hl; cbn [recover_loop] in Hl.
  { by simplify_eq. }
  destruct (finalize_some_writer o w board id (restartedDetail id) s) as (s1 & w1 & [okr fine] & Hf).
  rewrite Hf in Hl. pose proof (remembered_finalize _ _ _ _ _ _ _ _ _ _ Hr (terminal_restarted id) Hf).
  destruct fine; [by apply (IH s1 w1)|by simplify_eq].
Qed.

Lemma loaded_disk f s : loadOpenSet f = Some s -> disk s = f.
Proof. intros H. destruct f; by simplify_eq/=. Qed.

Lemma remembered_load s w ever s0 :
  remembered s w ever -> loadOpenSet (disk s) = Some s0 ->
  remembered s0 (Audit.NewWriter (Audit.file w)) ever.
Proof.
  intros [(s1 & Hl & H1) _] H0. rewrite H0 in Hl. injection Hl as <-.
  split; [|exact H1]. exists s0. by rewrite (loaded_disk _ _ H0).
Qed.

Lemma remembered_step b b' :
  life_step b b' -> remembered (open_set b) (audit b) (added b) ->
  remembered (open_set b') (audit b') (added b').
Proof.
  intros Hs Hr. destruct Hs as [ok id session|o board id detail s' w' r Ht Hf|res board ios s' w' Hf|
    t ok rec|board ios s0 s' w' r Hl Hf]; cbn [open_set audit added].
  - destruct Hr as [Hl Hm].
    assert (Hin : forall k, k ∈ {[id]} ∪ added b -> kept (<[id := session]> (ids (open_set b))) (audit b) k).
    { intros k Hk. destruct (decide (k = id)) as [->|Hne]; [left; by rewrite lookup_insert_eq|].
      destruct (Hm k) as [H|H]; [set_solver|left; by rewrite lookup_insert_ne|by right]. }
    destruct ok; cbn [add saveLocked fst snd]; split; cbn [ids disk]; try done.
    + by exists {| ids := <[id := session]> (ids (open_set b));
                   disk := CurrentFormat (<[id := session]> (ids (open_set b))) |}.
    + intros k Hk. apply Hin. set_solver.
  - by eapply remembered_finalize.
  - by eapply remembered_reconcile.
  - by apply remembered_append.
  - eapply remembered_recover; [by eapply remembered_load|exact Hf].
Qed.

Lemma remembered_run b : rtc life_step empty_books b -> remembered (open_set b) (audit b) (added b).
Proof.
  intros H. apply (rtc_ind_r (R := life_step)
    (fun b => remembered (open_set b) (audit b) (added b)) empty_books); [..|done].
  - split; [exists {| ids := ∅; disk := NoFile |}; split; [done|]|]; set_solver.
  - intros x y _ Hs Hb. by eapply remembered_step.
Qed.

(** ** Properties *)

(** C12. Every approved transaction is finalised exactly once. Whatever the
    order in which the dispatcher, the reconciler and the recovery at startup
    finalise transactions, with audit appends that fail and daemons that
    restart, and as long as the open set is saved when it should be, a
    transaction that was added is open and has no terminal record, or is
    closed and has exactly one; a transaction never added has none. After a
    restart whose recovery succeeds nothing is open, so every transaction
    ever added has its one terminal record. *)
Theorem finalized_exactly_once b id :
  rtc books_step empty_books b -> no_space id ->
  length (results_of id (audit b)) =
    (if decide (id ∈ added b) then if ids (open_set b) !! id is Some _ then 0 else 1 else 0)%nat /\
  (forall board ios s0 s' w', (forall k, save_ok (ios k) = true) ->
     loadOpenSet (disk (open_set b)) = Some s0 ->
     recoverIncompleteTransactions board ios (Some (Audit.NewWriter (Audit.file (audit b)))) s0 =
       (s', Some w', true) ->
     length (results_of id w') = if decide (id ∈ added b) then 1%nat else 0%nat).
Proof.
  intros Hrun Hns. pose proof (booked_run b Hrun) as Hb. split.
  - pose proof (bk_once _ _ _ Hb id Hns) as Hc. unfold open_count in Hc.
    destruct (ids (open_set b) !! id) as [v|] eqn:Hid; [|done].
    rewrite decide_True in Hc |- * by (apply (bk_open _ _ _ Hb); by eexists). lia.
  - intros board ios s0 s' w' Hio Hl Hr.
    assert (Hb' : booked s' w' (added b)).
    { exact (booked_step b _ (bs_restart b board ios s0 s' w' true Hio Hl Hr) Hb). }
    pose proof (bk_once _ _ _ Hb' id Hns) as Hc. unfold open_count in Hc.
    by rewrite (recover_all _ _ _ _ _ _ id Hr) in Hc.
Qed.

(** A run: two transactions, one finalised, then a crash. *)
Definition demo_books : books :=
  {| open_set := {| ids := {["b" := "s"]}; disk := CurrentFormat {["b" := "s"]} |};
     audit := {| Audit.seq := 1; Audit.file :=
       [{| Audit.Board := "x"; Audit.Session := "s"; Audit.Transport := ""; Audit.Seq := 1;
           Audit.Timestamp := 7; Audit.Kind := "result";
           Audit.Detail := "transaction=a status=daemon-restarted" |}] |};
     added := {["b"]} ∪ ({["a"]} ∪ ∅) |}.

Lemma demo_books_run : rtc books_step empty_books demo_books.
Proof.
  eapply rtc_l; [apply (bs_add _ "a" "s"); [set_solver|apply (bool_decide_unpack _); by vm_compute]|].
  eapply rtc_l; [apply (bs_add _ "b" "s"); [set_solver|apply (bool_decide_unpack _); by vm_compute]|].
  eapply rtc_l; [eapply (bs_finalize _ 7 true "x" "a" _ _ _ _ (terminal_restarted "a")); by vm_compute|].
  apply rtc_refl.
Qed.

Lemma finalized_exactly_once_witness :
  length (results_of "a" (audit demo_books)) = 1%nat.
Proof.
  destruct (finalized_exactly_once demo_books "a" demo_books_run) as [H _].
  - apply (bool_decide_unpack _). by vm_compute.
  - exact H.
Defined.

(** C13. No transaction whose entry was saved is forgotten, whatever fails. In every run
    of additions, finalisations, passes of the reconciler, other audit records
    and restarts, in which every audit append and every save may fail and the
    daemon may die after any of them, the open set's file always loads, and
    every transaction whose entry was once saved is still in what it loads to
    or has a terminal record in the audit log. After a restart whose recovery
    reports no error, each of them has a terminal record, also when the
    recoveries before it failed half way. *)
Theorem never_forgotten b :
  rtc life_step empty_books b ->
  exists s0, loadOpenSet (disk (open_set b)) = Some s0 /\
    forall id, id ∈ added b ->
      (is_Some (ids s0 !! id) \/ results_of id (audit b) <> []) /\
      (forall board ios s' w',
         recoverIncompleteTransactions board ios (Some (Audit.NewWriter (Audit.file (audit b)))) s0 =
           (s', Some w', true) ->
         results_of id w' <> []).
Proof.
  intros Hrun. pose proof (remembered_run b Hrun) as Hr. destruct (rm_load _ _ _ Hr) as (s0 & Hl & H0).
  exists s0. split; [done|]. intros id Hid. split; [by apply H0|]. intros board ios s' w' Hrec.
  pose proof (remembered_step b _ (ls_restart b board ios s0 s' w' true Hl Hrec) Hr) as Hr'.
  destruct (rm_memory _ _ _ Hr' id Hid) as [[v Hv]|H]; [|done].
  cbn in Hv. by rewrite (recover_all _ _ _ _ _ _ id Hrec) in Hv.
Qed.

(** A run whose last save fails after the terminal record was written. *)
Definition demo_torn_books : books :=
  {| open_set := {| ids := ∅; disk := CurrentFormat {["a" := "s"]} |};
     audit := {| Audit.seq := 1; Audit.file :=
       [{| Audit.Board := "x"; Audit.Session := "s"; Audit.Transport := ""; Audit.Seq := 1;
           Audit.Timestamp := 7; Audit.Kind := "result";
           Audit.Detail := "transaction=a status=daemon-restarted" |}] |};
     added := {["a"]} ∪ ∅ |}.

Lemma demo_torn_books_run : rtc life_step empty_books demo_torn_books.
Proof.
  eapply rtc_l; [apply (ls_add _ true "a" "s")|].
  eapply rtc_l; [eapply (ls_finalize _ {| now := 7; append_ok := true; save_ok := false |} "x" "a" _ _ _ _
                           (terminal_restarted "a")); by vm_compute|].
  apply rtc_refl.
Qed.

Lemma never_forgotten_witness : exists s0 s' w',
  loadOpenSet (disk (open_set demo_torn_books)) = Some s0 /\
  recoverIncompleteTransactions "x" (fun _ => {| now := 8; append_ok := true; save_ok := true |})
    (Some (Audit.NewWriter (Audit.file (audit demo_torn_books)))) s0 = (s', Some w', true) /\
  results_of "a" w' <> [].
Proof.
  destruct (never_forgotten demo_torn_books demo_torn_books_run) as (s0 & Hl & H0).
  destruct (H0 "a") as [_ H]; [set_solver|]. injection Hl as <-. eexists _, _, _.
  assert (E := eq_refl (recoverIncompleteTransactions "x"
    (fun _ => {| now := 8; append_ok := true; save_ok := true |})
    (Some (Audit.NewWriter (Audit.file (audit demo_torn_books))))
    {| ids := {["a" := "s"]}; disk := CurrentFormat {["a" := "s"]} |})).
  set (r := recoverIncompleteTransactions _ _ _ _) in E at 2. vm_compute in r. subst r.
  split; [by vm_compute|]. split; [exact E|]. by apply H in E.
Defined.

(** A transaction whose entry could not be saved is forgotten by a crash: the
    restart finds nothing open and records no terminal status for it, although
    the dispatcher has reported the approval. *)
Lemma unsaved_is_forgotten id session board ios s0 :
  loadOpenSet (disk (fst (add false id session (open_set empty_books)))) = Some s0 ->
  recoverIncompleteTransactions board ios (Some (Audit.NewWriter [])) s0 =
    (s0, Some (Audit.NewWriter []), true).
Proof. intros H. injection H as <-. reflexivity. Qed.

(** A save that fails after the terminal record was written. *)
Definition failed_save : io := {| now := 1; append_ok := true; save_ok := false |}.
Definition good_io : io := {| now := 2; append_ok := true; save_ok := true |}.

(** When the save after the audit append fails, a restart finds the entry on
    disk and records a second terminal status for the same transaction:
    whatever the real result was, it is followed by daemon-restarted. *)
Lemma failed_save_relabels res board :
  let s := fst (add true "txn-a" "sess" {| ids := ∅; disk := NoFile |}) in
  let '(s1, w1, r1) := finalize failed_save (Some (Audit.NewWriter [])) board "txn-a"
                         (resultDetail "txn-a" res) s in
  let '(s3, w3, _) := recoverIncompleteTransactions board (fun _ => good_io)
                        (option_map (fun w => Audit.NewWriter (Audit.file w)) w1)
                        (default s (loadOpenSet (disk s1))) in
  r1 = (true, false) /\
  (Audit.Detail <$> default [] (Audit.file <$> w3)) =
    [resultDetail "txn-a" res; restartedDetail "txn-a"].
Proof. generalize (resultDetail "txn-a" res). intros d. vm_compute. by split. Qed.
