(* ===== verification/Ipc.v ===== *)
(** * IPC server (src/internal/ipc/server_linux.go, src/internal/protocol/v1/message.go)

    The newline-delimited frames of a connection, read through a buffered
    reader of any size; the roles and their operation tables; the loop that
    answers one connection. The request decoder and the dispatcher are
    parameters. *)

From S2P Require Import Prelude GoStd.

(** ** Protocol *)

Definition Version : string := "1".
Definition MaxFrameBytes : nat := Z.to_nat (2 ^ 20).

Definition OpPortsList : string := "ports.list".
Definition OpSessionStart : string := "session.start".
Definition OpSessionStatus : string := "session.status".
Definition OpSessionEnd : string := "session.end".
Definition OpOutputRead : string := "output.read".
Definition OpCommandPropose : string := "command.propose".
Definition OpCommandList : string := "command.list".
Definition OpRecordsExport : string := "records.export".
Definition OpDiagnoseExecute : string := "diagnose.execute".
Definition OpUnsafeShellExecute : string := "unsafeshell.execute".
Definition OpCommandApprove : string := "command.approve".
Definition OpCommandReject : string := "command.reject".
Definition OpCommandEdit : string := "command.edit".
Definition OpSecretBegin : string := "secret.begin".
Definition OpSecretDone : string := "secret.done".
Definition OpTransportWrite : string := "transport.write".
Definition OpRetryUART : string := "retry.uart".
Definition OpRetrySSH : string := "retry.ssh".
Definition OpRetryTelnet : string := "retry.telnet".
Definition OpTakeover : string := "takeover".
Definition OpHostKeyAccept : string := "hostkey.accept".

(** The error codes, by their Go names. *)
Inductive ErrCode :=
| ErrCodeUnknownVersion | ErrCodeFrameTooLarge | ErrCodePermissionDenied
| ErrCodeUnknownOperation | ErrCodeInvalidPayload | ErrCodeInternal.

Record Request := {
  req_Version : string; RequestID : string; Operation : string; Payload : bytes
}.

(** An error by its code: the message texts are for people. *)
Record Response := {
  resp_Version : string; resp_RequestID : string; Result : option bytes; Error : option ErrCode
}.

(** ** Roles *)

Inductive Role := RoleControl | RoleAttach | RoleDiagnose | RoleUnsafeShell.

#[export] Instance Role_eq_dec : EqDecision Role.
Proof. solve_decision. Defined.

Definition Role_String (r : Role) : string :=
  match r with
  | RoleAttach => "attach"
  | RoleDiagnose => "diagnose"
  | RoleUnsafeShell => "unsafeshell"
  | RoleControl => "control"
  end.

Definition controlAllowed : list string :=
  [OpPortsList; OpSessionStart; OpSessionStatus; OpSessionEnd; OpOutputRead; OpCommandPropose;
   OpCommandList; OpRecordsExport].
Definition diagnoseAllowed : list string := [OpSessionStatus; OpOutputRead; OpDiagnoseExecute].
Definition unsafeShellAllowed : list string :=
  [OpSessionStatus; OpOutputRead; OpUnsafeShellExecute].

Definition permitted (role : Role) (operation : string) : bool :=
  match role with
  | RoleAttach => true
  | RoleDiagnose => bool_decide (operation ∈ diagnoseAllowed)
  | RoleUnsafeShell => bool_decide (operation ∈ unsafeShellAllowed)
  | RoleControl => bool_decide (operation ∈ controlAllowed)
  end.

(** ** Buffered reading *)

Definition newline : ascii := ascii_of_nat 10.

(** The bytes up to and including the first newline, and the rest. *)
Fixpoint cut_line (s : bytes) : option (bytes * bytes) :=
  match s with
  | [] => None
  | c :: s =>
      if Ascii.eqb c newline then Some ([c], s)
      else match cut_line s with Some (l, r) => Some (c :: l, r) | None => None end
  end.

(** The errors of [ReadSlice]. *)
Inductive read_err := ErrBufferFull | ErrConn.

(** A [bufio.Reader] and its connection: what is buffered, and what each
    further read of the connection would deliver; after the last one the
    connection reports an error or its end. *)
Record Reader := { buffered : bytes; pieces : list bytes }.

Definition stream_of (r : Reader) : bytes := buffered r ++ concat (pieces r).

(** What [ReadSlice] returns without reading: a line, or a full buffer. *)
Definition ready (size : nat) (buf : bytes) : option (bytes * option read_err * bytes) :=
  match cut_line buf with
  | Some (l, r) => Some (l, None, r)
  | None => if (size <=? length buf)%nat then Some (buf, Some ErrBufferFull, []) else None
  end.

(** [ReadSlice('\n')] with a buffer of [size] bytes. A read takes at most the
    free space of the buffer; the rest of the piece stays in the connection. *)
Fixpoint ReadSlice_go (size : nat) (buf : bytes) (ps : list bytes)
  : bytes * option read_err * Reader :=
  match ready size buf with
  | Some (l, e, r) => (l, e, {| buffered := r; pieces := ps |})
  | None =>
      match ps with
      | [] => (buf, Some ErrConn, {| buffered := []; pieces := [] |})
      | p :: ps =>
          let space := (size - length buf)%nat in
          if (length p <=? space)%nat then ReadSlice_go size (buf ++ p) ps
          else match ready size (buf ++ take space p) with
               | Some (l, e, r) => (l, e, {| buffered := r; pieces := drop space p :: ps |})
               | None => (buf, Some ErrConn, {| buffered := []; pieces := [] |})
               end
      end
  end.

Definition ReadSlice (size : nat) (r : Reader) : bytes * option read_err * Reader :=
  ReadSlice_go size (buffered r) (pieces r).

(** [bytes.TrimRight(buf, "\n")]. *)
Fixpoint drop_newlines (s : bytes) : bytes :=
  match s with
  | c :: t => if Ascii.eqb c newline then drop_newlines t else s
  | [] => []
  end.
Definition TrimRight (buf : bytes) : bytes := rev (drop_newlines (rev buf)).

Inductive frame := Line (l : bytes) | TooLarge | ConnErr.

(** [readFrame]: each turn of the loop that continues has read a full buffer. *)
Fixpoint readFrame (fuel size max : nat) (buf : bytes) (r : Reader) : option (frame * Reader) :=
  match fuel with
  | O => None
  | S fuel =>
      let '(chunk, err, r) := ReadSlice size r in
      let buf := buf ++ chunk in
      if (max <? length buf)%nat then Some (TooLarge, r)
      else match err with
           | None => Some (Line (TrimRight buf), r)
           | Some ErrBufferFull => readFrame fuel size max buf r
           | Some ErrConn => Some (ConnErr, r)
           end
  end.

(** Enough turns for any frame within the bound. *)
Definition frame_fuel (max : nat) : nat := S (S max).

(** ** One connection *)

(** What the dispatcher returns: an error, no result, or a result with the
    outcome of marshalling it. *)
Inductive dispatched := DErr (e : ErrCode) | DNone | DResult (json : option bytes).

(** The dispatcher of a role, over the daemon's state. *)
Class Dispatcher (S : Type) := Dispatch : Role -> Request -> S -> S * dispatched.

(** [json.Unmarshal] into a request. *)
Class RequestDecoder := Unmarshal : bytes -> option Request.

Section Server.
Context {S : Type} `{Dispatcher S} `{RequestDecoder}.

(** The body of the loop for one frame. *)
Definition answer (role : Role) (line : bytes) (s : S) : S * Response :=
  match Unmarshal line with
  | None => (s, {| resp_Version := Version; resp_RequestID := ""; Result := None;
                   Error := Some ErrCodeInvalidPayload |})
  | Some req =>
      let resp res err := {| resp_Version := Version; resp_RequestID := RequestID req;
                             Result := res; Error := err |} in
      if negb (String.eqb (req_Version req) Version) then
        (s, resp None (Some ErrCodeUnknownVersion))
      else if negb (permitted role (Operation req)) then
        (s, resp None (Some ErrCodePermissionDenied))
      else
        let '(s, out) := Dispatch role req s in
        (s, match out with
            | DErr e => resp None (Some e)
            | DNone => resp None None
            | DResult (Some data) => resp (Some data) None
            | DResult None => resp None (Some ErrCodeInternal)
            end)
  end.

(** The response to an oversized frame carries no version. *)
Definition tooLargeResponse : Response :=
  {| resp_Version := ""; resp_RequestID := ""; Result := None; Error := Some ErrCodeFrameTooLarge |}.

(** [handleConn] with the size of the reader's buffer; the responses in the
    order they are written. *)
Fixpoint handle (fuel size max : nat) (role : Role) (r : Reader) (s : S)
  : option (S * list Response) :=
  match fuel with
  | O => None
  | Datatypes.S fuel =>
      match readFrame (frame_fuel max) size max [] r with
      | None => None
      | Some (ConnErr, _) => Some (s, [])
      | Some (TooLarge, _) => Some (s, [tooLargeResponse])
      | Some (Line l, r) =>
          let '(s, resp) := answer role l s in
          match handle fuel size max role r s with
          | Some (s, resps) => Some (s, resp :: resps)
          | None => None
          end
      end
  end.

(** The whole connection: every frame takes at least one byte. *)
Definition handleConn (role : Role) (conn : list bytes) (s : S) : option (S * list Response) :=
  handle (Datatypes.S (length (concat conn))) 4096 MaxFrameBytes role
    {| buffered := []; pieces := conn |} s.

(** ** Specification *)

Fixpoint answers (role : Role) (ls : list bytes) (s : S) : S * list Response :=
  match ls with
  | [] => (s, [])
  | l :: ls =>
      let '(s, resp) := answer role l s in
      let '(s, resps) := answers role ls s in (s, resp :: resps)
  end.

(** The request of this line, if it reaches the dispatcher. *)
Definition reaches (role : Role) (line : bytes) : option Request :=
  match Unmarshal line with
  | Some req => if String.eqb (req_Version req) Version && permitted role (Operation req)
                then Some req else None
  | None => None
  end.

(** The state after the dispatcher has performed these requests. *)
Definition dispatch_all (role : Role) (reqs : list Request) (s : S) : S :=
  foldl (fun s req => fst (Dispatch role req s)) s reqs.

Lemma answers_dispatch role ls s :
  fst (answers role ls s) = dispatch_all role (omap (reaches role) ls) s.
Proof.
  revert s. induction ls as [|l ls IH]; intros s; [done|]. cbn [answers omap list_omap].
  unfold answer, reaches. destruct (Unmarshal l) as [req|].
  - destruct (String.eqb _ _); cbn [negb andb].
    + destruct (permitted _ _); cbn [negb].
      * destruct (Dispatch role req s) as [s1 out] eqn:Hd. specialize (IH s1).
        destruct (answers role ls s1) as [s2 rs]. cbn in *. by rewrite IH, Hd.
      * specialize (IH s). by destruct (answers role ls s).
    + specialize (IH s). by destruct (answers role ls s).
  - specialize (IH s). by destruct (answers role ls s).
Qed.

End Server.

(** The first frame of a byte stream, without buffers. *)
Definition first_frame (max : nat) (s : bytes) : frame * bytes :=
  match cut_line s with
  | Some (l, rest) => if (max <? length l)%nat then (TooLarge, []) else (Line (TrimRight l), rest)
  | None => if (max <? length s)%nat then (TooLarge, []) else (ConnErr, [])
  end.

(** ** Lemmas *)

Lemma cut_line_app a b :
  cut_line (a ++ b) =
  match cut_line a with
  | Some (l, r) => Some (l, r ++ b)
  | None => match cut_line b with Some (l, r) => Some (a ++ l, r) | None => None end
  end.
Proof.
  induction a as [|c a IH]; simpl; [by destruct (cut_line b) as [[]|]|].
  destruct (Ascii.eqb c newline); [done|]. rewrite IH.
  destruct (cut_line a) as [[]|]; [done|]. by destruct (cut_line b) as [[]|].
Qed.

Lemma cut_line_Some s l r :
  cut_line s = Some (l, r) -> exists l0, l = l0 ++ [newline] /\ newline ∉ l0 /\ s = l ++ r.
Proof.
  revert l. induction s as [|c s IH]; intros l Hc; simpl in Hc; [done|].
  destruct (Ascii.eqb c newline) eqn:E; bools.
  - simplify_eq. exists []. split_and!; [done|set_solver|done].
  - destruct (cut_line s) as [[l1 r1]|] eqn:Hs; simplify_eq.
    destruct (IH l1 eq_refl) as (l0 & -> & Hl & ->). exists (c :: l0). split_and!; [done|set_solver|done].
Qed.

Lemma cut_line_None s : cut_line s = None <-> newline ∉ s.
Proof.
  induction s as [|c s IH]; simpl; [split; [set_solver|done]|].
  destruct (Ascii.eqb c newline) eqn:E; bools.
  - subst. split; [done|set_solver].
  - destruct (cut_line s) as [[]|]; split; try done; [|set_solver].
    intros Hn. exfalso. assert (newline ∉ s) by set_solver. by apply IH in H.
Qed.

Lemma TrimRight_line l : newline ∉ l -> TrimRight (l ++ [newline]) = l.
Proof.
  intros Hl. unfold TrimRight. rewrite rev_app_distr. cbn [rev app drop_newlines].
  rewrite Ascii.eqb_refl. rewrite <-(rev_involutive l) at 2. f_equal.
  destruct (rev l) as [|c t] eqn:Hr; [done|]. cbn. destruct (Ascii.eqb c newline) eqn:E; [|done].
  bools. subst. exfalso. apply Hl. rewrite <-(rev_involutive l), Hr. cbn. set_solver.
Qed.

(** What a call of [ReadSlice] returns, in terms of the stream alone. *)
Definition slice_spec (size : nat) (s : bytes) (out : bytes * option read_err * Reader) : Prop :=
  let '(l, e, r) := out in
  match e with
  | None => cut_line s = Some (l, stream_of r)
  | Some ErrBufferFull => cut_line l = None /\ s = l ++ stream_of r /\ (size <= length l)%nat
  | Some ErrConn => cut_line s = None /\ l = s
  end.

Lemma ready_spec size buf ps out :
  (0 < size)%nat -> ready size buf = Some out ->
  slice_spec size (buf ++ concat ps) (out.1, {| buffered := out.2; pieces := ps |}).
Proof.
  unfold ready. intros Hs Hr. destruct (cut_line buf) as [[l r]|] eqn:Hc; simplify_eq/=.
  - unfold stream_of. cbn. by rewrite cut_line_app, Hc.
  - destruct (size <=? length buf)%nat eqn:E; simplify_eq/=. unfold stream_of. cbn.
    apply Nat.leb_le in E. by split_and!.
Qed.

Lemma ReadSlice_go_spec size ps buf :
  (0 < size)%nat -> slice_spec size (buf ++ concat ps) (ReadSlice_go size buf ps).
Proof.
  intros Hs. revert buf. induction ps as [|p ps IH]; intros buf; cbn [ReadSlice_go];
    destruct (ready size buf) as [[[l e] r]|] eqn:Hr;
    try exact (ready_spec size buf _ _ Hs Hr).
  - unfold ready in Hr. destruct (cut_line buf) as [[]|] eqn:Hc; [done|].
    cbn. by rewrite app_nil_r.
  - destruct (length p <=? size - length buf)%nat eqn:Hp.
    + cbn [concat]. rewrite app_assoc. apply IH.
    + apply Nat.leb_gt in Hp. cbn [concat]. rewrite <-(take_drop (size - length buf) p) at 1.
      rewrite <-app_assoc, app_assoc.
      change (drop (size - length buf) p ++ concat ps) with (concat (drop (size - length buf) p :: ps)).
      destruct (ready size (buf ++ take (size - length buf) p)) as [[[l e] r]|] eqn:Hr2;
        [exact (ready_spec size _ _ _ Hs Hr2)|].
      exfalso. unfold ready in Hr2. destruct (cut_line _) as [[]|]; [done|].
      destruct (size <=? _)%nat eqn:E; [done|]. apply Nat.leb_gt in E.
      rewrite length_app, length_take in E. lia.
Qed.

Lemma first_frame_none max a b :
  cut_line a = None -> (max < length a)%nat -> first_frame max (a ++ b) = (TooLarge, []).
Proof.
  intros Hc Hl. unfold first_frame. rewrite cut_line_app, Hc.
  destruct (cut_line b) as [[l r]|]; rewrite length_app;
    (replace (max <? _)%nat with true; [done|symmetry; apply Nat.ltb_lt; lia]).
Qed.

(** Reading a frame does not depend on the buffer or on how the bytes arrive,
    and the fuel suffices. *)
Lemma readFrame_spec fuel size max buf r :
  (0 < size)%nat -> cut_line buf = None -> (length buf <= max)%nat ->
  (max - length buf < fuel)%nat ->
  exists f r', readFrame fuel size max buf r = Some (f, r') /\
    first_frame max (buf ++ stream_of r) = (f, if f is Line _ then stream_of r' else []).
Proof.
  intros Hsz. revert buf r. induction fuel as [|fuel IH]; intros buf r Hc Hl Hf; [lia|].
  cbn [readFrame]. pose proof (ReadSlice_go_spec size (pieces r) (buffered r) Hsz) as Hs.
  unfold ReadSlice, stream_of at 1. destruct (ReadSlice_go _ _ _) as [[l e] r'] eqn:Hr.
  unfold slice_spec in Hs. destruct (max <? length (buf ++ l))%nat eqn:Hbig.
  - apply Nat.ltb_lt in Hbig. exists TooLarge, r'. split; [done|]. destruct e as [[]|].
    + destruct Hs as (Hl' & -> & _). rewrite app_assoc. apply first_frame_none; [|done].
      by rewrite cut_line_app, Hc, Hl'.
    + destruct Hs as [Hs ->]. rewrite <-(app_nil_r (buf ++ _)). apply first_frame_none; [|done].
      by rewrite cut_line_app, Hc, Hs.
    + unfold first_frame. rewrite cut_line_app, Hc, Hs. by apply Nat.ltb_lt in Hbig as ->.
  - apply Nat.ltb_ge in Hbig as Hle. destruct e as [[]|].
    + destruct Hs as (Hl' & -> & Hlen). rewrite app_assoc. apply IH; [|done|].
      * by rewrite cut_line_app, Hc, Hl'.
      * rewrite length_app in *. lia.
    + destruct Hs as [Hs ->]. exists ConnErr, r'. split; [done|]. unfold first_frame.
      by rewrite cut_line_app, Hc, Hs, Hbig.
    + exists (Line (TrimRight (buf ++ l))), r'. split; [done|]. unfold first_frame.
      by rewrite cut_line_app, Hc, Hs, Hbig.
Qed.

(** A stream of lines within the bound, up to a remainder with no line. *)
Definition lines_then (max : nat) (ls : list bytes) (tail s : bytes) : Prop :=
  Forall (fun l => newline ∉ l /\ (length l < max)%nat) ls /\
  newline ∉ take max tail /\
  s = concat ((fun l => l ++ [newline]) <$> ls) ++ tail.

Lemma first_frame_line max l rest :
  newline ∉ l -> (length l < max)%nat -> first_frame max ((l ++ [newline]) ++ rest) = (Line l, rest).
Proof.
  intros Hn Hl. unfold first_frame. rewrite cut_line_app, cut_line_app.
  apply cut_line_None in Hn as Hc. rewrite Hc. cbn [cut_line]. rewrite Ascii.eqb_refl.
  rewrite length_app. cbn [length]. replace (max <? _)%nat with false by (symmetry; apply Nat.ltb_ge; lia).
  by rewrite TrimRight_line.
Qed.

Lemma first_frame_tail max tail :
  newline ∉ take max tail ->
  fst (first_frame max tail) = if (max <? length tail)%nat then TooLarge else ConnErr.
Proof.
  intros Hn. unfold first_frame. destruct (cut_line tail) as [[l r]|] eqn:Hc.
  - apply cut_line_Some in Hc as (l0 & -> & Hl & ->).
    assert (max < length (l0 ++ [newline]))%nat as Hlt.
    { apply Nat.nle_gt. intros Hle. apply Hn. rewrite take_app_ge by done. set_solver. }
    rewrite (length_app _ r). apply Nat.ltb_lt in Hlt as Hlt'. rewrite Hlt'.
    replace (max <? _)%nat with true; [done|]. symmetry. apply Nat.ltb_lt. lia.
  - by destruct (max <? length tail)%nat.
Qed.

Section Serving.
Context {S : Type} `{Dispatcher S} `{RequestDecoder}.

Lemma handle_spec fuel size max role r s ls tail :
  (0 < size)%nat -> lines_then max ls tail (stream_of r) -> (length ls < fuel)%nat ->
  handle fuel size max role r s =
  Some ((answers role ls s).1,
        (answers role ls s).2 ++ if (max <? length tail)%nat then [tooLargeResponse] else []).
Proof.
  intros Hsz. revert fuel r s. induction ls as [|l ls IH]; intros fuel r s (Hls & Ht & Hs) Hf;
    (destruct fuel as [|fuel]; [cbn in Hf; lia|]); cbn [handle];
    destruct (readFrame_spec (frame_fuel max) size max [] r Hsz eq_refl) as (f & r' & -> & Hff);
    try (unfold frame_fuel; cbn; lia); rewrite app_nil_l, Hs in Hff.
  - cbn [fmap list_fmap concat app] in Hff. pose proof (first_frame_tail max tail Ht) as Hft. rewrite Hff in Hft. cbn [fst] in Hft.
    subst f. by destruct (max <? length tail)%nat.
  - apply Forall_cons in Hls as [[Hn Hl] Hls]. cbn [fmap list_fmap concat] in Hff.
    rewrite <-app_assoc, first_frame_line in Hff by done. injection Hff as <- Hr.
    cbn [answers]. destruct (answer role l s) as [s1 resp].
    rewrite (IH fuel r' s1); [|by split_and!|cbn in Hf; lia].
    by destruct (answers role ls s1).
Qed.

Lemma lines_then_length max ls tail s : lines_then max ls tail s -> (length ls <= length s)%nat.
Proof.
  intros (_ & _ & ->). rewrite length_app. induction ls as [|l ls IH]; cbn; [lia|].
  rewrite !length_app. cbn. lia.
Qed.

(** Every byte stream is such a stream. *)
Lemma lines_then_exists max s : exists ls tail, lines_then max ls tail s.
Proof.
  induction s as [s IH] using (induction_ltof1 _ (@length ascii)).
  destruct (decide (newline ∈ take max s)) as [Hin|Hnin]; [|exists [], s; by split_and!].
  assert (Hc : cut_line s <> None).
  { intros Hc%cut_line_None. apply Hc. rewrite <-(take_drop max s). set_solver. }
  destruct (cut_line s) as [[l r]|] eqn:E; [|done]. clear Hc.
  apply cut_line_Some in E as (l0 & -> & Hl & ->).
  destruct (IH r) as (ls & tail & Hls & Ht & ->); [unfold ltof; rewrite !length_app; cbn; lia|].
  exists (l0 :: ls), tail. split_and!; [|done|by cbn; rewrite <-!app_assoc]. constructor; [|done].
  split; [done|]. apply Nat.nle_gt. intros Hle. rewrite <-app_assoc, take_app_le in Hin by done.
  apply Hl. rewrite <-(take_drop max l0). set_solver.
Qed.

End Serving.

Lemma tables_disjoint (table others : list string) op :
  bool_decide (Forall (fun o => o ∉ others) table) = true -> op ∈ table -> op ∉ others.
Proof. intros H%bool_decide_eq_true Hop. by apply (proj1 (Forall_forall _ _) H). Qed.

(** ** Properties *)

(** The operations that only a person at a terminal may use. *)
Definition human_only : list string :=
  [OpCommandApprove; OpCommandReject; OpCommandEdit; OpSecretBegin; OpSecretDone;
   OpTransportWrite; OpRetryUART; OpRetrySSH; OpRetryTelnet; OpTakeover; OpHostKeyAccept].

(** A connection is answered frame by frame, whatever the pieces in which
    its bytes arrive. When they are lines shorter than 1 MiB followed by a
    remainder with no newline in its first 1 MiB, each line is answered once,
    in order, with the daemon's state threaded through, and the connection
    ends with one frame_too_large response when the remainder is longer than
    1 MiB and with none otherwise. Every byte stream is of this form, so the
    loop always ends. *)
Theorem connection_answered {S : Type} {Hd : Dispatcher S} {Hu : RequestDecoder} role conn s :
  (forall ls tail, lines_then MaxFrameBytes ls tail (concat conn) ->
     handleConn role conn s =
     Some ((answers role ls s).1,
           (answers role ls s).2 ++
           if (MaxFrameBytes <? length tail)%nat then [tooLargeResponse] else [])) /\
  (exists ls tail, lines_then MaxFrameBytes ls tail (concat conn)).
Proof.
  split; [|apply lines_then_exists]. intros ls tail Hl. unfold handleConn.
  apply (handle_spec _ 4096); [by apply Nat.ltb_lt|done|].
  apply lines_then_length in Hl. lia.
Qed.

(** C3. The capability boundary. On every connection the daemon's state
    changes only by dispatching requests of this protocol version whose
    operation the role permits; so without an attach connection no approval,
    rejection, edit, secret window, transport write, retry, takeover or host
    key reaches the dispatcher, a diagnose connection never reaches the unsafe
    shell nor the reverse, and neither can start or end a session or propose
    a command. *)
Theorem capability_boundary {S : Type} {Hd : Dispatcher S} {Hu : RequestDecoder} role conn s :
  exists reqs resps,
    handleConn role conn s = Some (dispatch_all role reqs s, resps) /\
    Forall (fun req =>
      req_Version req = Version /\ permitted role (Operation req) = true /\
      (role <> RoleAttach -> Operation req ∉ human_only) /\
      (role = RoleDiagnose -> Operation req ∉ [OpUnsafeShellExecute]) /\
      (role = RoleUnsafeShell -> Operation req ∉ [OpDiagnoseExecute]) /\
      (role = RoleControl -> Operation req ∉ [OpDiagnoseExecute; OpUnsafeShellExecute]) /\
      (role = RoleDiagnose \/ role = RoleUnsafeShell ->
         Operation req ∉ [OpSessionStart; OpSessionEnd; OpCommandPropose; OpRecordsExport])) reqs.
Proof.
  destruct (lines_then_exists MaxFrameBytes (concat conn)) as (ls & tail & Hl).
  exists (omap (reaches role) ls), ((answers role ls s).2 ++
    if (MaxFrameBytes <? length tail)%nat then [tooLargeResponse] else []). split.
  - unfold handleConn. rewrite (handle_spec _ 4096 _ _ _ _ ls tail);
      [by rewrite answers_dispatch|by apply Nat.ltb_lt|done|].
    apply lines_then_length in Hl. cbn. lia.
  - apply Forall_forall. intros req (l & _ & Hr)%list_elem_of_omap. unfold reaches in Hr.
    destruct (Unmarshal l) as [q|]; [|done].
    destruct (String.eqb (req_Version q) Version && permitted role (Operation q)) eqn:E; simplify_eq.
    bools. split; [done|]. split; [done|]. revert H0. generalize (Operation req). intros op Hop.
    split_and!; intros Hrole; try subst role; [destruct role; [|done|..]|..|
      destruct Hrole as [-> | ->]]; cbn [permitted] in Hop; apply bool_decide_eq_true in Hop;
      (eapply tables_disjoint; [|exact Hop]); by vm_compute.
Qed.

(** *** Witnesses: a decoder that reads the line as the operation, and a
    dispatcher that logs what it is asked. *)

#[local] Instance demo_decoder : RequestDecoder := fun l =>
  Some {| req_Version := "1"; RequestID := "r"; Operation := of_bytes l; Payload := [] |}.

#[local] Instance demo_dispatcher : Dispatcher (list string) := fun _ req log =>
  (Operation req :: log, DNone).

Definition nl : string := of_bytes [newline].

Definition demo_conn : list bytes :=
  to_bytes <$> ["sess"; "ion.status" +:+ nl +:+ "take"; "over" +:+ nl; "x"].

Lemma small_frame (n : nat) : Z.of_nat n < 1000 -> (n < MaxFrameBytes)%nat.
Proof. unfold MaxFrameBytes. lia. Qed.

Definition reply (e : option ErrCode) : Response :=
  {| resp_Version := "1"; resp_RequestID := "r"; Result := None; Error := e |}.

Lemma connection_answered_witness :
  handleConn RoleControl demo_conn [] =
  Some ([OpSessionStatus], [reply None; reply (Some ErrCodePermissionDenied)]).
Proof.
  destruct (connection_answered RoleControl demo_conn []) as [H _].
  rewrite (H [to_bytes "session.status"; to_bytes "takeover"] (to_bytes "x")).
  - replace (MaxFrameBytes <? _)%nat with false; [by vm_compute|].
    symmetry. apply Nat.ltb_ge. apply Nat.lt_le_incl, small_frame. by vm_compute.
  - split_and!; [|..|by vm_compute].
    + repeat apply Forall_cons; split_and?; try (apply (bool_decide_unpack _); by vm_compute);
        try (apply small_frame; by vm_compute); done.
    + intros Hin. assert (newline ∈ to_bytes "x") as Hx.
      { rewrite <-(take_drop MaxFrameBytes). set_solver. }
      by apply (bool_decide_unpack (newline ∉ to_bytes "x")) in Hx.
Defined.

Lemma capability_boundary_witness :
  exists reqs resps,
    handleConn RoleControl demo_conn [] = Some (dispatch_all RoleControl reqs [], resps) /\
    Forall (fun req => Operation req ∉ human_only) reqs.
Proof.
  destruct (capability_boundary RoleControl demo_conn []) as (reqs & resps & H & Hall).
  exists reqs, resps. split; [exact H|]. eapply Forall_impl; [exact Hall|].
  intros req (_ & _ & Hh & _). by apply Hh.
Defined.
