(* ===== verification/Wire.v ===== *)
(** * The wire (src/internal/protocol/v1/message.go, internal/ipc)

    Requests and responses as the lines of JSON that client and server
    exchange: what [json.Marshal] writes for the structs of message.go, what
    [json.Unmarshal] makes of any line, [writeResponse], and the instance of
    Ipc.v's request decoder. Only the message texts of errors stay abstract. *)

From S2P Require Import Prelude GoStd Json JsonStrings JsonTexts Ipc.

(** ** Requests *)

Definition zeroRequest : Request :=
  {| req_Version := ""; RequestID := ""; Operation := ""; Payload := [] |}.

Definition requestFields : fields Request :=
  [("version", field into_string req_Version (fun x r =>
      {| req_Version := x; RequestID := RequestID r; Operation := Operation r; Payload := Payload r |}));
   ("request_id", field into_string RequestID (fun x r =>
      {| req_Version := req_Version r; RequestID := x; Operation := Operation r; Payload := Payload r |}));
   ("operation", field into_string Operation (fun x r =>
      {| req_Version := req_Version r; RequestID := RequestID r; Operation := x; Payload := Payload r |}));
   ("payload", field into_raw Payload (fun x r =>
      {| req_Version := req_Version r; RequestID := RequestID r; Operation := Operation r; Payload := x |}))]%string.

(** [json.Unmarshal(line, &req)]. *)
#[export] Instance UnmarshalRequest : RequestDecoder := Unmarshal_into (into_struct requestFields) zeroRequest.

(** A [json.RawMessage] that [json.Marshal] made is written as it is; an empty
    one is omitted. *)
Definition omit_empty (key : string) (raw : bytes) : list (string * bytes) :=
  match raw with [] => [] | _ => [(key, raw)] end.

Definition MarshalRequest (r : Request) : bytes :=
  json_object ([("version", json_string (req_Version r)); ("request_id", json_string (RequestID r));
                ("operation", json_string (Operation r))]%string ++ omit_empty "payload" (Payload r)).

(** ** Responses *)

(** The wire names of the codes. *)
Definition ErrCode_text (e : ErrCode) : string :=
  match e with
  | ErrCodeUnknownVersion => "unknown_version"
  | ErrCodeFrameTooLarge => "frame_too_large"
  | ErrCodePermissionDenied => "permission_denied"
  | ErrCodeUnknownOperation => "unknown_operation"
  | ErrCodeInvalidPayload => "invalid_payload"
  | ErrCodeInternal => "internal"
  end.

Record ProtocolError := { Code : string; Message : string }.

(** The texts for people. *)
Class ErrorTexts := error_text : Response -> ErrCode -> string.

Definition MarshalError `{ErrorTexts} (r : Response) (e : ErrCode) : bytes :=
  json_object [("code", json_string (ErrCode_text e)); ("message", json_string (error_text r e))]%string.

Definition MarshalResponse `{ErrorTexts} (r : Response) : bytes :=
  json_object ([("version", json_string (resp_Version r)); ("request_id", json_string (resp_RequestID r))]%string ++
    omit_empty "result" (default [] (Result r)) ++
    match Error r with Some e => [("error"%string, MarshalError r e)] | None => [] end).

(** [writeResponse]. *)
Definition writeResponse `{ErrorTexts} (r : Response) : bytes := MarshalResponse r ++ [newline].

(** What the client decodes a response line into. *)
Record received := {
  rcv_Version : string; rcv_RequestID : string; rcv_Result : bytes; rcv_Error : option ProtocolError
}.

Definition zeroResponse : received :=
  {| rcv_Version := ""; rcv_RequestID := ""; rcv_Result := []; rcv_Error := None |}.

Definition errorFields : fields ProtocolError :=
  [("code", field into_string Code (fun x e => {| Code := x; Message := Message e |}));
   ("message", field into_string Message (fun x e => {| Code := Code e; Message := x |}))]%string.

Definition into_error : decoder (option ProtocolError) :=
  into_option (into_struct errorFields) {| Code := ""; Message := "" |}.

Definition responseFields : fields received :=
  [("version", field into_string rcv_Version (fun x r =>
      {| rcv_Version := x; rcv_RequestID := rcv_RequestID r; rcv_Result := rcv_Result r; rcv_Error := rcv_Error r |}));
   ("request_id", field into_string rcv_RequestID (fun x r =>
      {| rcv_Version := rcv_Version r; rcv_RequestID := x; rcv_Result := rcv_Result r; rcv_Error := rcv_Error r |}));
   ("result", field into_raw rcv_Result (fun x r =>
      {| rcv_Version := rcv_Version r; rcv_RequestID := rcv_RequestID r; rcv_Result := x; rcv_Error := rcv_Error r |}));
   ("error", field into_error rcv_Error (fun x r =>
      {| rcv_Version := rcv_Version r; rcv_RequestID := rcv_RequestID r; rcv_Result := rcv_Result r; rcv_Error := x |}))]%string.

Definition UnmarshalResponse : bytes -> option received :=
  Unmarshal_into (into_struct responseFields) zeroResponse.

(** ** Specification *)

(** What arrives of a request: its texts as valid UTF-8. *)
Definition arrived (r : Request) : Request :=
  {| req_Version := sanitize (req_Version r); RequestID := sanitize (RequestID r);
     Operation := sanitize (Operation r); Payload := Payload r |}.

(** What the client should see of a response. *)
Definition delivered `{ErrorTexts} (r : Response) : received :=
  {| rcv_Version := sanitize (resp_Version r); rcv_RequestID := sanitize (resp_RequestID r);
     rcv_Result := default [] (Result r);
     rcv_Error := (fun e => {| Code := ErrCode_text e; Message := sanitize (error_text r e) |}) <$> Error r |}.

(** A payload or result as [json.Marshal] makes one: none, or a document on one
    line that nests at most 1000 deep. *)
Definition marshalled (raw : bytes) : Prop :=
  raw = [] \/ (json_text 1000 raw /\ line_feed ∉ raw).

(** ** Lemmas *)

Lemma deep : (1000 < max_depth)%nat /\ (1001 < max_depth)%nat /\ (1002 <= max_depth)%nat.
Proof. unfold max_depth. lia. Qed.

Lemma shallow_string s : json_text 1000 (json_string s).
Proof. eapply text_mono; [|apply text_string]. lia. Qed.

#[export] Hint Resolve shallow_string json_string_no_line ws_nil : gw.

Lemma omit_text key raw : marshalled raw -> Forall (fun m => json_text 1000 (snd m)) (omit_empty key raw).
Proof. intros [->|[Ht _]]; [by constructor|]. destruct raw; [by apply Forall_nil_2|by apply Forall_singleton]. Qed.

Lemma omit_line key raw : marshalled raw -> Forall (fun m => line_feed ∉ snd m) (omit_empty key raw).
Proof. intros [->|[_ Hl]]; [by constructor|]. destruct raw; [by apply Forall_nil_2|by apply Forall_singleton]. Qed.

Lemma omit_key key raw : is_ascii key = true -> Forall (fun m => is_ascii (fst m) = true) (omit_empty key raw).
Proof. intros Hk. destruct raw; [by apply Forall_nil_2|by apply Forall_singleton]. Qed.

(** Requests come back. *)
Lemma request_roundtrip r : marshalled (Payload r) -> Unmarshal (MarshalRequest r) = Some (arrived r).
Proof.
  intros Hp. destruct deep as (Hd & _). unfold Unmarshal, UnmarshalRequest, MarshalRequest.
  rewrite (Unmarshal_object _ _ 1000); [|lia|done|..].
  - cbn [app apply_members]. cbn -[field json_string into_string apply_members].
    do 3 (rewrite field_string; cbn -[field json_string into_string apply_members]).
    unfold arrived. by destruct (Payload r).
  - apply Forall_app. split; [repeat constructor; apply shallow_string|by apply omit_text].
  - apply Forall_app. split; [by repeat constructor|by apply omit_key].
Qed.

Lemma request_one_line r : marshalled (Payload r) -> line_feed ∉ MarshalRequest r.
Proof.
  intros Hp. apply json_object_no_line, Forall_app.
  split; [repeat constructor; apply json_string_no_line|by apply omit_line].
Qed.

Section Responses.
Context `{ErrorTexts}.

Lemma error_texted r e : json_text 2 (MarshalError r e) /\ line_feed ∉ MarshalError r e.
Proof.
  split.
  - apply (text_object 1); auto using ws_nil. repeat constructor; apply text_string.
  - apply json_object_no_line. repeat constructor; apply json_string_no_line.
Qed.

Lemma error_roundtrip r e old :
  into_error (MarshalError r e) old =
  Some (Some {| Code := ErrCode_text e; Message := sanitize (error_text r e) |}).
Proof.
  unfold into_error, into_option, MarshalError. unfold json_object. rewrite object_not_null.
  rewrite (struct_print _ 1); auto using ws_nil.
  - cbn -[field json_string into_string apply_members]. cbn [apply_members].
    do 2 (cbn -[field json_string into_string apply_members]; rewrite field_string;
          cbn -[field json_string into_string apply_members sanitize]).
    by destruct e.
  - unfold max_depth. lia.
  - repeat constructor; apply text_string.
Qed.

Lemma response_texts r :
  marshalled (default [] (Result r)) ->
  line_feed ∉ MarshalResponse r /\ UnmarshalResponse (MarshalResponse r) = Some (delivered r).
Proof.
  intros Hp. destruct deep as (Hd & _). split.
  - apply json_object_no_line. rewrite !Forall_app. split_and!; [|by apply omit_line|].
    + repeat constructor; apply json_string_no_line.
    + destruct (Error r); [apply Forall_singleton, error_texted|constructor].
  - unfold UnmarshalResponse, MarshalResponse. rewrite (Unmarshal_object _ _ 1000); [|lia|done|..].
    + cbn [app apply_members].
      do 2 (cbn -[field json_string into_string apply_members MarshalError]; rewrite field_string;
            cbn -[field json_string into_string apply_members MarshalError]).
      unfold delivered. destruct (default [] (Result r)) as [|b l]; cbn [omit_empty app];
        (destruct (Error r) as [e|]; [|done]);
        cbn -[field json_string into_error MarshalError]; rewrite ?field_raw;
        cbn -[field json_string into_error MarshalError]; unfold field; rewrite ?error_roundtrip; done.
    + rewrite !Forall_app. split_and!; [repeat constructor; apply shallow_string|by apply omit_text|].
      destruct (Error r); [apply Forall_singleton|constructor].
      eapply text_mono; [|apply error_texted]. lia.
    + rewrite !Forall_app. split_and!; [by repeat constructor|by apply omit_key|].
      destruct (Error r); [by apply Forall_singleton|constructor].
Qed.

End Responses.
