(* ===== verification/Protocol.v ===== *)
(** * Types of the protocol (src/internal/protocol/v1/message.go,
    src/internal/ipc/server_linux.go)

    What passes the wire is well formed, whatever bytes arrive: the texts a
    decoder lets in are valid UTF-8, and every response of a server is one JSON
    object on one line that carries a result or an error and never both. *)

From S2P Require Import Prelude GoStd Json JsonStrings JsonTexts Ipc Wire.

(** ** Specification *)

Definition well_typed_request (r : Request) : Prop :=
  valid_utf8 (req_Version r) = true /\ valid_utf8 (RequestID r) = true /\ valid_utf8 (Operation r) = true.

Definition well_typed_received (r : received) : Prop :=
  valid_utf8 (rcv_Version r) = true /\ valid_utf8 (rcv_RequestID r) = true /\
  (forall e, rcv_Error r = Some e -> valid_utf8 (Code e) = true /\ valid_utf8 (Message e) = true).

(** A response of the server: of this version, or the version-less answer to an
    oversized frame. *)
Definition well_typed_response (r : Response) : Prop :=
  (Result r = None \/ Error r = None) /\ valid_utf8 (resp_RequestID r) = true /\
  (resp_Version r = Version \/ r = tooLargeResponse).

Definition one_of_both (r : Response) : Prop :=
  (is_Some (Result r) /\ Error r = None) \/ (Result r = None /\ is_Some (Error r)).

(** The errors of the server itself. *)
Definition protocol_errors : list ErrCode :=
  [ErrCodeInvalidPayload; ErrCodeUnknownVersion; ErrCodePermissionDenied; ErrCodeFrameTooLarge].

(** A response passes on what the dispatcher returned for some request, unless
    it is an error of the server. *)
Definition passed_on {S : Type} `{Dispatcher S} (r : Response) : Prop :=
  (forall d, Result r = Some d -> exists role req s, (Dispatch role req s).2 = DResult (Some d)) /\
  (forall e, Error r = Some e -> e ∈ protocol_errors \/
     exists role req s, (Dispatch role req s).2 = DErr e \/
       ((Dispatch role req s).2 = DResult None /\ e = ErrCodeInternal)).

(** ** Lemmas *)

(** *** Decoded strings *)

(** A rune: one valid encoding at the head of any text. *)
Definition rune (l : bytes) : Prop := forall t, valid_from 0 (l ++ t) = valid_from 0 t.

Lemma rune_ascii c : is_ascii_byte c = true -> rune [c].
Proof. intros Hc t. cbn [app valid_from]. by rewrite Hc. Qed.

Lemma rune_wide c l :
  is_ascii_byte c = false -> (forall x, rune_width ((c :: l) ++ x) = S (length l)) -> rune (c :: l).
Proof.
  intros Hc Hw t. change ((c :: l) ++ t) with (c :: (l ++ t)). cbn [valid_from]. rewrite Hc.
  change (c :: l ++ t) with ((c :: l) ++ t). by rewrite Hw, valid_skip.
Qed.

Lemma rune_replacement : rune replacement.
Proof. by apply rune_wide. Qed.

Lemma nat_of_byte n : (n < 256)%nat -> nat_of_ascii (ascii_of_nat n) = n.
Proof. apply nat_ascii_embedding. Qed.

Lemma range_of lo hi n : (lo <= n <= hi)%nat -> (n < 256)%nat -> in_range lo hi (ascii_of_nat n) = true.
Proof. intros Hn Hb. unfold in_range. rewrite nat_of_byte by done. apply andb_true_iff. rewrite !Nat.leb_le. lia. Qed.

Lemma range_not lo hi n : (n < lo \/ hi < n)%nat -> (n < 256)%nat -> in_range lo hi (ascii_of_nat n) = false.
Proof. intros Hn Hb. unfold in_range. rewrite nat_of_byte by done. apply andb_false_iff. rewrite !Nat.leb_gt. lia. Qed.

Lemma mod_64 n : (n mod 64 < 64)%nat.
Proof. apply Nat.mod_upper_bound. lia. Qed.

Lemma not_ascii n : (128 <= n < 256)%nat -> is_ascii_byte (ascii_of_nat n) = false.
Proof. intros Hn. unfold is_ascii_byte. rewrite nat_of_byte by lia. apply Nat.ltb_ge. lia. Qed.

Lemma continuation_mod n : continuation (ascii_of_nat (128 + n mod 64)) = true.
Proof. pose proof (mod_64 n). apply range_of; lia. Qed.

(** Large literals of [nat], for [lia]. *)
Lemma big_literals :
  Z.of_nat 55296 = 55296 /\ Z.of_nat 56319 = 56319 /\ Z.of_nat 56320 = 56320 /\ Z.of_nat 57343 = 57343 /\
  Z.of_nat 65536 = 65536 /\ Z.of_nat 262144 = 262144 /\ Z.of_nat 1114112 = 1114112.
Proof. split_and!; vm_compute; reflexivity. Qed.

Ltac big := destruct big_literals as (? & ? & ? & ? & ? & ? & ?).

(** [n] in base 64: the digit and the rest. *)
Lemma base_64 n : exists q m, n = (64 * q + m)%nat /\ (m < 64)%nat /\ (n / 64 = q)%nat /\ (n mod 64 = m)%nat.
Proof. exists (n / 64)%nat, (n mod 64)%nat. split_and!; [apply Nat.div_mod_eq|apply mod_64|done|done]. Qed.

(** Encoding a code point that is not a surrogate gives a rune. *)
Lemma rune_encode r : (r < 1114112)%nat -> is_surrogate r = false -> rune (encode_rune r).
Proof.
  intros Hr Hs. unfold encode_rune. big.
  destruct (base_64 r) as (q & m & Hq & Hm & Dq & Mq). destruct (base_64 q) as (a & c & Ha & Hc & Da & Ma).
  destruct (base_64 a) as (e & d & He & Hd & De & Me).
  assert (Ea : (r / 4096 = a)%nat) by (symmetry; apply (Nat.div_unique r 4096 a (64 * c + m)); lia).
  assert (Ee : (r / 262144 = e)%nat)
    by (symmetry; apply (Nat.div_unique r 262144 e (4096 * d + 64 * c + m)); lia).
  rewrite Ea, Ee, Dq, Ma, Me, Mq.
  destruct (Nat.ltb_spec r 128); [apply rune_ascii; unfold is_ascii_byte; rewrite nat_of_byte by lia; by apply Nat.ltb_lt|].
  destruct (Nat.ltb_spec r 2048).
  { apply rune_wide; [apply not_ascii; lia|]. intros x. cbn [rune_width app length].
    rewrite (range_of 194 223) by lia. unfold continuation. by rewrite range_of by lia. }
  unfold is_surrogate, nat_in in Hs. apply andb_false_iff in Hs. rewrite !Nat.leb_gt in Hs.
  destruct (Nat.ltb_spec r 65536).
  { apply rune_wide; [apply not_ascii; lia|]. intros x. cbn [rune_width app length].
    rewrite (range_not 194 223), (range_of 224 239) by lia. unfold continuation.
    rewrite nat_of_byte by lia. rewrite (range_of 128 191 (128 + m)) by lia.
    destruct (Nat.eqb_spec (224 + a) 224); [by rewrite range_of by lia|].
    destruct (Nat.eqb_spec (224 + a) 237); by rewrite range_of by lia. }
  apply rune_wide; [apply not_ascii; lia|]. intros x. cbn [rune_width app length].
  rewrite (range_not 194 223), (range_not 224 239), (range_of 240 244) by lia. unfold continuation.
  rewrite nat_of_byte by lia. rewrite (range_of 128 191 (128 + m)), (range_of 128 191 (128 + c)) by lia.
  destruct (Nat.eqb_spec (240 + e) 240); [by rewrite range_of by lia|].
  destruct (Nat.eqb_spec (240 + e) 244); by rewrite range_of by lia.
Qed.

(** A decidable fact of all bytes. *)
Lemma all_bytes (p : ascii -> bool) : forallb p (ascii_of_nat <$> seq 0 256) = true -> forall c, p c = true.
Proof.
  intros Hall c. rewrite forallb_forall in Hall. apply Hall, list_elem_of_In, list_elem_of_fmap.
  exists (nat_of_ascii c). rewrite ascii_nat_embedding. split; [done|].
  apply elem_of_seq. pose proof (byte_bound c). lia.
Qed.

Lemma hex_val_bound c v : hex_val c = Some v -> (v < 16)%nat.
Proof.
  pose proof (all_bytes (fun c => match hex_val c with Some v => (v <? 16)%nat | None => true end)
    ltac:(vm_compute; reflexivity) c) as H. cbn beta in H. intros E. rewrite E in H. by apply Nat.ltb_lt.
Qed.

Lemma hex4_bound a b c d v : hex4 a b c d = Some v -> (v < 65536)%nat.
Proof.
  unfold hex4. destruct (hex_val a) eqn:Ea; [|done]. destruct (hex_val b) eqn:Eb; [|done].
  destruct (hex_val c) eqn:Ec; [|done]. destruct (hex_val d) eqn:Ed; [|done]. intros [= <-].
  apply hex_val_bound in Ea, Eb, Ec, Ed. big. lia.
Qed.

Lemma decode_pair_bound r1 r2 r :
  decode_pair r1 r2 = Some r -> (r < 1114112)%nat /\ is_surrogate r = false.
Proof.
  unfold decode_pair, is_surrogate, nat_in. destruct (_ && _) eqn:E; [|done].
  intros Heq%(inj Some). subst r. rewrite !andb_true_iff, !Nat.leb_le in E. big. split; [lia|]. apply andb_false_iff. rewrite !Nat.leb_gt. lia.
Qed.

Lemma escape_ascii e b : simple_escape e = Some b -> is_ascii_byte b = true.
Proof.
  pose proof (all_bytes (fun e => match simple_escape e with Some b => is_ascii_byte b | None => true end)
    ltac:(vm_compute; reflexivity) e) as H. cbn beta in H. intros E. by rewrite E in H.
Qed.

(** Reading a string yields valid UTF-8, whatever the text. *)
Lemma read_valid s t rest : read_string 0 s = Some (t, rest) -> valid_from 0 t = true.
Proof.
  revert t rest. induction s as [s IH] using (induction_ltof1 _ (@length ascii)). intros t rest.
  assert (Hpre : forall l s', rune l -> (length s' < length s)%nat ->
    prepend l (read_string 0 s') = Some (t, rest) -> valid_from 0 t = true).
  { intros l s' Hl Hlt. destruct (read_string 0 s') as [[t' rest']|] eqn:E; [|done]. cbn. intros [= <- <-].
    rewrite Hl. by eapply IH. }
  destruct s as [|c s]; [done|]. cbn [read_string].
  destruct (Ascii.eqb c quote_char); [by intros [= <- <-]|].
  destruct (Ascii.eqb c backslash).
  - destruct s as [|e s2]; [done|]. destruct (Ascii.eqb e "u").
    + destruct s2 as [|h1 [|h2 [|h3 [|h4 s3]]]]; try done. destruct (hex4 h1 h2 h3 h4) as [r|] eqn:Hx; [|done].
      apply hex4_bound in Hx. destruct (is_surrogate r) eqn:Hsur; cbn [negb].
      * assert (Hrep : prepend replacement (read_string 0 s3) = Some (t, rest) -> valid_from 0 t = true)
          by (apply Hpre; [apply rune_replacement|cbn; lia]).
        destruct s3 as [|b [|u [|g1 [|g2 [|g3 [|g4 s4]]]]]]; try exact Hrep.
        destruct (if (_ : bool) then _ else (None : option nat)) as [r2|] eqn:Hp; [|exact Hrep].
        destruct (Ascii.eqb b backslash && Ascii.eqb u "u"); [|done].
        apply bind_Some in Hp as (v & _ & [Hb Hsr]%decode_pair_bound).
        apply Hpre; [by apply rune_encode|cbn; lia].
      * apply Hpre; [apply rune_encode; [big; lia|done]|cbn; lia].
    + destruct (simple_escape e) as [b|] eqn:He; [|done].
      apply Hpre; [by apply rune_ascii, (escape_ascii e)|cbn; lia].
  - destruct (nat_of_ascii c <? 32)%nat; [done|]. destruct (is_ascii_byte c) eqn:Hc.
    + apply Hpre; [by apply rune_ascii|cbn; lia].
    + destruct (rune_width (c :: s)) as [|k] eqn:Hw; [apply Hpre; [apply rune_replacement|cbn; lia]|].
      destruct (rune_width_local _ _ [] Hw) as (c' & l & s' & Heq & Hl & _ & _ & _). injection Heq as <- ->.
      subst k. rewrite read_skip, prepend_app. apply Hpre; [|cbn; rewrite length_app; lia].
      apply rune_wide; [done|]. intros x. destruct (rune_width_local _ _ x Hw) as (c2 & l2 & s2 & Heq & Hl & Hx & _).
      injection Heq as <- Heq. destruct (app_inj_1 _ _ _ _ (eq_sym Hl) Heq) as [<- _]. done.
Qed.

Lemma into_string_valid v old s : valid_utf8 old = true -> into_string v old = Some s -> valid_utf8 s = true.
Proof.
  intros Ho. unfold into_string. destruct (is_null v); [congruence|].
  intros (r & _ & ([t rest] & Hr & [= <-])%bind_Some)%bind_Some. unfold valid_utf8. rewrite to_of_bytes.
  by eapply read_valid.
Qed.

(** *** Structs *)

(** A struct decoder keeps what each of its fields keeps. *)
Lemma into_struct_keeps {R} (P : R -> Prop) (fs : fields R) v old r :
  Forall (fun f => forall v r r', P r -> snd f v r = Some r' -> P r') fs ->
  P old -> into_struct fs v old = Some r -> P r.
Proof.
  intros Hf Ho. unfold into_struct. destruct (is_null v); [congruence|].
  intros (ms & _ & Ha)%bind_Some. revert old Ho Ha. induction ms as [|[k x] ms IH]; intros old Ho; cbn [apply_members].
  { congruence. }
  destruct (find_field fs k) as [f|] eqn:Hk; [|by apply IH].
  intros (r1 & H1 & H2)%bind_Some. apply (IH r1); [|done].
  assert (Hin : exists n, (n, f) ∈ fs).
  { unfold find_field in Hk. destruct (List.find (fun f => String.eqb (fst f) k) fs) as [[n g]|] eqn:E.
    - injection Hk as <-. apply List.find_some in E as [E _]. exists n. by apply list_elem_of_In.
    - destruct (List.find (fun f => same_fold (fst f) k) fs) as [[n g]|] eqn:E2; [|done]. injection Hk as <-.
      apply List.find_some in E2 as [E2 _]. exists n. by apply list_elem_of_In. }
  destruct Hin as [n Hin]. rewrite Forall_forall in Hf. by apply (Hf _ Hin x old).
Qed.

Lemma field_keeps {R A} (d : decoder A) (get : R -> A) put (P : R -> Prop) (Q : A -> Prop) v r r' :
  (forall v old x, Q old -> d v old = Some x -> Q x) -> (P r -> Q (get r)) -> (forall x, P r -> Q x -> P (put x r)) ->
  P r -> field d get put v r = Some r' -> P r'.
Proof. intros Hd Hg Hput Hp (x & Hx & [= <-])%bind_Some. apply Hput; [done|]. eapply Hd; [by apply Hg|exact Hx]. Qed.

Lemma request_field get put v r r' :
  (well_typed_request r -> valid_utf8 (get r) = true) ->
  (forall x, well_typed_request r -> valid_utf8 x = true -> well_typed_request (put x r)) ->
  well_typed_request r -> field into_string get put v r = Some r' -> well_typed_request r'.
Proof. apply (field_keeps into_string get put well_typed_request (fun s => valid_utf8 s = true)), into_string_valid. Qed.

Lemma request_typed line r : Unmarshal line = Some r -> well_typed_request r.
Proof.
  unfold Unmarshal, UnmarshalRequest, Unmarshal_into. intros (v & _ & Hr)%bind_Some. revert Hr.
  apply into_struct_keeps; [|done]. unfold requestFields.
  repeat (apply Forall_cons_2; [cbn [snd]; intros x a b; try (apply request_field; unfold well_typed_request; cbn; tauto)|]);
    [|by apply Forall_nil_2].
  apply (field_keeps into_raw Payload _ well_typed_request (fun _ => True)); done.
Qed.

Lemma error_typed v old e :
  (valid_utf8 (Code old) = true /\ valid_utf8 (Message old) = true) ->
  into_struct errorFields v old = Some e -> valid_utf8 (Code e) = true /\ valid_utf8 (Message e) = true.
Proof.
  apply (into_struct_keeps (fun e => valid_utf8 (Code e) = true /\ valid_utf8 (Message e) = true)).
  unfold errorFields. repeat (apply Forall_cons_2; [cbn [snd]; intros x a b|]); [..|by apply Forall_nil_2];
    apply (field_keeps into_string _ _ (fun e => valid_utf8 (Code e) = true /\ valid_utf8 (Message e) = true)
      (fun s => valid_utf8 s = true)); cbn; try tauto; apply into_string_valid.
Qed.

Lemma received_typed line r : UnmarshalResponse line = Some r -> well_typed_received r.
Proof.
  unfold UnmarshalResponse, Unmarshal_into. intros (v & _ & Hr)%bind_Some. revert Hr.
  apply into_struct_keeps; [|done]. unfold responseFields.
  repeat (apply Forall_cons_2; [cbn [snd]; intros x a b|]); [..|by apply Forall_nil_2].
  1,2: apply (field_keeps into_string _ _ well_typed_received (fun s => valid_utf8 s = true));
    unfold well_typed_received; cbn; try tauto; apply into_string_valid.
  - apply (field_keeps into_raw rcv_Result _ well_typed_received (fun _ => True)); done.
  - apply (field_keeps into_error rcv_Error _ well_typed_received
      (fun o => forall e, o = Some e -> valid_utf8 (Code e) = true /\ valid_utf8 (Message e) = true));
      [|unfold well_typed_received; cbn; tauto..].
    intros w old y Ho. unfold into_error, into_option. destruct (is_null w); [by intros [= <-]|].
    destruct (into_struct errorFields w _) as [e|] eqn:He; [|done]. cbn. intros [= <-] e' [= <-].
    eapply error_typed; [|exact He]. destruct old as [e0|]; [by apply Ho|done].
Qed.

Section Server.
Context {S : Type} `{Dispatcher S}.

Lemma answer_typed role line (s : S) : well_typed_response (answer role line s).2.
Proof.
  unfold answer. destruct (Unmarshal line) as [req|] eqn:Hu; [|by split_and!; [left| |left]].
  apply request_typed in Hu as (_ & Hid & _). cbv zeta.
  destruct (negb _); [by split_and!; [left| |left]|]. destruct (negb _); [by split_and!; [left| |left]|].
  destruct (Dispatch _ _ _) as [s1 [e| |[d|]]]; cbn; split_and!; auto.
Qed.

Lemma protocol_error e r : Result r = None -> Error r = Some e -> e ∈ protocol_errors -> passed_on r.
Proof. intros Hr He Hin. split; [by rewrite Hr|]. intros e' He'. left. by rewrite He in He'; injection He' as <-. Qed.

Ltac own_error := eapply protocol_error; [done|done|]; unfold protocol_errors; rewrite !elem_of_cons; tauto.

Lemma answer_passed role line (s : S) : passed_on (answer role line s).2.
Proof.
  unfold answer. destruct (Unmarshal line) as [req|]; [|own_error].
  cbv zeta. destruct (negb _); [own_error|]. destruct (negb _); [own_error|].
  destruct (Dispatch role req s) as [s1 out] eqn:Hd. assert (Hout : (Dispatch role req s).2 = out) by by rewrite Hd.
  clear Hd. destruct out as [e| |[d|]]; cbn [snd]; (split; [intros d' [=]|intros e' [=]]); subst; by eauto 10.
Qed.

Lemma answer_complete role line (s : S) :
  (forall role req s, (Dispatch role req s).2 <> DNone) -> one_of_both (answer role line s).2.
Proof.
  intros Hn. unfold answer, one_of_both. destruct (Unmarshal line) as [req|]; [|by right].
  cbv zeta. destruct (negb _); [by right|]. destruct (negb _); [by right|]. specialize (Hn role req s).
  destruct (Dispatch role req s) as [s1 [e| |[d|]]]; cbn [snd] in *; [by right|done|by left|by right].
Qed.

(** What holds of every answer holds of every response of a connection. *)
Lemma handle_all (P : Response -> Prop) fuel size max role r (s s' : S) resps :
  (forall line s, P (answer role line s).2) -> P tooLargeResponse ->
  handle fuel size max role r s = Some (s', resps) -> Forall P resps.
Proof.
  intros Hp Hl. revert r s resps. induction fuel as [|fuel IH]; intros r s resps; cbn [handle]; [done|].
  destruct (readFrame _ _ _ _ _) as [[[line| |] r1]|]; [| | |done].
  - specialize (Hp line s). destruct (answer role line s) as [s1 resp].
    destruct (handle fuel size max role r1 s1) as [[s2 more]|] eqn:Hm; [|done]. intros [= <- <-].
    apply Forall_cons_2; [done|by eapply IH].
  - intros [= <- <-]. by apply Forall_singleton.
  - intros [= <- <-]. by apply Forall_nil_2.
Qed.

End Server.

(** ** Properties *)

(** C21. The protocol is typed. Whatever bytes a client sends, the version,
    identifier and operation of every request the server decodes are valid
    UTF-8, and every response on a connection carries the protocol's version
    (or answers an oversized frame) and an identifier of valid UTF-8. It never
    carries both a result and an error, and it carries exactly one of them when
    the dispatcher never returns neither, as the daemon's never does: its
    result is one that the dispatcher returned, its error one that the
    dispatcher returned or one of the server's four. Written out, such a
    response is one line; its reader decodes it to the same result and error
    and under the same identifier. Whatever bytes a server sends, the texts of
    a response the client decodes are valid UTF-8, its error's too. *)
Theorem protocol_typed {S : Type} {Hd : Dispatcher S} {He : ErrorTexts} role conn (s s' : S) resps :
  handleConn role conn s = Some (s', resps) ->
  (forall line req, Unmarshal line = Some req -> well_typed_request req) /\
  (forall line resp, UnmarshalResponse line = Some resp -> well_typed_received resp) /\
  Forall well_typed_response resps /\
  Forall passed_on resps /\
  ((forall role req s, (Dispatch role req s).2 <> DNone) -> Forall one_of_both resps) /\
  forall resp, resp ∈ resps -> marshalled (default [] (Result resp)) ->
    newline ∉ MarshalResponse resp /\
    exists r, UnmarshalResponse (MarshalResponse resp) = Some r /\
      rcv_RequestID r = resp_RequestID resp /\ rcv_Result r = default [] (Result resp) /\
      (rcv_Result r = [] \/ rcv_Error r = None) /\
      (Code <$> rcv_Error r) = (ErrCode_text <$> Error resp).
Proof.
  intros Hconn.
  assert (Hh : Forall well_typed_response resps).
  { eapply handle_all; [by apply answer_typed| |exact Hconn]. by split_and!; [left| |right]. }
  split_and!; [apply request_typed|apply received_typed|done| | |].
  - eapply handle_all; [by apply answer_passed| |exact Hconn].
    apply (protocol_error ErrCodeFrameTooLarge); [done|done|]. unfold protocol_errors. rewrite !elem_of_cons. tauto.
  - intros Hn. eapply handle_all; [by intros; apply answer_complete| |exact Hconn]. by right.
  - intros resp Hin Hm. destruct (response_texts resp Hm) as [Hl Hu]. split; [exact Hl|].
    rewrite Forall_forall in Hh. destruct (Hh resp Hin) as (Hx & Hid & _).
    exists (delivered resp). split_and!; [done|by apply valid_sanitize|done| |].
    + cbn. destruct Hx as [-> | ->]; [by left|by right].
    + cbn. by destruct (Error resp).
Qed.

(** *** Witnesses *)

#[local] Instance demo_dispatcher : Dispatcher unit := fun _ _ s => (s, DResult (Some (to_bytes "{}"))).
#[local] Instance demo_error_texts : ErrorTexts := fun _ _ => "no"%string.

Definition demo_lines : list bytes :=
  [to_bytes "{" ++ json_string "version" ++ to_bytes ":" ++ json_string Version ++ to_bytes "," ++
     json_string "request_id" ++ to_bytes ":" ++ json_string "r1" ++ to_bytes "," ++
     json_string "operation" ++ to_bytes ":" ++ json_string OpSessionStatus ++ to_bytes "}" ++ [newline]].

Definition demo_response : Response :=
  {| resp_Version := Version; resp_RequestID := "r1"; Result := Some (to_bytes "{}"); Error := None |}.

Lemma protocol_typed_witness :
  handleConn RoleControl demo_lines () = Some ((), [demo_response]) /\ one_of_both demo_response /\
  newline ∉ MarshalResponse demo_response.
Proof.
  assert (Hh : handleConn RoleControl demo_lines () = Some ((), [demo_response])) by (vm_compute; reflexivity).
  split; [exact Hh|].
  destruct (protocol_typed RoleControl demo_lines () () [demo_response] Hh) as (_ & _ & _ & _ & Hone & H).
  split; [by apply Forall_singleton, Hone|].
  destruct (H demo_response) as [Hn _]; [apply list_elem_of_here| |exact Hn].
  right. split; [|change (line_feed ∉ to_bytes "{}"); by apply (bool_decide_unpack _); vm_compute].
  apply (text_object 999 [] [] [] []); first [apply Forall_nil_2|lia].
Defined.
