(* ===== verification/Client.v ===== *)
(** * Client side of the protocol (src/internal/ipc/client_linux.go,
    src/internal/cli/control.go)

    One synchronous call over a connection, and the operations of the control
    client as the requests they send. The theorem puts client and server of
    Ipc.v at the two ends of one connection. *)

From S2P Require Import Prelude GoStd Json JsonStrings JsonTexts Ipc Wire.

(** ** One connection *)

(** How a call fails. *)
Inductive call_err := ErrWrite | ErrFrameTooLarge | ErrRead | ErrDecode.

(** [Client]: what its buffered reader holds and what will still arrive. *)
Record Client := { reader : Reader }.

Definition Dial (arrives : list bytes) : Client := {| reader := {| buffered := []; pieces := arrives |} |}.

Definition defaultVersion (req : Request) : Request :=
  if String.eqb (req_Version req) ""
  then {| req_Version := Version; RequestID := RequestID req; Operation := Operation req;
          Payload := Payload req |}
  else req.

(** The first half of [Call]: what is written, and whether all of it is; [cut]
    is where the write fails, if it does. *)
Definition write_request (cut : option nat) (req : Request) : bytes * bool :=
  let data := MarshalRequest (defaultVersion req) ++ [newline] in
  match cut with Some n => (take n data, false) | None => (data, true) end.

(** The second half: the next frame that arrives, whichever request it is the
    response to; its identifier is not compared. *)
Definition receive (c : Client) : result call_err received * Client :=
  match readFrame (frame_fuel MaxFrameBytes) 4096 MaxFrameBytes [] (reader c) with
  | Some (Line line, r) =>
      (match UnmarshalResponse line with Some resp => Ok resp | None => Err ErrDecode end, {| reader := r |})
  | Some (TooLarge, r) => (Err ErrFrameTooLarge, {| reader := r |})
  | Some (ConnErr, r) => (Err ErrRead, {| reader := r |})
  | None => (Err ErrRead, c)
  end.

(** [Call]: what is written, the outcome and the client after it. *)
Definition Call (cut : option nat) (req : Request) (c : Client)
  : bytes * result call_err received * Client :=
  match write_request cut req with
  | (data, false) => (data, Err ErrWrite, c)
  | (data, true) => let '(out, c) := receive c in (data, out, c)
  end.

(** Calls one after the other. *)
Fixpoint calls (reqs : list Request) (c : Client) : bytes * list (result call_err received) :=
  match reqs with
  | [] => ([], [])
  | req :: reqs =>
      let '(data, out, c) := Call None req c in
      let '(more, outs) := calls reqs c in (data ++ more, out :: outs)
  end.

(** ** The control client *)

(** [json.Marshal] of a map writes its keys in order. *)
Fixpoint insert_key {A} (m : string * A) (ms : list (string * A)) : list (string * A) :=
  match ms with
  | [] => [m]
  | m2 :: ms' => if String.leb (fst m) (fst m2) then m :: ms else m2 :: insert_key m ms'
  end.

Definition sort_keys {A} (ms : list (string * A)) : list (string * A) := foldr insert_key [] ms.

Definition json_map (ms : list (string * bytes)) : bytes := json_object (sort_keys ms).

(** An operation and its payload; [None] is a nil payload. *)
Abbreviation operation := (string * option bytes)%type.

Definition PortsList : operation := (OpPortsList, None).

Record SessionStartOptions := {
  opt_Transport : string; opt_SSHPassword : string;
  opt_SSHKeyPassphrases : list (string * string); opt_SSHAcceptHost : bool
}.

Definition when (b : bool) (m : string * bytes) : list (string * bytes) := if b then [m] else [].

Definition SessionStartWithOptions (board : string) (o : SessionStartOptions) : operation :=
  (OpSessionStart, Some (json_map (
     [("board"%string, json_string board)] ++
     when (negb (String.eqb (opt_Transport o) "")) ("transport"%string, json_string (opt_Transport o)) ++
     when (negb (String.eqb (opt_SSHPassword o) "")) ("ssh_password"%string, json_string (opt_SSHPassword o)) ++
     when (negb (bool_decide (opt_SSHKeyPassphrases o = [])))
       ("ssh_key_passphrases"%string, json_map (prod_map id json_string <$> opt_SSHKeyPassphrases o)) ++
     when (opt_SSHAcceptHost o) ("ssh_accept_host"%string, json_bool true)))).

Definition SessionStart (board : string) : operation :=
  SessionStartWithOptions board {| opt_Transport := ""; opt_SSHPassword := "";
                                   opt_SSHKeyPassphrases := []; opt_SSHAcceptHost := false |}.

Definition SessionStatus : operation := (OpSessionStatus, None).
Definition SessionEnd : operation := (OpSessionEnd, None).

Definition OutputRead (after max : Z) : operation :=
  (OpOutputRead, Some (json_map [("after"%string, dec_Z after); ("max"%string, dec_Z max)])).

(** [DiagnoseRequest] and [UnsafeShellRequest] have one shape. *)
Record ExecuteRequest := {
  ex_SessionID : string; ex_Text : string; ex_Purpose : string; ex_TimeoutMS : Z
}.

Definition MarshalExecute (r : ExecuteRequest) : bytes :=
  json_object [("session_id", json_string (ex_SessionID r)); ("text", json_string (ex_Text r));
               ("purpose", json_string (ex_Purpose r)); ("timeout_ms", dec_Z (ex_TimeoutMS r))]%string.

Definition DiagnoseExecute (r : ExecuteRequest) : operation := (OpDiagnoseExecute, Some (MarshalExecute r)).
Definition UnsafeShellExecute (r : ExecuteRequest) : operation :=
  (OpUnsafeShellExecute, Some (MarshalExecute r)).

Definition CommandPropose (sessionID text purpose : string) (timeoutMS : Z) : operation :=
  (OpCommandPropose, Some (json_map
     [("session_id", json_string sessionID); ("text", json_string text);
      ("purpose", json_string purpose); ("timeout_ms", dec_Z timeoutMS)]%string)).

Definition CommandList (sessionID : string) : operation :=
  (OpCommandList, Some (json_map [("session_id"%string, json_string sessionID)])).

Definition RecordsExport (afterTranscript afterAudit : Z) : operation :=
  (OpRecordsExport, Some (json_map
     [("after_transcript", dec_Z afterTranscript); ("after_audit", dec_Z afterAudit)]%string)).

Definition CommandApproveWithConfirmation (proposalID confirmation : string) : operation :=
  (OpCommandApprove, Some (json_map
     [("proposal_id", json_string proposalID); ("confirmation", json_string confirmation)]%string)).
Definition CommandApprove (proposalID : string) : operation := CommandApproveWithConfirmation proposalID "".

Definition CommandReject (proposalID : string) : operation :=
  (OpCommandReject, Some (json_map [("proposal_id"%string, json_string proposalID)])).

Definition CommandEdit (proposalID text purpose : string) : operation :=
  (OpCommandEdit, Some (json_map
     [("proposal_id", json_string proposalID); ("text", json_string text);
      ("purpose", json_string purpose)]%string)).

(** A [[]byte] is written in base64. *)
Definition TransportWrite (data : bytes) : operation :=
  (OpTransportWrite, Some (json_map [("data"%string, json_string (of_bytes (base64 data)))])).

Definition RetryUART : operation := (OpRetryUART, None).
Definition RetrySSH : operation := (OpRetrySSH, None).
Definition RetryTelnet : operation := (OpRetryTelnet, None).
Definition Takeover : operation := (OpTakeover, None).
Definition SecretBegin : operation := (OpSecretBegin, None).
Definition SecretDone : operation := (OpSecretDone, None).

(** [Client.Call] of package cli, up to the send; [rid] is the fresh request
    identifier. *)
Definition to_request (rid : string) (op : operation) : Request :=
  {| req_Version := ""; RequestID := rid; Operation := fst op; Payload := default [] (snd op) |}.

(** What it makes of the outcome, for a caller that wants the raw result. *)
Inductive cli_err := ErrCall (e : call_err) | ErrProtocol (e : ProtocolError) | ErrResult.

Definition raw_result (out : result call_err received) : result cli_err bytes :=
  match out with
  | Err e => Err (ErrCall e)
  | Ok resp =>
      match rcv_Error resp with
      | Some e => Err (ErrProtocol e)
      | None =>
          match rcv_Result resp with
          | [] => Ok []
          | r => match document r with Some v => Ok v | None => Err ErrResult end
          end
      end
  end.

(** ** Specification *)

(** A request the client can send whole and the server reads back. *)
Definition sendable (req : Request) : Prop :=
  marshalled (Payload req) /\ (length (MarshalRequest (defaultVersion req)) < MaxFrameBytes)%nat.

(** A response the server can send and the client reads back. *)
Definition returnable `{ErrorTexts} (resp : Response) : Prop :=
  marshalled (default [] (Result resp)) /\ (length (MarshalResponse resp) < MaxFrameBytes)%nat.

(** ** Lemmas *)

Lemma receive_line c line rest :
  newline ∉ line -> (length line < MaxFrameBytes)%nat ->
  stream_of (reader c) = (line ++ [newline]) ++ rest ->
  exists c', receive c = (match UnmarshalResponse line with Some resp => Ok resp | None => Err ErrDecode end, c') /\
    stream_of (reader c') = rest.
Proof.
  intros Hn Hl Hs. unfold receive.
  destruct (readFrame_spec (frame_fuel MaxFrameBytes) 4096 MaxFrameBytes [] (reader c)) as (f & r & -> & Hf);
    [by apply Nat.ltb_lt|done|cbn; lia|unfold frame_fuel; cbn; lia|].
  rewrite app_nil_l, Hs, first_frame_line in Hf by done. injection Hf as <- ->. by eexists.
Qed.

Lemma Call_line req c line rest :
  newline ∉ line -> (length line < MaxFrameBytes)%nat ->
  stream_of (reader c) = (line ++ [newline]) ++ rest ->
  exists c', Call None req c =
    (MarshalRequest (defaultVersion req) ++ [newline],
     match UnmarshalResponse line with Some resp => Ok resp | None => Err ErrDecode end, c') /\
    stream_of (reader c') = rest.
Proof.
  intros Hn Hl Hs. destruct (receive_line c line rest Hn Hl Hs) as (c' & Hc & Hr).
  exists c'. unfold Call. cbn [write_request]. by rewrite Hc.
Qed.

Section Connection.
Context {S : Type} `{Dispatcher S} `{ErrorTexts}.

Lemma calls_read reqs resps c :
  length reqs = length resps -> Forall returnable resps ->
  stream_of (reader c) = concat (writeResponse <$> resps) ->
  calls reqs c = (concat ((fun r => MarshalRequest (defaultVersion r) ++ [newline]) <$> reqs),
                  (fun r => Ok (delivered r)) <$> resps).
Proof.
  revert resps c. induction reqs as [|req reqs IH]; intros [|resp resps] c Hlen Hr Hs; try done.
  apply Forall_cons in Hr as [[Hm Hl] Hr]. destruct (response_texts resp Hm) as [Hn Hu].
  cbn [fmap list_fmap concat] in Hs. unfold writeResponse at 1 in Hs.
  destruct (Call_line req c (MarshalResponse resp) (concat (writeResponse <$> resps))) as (c' & Hc & Hs');
    [done|done|exact Hs|].
  cbn [calls]. rewrite Hc, Hu. rewrite (IH resps c') by (try done; by injection Hlen). done.
Qed.

Lemma answers_cons role l ls (s : S) :
  answers role (l :: ls) s =
  let '(s1, resp) := answer role l s in let '(s2, resps) := answers role ls s1 in (s2, resp :: resps).
Proof. done. Qed.

Lemma answers_length role ls (s : S) : length (answers role ls s).2 = length ls.
Proof.
  revert s. induction ls as [|l ls IH]; intros s; [done|]. rewrite answers_cons.
  destruct (answer role l s) as [s1 resp]. specialize (IH s1). destruct (answers role ls s1). cbn in *. by rewrite IH.
Qed.

(** The line a request is sent as. *)
Definition request_line (r : Request) : bytes := MarshalRequest (defaultVersion r).

Lemma sendable_line r :
  sendable r -> newline ∉ request_line r /\ (length (request_line r) < MaxFrameBytes)%nat /\
  Unmarshal (request_line r) = Some (arrived (defaultVersion r)).
Proof.
  intros [Hm Hl]. assert (Hp : marshalled (Payload (defaultVersion r))).
  { unfold defaultVersion. by destruct (String.eqb _ _). }
  split_and!; [by apply request_one_line|exact Hl|by apply request_roundtrip].
Qed.

Lemma request_lines reqs :
  Forall sendable reqs ->
  lines_then MaxFrameBytes (request_line <$> reqs) []
    (concat ((fun r => request_line r ++ [newline]) <$> reqs)).
Proof.
  intros Hs. split_and!.
  - apply Forall_fmap. eapply Forall_impl; [exact Hs|]. intros r (H1 & H2 & _)%sendable_line. by split.
  - rewrite take_nil. apply not_elem_of_nil.
  - rewrite app_nil_r. f_equal. by rewrite <-list_fmap_compose.
Qed.

Lemma sent_reach role reqs :
  Forall sendable reqs ->
  omap (reaches role) (request_line <$> reqs) =
  List.filter (fun r => String.eqb (req_Version r) Version && permitted role (Operation r))
    ((fun r => arrived (defaultVersion r)) <$> reqs).
Proof.
  induction 1 as [|r reqs (_ & _ & Hu)%sendable_line _ IH]; [done|].
  rewrite !fmap_cons. cbn [omap list_omap List.filter]. unfold reaches at 1. rewrite Hu.
  fold (omap (reaches role) (request_line <$> reqs)). rewrite <-IH. by destruct (String.eqb _ _ && _).
Qed.

Lemma answer_id role r (s : S) :
  sendable r -> resp_RequestID (answer role (request_line r) s).2 = sanitize (RequestID r).
Proof.
  intros (_ & _ & Hu)%sendable_line. unfold answer. rewrite Hu. cbv zeta.
  assert (Hid : RequestID (arrived (defaultVersion r)) = sanitize (RequestID r)).
  { unfold defaultVersion. by destruct (String.eqb _ _). }
  rewrite Hid. destruct (negb _); [done|]. destruct (negb _); [done|].
  destruct (Dispatch _ _ _) as [s1 [e| |[d|]]]; done.
Qed.

Lemma answers_ids role reqs (s : S) :
  Forall sendable reqs ->
  Forall2 (fun req resp => resp_RequestID resp = sanitize (RequestID req)) reqs
    (answers role (request_line <$> reqs) s).2.
Proof.
  intros Hs. revert s. induction Hs as [|r reqs Hr _ IH]; intros s; [constructor|].
  rewrite fmap_cons, answers_cons. pose proof (answer_id role r s Hr) as Hid.
  destruct (answer role (request_line r) s) as [s1 resp]. specialize (IH s1).
  destruct (answers role _ s1) as [s2 resps]. by constructor.
Qed.

(** Two calls on one client at once, as the poller and the key loop of an
    attach session make them (src/internal/cli/attach.go): both requests are
    written, and the goroutine that reads first takes the first response. *)
Definition both_written (second_first : bool) (c : Client)
  : result call_err received * result call_err received :=
  let '(out1, c) := receive c in
  let '(out2, _) := receive c in
  if second_first then (out2, out1) else (out1, out2).

(** When the second caller reads first, each gets the response to the other's
    request, without an error. *)
Lemma shared_client_swaps role a b (s : S) c :
  let out := answers role (request_line <$> [a; b]) s in
  Forall sendable [a; b] -> Forall returnable out.2 ->
  stream_of (reader c) = concat (writeResponse <$> out.2) ->
  exists ra rb, out.2 = [ra; rb] /\ resp_RequestID ra = sanitize (RequestID a) /\
    resp_RequestID rb = sanitize (RequestID b) /\
    both_written true c = (Ok (delivered rb), Ok (delivered ra)).
Proof.
  intros out Hs Hr Hst. pose proof (answers_ids role [a; b] s Hs) as Hids. fold out in Hids.
  pose proof (Forall2_length _ _ _ Hids) as Hlen. destruct out.2 as [|ra [|rb [|]]]; try discriminate Hlen.
  apply Forall2_cons in Hids as [Ha [Hb _]%Forall2_cons]. exists ra, rb. split_and!; [done|exact Ha|exact Hb|].
  apply Forall_cons in Hr as [[Hma Hla] [[Hmb Hlb] _]%Forall_cons].
  destruct (response_texts ra Hma) as [Hna Hua]. destruct (response_texts rb Hmb) as [Hnb Hub].
  cbn [fmap list_fmap concat] in Hst. rewrite app_nil_r in Hst. unfold writeResponse in Hst at 1.
  destruct (receive_line c _ _ Hna Hla Hst) as (c1 & H1 & Hst1). unfold writeResponse in Hst1.
  destruct (receive_line c1 (MarshalResponse rb) [] Hnb Hlb) as (c2 & H3 & _); [by rewrite app_nil_r|].
  unfold both_written. by rewrite H1, Hua, H3, Hub.
Qed.

End Connection.

(** ** Properties *)

(** C16. Both ends of a connection. However the bytes of the two directions
    are cut into pieces, when a client makes calls one after the other over a
    connection that a server answers, and every request and response is below
    the frame limit: the server performs exactly the calls whose version and
    operation the role allows, in order, with their texts as valid UTF-8 and
    their payloads untouched; and the client gets for each call, in order, the
    result or the error code of that very call, under its own identifier. *)
Theorem calls_exact {S : Type} {Hd : Dispatcher S} {He : ErrorTexts} role reqs conn c s :
  let sent := (fun r => arrived (defaultVersion r)) <$> reqs in
  let out := answers role (request_line <$> reqs) s in
  Forall sendable reqs -> Forall returnable out.2 ->
  concat conn = (calls reqs c).1 ->
  stream_of (reader c) = concat (writeResponse <$> out.2) ->
  handleConn role conn s = Some out /\
  out.1 = dispatch_all role
    (List.filter (fun r => String.eqb (req_Version r) Version && permitted role (Operation r)) sent) s /\
  (calls reqs c).2 = (fun resp => Ok (delivered resp)) <$> out.2 /\
  Forall2 (fun req resp => resp_RequestID resp = sanitize (RequestID req)) reqs out.2.
Proof.
  intros sent out Hsend Hret Hconn Hstream.
  assert (Hlen : length reqs = length out.2) by (unfold out; by rewrite answers_length, length_fmap).
  pose proof (calls_read reqs out.2 c Hlen Hret Hstream) as Hc. rewrite Hc in *.
  split_and!; [| |done|by apply answers_ids].
  - destruct (connection_answered role conn s) as [Hans _]. rewrite (Hans (request_line <$> reqs) []).
    + replace (MaxFrameBytes <? _)%nat with false; [|done]. rewrite app_nil_r. unfold out.
      by destruct (answers _ _ _).
    + rewrite Hconn. by apply request_lines.
  - unfold out. by rewrite answers_dispatch, sent_reach.
Qed.

(** *** Witness *)

#[local] Instance demo_dispatcher : Dispatcher (list string) :=
  fun _ req s => (s ++ [Operation req], DResult (Some (to_bytes "{}"))).
#[local] Instance demo_error_texts : ErrorTexts := fun _ _ => "no"%string.

(** One call that the control role allows and one that it does not. *)
Definition demo_requests : list Request :=
  [to_request "r1" SessionStatus; to_request "r2" Takeover].
Definition demo_answers : list string * list Response := answers RoleControl (request_line <$> demo_requests) [].

Lemma calls_exact_witness :
  let c := Dial [concat (writeResponse <$> demo_answers.2)] in
  handleConn RoleControl [(calls demo_requests c).1] [] = Some demo_answers /\ demo_answers.1 = [OpSessionStatus].
Proof.
  intros c.
  assert (Hm : forall raw, raw = [] \/ raw = to_bytes "{}" -> marshalled raw).
  { intros raw [-> | ->]; [by left|right]. split; [|apply (bool_decide_unpack _); by vm_compute].
    apply (text_object 999 [] [] [] []); first [apply Forall_nil_2|lia]. }
  destruct (calls_exact RoleControl demo_requests [(calls demo_requests c).1] c []) as (H1 & H2 & _).
  - repeat (apply Forall_cons_2; [split; [apply Hm; by left|apply Nat.ltb_lt; vm_compute; reflexivity]|]).
    apply Forall_nil_2.
  - change (Forall returnable demo_answers.2).
    assert (Hd : demo_answers.2 = [{| resp_Version := Version; resp_RequestID := "r1"; Result := Some (to_bytes "{}"); Error := None |};
      {| resp_Version := Version; resp_RequestID := "r2"; Result := None; Error := Some ErrCodePermissionDenied |}])
      by (vm_compute; reflexivity).
    rewrite Hd. apply Forall_cons_2; [|apply Forall_singleton];
      (split; [apply Hm; cbn; auto|apply Nat.ltb_lt; vm_compute; reflexivity]).
  - cbn [concat]. apply app_nil_r.
  - unfold c, Dial, stream_of. cbn [reader buffered pieces concat app]. apply app_nil_r.
  - split; [exact H1|]. vm_compute. reflexivity.
Defined.
