(* ===== verification/Telnet.v ===== *)
(** * Telnet transport (src/internal/transport/telnet/telnet.go)

    The NVT client: the filter that removes the protocol from what the server
    sends, in place, and answers it; the read loop around it; the escaping
    writer. *)

From S2P Require Import Prelude.

(** ** Commands *)

Definition cmdSE : ascii := ascii_of_nat 240.
Definition cmdSB : ascii := ascii_of_nat 250.
Definition cmdWILL : ascii := ascii_of_nat 251.
Definition cmdWONT : ascii := ascii_of_nat 252.
Definition cmdDO : ascii := ascii_of_nat 253.
Definition cmdDONT : ascii := ascii_of_nat 254.
Definition cmdIAC : ascii := ascii_of_nat 255.

Inductive readState := stateData | stateIAC | stateOption | stateSB | stateSBIAC.

(** The read side of a [Stream]. *)
Record Stream := { state : readState; verb : ascii }.

Definition newStream : Stream := {| state := stateData; verb := ascii_of_nat 0 |}.

(** ** The filter *)

Definition is_verb (b : ascii) : bool :=
  Ascii.eqb b cmdWILL || Ascii.eqb b cmdWONT || Ascii.eqb b cmdDO || Ascii.eqb b cmdDONT.

Definition refusal (verb b : ascii) : bytes :=
  if Ascii.eqb verb cmdDO then [cmdIAC; cmdWONT; b]
  else if Ascii.eqb verb cmdWILL then [cmdIAC; cmdDONT; b] else [].

(** One turn of the loop: the new state, the byte kept, the refusal. *)
Definition filter_byte (b : ascii) (s : Stream) : Stream * option ascii * bytes :=
  let go st := {| state := st; verb := verb s |} in
  match state s with
  | stateData => if Ascii.eqb b cmdIAC then (go stateIAC, None, []) else (s, Some b, [])
  | stateIAC =>
      if Ascii.eqb b cmdIAC then (go stateData, Some cmdIAC, [])
      else if is_verb b then ({| state := stateOption; verb := b |}, None, [])
      else if Ascii.eqb b cmdSB then (go stateSB, None, [])
      else (go stateData, None, [])
  | stateOption => (go stateData, None, refusal (verb s) b)
  | stateSB => if Ascii.eqb b cmdIAC then (go stateSBIAC, None, []) else (s, None, [])
  | stateSBIAC => if Ascii.eqb b cmdSE then (go stateData, None, []) else (go stateSB, None, [])
  end.

(** The loop over the indices [i, i+1, ...] of the buffer it writes to. *)
Fixpoint filter_loop (n i kept : nat) (refusals buf : bytes) (s : Stream)
  : nat * bytes * bytes * Stream :=
  match n with
  | O => (kept, refusals, buf, s)
  | S n =>
      match buf !! i with
      | None => (kept, refusals, buf, s)
      | Some b =>
          let '(s, k, r) := filter_byte b s in
          match k with
          | Some x => filter_loop n (S i) (S kept) (refusals ++ r) (<[kept := x]> buf) s
          | None => filter_loop n (S i) kept (refusals ++ r) buf s
          end
      end
  end.

(** [filter]: the count kept, the refusals, the buffer afterwards. *)
Definition filter_ (buf : bytes) (s : Stream) : nat * bytes * bytes * Stream :=
  filter_loop (length buf) 0 0 [] buf s.

(** ** Reading and writing *)

(** The reads of the connection: bytes, and whether the read also failed. *)
Abbreviation conn_read := (bytes * bool)%type.

Inductive read_result :=
| ReadOk (data : bytes) | ReadErr (data : bytes) | ReadBlocked.

(** [Read(p)] for a nonempty [p]; each read of the connection fits [p]. The
    refusals written are returned too. [ReadBlocked]: no more is delivered. *)
Fixpoint Read (conn : list conn_read) (s : Stream)
  : read_result * bytes * list conn_read * Stream :=
  match conn with
  | [] => (ReadBlocked, [], [], s)
  | (p, err) :: conn =>
      let '(kept, refusals, buf, s) := filter_ p s in
      if err then (ReadErr (take kept buf), refusals, conn, s)
      else if (0 <? kept)%nat then (ReadOk (take kept buf), refusals, conn, s)
      else let '(r, refusals', conn, s) := Read conn s in (r, refusals ++ refusals', conn, s)
  end.

(** The bytes that [Write] puts on the connection. *)
Fixpoint Write (p : bytes) : bytes :=
  match p with
  | [] => []
  | b :: p => (if Ascii.eqb b cmdIAC then [cmdIAC] else []) ++ b :: Write p
  end.

(** ** Specification *)

(** The filter without a buffer: what is kept, what is answered. *)
Fixpoint nvt (buf : bytes) (s : Stream) : bytes * bytes * Stream :=
  match buf with
  | [] => ([], [], s)
  | b :: buf =>
      let '(s, k, r) := filter_byte b s in
      let '(data, refusals, s) := nvt buf s in
      (option_list k ++ data, r ++ refusals, s)
  end.

(** What a server sends: data bytes, a negotiation, a subnegotiation, any
    other two-byte command. *)
Inductive item :=
| Data (b : ascii) | Option_ (v opt : ascii) | Sub (payload : bytes) | Cmd (b : ascii).

Definition encode (x : item) : bytes :=
  match x with
  | Data b => Write [b]
  | Option_ v opt => [cmdIAC; v; opt]
  | Sub payload => [cmdIAC; cmdSB] ++ Write payload ++ [cmdIAC; cmdSE]
  | Cmd b => [cmdIAC; b]
  end.

Definition item_ok (x : item) : Prop :=
  match x with
  | Option_ v _ => is_verb v = true
  | Cmd b => is_verb b = false /\ b <> cmdIAC /\ b <> cmdSB
  | _ => True
  end.

Definition item_data (x : item) : bytes := match x with Data b => [b] | _ => [] end.
Definition item_answer (x : item) : bytes :=
  match x with Option_ v opt => refusal v opt | _ => [] end.

(** ** Lemmas *)

Lemma nvt_app a b s :
  nvt (a ++ b) s =
  let '(d1, r1, s1) := nvt a s in
  let '(d2, r2, s2) := nvt b s1 in (d1 ++ d2, r1 ++ r2, s2).
Proof.
  revert s. induction a as [|x a IH]; intros s; cbn [nvt app].
  - by destruct (nvt b s) as [[]].
  - destruct (filter_byte x s) as [[s1 k] r]. rewrite IH.
    destruct (nvt a s1) as [[d1 r1] s2]. destruct (nvt b s2) as [[d2 r2] s3].
    by rewrite <-!app_assoc.
Qed.

(** Writing at or before the index being read does not disturb the loop. *)
Lemma filter_loop_spec n i kept refusals buf s :
  (kept <= i)%nat -> length buf = (i + n)%nat ->
  let '(kept', refusals', buf', s') := filter_loop n i kept refusals buf s in
  let '(data, rs, s1) := nvt (drop i buf) s in
  kept' = (kept + length data)%nat /\ take kept' buf' = take kept buf ++ data /\
  refusals' = refusals ++ rs /\ s' = s1 /\ length buf' = length buf /\ (kept' <= length buf')%nat.
Proof.
  revert i kept refusals buf s. induction n as [|n IH]; intros i kept refusals buf s Hk Hl; cbn [filter_loop].
  - rewrite drop_ge by lia. cbn [nvt length]. rewrite !app_nil_r. split_and!; try done; lia.
  - destruct (lookup_lt_is_Some_2 buf i) as [b Hb]; [lia|]. rewrite Hb.
    rewrite (drop_S _ _ _ Hb). cbn [nvt]. destruct (filter_byte b s) as [[s1 k] r].
    destruct k as [x|].
    + specialize (IH (S i) (S kept) (refusals ++ r) (<[kept:=x]> buf) s1).
      rewrite length_insert in IH. specialize (IH ltac:(lia) ltac:(lia)).
      destruct (filter_loop _ _ _ _ _ _) as [[[kept' rf] buf'] s2].
      rewrite drop_insert_lt in IH by lia. destruct (nvt (drop (S i) buf) s1) as [[d rs] s3].
      destruct IH as (-> & Ht & -> & -> & Hlen & Hle). split_and!; try done.
      * cbn. lia.
      * rewrite Ht. rewrite (take_S_r _ _ x) by (apply list_lookup_insert_eq; lia).
        rewrite take_insert_ge by lia. by rewrite <-app_assoc.
      * by rewrite <-app_assoc.
    + specialize (IH (S i) kept (refusals ++ r) buf s1 ltac:(lia) ltac:(lia)).
      destruct (filter_loop _ _ _ _ _ _) as [[[kept' rf] buf'] s2].
      destruct (nvt (drop (S i) buf) s1) as [[d rs] s3].
      destruct IH as (-> & Ht & -> & -> & Hlen & Hle). split_and!; try done. by rewrite <-app_assoc.
Qed.

Lemma filter_spec buf s :
  exists buf', filter_ buf s = (length (nvt buf s).1.1, (nvt buf s).1.2, buf', (nvt buf s).2) /\
    take (length (nvt buf s).1.1) buf' = (nvt buf s).1.1 /\ length buf' = length buf.
Proof.
  pose proof (filter_loop_spec (length buf) 0 0 [] buf s (Nat.le_refl _) eq_refl) as H.
  unfold filter_. destruct (filter_loop _ _ _ _ _ _) as [[[kept' rf] buf'] s2].
  rewrite drop_0 in H. destruct (nvt buf s) as [[d rs] s3].
  destruct H as (-> & Ht & -> & -> & Hl & _). by exists buf'.
Qed.

Lemma nvt_sub payload v :
  nvt (Write payload) {| state := stateSB; verb := v |} = ([], [], {| state := stateSB; verb := v |}).
Proof.
  induction payload as [|b p IH]; [done|]. cbn [Write].
  destruct (Ascii.eqb b cmdIAC) eqn:E; bools.
  - subst. cbn [app nvt]. unfold filter_byte at 1. cbn [state]. rewrite Ascii.eqb_refl.
    unfold filter_byte at 1. cbn [state verb]. change (Ascii.eqb cmdIAC cmdSE) with false. cbn iota.
    by rewrite IH.
  - apply Ascii.eqb_neq in E. cbn [app nvt]. unfold filter_byte at 1. cbn [state]. rewrite E. by rewrite IH.
Qed.

Lemma nvt_item x v :
  item_ok x -> exists v',
  nvt (encode x) {| state := stateData; verb := v |} =
    (item_data x, item_answer x, {| state := stateData; verb := v' |}).
Proof.
  destruct x as [b|w opt|payload|b]; intros Hok; cbn [encode item_data item_answer].
  - exists v. cbn [Write app]. destruct (Ascii.eqb b cmdIAC) eqn:E.
    + apply Ascii.eqb_eq in E as ->. reflexivity.
    + cbn [app nvt]. unfold filter_byte. cbn [state]. by rewrite E.
  - exists w. cbn [nvt]. unfold filter_byte at 1. cbn [state verb]. rewrite Ascii.eqb_refl.
    unfold filter_byte at 1. cbn [state verb]. cbn in Hok. rewrite Hok.
    destruct (Ascii.eqb w cmdIAC) eqn:E; [by apply Ascii.eqb_eq in E as ->; vm_compute in Hok|].
    unfold filter_byte at 1. cbn [state verb option_list app]. by rewrite !app_nil_r.
  - exists v. rewrite nvt_app.
    change (nvt [cmdIAC; cmdSB] {| state := stateData; verb := v |})
      with (([], [], {| state := stateSB; verb := v |}) : bytes * bytes * Stream). cbv iota beta.
    rewrite nvt_app, nvt_sub. reflexivity.
  - exists v. destruct Hok as (Hv & H1%Ascii.eqb_neq & H2%Ascii.eqb_neq).
    cbn [nvt]. unfold filter_byte at 1. cbn [state verb]. rewrite Ascii.eqb_refl.
    unfold filter_byte at 1. cbn [state verb]. by rewrite H1, Hv, H2.
Qed.

Lemma nvt_items xs v :
  Forall item_ok xs -> exists v',
  nvt (concat (encode <$> xs)) {| state := stateData; verb := v |} =
    (concat (item_data <$> xs), concat (item_answer <$> xs), {| state := stateData; verb := v' |}).
Proof.
  revert v. induction xs as [|x xs IH]; intros v Hok; [by exists v|].
  apply Forall_cons in Hok as [Hx Hxs]. destruct (nvt_item x v Hx) as [v1 H1].
  destruct (IH v1 Hxs) as [v2 H2]. exists v2. cbn [fmap list_fmap concat].
  by rewrite nvt_app, H1, H2.
Qed.

(** All the reads of a connection, one after the other, until it fails or
    blocks: the data handed out and the refusals sent. *)
Fixpoint read_all (fuel : nat) (conn : list conn_read) (s : Stream) : bytes * bytes :=
  match fuel with
  | O => ([], [])
  | S fuel =>
      match Read conn s with
      | (ReadOk d, r, conn, s) => let '(d', r') := read_all fuel conn s in (d ++ d', r ++ r')
      | (ReadErr d, r, _, _) => (d, r)
      | (ReadBlocked, r, _, _) => ([], r)
      end
  end.

Lemma Read_spec conn s :
  Forall (fun p => p.2 = false) conn ->
  let '(res, refusals, conn', s') := Read conn s in
  exists data, res = (if decide (data = []) then ReadBlocked else ReadOk data) /\
    (exists pre, conn = pre ++ conn' /\ nvt (concat pre.*1) s = (data, refusals, s')) /\
    (data = [] -> conn' = []) /\ (data <> [] -> (length conn' < length conn)%nat).
Proof.
  revert s. induction conn as [|[p err] conn IH]; intros s Hok; cbn [Read].
  { exists []. split_and!; [done| |done|done]. by exists []. }
  apply Forall_cons in Hok as [Herr Hok]. cbn in Herr. subst err.
  destruct (filter_spec p s) as (buf' & -> & Htake & _). rewrite Htake.
  destruct (nvt p s) as [[d r] s1] eqn:Hp. cbn [fst snd] in *.
  destruct (0 <? length d)%nat eqn:E.
  - apply Nat.ltb_lt in E. exists d. rewrite decide_False by (intros ->; cbn in E; lia).
    split_and!; [done| |intros ->; cbn in E; lia|intros _; cbn; lia]. exists [(p, false)]. split; [done|].
    cbn. by rewrite app_nil_r.
  - apply Nat.ltb_ge in E. destruct d; [|cbn in E; lia]. specialize (IH s1 Hok).
    destruct (Read conn s1) as [[[res r2] conn'] s'].
    destruct IH as (data & -> & (pre & -> & Hn) & H1 & H2). exists data. split_and!; [done| |done|].
    + exists ((p, false) :: pre). split; [done|]. cbn [fmap list_fmap concat fst].
      by rewrite nvt_app, Hp, Hn.
    + intros Hd. specialize (H2 Hd). rewrite length_cons. lia.
Qed.

Lemma read_all_spec fuel conn s :
  Forall (fun p => p.2 = false) conn -> (length conn < fuel)%nat ->
  read_all fuel conn s = ((nvt (concat conn.*1) s).1.1, (nvt (concat conn.*1) s).1.2).
Proof.
  revert conn s. induction fuel as [|fuel IH]; intros conn s Hok Hf; [lia|]. cbn [read_all].
  pose proof (Read_spec conn s Hok) as H. destruct (Read conn s) as [[[res r] conn'] s'].
  destruct H as (data & -> & (pre & -> & Hn) & H1 & H2).
  rewrite fmap_app, concat_app, nvt_app, Hn. case_decide as Hd.
  - subst. rewrite (H1 eq_refl). cbn. by rewrite app_nil_r.
  - specialize (H2 Hd). apply Forall_app in Hok as [_ Hok]. rewrite (IH conn' s' Hok) by lia.
    by destruct (nvt (concat conn'.*1) s') as [[]].
Qed.

(** ** Properties *)

(** C37. The telnet filter is exact. Filtering in place inside the caller's
    buffer keeps the right bytes although it overwrites what it still reads
    from, and reading a connection hands out, over all its reads, exactly the
    data bytes the server sent, in order, and sends exactly one refusal per
    DO and per WILL, for every mix of data, negotiations, subnegotiations and
    commands and however the stream is cut into segments; in particular what
    a peer writes through the same escaping is read back unchanged. *)
Theorem telnet_exact xs conn :
  Forall item_ok xs -> Forall (fun p => p.2 = false) conn ->
  concat conn.*1 = concat (encode <$> xs) ->
  read_all (S (length conn)) conn newStream =
    (concat (item_data <$> xs), concat (item_answer <$> xs)).
Proof.
  intros Hx Hc He. rewrite (read_all_spec _ _ _ Hc) by lia. rewrite He.
  destruct (nvt_items xs (ascii_of_nat 0) Hx) as [v Hv]. unfold newStream. by rewrite Hv.
Qed.

Definition demo_items : list item :=
  [Option_ cmdDO "001"%char; Data "o"; Sub [cmdIAC; cmdSE]; Data cmdIAC; Option_ cmdWILL "003"%char;
   Cmd (ascii_of_nat 241); Data "k"].

(** The same, cut in the middle of its sequences. *)
Definition demo_conn : list conn_read :=
  (fun p => (p, false)) <$>
  [take 2 (concat (encode <$> demo_items)); slice 2 7 (concat (encode <$> demo_items));
   drop 7 (concat (encode <$> demo_items))].

Lemma telnet_exact_witness :
  read_all 4 demo_conn newStream =
    (["o"; cmdIAC; "k"]%char, [cmdIAC; cmdWONT; "001"; cmdIAC; cmdDONT; "003"]%char).
Proof.
  apply (telnet_exact demo_items demo_conn).
  - repeat constructor; by vm_compute.
  - repeat constructor.
  - by vm_compute.
Defined.

(** The client requests nothing. Whatever the server sends, every command
    the read path writes is IAC WONT or IAC DONT with an option: no option is
    ever offered or requested, so the session stays a plain NVT. *)
Theorem telnet_only_refuses conn s :
  exists opts : list (bool * ascii),
    (Read conn s).1.1.2 =
      concat ((fun x => [cmdIAC; if x.1 : bool then cmdWONT else cmdDONT; x.2]) <$> opts).
Proof.
  revert s. assert (Hn : forall buf s, exists opts : list (bool * ascii), (nvt buf s).1.2 =
    concat ((fun x => [cmdIAC; if x.1 : bool then cmdWONT else cmdDONT; x.2]) <$> opts)).
  { induction buf as [|b buf IH]; intros s; [by exists []|]. cbn [nvt].
    destruct (filter_byte b s) as [[s1 k] r] eqn:Hf. destruct (IH s1) as [opts Ho].
    destruct (nvt buf s1) as [[d rs] s2]. cbn in Ho |- *. subst rs.
    assert (r = [] \/ r = [cmdIAC; cmdWONT; b] \/ r = [cmdIAC; cmdDONT; b]) as [->|[->| ->]].
    { unfold filter_byte, refusal in Hf. repeat case_match; simplify_eq; eauto. }
    - by exists opts.
    - by exists ((true, b) :: opts).
    - by exists ((false, b) :: opts). }
  induction conn as [|[p err] conn IH]; intros s; [by exists []|]. cbn [Read].
  destruct (filter_spec p s) as (buf' & -> & _). destruct (Hn p s) as [o1 H1].
  destruct (nvt p s) as [[d r] s1]. cbn [fst snd] in *.
  destruct err; [by exists o1|]. destruct (0 <? length d)%nat; [by exists o1|].
  destruct (IH s1) as [o2 H2]. destruct (Read conn s1) as [[[res r2] c2] s2]. cbn in *.
  exists (o1 ++ o2). by rewrite fmap_app, concat_app, H1, H2.
Qed.
