(* ===== verification/Cli.v ===== *)
(** * Attach terminal (src/internal/cli/commandmode.go, attach.go)

    The escape filter that separates keystrokes for the target from local
    commands, the command parser, and the loop of the attach session over a
    client of any kind. The output poller is [poll] of Ring.v. *)

From S2P Require Import Prelude GoStd.

(** ** Command mode *)

Record EscapeResult := {
  Forward : ascii; ShouldForward : bool; EnterCommandMode : bool; CommandModeFirstByte : ascii
}.

Definition zero : ascii := ascii_of_nat 0.

Record EscapeFilter := { prefix : ascii; pending : bool }.

Definition NewEscapeFilter (prefix : ascii) : EscapeFilter :=
  {| prefix := prefix; pending := false |}.

Definition Feed (b : ascii) (f : EscapeFilter) : EscapeFilter * EscapeResult :=
  let idle := {| prefix := prefix f; pending := false |} in
  if pending f then
    if Ascii.eqb b (prefix f)
    then (idle, {| Forward := prefix f; ShouldForward := true; EnterCommandMode := false;
                   CommandModeFirstByte := zero |})
    else (idle, {| Forward := zero; ShouldForward := false; EnterCommandMode := true;
                   CommandModeFirstByte := b |})
  else if Ascii.eqb b (prefix f)
  then ({| prefix := prefix f; pending := true |},
        {| Forward := zero; ShouldForward := false; EnterCommandMode := false;
           CommandModeFirstByte := zero |})
  else (f, {| Forward := b; ShouldForward := true; EnterCommandMode := false;
              CommandModeFirstByte := zero |}).

Record Command := { Name : string; Args : list string }.

(** [None] is [ErrEmptyCommand]. *)
Definition ParseCommand (line : string) : option Command :=
  match Fields line with
  | [] => None
  | w :: ws =>
      match ws with
      | w2 :: ws2 =>
          if String.eqb w "retry" then Some {| Name := "retry " +:+ w2; Args := ws2 |}
          else Some {| Name := w; Args := ws |}
      | [] => Some {| Name := w; Args := ws |}
      end
  end.

(** ** The attach session *)

(** The calls on the client that the loop makes. *)
Inductive request :=
| TransportWrite (data : bytes)
| CommandApprove (id : string) | CommandReject (id : string)
| CommandEdit (id text purpose : string)
| SecretBegin | SecretDone | RetryUART | RetrySSH | RetryTelnet | Takeover | SessionEnd.

(** A client: a call may fail with an error text. *)
Class Client (S : Type) := call : request -> S -> S * option string.

Definition CR : ascii := ascii_of_nat 13.
Definition NL : ascii := ascii_of_nat 10.
Definition crlf : bytes := [CR; NL].
Definition is_eol (b : ascii) : bool := Ascii.eqb b CR || Ascii.eqb b NL.

Definition report (err : option string) : bytes :=
  match err with
  | Some e => crlf ++ to_bytes ("[gateway] " +:+ e) ++ crlf
  | None => []
  end.

(** The loop of [readCommandLine]: the line, what is echoed, the input left;
    [None] is the end of the input. *)
Fixpoint read_line (line echo inp : bytes) : option (bytes * bytes * bytes) :=
  match inp with
  | [] => None
  | b :: inp =>
      if is_eol b then Some (line, echo ++ crlf, inp)
      else read_line (line ++ [b]) (echo ++ [b]) inp
  end.

Definition readCommandLine (first : ascii) (inp : bytes) : option (bytes * bytes * bytes) :=
  let banner := crlf ++ to_bytes "gateway> " in
  if is_eol first then read_line [] banner inp else read_line [first] (banner ++ [first]) inp.

Section Attach.
Context {S : Type} `{Client S} `{GoQuote}.

(** [runCommandLine]: whether the loop ends, and the error text. *)
Definition runCommandLine (line : string) (s : S) : S * bool * option string :=
  match ParseCommand line with
  | None => (s, false, None)
  | Some cmd =>
      let go r := let '(s, e) := call r s in (s, false, e) in
      let n := Name cmd in
      if String.eqb n "approve" then
        match Args cmd with [id] => go (CommandApprove id) | _ => (s, false, Some "usage: approve <id>"%string) end
      else if String.eqb n "reject" then
        match Args cmd with [id] => go (CommandReject id) | _ => (s, false, Some "usage: reject <id>"%string) end
      else if String.eqb n "edit" then
        match Args cmd with
        | id :: w :: ws => go (CommandEdit id (Join (w :: ws) " ") "")
        | _ => (s, false, Some "usage: edit <id> <new command text>"%string)
        end
      else if String.eqb n "secret" then go SecretBegin
      else if String.eqb n "secret-done" then go SecretDone
      else if String.eqb n "retry uart" then go RetryUART
      else if String.eqb n "retry ssh" then go RetrySSH
      else if String.eqb n "retry telnet" then go RetryTelnet
      else if String.eqb n "takeover" then go Takeover
      else if String.eqb n "detach" then (s, true, None)
      else if String.eqb n "end" then let '(s, e) := call SessionEnd s in (s, true, e)
      else (s, false, Some ("unknown command " +:+ Quote n))
  end.

(** How the loop ended. *)
Inductive ended := Detached | InputEnded.

(** [Attach]: the client's final state and what was written to the terminal. *)
Fixpoint attach_loop (fuel : nat) (f : EscapeFilter) (inp : bytes) (s : S) : option (S * bytes * ended) :=
  match fuel with
  | O => None
  | Datatypes.S fuel =>
      match inp with
      | [] => Some (s, [], InputEnded)
      | b :: inp =>
          let '(f, res) := Feed b f in
          if ShouldForward res then
            let '(s, werr) := call (TransportWrite [Forward res]) s in
            match attach_loop fuel f inp s with
            | Some (s, out, e) => Some (s, report werr ++ out, e)
            | None => None
            end
          else if negb (EnterCommandMode res) then attach_loop fuel f inp s
          else
            match readCommandLine (CommandModeFirstByte res) inp with
            | None => Some (s, [], InputEnded)
            | Some (line, echo, inp) =>
                let '(s, stop, err) := runCommandLine (of_bytes line) s in
                if stop then Some (s, echo ++ report err, Detached)
                else match attach_loop fuel f inp s with
                     | Some (s, out, e) => Some (s, echo ++ report err ++ out, e)
                     | None => None
                     end
            end
      end
  end.

Definition Attach (prefix : ascii) (inp : bytes) (s : S) : option (S * bytes * ended) :=
  attach_loop (Datatypes.S (length inp)) (NewEscapeFilter prefix) inp s.

End Attach.

(** ** Specification *)

(** What a person types: a key, the doubled prefix, a local command line. *)
Inductive typed :=
| Key (b : ascii)
| Literal
| Local (first : ascii) (rest : bytes) (eol : ascii).

Definition keys (prefix : ascii) (t : typed) : bytes :=
  match t with
  | Key b => [b]
  | Literal => [prefix; prefix]
  | Local first rest eol => [prefix; first] ++ rest ++ [eol]
  end.

Definition typed_ok (prefix : ascii) (t : typed) : Prop :=
  match t with
  | Key b => b <> prefix
  | Literal => True
  | Local first rest eol => first <> prefix /\ Forall (fun b => is_eol b = false) rest /\ is_eol eol = true
  end.

(** The line it stands for: an Enter right after the prefix is skipped. *)
Definition local_line (first : ascii) (rest : bytes) : string :=
  of_bytes (if is_eol first then rest else first :: rest).

(** What a local line asks for. *)
Inductive local_action := Nothing | Ask (r : request) | Leave | AskAndLeave (r : request).

(** The table of the local commands, by the words of the line. The words after
    a command that takes none are ignored; any other line asks for nothing. *)
Definition one_word (r : string -> request) (args : list string) : local_action :=
  match args with [id] => Ask (r id) | _ => Nothing end.

Definition edit_words (args : list string) : local_action :=
  match args with id :: w :: ws => Ask (CommandEdit id (Join (w :: ws) " ") "") | _ => Nothing end.

Definition retry_words (args : list string) : local_action :=
  match args with
  | t :: _ =>
      if String.eqb t "uart" then Ask RetryUART
      else if String.eqb t "ssh" then Ask RetrySSH
      else if String.eqb t "telnet" then Ask RetryTelnet else Nothing
  | [] => Nothing
  end.

Definition local_commands : list (string * (list string -> local_action)) :=
  [("approve", one_word CommandApprove); ("reject", one_word CommandReject); ("edit", edit_words);
   ("secret", fun _ => Ask SecretBegin); ("secret-done", fun _ => Ask SecretDone); ("retry", retry_words);
   ("takeover", fun _ => Ask Takeover); ("detach", fun _ => Leave); ("end", fun _ => AskAndLeave SessionEnd)]%string.

Definition line_action (words : list string) : local_action :=
  match words with
  | w :: args =>
      match List.find (fun entry => String.eqb w entry.1) local_commands with
      | Some entry => entry.2 args
      | None => Nothing
      end
  | [] => Nothing
  end.

(** The requests of what was typed, in order, up to a detach or end. *)
Fixpoint requests (prefix : ascii) (ts : list typed) : list request * ended :=
  match ts with
  | [] => ([], InputEnded)
  | Key b :: ts => let '(rs, e) := requests prefix ts in (TransportWrite [b] :: rs, e)
  | Literal :: ts => let '(rs, e) := requests prefix ts in (TransportWrite [prefix] :: rs, e)
  | Local first rest _ :: ts =>
      match line_action (Fields (local_line first rest)) with
      | Nothing => requests prefix ts
      | Ask r => let '(rs, e) := requests prefix ts in (r :: rs, e)
      | Leave => ([], Detached)
      | AskAndLeave r => ([r], Detached)
      end
  end.

(** What was typed before the line that leaves, and the bytes of it that are
    meant for the target: the keys and the doubled prefixes. *)
Definition leaves (t : typed) : bool :=
  match t with
  | Local first rest _ =>
      match line_action (Fields (local_line first rest)) with Leave | AskAndLeave _ => true | _ => false end
  | _ => false
  end.

Fixpoint before_leaving (ts : list typed) : list typed :=
  match ts with
  | [] => []
  | t :: ts => if leaves t then [] else t :: before_leaving ts
  end.

Definition for_target (prefix : ascii) (t : typed) : bytes :=
  match t with Key b => [b] | Literal => [prefix] | Local _ _ _ => [] end.

(** The bytes that a list of requests writes to the target. *)
Definition written (rs : list request) : bytes :=
  concat (omap (fun r => match r with TransportWrite data => Some data | _ => None end) rs).

Definition perform {S : Type} `{Client S} (rs : list request) (s : S) : S :=
  foldl (fun s r => (call r s).1) s rs.

(** What may be left at the end of the input: nothing, a lone prefix, or a
    local line without its Enter. *)
Definition unfinished (prefix : ascii) (tail : bytes) : Prop :=
  tail = [] \/ tail = [prefix] \/
  exists first rest, tail = prefix :: first :: rest /\ first <> prefix /\
    Forall (fun b => is_eol b = false) rest.

(** ** Lemmas *)

Lemma read_line_spec rest eol line echo inp :
  Forall (fun b => is_eol b = false) rest -> is_eol eol = true ->
  read_line line echo (rest ++ eol :: inp) = Some (line ++ rest, echo ++ rest ++ crlf, inp).
Proof.
  revert line echo. induction rest as [|b rest IH]; intros line echo Hr He; cbn [read_line app].
  - by rewrite He, app_nil_r.
  - apply Forall_cons in Hr as [Hb Hr]. rewrite Hb, IH by done. by rewrite <-!app_assoc.
Qed.

Lemma read_line_end rest line echo :
  Forall (fun b => is_eol b = false) rest -> read_line line echo rest = None.
Proof.
  revert line echo. induction rest as [|b rest IH]; intros line echo Hr; [done|].
  apply Forall_cons in Hr as [Hb Hr]. cbn [read_line]. by rewrite Hb, IH.
Qed.

Lemma readCommandLine_spec first rest eol inp :
  Forall (fun b => is_eol b = false) rest -> is_eol eol = true ->
  exists echo, readCommandLine first (rest ++ eol :: inp) =
    Some (to_bytes (local_line first rest), echo, inp).
Proof.
  intros Hr He. unfold readCommandLine, local_line. cbv zeta.
  destruct (is_eol first); eexists; rewrite read_line_spec by done; by rewrite to_of_bytes.
Qed.

Lemma readCommandLine_end first rest :
  Forall (fun b => is_eol b = false) rest -> readCommandLine first rest = None.
Proof. intros Hr. unfold readCommandLine. by destruct (is_eol first); rewrite read_line_end. Qed.

(** The filter at rest. *)
Lemma feed_key prefix b :
  b <> prefix ->
  Feed b (NewEscapeFilter prefix) =
  (NewEscapeFilter prefix, {| Forward := b; ShouldForward := true; EnterCommandMode := false;
                              CommandModeFirstByte := zero |}).
Proof. intros Hb%Ascii.eqb_neq. unfold Feed. cbn. by rewrite Hb. Qed.

Lemma feed_prefix prefix :
  Feed prefix (NewEscapeFilter prefix) =
  ({| prefix := prefix; pending := true |},
   {| Forward := zero; ShouldForward := false; EnterCommandMode := false; CommandModeFirstByte := zero |}).
Proof. unfold Feed. cbn. by rewrite Ascii.eqb_refl. Qed.

(** The words of a line have no space. *)
Lemma mark_unspaced skip s : Forall (fun p : bool * ascii => p.1 = false -> p.2 <> " "%char) (mark_spaces skip s).
Proof.
  revert skip. induction s as [|c s IH]; intros skip; cbn [mark_spaces]; [constructor|].
  destruct skip as [|k]; [|by constructor]. destruct (space_width (c :: s)) eqn:E; constructor; cbn [fst snd]; try done.
  intros _ ->. discriminate E.
Qed.

Lemma fields_go_unspaced cur s :
  " "%char ∉ cur -> Forall (fun p : bool * ascii => p.1 = false -> p.2 <> " "%char) s ->
  Forall (fun w => " "%char ∉ w) (fields_go cur s).
Proof.
  revert cur. induction s as [|[[] c] s IH]; intros cur Hc Hs; cbn [fields_go].
  - destruct cur; by repeat constructor.
  - apply Forall_cons in Hs as [_ Hs]. pose proof (IH [] (not_elem_of_nil _) Hs) as Hn. destruct cur; [done|by constructor].
  - apply Forall_cons in Hs as [Hs1 Hs]. apply IH; [|done]. rewrite elem_of_app, list_elem_of_singleton.
    specialize (Hs1 eq_refl). cbn in Hs1. naive_solver.
Qed.

Lemma fields_unspaced s : Forall (fun w => " "%char ∉ to_bytes w) (Fields s).
Proof.
  apply Forall_fmap. eapply Forall_impl; [apply fields_go_unspaced, mark_unspaced; apply not_elem_of_nil|].
  intros w Hw. cbn. by rewrite to_of_bytes.
Qed.

(** The table never writes to the target. *)
Lemma action_writes ws :
  match line_action ws with Ask r | AskAndLeave r => forall data, r <> TransportWrite data | _ => True end.
Proof.
  unfold line_action. destruct ws as [|w args]; [done|]. destruct (List.find _ _) as [entry|] eqn:E; [|done].
  apply List.find_some in E as [Hin _]. apply list_elem_of_In in Hin. unfold local_commands in Hin.
  repeat (apply elem_of_cons in Hin as [->|Hin]); try (by apply elem_of_nil in Hin);
    cbn [snd]; unfold one_word, edit_words, retry_words; by repeat (case_match; simplify_eq).
Qed.

Lemma requests_written prefix ts :
  written (requests prefix ts).1 = concat (for_target prefix <$> before_leaving ts).
Proof.
  induction ts as [|t ts IH]; [done|]. destruct t as [b| |first rest eol]; cbn [requests before_leaving leaves].
  - destruct (requests prefix ts) as [rs e]. cbn. f_equal. exact IH.
  - destruct (requests prefix ts) as [rs e]. cbn. f_equal. exact IH.
  - pose proof (action_writes (Fields (local_line first rest))) as Hw.
    destruct (line_action _) as [|r| |r]; [exact IH| |done|].
    + destruct (requests prefix ts) as [rs e]. cbn [fst fmap list_fmap concat for_target app]. rewrite <-IH.
      unfold written. cbn. destruct r; try done. by destruct (Hw data eq_refl).
    + unfold written. cbn. destruct r; try done. by destruct (Hw data eq_refl).
Qed.

Section Loop.
Context {S : Type} `{Client S} `{GoQuote}.

Lemma attach_tail fuel prefix tail s :
  unfinished prefix tail -> (length tail < fuel)%nat ->
  attach_loop fuel (NewEscapeFilter prefix) tail s = Some (s, [], InputEnded).
Proof.
  intros [->|[->|(first & rest & -> & Hf & Hr)]] Hl; destruct fuel as [|[|fuel]]; cbn in Hl; try lia;
    [done|done|..]; cbn [attach_loop]; rewrite feed_prefix; cbn [ShouldForward EnterCommandMode negb];
    [done|]. unfold Feed at 1. cbn [pending Cli.prefix]. apply Ascii.eqb_neq in Hf. rewrite Hf.
  cbn [ShouldForward EnterCommandMode negb CommandModeFirstByte]. by rewrite readCommandLine_end.
Qed.

(** A local line does what the table says. *)
Lemma run_line line s :
  (runCommandLine line s).1 =
  match line_action (Fields line) with
  | Nothing => (s, false)
  | Ask r => ((call r s).1, false)
  | Leave => (s, true)
  | AskAndLeave r => ((call r s).1, true)
  end.
Proof.
  assert (Hcall : forall r (b : bool), (let '(s, e) := call r s in (s, b, e) : S * bool * option string).1 = ((call r s).1, b)).
  { intros r b. by destruct (call r s). }
  pose proof (fields_unspaced line) as Hsp. unfold runCommandLine.
  destruct (Fields line) as [|w args] eqn:HF; [unfold ParseCommand; by rewrite HF|].
  apply Forall_cons in Hsp as [Hw _]. destruct (String.eqb_spec w "retry") as [->|Hretry].
  { destruct args as [|t args]; [unfold ParseCommand; by rewrite HF|].
    assert (Hcmd : ParseCommand line = Some {| Name := "retry " +:+ t; Args := args |}) by (unfold ParseCommand; by rewrite HF).
    rewrite Hcmd. cbn [Name Args]. change (line_action ("retry"%string :: t :: args)) with (retry_words (t :: args)).
    change (String.eqb ("retry " +:+ t) "retry uart") with (String.eqb t "uart").
    change (String.eqb ("retry " +:+ t) "retry ssh") with (String.eqb t "ssh").
    change (String.eqb ("retry " +:+ t) "retry telnet") with (String.eqb t "telnet").
    repeat match goal with |- context [String.eqb ("retry " +:+ t) ?x] =>
      change (String.eqb ("retry " +:+ t) x) with false end.
    cbn [retry_words]. destruct (String.eqb t "uart"); [apply Hcall|]. destruct (String.eqb t "ssh"); [apply Hcall|].
    by destruct (String.eqb t "telnet"); [apply Hcall|]. }
  assert (Hcmd : ParseCommand line = Some {| Name := w; Args := args |}).
  { unfold ParseCommand. rewrite HF. apply String.eqb_neq in Hretry. rewrite Hretry. by destruct args. }
  rewrite Hcmd. cbn [Name Args line_action local_commands List.find fst snd].
  repeat match goal with
  | |- context [String.eqb w ?x] => destruct (String.eqb_spec w x) as [->|?]
  end; cbn [snd]; try done; try (by apply Hcall);
    try (by destruct Hw; apply (bool_decide_unpack _); vm_compute);
    unfold one_word, edit_words; repeat (case_match; try done); simplify_eq; apply Hcall.
Qed.

Lemma attach_spec fuel prefix ts tail s :
  Forall (typed_ok prefix) ts -> unfinished prefix tail ->
  (length (concat (keys prefix <$> ts) ++ tail) < fuel)%nat ->
  exists out, attach_loop fuel (NewEscapeFilter prefix) (concat (keys prefix <$> ts) ++ tail) s =
    Some (perform (requests prefix ts).1 s, out, (requests prefix ts).2).
Proof.
  revert fuel s. induction ts as [|t ts IH]; intros fuel s Hok Ht Hl.
  { exists []. by apply attach_tail. }
  apply Forall_cons in Hok as [Hk Hok]. cbn [fmap list_fmap concat] in Hl |- *.
  destruct t as [b| |first rest eol]; cbn [keys app requests] in Hl |- *.
  - destruct fuel as [|fuel]; [lia|]. cbn in Hl. cbn [attach_loop].
    rewrite feed_key by done. cbn [ShouldForward Forward].
    destruct (requests prefix ts) as [rs e]. cbn [fst snd perform foldl] in IH |- *.
    destruct (call (TransportWrite [b]) s) as [s1 werr].
    destruct (IH fuel s1 Hok Ht ltac:(lia)) as [out ->]. by eexists.
  - destruct fuel as [|[|fuel]]; cbn in Hl; try lia. cbn [attach_loop]. rewrite feed_prefix.
    cbn [ShouldForward EnterCommandMode negb]. unfold Feed at 1. cbn [pending Cli.prefix].
    rewrite Ascii.eqb_refl. cbn [ShouldForward Forward].
    destruct (requests prefix ts) as [rs e]. cbn [fst snd perform foldl] in IH |- *.
    destruct (call (TransportWrite [prefix]) s) as [s1 werr].
    destruct (IH fuel s1 Hok Ht ltac:(lia)) as [out Ho]. unfold NewEscapeFilter in Ho. rewrite Ho.
    by eexists.
  - destruct Hk as (Hf%Ascii.eqb_neq & Hr & He).
    destruct fuel as [|[|fuel]]; cbn in Hl; try lia. cbn [attach_loop]. rewrite feed_prefix.
    cbn [ShouldForward EnterCommandMode negb]. unfold Feed at 1. cbn [pending Cli.prefix].
    rewrite Hf. cbn [ShouldForward EnterCommandMode negb CommandModeFirstByte].
    rewrite <-!app_assoc. cbn [app]. 
    destruct (readCommandLine_spec first rest eol (concat (keys prefix <$> ts) ++ tail) Hr He) as [echo ->].
    rewrite of_to_bytes. pose proof (run_line (local_line first rest) s) as Hrun.
    destruct (runCommandLine _ s) as [[s1 stop] err]. cbn [fst] in Hrun.
    assert (Hgo : forall s1, exists out, attach_loop fuel (NewEscapeFilter prefix) (concat (keys prefix <$> ts) ++ tail) s1 =
      Some (perform (requests prefix ts).1 s1, out, (requests prefix ts).2)).
    { intros s2. apply IH; [done|done|]. rewrite !length_app in *. cbn in Hl. lia. }
    specialize (Hgo s1) as [out Ho]. unfold NewEscapeFilter in Ho.
    destruct (line_action _) as [|r| |r]; injection Hrun as -> ->; [|destruct (requests prefix ts) as [rs e]|..];
      try rewrite Ho; by eexists.
Qed.

End Loop.

(** Every input is what a person typed, and an unfinished rest. *)
Lemma typed_exists prefix inp :
  exists ts tail, Forall (typed_ok prefix) ts /\ unfinished prefix tail /\
    inp = concat (keys prefix <$> ts) ++ tail.
Proof.
  induction inp as [inp IH] using (induction_ltof1 _ (@length ascii)).
  destruct inp as [|b inp]; [exists [], []; by split_and!; [|left|]|].
  destruct (decide (b = prefix)) as [->|Hb].
  - destruct inp as [|first inp]; [exists [], [prefix]; by split_and!; [|right; left|]|].
    destruct (decide (first = prefix)) as [->|Hf].
    + destruct (IH inp) as (ts & tail & Hok & Ht & ->); [unfold ltof; cbn; lia|].
      exists (Literal :: ts), tail. split_and!; [by constructor|done|done].
    + destruct (list_find (fun b => is_eol b = true) inp) as [[i eol]|] eqn:Hfind.
      * apply list_find_Some in Hfind as (Hi & He & Hlt).
        assert (Hsplit : inp = take i inp ++ eol :: drop (S i) inp) by (by rewrite take_drop_middle).
        destruct (IH (drop (S i) inp)) as (ts & tail & Hok & Ht & Heq);
          [unfold ltof; cbn; rewrite length_drop; lia|].
        exists (Local first (take i inp) eol :: ts), tail. split_and!; [constructor; [|done]|done|].
        -- split_and!; [done| |done]. apply Forall_lookup. intros j x [Hx Hj]%lookup_take_Some.
           specialize (Hlt j x Hx Hj). by destruct (is_eol x).
        -- cbn. rewrite <-!app_assoc. cbn. rewrite <-Heq. by rewrite Hsplit at 1.
      * exists [], (prefix :: first :: inp). split_and!; [done| |done]. right; right.
        exists first, inp. split_and!; [done|done|]. apply list_find_None in Hfind.
        eapply Forall_impl; [exact Hfind|]. intros x Hx. by apply not_true_is_false.
  - destruct (IH inp) as (ts & tail & Hok & Ht & ->); [unfold ltof; cbn; lia|].
    exists (Key b :: ts), tail. split_and!; [by constructor|done|done].
Qed.

(** ** Properties *)

(** C38. The attach terminal separates the two streams exactly. Every input is
    a sequence of keys, doubled prefixes and local lines with at most an
    unfinished rest, and the session makes exactly the requests they stand for,
    in order: each key and each doubled prefix writes its one byte, a local
    line asks for what the table of commands says of its words, a line that is
    not in the table asks for nothing, the unfinished rest does nothing, and
    what follows a detach or end is never read. So the bytes that reach the
    target are the keys and doubled prefixes typed before leaving, and none of
    a local line. *)
Theorem attach_exact {S : Type} {Hc : Client S} {Hq : GoQuote} prefix inp s :
  (exists ts tail, Forall (typed_ok prefix) ts /\ unfinished prefix tail /\
     inp = concat (keys prefix <$> ts) ++ tail) /\
  (forall ts tail, Forall (typed_ok prefix) ts -> unfinished prefix tail ->
     inp = concat (keys prefix <$> ts) ++ tail ->
     let '(rs, e) := requests prefix ts in
     (exists out, Attach prefix inp s = Some (perform rs s, out, e)) /\
     written rs = concat (for_target prefix <$> before_leaving ts)).
Proof.
  split; [apply typed_exists|]. intros ts tail Hok Ht ->. pose proof (requests_written prefix ts) as Hw.
  destruct (attach_spec (Datatypes.S (length (concat (keys prefix <$> ts) ++ tail))) prefix ts tail s Hok Ht ltac:(lia))
    as [out Ho].
  destruct (requests prefix ts) as [rs e]. split; [by exists out|exact Hw].
Qed.

(** A client that records its requests. *)
#[local] Instance demo_client : Client (list request) := fun r s => (s ++ [r], None).
#[local] Instance demo_client_quote : GoQuote := fun s => s.

Definition ctrl_bracket : ascii := ascii_of_nat 29.

Lemma attach_exact_witness :
  exists out, Attach ctrl_bracket
    (["l"]%char ++ [ctrl_bracket; ctrl_bracket] ++ ([ctrl_bracket; "a"]%char ++ to_bytes "pprove p1" ++ [CR]) ++
     [ctrl_bracket]) [] =
  Some ([TransportWrite ["l"]%char; TransportWrite [ctrl_bracket]; CommandApprove "p1"], out, InputEnded).
Proof.
  destruct (attach_exact ctrl_bracket
    (["l"]%char ++ [ctrl_bracket; ctrl_bracket] ++ ([ctrl_bracket; "a"]%char ++ to_bytes "pprove p1" ++ [CR]) ++
     [ctrl_bracket]) []) as [_ H].
  refine (proj1 (H [Key "l"; Literal; Local "a" (to_bytes "pprove p1") CR] [ctrl_bracket] _ _ _)).
  - repeat constructor; done.
  - by right; left.
  - by vm_compute.
Defined.

(** An edited command is not the one typed: the line is cut at white space
    and joined with single spaces, so the spaces inside quotes change. *)
Lemma edit_collapses_spaces {S : Type} {Hc : Client S} {Hq : GoQuote} (s : S) :
  runCommandLine "edit p1 grep 'a  b' f" s =
  let '(s', e) := call (CommandEdit "p1" "grep 'a b' f" "") s in (s', false, e).
Proof. by vm_compute. Qed.
