(* ===== verification/Profile.v ===== *)
(** * Board profiles and serial ports (src/internal/profile/profile.go,
    src/internal/transport/transport.go, src/internal/transport/serial/serial.go)

    The configuration a session starts from, its validation, and the choice
    of a serial port by stable identity. *)

From S2P Require Import Prelude.

(** ** Identities *)

(** [transport.Identity]. *)
Record Identity := { Kind : string; Key : string }.

#[export] Instance Identity_eq_dec : EqDecision Identity.
Proof. solve_decision. Defined.

Definition Known (i : Identity) : bool :=
  negb (String.eqb (Kind i) "") && negb (String.eqb (Key i) "").

(** ** Serial lines *)

(** Parity and flow control are strings in a profile. *)
Record LineSettings := {
  BaudRate : Z; DataBits : Z; Parity : string; StopBits : Z; Flow : string
}.

Inductive LineError := BadBaud | BadDataBits | BadParity | BadStopBits | BadFlow.

Definition Validate (s : LineSettings) : option LineError :=
  if BaudRate s <=? 0 then Some BadBaud
  else if (DataBits s <? 5) || (8 <? DataBits s) then Some BadDataBits
  else if negb (existsb (String.eqb (Parity s)) ["none"; "odd"; "even"]) then Some BadParity
  else if negb (StopBits s =? 1) && negb (StopBits s =? 2) then Some BadStopBits
  else if negb (existsb (String.eqb (Flow s)) ["none"; "hardware"; "software"]) then Some BadFlow
  else None.

(** ** Ports *)

Record Port := { Path : string; ByIDPath : string; USBSerialNumber : string }.

(** [Port.Identity]. *)
Definition port_Identity (p : Port) : Identity :=
  if negb (String.eqb (ByIDPath p) "") then {| Kind := "usb-serial-by-id"; Key := ByIDPath p |}
  else if negb (String.eqb (USBSerialNumber p) "")
  then {| Kind := "usb-serial-number"; Key := USBSerialNumber p |}
  else {| Kind := ""; Key := "" |}.

(** The reasons, by their branch. *)
Inductive MatchReason := NoStored | NoMatch | Multiple.

Record MatchResult := {
  match_Port : option Port; NeedsHumanSelection : bool; match_Reason : option MatchReason
}.

Definition human_selects (r : MatchReason) : MatchResult :=
  {| match_Port := None; NeedsHumanSelection := true; match_Reason := Some r |}.

Definition Match (want : Identity) (ports : list Port) : MatchResult :=
  if negb (Known want) then human_selects NoStored
  else match List.filter (fun p => bool_decide (port_Identity p = want)) ports with
       | [] => human_selects NoMatch
       | [port] => {| match_Port := Some port; NeedsHumanSelection := false; match_Reason := None |}
       | _ => human_selects Multiple
       end.

(** ** Profiles *)

Record UARTConfig := { uart_Identity : Identity; uart_Line : LineSettings }.
Record SSHConfig := {
  ssh_Host : string; ssh_Port : Z; ssh_User : string; ssh_IdentityFiles : list string;
  ssh_UseAgent : bool; ssh_KnownHostsFile : string
}.
Record TelnetConfig := { telnet_Host : string; telnet_Port : Z }.

Inductive TelnetError := EmptyHost | BadPort.

(** [TelnetConfig.Validate]. *)
Definition telnet_Validate (c : TelnetConfig) : option TelnetError :=
  if String.eqb (telnet_Host c) "" then Some EmptyHost
  else if (telnet_Port c <? 0) || (65535 <? telnet_Port c) then Some BadPort else None.

Record Profile := {
  Name : string; UART : option UARTConfig; SSH : option SSHConfig; Telnet : option TelnetConfig
}.

(** The transports a profile configures. *)
Definition configured (p : Profile) : list string :=
  (if UART p is Some _ then ["uart"%string] else []) ++
  (if SSH p is Some _ then ["ssh"%string] else []) ++
  (if Telnet p is Some _ then ["telnet"%string] else []).

(** ** Properties *)

(** A serial port is only ever chosen by a unique stable identity. A port
    is returned exactly when the wanted identity is a known one and it is the
    only discovered port that has it; then no person is asked, and otherwise
    one always is. The device path plays no part in the choice. *)
Theorem Match_unique want ports p :
  (match_Port (Match want ports) = Some p <->
     Known want = true /\
     exists before after, ports = before ++ p :: after /\ port_Identity p = want /\
       forall q, q ∈ before ++ after -> port_Identity q <> want) /\
  NeedsHumanSelection (Match want ports) = bool_decide (match_Port (Match want ports) = None).
Proof.
  unfold Match. destruct (Known want) eqn:Hk; cbn [negb]; [|by split; [split; [done|naive_solver]|]].
  set (f := fun p => bool_decide (port_Identity p = want)).
  assert (Hf : forall l x, x ∈ List.filter f l <-> x ∈ l /\ port_Identity x = want).
  { intros l x. rewrite !list_elem_of_In, filter_In. unfold f. by rewrite bool_decide_eq_true. }
  assert (Hnil : forall l, (forall q, q ∈ l -> port_Identity q <> want) -> List.filter f l = []).
  { intros l Hl. apply filter_none. intros x Hx. apply bool_decide_eq_false. by apply Hl. }
  split.
  - split.
    + destruct (List.filter f ports) as [|q [|q2 qs]] eqn:E; try done. intros [= ->]. split; [done|].
      assert (Hp : p ∈ ports /\ port_Identity p = want).
      { apply (Hf ports). rewrite E. set_solver. }
      destruct Hp as [(before & after & ->)%list_elem_of_split Hw]. exists before, after.
      split_and!; [done|done|]. rewrite List.filter_app in E. cbn in E.
      unfold f in E at 2. rewrite bool_decide_true in E by done.
      assert (Hlen : length (List.filter f before ++ p :: List.filter f after) = 1%nat) by by rewrite E.
      rewrite length_app in Hlen. cbn in Hlen.
      destruct (List.filter f before) eqn:E1; [|cbn in Hlen; lia].
      destruct (List.filter f after) eqn:E2; [|cbn in Hlen; lia].
      intros q [Hq|Hq]%elem_of_app Hqw.
      * assert (q ∈ List.filter f before) as Hin by by apply Hf. rewrite E1 in Hin. by apply elem_of_nil in Hin.
      * assert (q ∈ List.filter f after) as Hin by by apply Hf. rewrite E2 in Hin. by apply elem_of_nil in Hin.
    + intros (_ & before & after & -> & Hw & Hq). rewrite List.filter_app. cbn.
      unfold f at 2. rewrite bool_decide_true by done.
      rewrite !Hnil; [done|..]; intros q Hin; apply Hq; set_solver.
  - by destruct (List.filter f ports) as [|q [|q2 qs]].
Qed.

Definition demo_port (path byid : string) : Port :=
  {| Path := path; ByIDPath := byid; USBSerialNumber := "" |}.

Lemma Match_unique_witness :
  match_Port (Match {| Kind := "usb-serial-by-id"; Key := "b" |}
    [demo_port "/dev/ttyUSB0" "a"; demo_port "/dev/ttyUSB1" "b"]) = Some (demo_port "/dev/ttyUSB1" "b").
Proof.
  apply (proj1 (Match_unique {| Kind := "usb-serial-by-id"; Key := "b" |}
    [demo_port "/dev/ttyUSB0" "a"; demo_port "/dev/ttyUSB1" "b"] (demo_port "/dev/ttyUSB1" "b"))).
  split; [done|]. exists [demo_port "/dev/ttyUSB0" "a"], []. split_and!; [done|done|].
  intros q Hq. rewrite app_nil_r in Hq. apply list_elem_of_singleton in Hq as ->. discriminate.
Defined.
