(* ===== verification/Store.v ===== *)
(** * Profile files (src/internal/profile/profile.go)

    [Save] and [Load] over a file system: the JSON of a profile with its
    indentation, the temporary file and the rename. [Save] returns every state
    the directory goes through, so that a crash between two system calls is
    one of them. *)

From S2P Require Import Prelude GoStd Json JsonStrings JsonTexts Profile.

(** ** A file system *)

Record file := { mode : Z; content : bytes }.
Abbreviation filesystem := (gmap string file).

(** ** JSON of a profile *)

(** The white space of [json.MarshalIndent] with a prefix of nothing and an
    indent of two spaces. *)
Definition line_indent (depth : nat) : bytes := line_feed :: replicate (2 * depth) " "%char.

Definition indented (depth : nat) (ms : list (string * bytes)) : bytes :=
  print_object (line_indent (S depth)) [" "%char] (line_indent depth) ms.

Definition indented_array (depth : nat) (vs : list bytes) : bytes :=
  print_array (line_indent (S depth)) (line_indent depth) vs.

Definition MarshalIdentity (i : Identity) : bytes :=
  indented 2 [("Kind", json_string (Kind i)); ("Key", json_string (Key i))]%string.

Definition MarshalLine (l : LineSettings) : bytes :=
  indented 2 [("BaudRate", dec_Z (BaudRate l)); ("DataBits", dec_Z (DataBits l));
              ("Parity", json_string (Parity l)); ("StopBits", dec_Z (StopBits l));
              ("Flow", json_string (Flow l))]%string.

Definition MarshalUART (u : UARTConfig) : bytes :=
  indented 1 [("Identity", MarshalIdentity (uart_Identity u)); ("Line", MarshalLine (uart_Line u))]%string.

(** A slice without elements is taken to be nil. *)
Definition MarshalStrings (depth : nat) (xs : list string) : bytes :=
  match xs with [] => json_null | _ => indented_array depth (json_string <$> xs) end.

Definition MarshalSSH (s : SSHConfig) : bytes :=
  indented 1 [("Host", json_string (ssh_Host s)); ("Port", dec_Z (ssh_Port s));
              ("User", json_string (ssh_User s));
              ("IdentityFiles", MarshalStrings 2 (ssh_IdentityFiles s));
              ("UseAgent", json_bool (ssh_UseAgent s));
              ("KnownHostsFile", json_string (ssh_KnownHostsFile s))]%string.

Definition MarshalTelnet (t : TelnetConfig) : bytes :=
  indented 1 [("Host", json_string (telnet_Host t)); ("Port", dec_Z (telnet_Port t))]%string.

(** A nil pointer is null. *)
Definition pointer {A} (print : A -> bytes) (o : option A) : bytes :=
  match o with Some x => print x | None => json_null end.

Definition MarshalProfile (p : Profile) : bytes :=
  indented 0 [("Name", json_string (Name p)); ("UART", pointer MarshalUART (UART p));
              ("SSH", pointer MarshalSSH (SSH p)); ("Telnet", pointer MarshalTelnet (Telnet p))]%string.

(** *** Reading it *)

Definition identityFields : fields Identity :=
  [("Kind", field into_string Kind (fun x i => {| Kind := x; Key := Key i |}));
   ("Key", field into_string Key (fun x i => {| Kind := Kind i; Key := x |}))]%string.

Definition lineFields : fields LineSettings :=
  [("BaudRate", field into_int BaudRate (fun x l =>
      {| BaudRate := x; DataBits := DataBits l; Parity := Parity l; StopBits := StopBits l; Flow := Flow l |}));
   ("DataBits", field into_int DataBits (fun x l =>
      {| BaudRate := BaudRate l; DataBits := x; Parity := Parity l; StopBits := StopBits l; Flow := Flow l |}));
   ("Parity", field into_string Parity (fun x l =>
      {| BaudRate := BaudRate l; DataBits := DataBits l; Parity := x; StopBits := StopBits l; Flow := Flow l |}));
   ("StopBits", field into_int StopBits (fun x l =>
      {| BaudRate := BaudRate l; DataBits := DataBits l; Parity := Parity l; StopBits := x; Flow := Flow l |}));
   ("Flow", field into_string Flow (fun x l =>
      {| BaudRate := BaudRate l; DataBits := DataBits l; Parity := Parity l; StopBits := StopBits l; Flow := x |}))]%string.

Definition uartFields : fields UARTConfig :=
  [("Identity", field (into_struct identityFields) uart_Identity (fun x u =>
      {| uart_Identity := x; uart_Line := uart_Line u |}));
   ("Line", field (into_struct lineFields) uart_Line (fun x u =>
      {| uart_Identity := uart_Identity u; uart_Line := x |}))]%string.

Definition sshFields : fields SSHConfig :=
  [("Host", field into_string ssh_Host (fun x s =>
      {| ssh_Host := x; ssh_Port := ssh_Port s; ssh_User := ssh_User s; ssh_IdentityFiles := ssh_IdentityFiles s;
         ssh_UseAgent := ssh_UseAgent s; ssh_KnownHostsFile := ssh_KnownHostsFile s |}));
   ("Port", field into_int ssh_Port (fun x s =>
      {| ssh_Host := ssh_Host s; ssh_Port := x; ssh_User := ssh_User s; ssh_IdentityFiles := ssh_IdentityFiles s;
         ssh_UseAgent := ssh_UseAgent s; ssh_KnownHostsFile := ssh_KnownHostsFile s |}));
   ("User", field into_string ssh_User (fun x s =>
      {| ssh_Host := ssh_Host s; ssh_Port := ssh_Port s; ssh_User := x; ssh_IdentityFiles := ssh_IdentityFiles s;
         ssh_UseAgent := ssh_UseAgent s; ssh_KnownHostsFile := ssh_KnownHostsFile s |}));
   ("IdentityFiles", field (into_list into_string "") ssh_IdentityFiles (fun x s =>
      {| ssh_Host := ssh_Host s; ssh_Port := ssh_Port s; ssh_User := ssh_User s; ssh_IdentityFiles := x;
         ssh_UseAgent := ssh_UseAgent s; ssh_KnownHostsFile := ssh_KnownHostsFile s |}));
   ("UseAgent", field into_bool ssh_UseAgent (fun x s =>
      {| ssh_Host := ssh_Host s; ssh_Port := ssh_Port s; ssh_User := ssh_User s; ssh_IdentityFiles := ssh_IdentityFiles s;
         ssh_UseAgent := x; ssh_KnownHostsFile := ssh_KnownHostsFile s |}));
   ("KnownHostsFile", field into_string ssh_KnownHostsFile (fun x s =>
      {| ssh_Host := ssh_Host s; ssh_Port := ssh_Port s; ssh_User := ssh_User s; ssh_IdentityFiles := ssh_IdentityFiles s;
         ssh_UseAgent := ssh_UseAgent s; ssh_KnownHostsFile := x |}))]%string.

Definition telnetFields : fields TelnetConfig :=
  [("Host", field into_string telnet_Host (fun x t => {| telnet_Host := x; telnet_Port := telnet_Port t |}));
   ("Port", field into_int telnet_Port (fun x t => {| telnet_Host := telnet_Host t; telnet_Port := x |}))]%string.

Definition zeroUART : UARTConfig :=
  {| uart_Identity := {| Kind := ""; Key := "" |};
     uart_Line := {| BaudRate := 0; DataBits := 0; Parity := ""; StopBits := 0; Flow := "" |} |}.
Definition zeroSSH : SSHConfig :=
  {| ssh_Host := ""; ssh_Port := 0; ssh_User := ""; ssh_IdentityFiles := []; ssh_UseAgent := false;
     ssh_KnownHostsFile := "" |}.
Definition zeroTelnet : TelnetConfig := {| telnet_Host := ""; telnet_Port := 0 |}.
Definition zeroProfile : Profile := {| Name := ""; UART := None; SSH := None; Telnet := None |}.

Definition profileFields : fields Profile :=
  [("Name", field into_string Name (fun x p =>
      {| Name := x; UART := UART p; SSH := SSH p; Telnet := Telnet p |}));
   ("UART", field (into_option (into_struct uartFields) zeroUART) UART (fun x p =>
      {| Name := Name p; UART := x; SSH := SSH p; Telnet := Telnet p |}));
   ("SSH", field (into_option (into_struct sshFields) zeroSSH) SSH (fun x p =>
      {| Name := Name p; UART := UART p; SSH := x; Telnet := Telnet p |}));
   ("Telnet", field (into_option (into_struct telnetFields) zeroTelnet) Telnet (fun x p =>
      {| Name := Name p; UART := UART p; SSH := SSH p; Telnet := x |}))]%string.

(** ** Load *)

Inductive LoadError := ErrReadFile | ErrProfileJSON.

Definition profile_path (dir name : string) : string := PathJoin [dir; name +:+ ".json"].

Definition Load (fs : filesystem) (dir name : string) : result LoadError Profile :=
  match fs !! profile_path dir name with
  | None => Err ErrReadFile
  | Some f =>
      match Unmarshal_into (into_struct profileFields) zeroProfile (content f) with
      | Some p => Ok p
      | None => Err ErrProfileJSON
      end
  end.

(** ** Save *)

(** *** Replacing a file through a temporary one *)

Inductive ReplaceError := ErrCreate | ErrChmod | ErrWriteFile | ErrCloseFile | ErrRename.

(** Which system call fails, and how much a failed write left; [tmp] is the
    unused name that [os.CreateTemp] finds. *)
Record save_io := {
  tmp : string; create_ok : bool; chmod_ok : bool; write_cut : option nat; close_ok : bool; rename_ok : bool
}.

(** The states the directory goes through, each after one system call, and the
    error. The deferred [os.Remove] is the last. *)
Definition replace_file (io : save_io) (fs : filesystem) (dst : string) (data : bytes)
  : list filesystem * option ReplaceError :=
  let t := tmp io in
  if negb (create_ok io) then ([], Some ErrCreate)
  else
    let fs1 := <[t := {| mode := 384; content := [] |}]> fs in
    if negb (chmod_ok io) then ([fs1; delete t fs1], Some ErrChmod)
    else
      let fs2 := <[t := {| mode := 384; content := [] |}]> fs1 in
      match write_cut io with
      | Some n =>
          let fs3 := <[t := {| mode := 384; content := take n data |}]> fs2 in
          ([fs1; fs2; fs3; delete t fs3], Some ErrWriteFile)
      | None =>
          let fs3 := <[t := {| mode := 384; content := data |}]> fs2 in
          if negb (close_ok io) then ([fs1; fs2; fs3; delete t fs3], Some ErrCloseFile)
          else if negb (rename_ok io) then ([fs1; fs2; fs3; delete t fs3], Some ErrRename)
          else
            let fs4 := <[dst := {| mode := 384; content := data |}]> (delete t fs3) in
            ([fs1; fs2; fs3; fs4; delete t fs4], None)
      end.

(** *** Profiles *)

Inductive SaveError := ErrLine (e : LineError) | ErrTelnet (e : TelnetError) | ErrReplace (e : ReplaceError).

Definition invalid (p : Profile) : option SaveError :=
  match UART p ≫= (fun u => Validate (uart_Line u)) with
  | Some e => Some (ErrLine e)
  | None => match Telnet p ≫= telnet_Validate with Some e => Some (ErrTelnet e) | None => None end
  end.

Definition Save (io : save_io) (fs : filesystem) (dir : string) (p : Profile)
  : list filesystem * option SaveError :=
  match invalid p with
  | Some e => ([], Some e)
  | None =>
      let '(states, err) := replace_file io fs (profile_path dir (Name p)) (MarshalProfile p) in
      (states, ErrReplace <$> err)
  end.

(** ** Specification *)

Definition int64 (z : Z) : Prop := - 2 ^ 63 <= z < 2 ^ 63.

(** The numbers of a profile are Go ints. *)
Definition ints (p : Profile) : Prop :=
  (forall u, UART p = Some u -> int64 (BaudRate (uart_Line u)) /\ int64 (DataBits (uart_Line u)) /\
     int64 (StopBits (uart_Line u))) /\
  (forall s, SSH p = Some s -> int64 (ssh_Port s)) /\
  (forall t, Telnet p = Some t -> int64 (telnet_Port t)).

(** The profile with its texts as valid UTF-8. *)
Definition sanitize_uart (u : UARTConfig) : UARTConfig :=
  {| uart_Identity := {| Kind := sanitize (Kind (uart_Identity u)); Key := sanitize (Key (uart_Identity u)) |};
     uart_Line := {| BaudRate := BaudRate (uart_Line u); DataBits := DataBits (uart_Line u);
                     Parity := sanitize (Parity (uart_Line u)); StopBits := StopBits (uart_Line u);
                     Flow := sanitize (Flow (uart_Line u)) |} |}.
Definition sanitize_ssh (s : SSHConfig) : SSHConfig :=
  {| ssh_Host := sanitize (ssh_Host s); ssh_Port := ssh_Port s; ssh_User := sanitize (ssh_User s);
     ssh_IdentityFiles := sanitize <$> ssh_IdentityFiles s; ssh_UseAgent := ssh_UseAgent s;
     ssh_KnownHostsFile := sanitize (ssh_KnownHostsFile s) |}.
Definition sanitize_telnet (t : TelnetConfig) : TelnetConfig :=
  {| telnet_Host := sanitize (telnet_Host t); telnet_Port := telnet_Port t |}.
Definition sanitize_profile (p : Profile) : Profile :=
  {| Name := sanitize (Name p); UART := sanitize_uart <$> UART p; SSH := sanitize_ssh <$> SSH p;
     Telnet := sanitize_telnet <$> Telnet p |}.

(** ** Lemmas *)

Lemma indent_ws depth : all_ws (line_indent depth).
Proof. apply Forall_cons_2; [done|]. apply Forall_replicate. done. Qed.

Lemma space_ws : all_ws [" "%char].
Proof. by apply Forall_singleton. Qed.

Lemma indented_text n depth ms :
  (1 <= n)%nat -> Forall (fun m => json_text n (snd m)) ms -> json_text (S n) (indented depth ms).
Proof. intros Hn Hms. apply text_object; auto using indent_ws, space_ws. Qed.

Lemma struct_indented {R} (fs : fields R) n depth ms r :
  (n <= max_depth)%nat -> Forall (fun m => json_text n (snd m)) ms ->
  Forall (fun m => is_ascii (fst m) = true) ms ->
  into_struct fs (indented depth ms) r = apply_members fs ms r.
Proof. intros Hn Ht Hk. apply (struct_print fs n); auto using indent_ws, space_ws. Qed.

Lemma text_string_n n s : (1 <= n)%nat -> json_text n (json_string s).
Proof. intros Hn. apply (text_mono 1); [done|apply text_string]. Qed.
Lemma text_int_n n z : (1 <= n)%nat -> json_text n (dec_Z z).
Proof. intros Hn. apply (text_mono 1); [done|apply text_int]. Qed.
Lemma text_bool_n n b : (1 <= n)%nat -> json_text n (json_bool b).
Proof. intros Hn. apply (text_mono 1); [done|apply text_bool]. Qed.

Lemma small n : (n <= 10)%nat -> (n <= max_depth)%nat.
Proof. unfold max_depth. lia. Qed.

(** Members of a literal object. *)
Ltac texts :=
  repeat (apply Forall_cons_2; [cbn [fst snd];
    first [done | apply text_string_n; lia | apply text_int_n; lia | apply text_bool_n; lia | by auto with gw]|]);
  apply Forall_nil_2.

Lemma identity_text i : json_text 2 (MarshalIdentity i).
Proof. apply indented_text; [lia|texts]. Qed.
Lemma line_text l : json_text 2 (MarshalLine l).
Proof. apply indented_text; [lia|texts]. Qed.
Lemma strings_text depth xs : json_text 2 (MarshalStrings depth xs).
Proof.
  destruct xs as [|x xs]; [apply (text_mono 1); [lia|apply text_null]|]. apply (text_array 1); auto using indent_ws.
  apply Forall_fmap, Forall_forall. intros y _. apply text_string.
Qed.
#[local] Hint Resolve identity_text line_text strings_text : gw.

Lemma uart_text u : json_text 3 (MarshalUART u).
Proof. apply indented_text; [lia|texts]. Qed.
Lemma ssh_text s : json_text 3 (MarshalSSH s).
Proof. apply indented_text; [lia|texts]. Qed.
Lemma telnet_text t : json_text 3 (MarshalTelnet t).
Proof. apply indented_text; [lia|texts]. Qed.

Lemma pointer_text {A} n (print : A -> bytes) o :
  (1 <= n)%nat -> (forall x, json_text n (print x)) -> json_text n (pointer print o).
Proof. intros Hn Hp. destruct o; [apply Hp|]. apply (text_mono 1); [done|apply text_null]. Qed.

Lemma profile_text p : json_text 4 (MarshalProfile p).
Proof.
  apply indented_text; [lia|]. repeat (apply Forall_cons_2; [cbn [snd]|]); try apply Forall_nil_2;
    [apply text_string_n; lia|..]; apply pointer_text; try lia; auto using uart_text, ssh_text, telnet_text.
Qed.

(** *** Reading back *)

Ltac show :=
  cbn -[field json_string json_bool dec_Z sanitize into_string into_int into_bool into_struct into_option
        into_list indented MarshalIdentity MarshalLine MarshalUART MarshalSSH MarshalTelnet MarshalStrings pointer].

Ltac run_struct n :=
  rewrite (struct_indented _ n); [|apply small; lia|texts|texts];
  repeat (show; first [rewrite field_string | rewrite field_bool | rewrite field_int by done
                      | erewrite field_some by eauto]);
  show.

Lemma into_identity i old :
  into_struct identityFields (MarshalIdentity i) old = Some {| Kind := sanitize (Kind i); Key := sanitize (Key i) |}.
Proof. unfold MarshalIdentity. run_struct 1%nat. done. Qed.

Lemma into_line l old :
  int64 (BaudRate l) -> int64 (DataBits l) -> int64 (StopBits l) ->
  into_struct lineFields (MarshalLine l) old =
  Some {| BaudRate := BaudRate l; DataBits := DataBits l; Parity := sanitize (Parity l);
          StopBits := StopBits l; Flow := sanitize (Flow l) |}.
Proof. intros H1 H2 H3. unfold MarshalLine. run_struct 1%nat. done. Qed.

Lemma into_uart u old :
  int64 (BaudRate (uart_Line u)) -> int64 (DataBits (uart_Line u)) -> int64 (StopBits (uart_Line u)) ->
  into_struct uartFields (MarshalUART u) old = Some (sanitize_uart u).
Proof.
  intros H1 H2 H3. unfold MarshalUART. rewrite (struct_indented _ 2); [|apply small; lia|texts|texts].
  show. erewrite field_some by apply into_identity. show. erewrite field_some by by apply into_line. done.
Qed.

Lemma into_strings depth xs old :
  into_list into_string "" (MarshalStrings depth xs) old = Some (sanitize <$> xs).
Proof.
  destruct xs as [|x xs]; [done|]. unfold into_list, MarshalStrings, indented_array.
  assert (is_null (print_array (line_indent (S depth)) (line_indent depth) (json_string <$> x :: xs)) = false) as ->
    by by apply bool_decide_eq_false.
  rewrite (elements_print 1); auto using indent_ws; [|apply small; lia|].
  - cbn [mbind option_bind]. generalize (x :: xs). clear x xs. intros xs. revert old.
    induction xs as [|x xs IH]; intros old; [done|]. rewrite !fmap_cons. cbn [decode_all].
    rewrite into_string_json. cbn [mbind option_bind]. by rewrite IH.
  - apply Forall_fmap, Forall_forall. intros y _. apply text_string.
Qed.

Lemma into_ssh s old : int64 (ssh_Port s) -> into_struct sshFields (MarshalSSH s) old = Some (sanitize_ssh s).
Proof.
  intros Hp. unfold MarshalSSH. rewrite (struct_indented _ 2); [|apply small; lia|texts|texts].
  show. rewrite field_string. show. rewrite field_int by done. show. rewrite field_string. show.
  erewrite field_some by apply into_strings. show. rewrite field_bool. show. by rewrite field_string.
Qed.

Lemma into_telnet t old :
  int64 (telnet_Port t) -> into_struct telnetFields (MarshalTelnet t) old = Some (sanitize_telnet t).
Proof. intros Hp. unfold MarshalTelnet. run_struct 1%nat. done. Qed.

Lemma into_pointer {A} (d : decoder A) zero (print : A -> bytes) (f : A -> A) o :
  (forall x, is_null (print x) = false) -> (forall x, o = Some x -> d (print x) zero = Some (f x)) ->
  into_option d zero (pointer print o) None = Some (f <$> o).
Proof.
  intros Hn Hd. destruct o as [x|]; [|done]. unfold into_option, pointer. rewrite Hn. cbn [default from_option].
  by rewrite Hd.
Qed.

Lemma indented_not_null depth ms : is_null (indented depth ms) = false.
Proof. apply object_not_null. Qed.

(** A profile comes back from its own text. *)
Lemma profile_roundtrip p :
  ints p -> Unmarshal_into (into_struct profileFields) zeroProfile (MarshalProfile p) = Some (sanitize_profile p).
Proof.
  intros (Hu & Hs & Ht). rewrite (Unmarshal_text _ _ 4); [|apply small; lia|apply profile_text].
  unfold MarshalProfile. rewrite (struct_indented _ 3); [|apply small; lia| |texts].
  - show. rewrite field_string. show.
    erewrite field_some by (apply into_pointer with (f := sanitize_uart); [intros; apply indented_not_null|
      intros u E; destruct (Hu u E) as (? & ? & ?); by apply into_uart]). show.
    erewrite field_some by (apply into_pointer with (f := sanitize_ssh); [intros; apply indented_not_null|
      intros s E; apply into_ssh; auto]). show.
    erewrite field_some by (apply into_pointer with (f := sanitize_telnet); [intros; apply indented_not_null|
      intros t E; apply into_telnet; auto]). done.
  - repeat (apply Forall_cons_2; [cbn [snd]|]); try apply Forall_nil_2; [apply text_string_n; lia|..];
      apply pointer_text; try lia; auto using uart_text, ssh_text, telnet_text.
Qed.

(** ** Properties *)

(** A file replaced through a temporary one: every state on the way has the old
    content or the new one under its name and no other file changes; a failure
    leaves everything as it was. *)
Lemma replace_file_atomic io fs dst data :
  let new_ := {| mode := 384; content := data |} in
  let out := replace_file io fs dst data in
  let final := default fs (last out.1) in
  fs !! tmp io = None -> tmp io <> dst ->
  Forall (fun fs' => (fs' !! dst = fs !! dst \/ fs' !! dst = Some new_) /\
    forall path, path <> dst -> path <> tmp io -> fs' !! path = fs !! path) out.1 /\
  (out.2 <> None -> final = fs) /\ (out.2 = None -> final = <[dst := new_]> fs) /\
  (out.2 = None <-> create_ok io = true /\ chmod_ok io = true /\ write_cut io = None /\ close_ok io = true /\
     rename_ok io = true).
Proof.
  intros new_ out final Hfresh Hne.
  assert (Hdel : forall f g h : file, delete (tmp io) (<[tmp io := f]> (<[tmp io := g]> (<[tmp io := h]> fs))) = fs).
  { intros f g h. rewrite !insert_insert_eq. by rewrite delete_insert_id. }
  assert (Hdel1 : forall f : file, delete (tmp io) (<[tmp io := f]> fs) = fs)
    by (intros f; by rewrite delete_insert_id).
  split_and!.
  - unfold out, replace_file. repeat case_match; cbn [fst]; rewrite ?Hdel, ?Hdel1; repeat (apply Forall_cons_2; [|]); try apply Forall_nil_2;
      (split; [|intros path Hp1 Hp2; rewrite ?lookup_delete_ne, ?lookup_insert_ne by done;
                by rewrite ?lookup_delete_ne, ?lookup_insert_ne by done]);
      rewrite ?(lookup_delete_ne _ (tmp io)), ?lookup_insert_eq, ?(lookup_insert_ne _ (tmp io)) by done; auto.
  - unfold final, out, replace_file. repeat case_match; cbn [fst snd last default from_option id]; intros He; try done;
      by rewrite ?Hdel, ?Hdel1.
  - unfold final, out, replace_file. repeat case_match; cbn [fst snd last default from_option id]; intros He; try done.
    rewrite Hdel. rewrite delete_insert_ne by done. by rewrite delete_id.
  - unfold out, replace_file. destruct (create_ok io), (chmod_ok io), (write_cut io), (close_ok io), (rename_ok io);
      cbn; naive_solver.
Qed.

(** C24. Saving a profile is all or nothing. In every state the directory
    passes through, whichever system call fails and however much of the text
    was written, the profile's file is the old one or the complete new one,
    owner-only, and no other file but the temporary one is touched; a save that
    fails leaves the directory as it was, and one that succeeds changes exactly
    the profile's file, from which the same profile is then loaded, its texts
    as valid UTF-8. It succeeds only for a valid line and telnet target, and
    for those whenever no system call fails. *)
Theorem Save_atomic io fs dir p :
  let dst := profile_path dir (Name p) in
  let saved := {| mode := 384; content := MarshalProfile p |} in
  let out := Save io fs dir p in
  let final := default fs (last out.1) in
  fs !! tmp io = None -> tmp io <> dst -> ints p ->
  Forall (fun fs' => (fs' !! dst = fs !! dst \/ fs' !! dst = Some saved) /\
    forall path, path <> dst -> path <> tmp io -> fs' !! path = fs !! path) out.1 /\
  (out.2 <> None -> final = fs) /\
  (out.2 = None -> final = <[dst := saved]> fs /\ Load final dir (Name p) = Ok (sanitize_profile p)) /\
  (out.2 = None <-> invalid p = None /\ create_ok io = true /\ chmod_ok io = true /\
     write_cut io = None /\ close_ok io = true /\ rename_ok io = true).
Proof.
  intros dst saved out final Hfresh Hne Hints.
  destruct (replace_file_atomic io fs dst (MarshalProfile p) Hfresh Hne) as (H1 & H2 & H3 & H4).
  unfold final, out, Save in *. fold dst.
  destruct (invalid p) as [e|] eqn:Hi.
  { split_and!; [constructor|done|done|]. split; [done|]. by intros (? & _). }
  destruct (replace_file io fs dst (MarshalProfile p)) as [states err]. cbn [fst snd] in *.
  split_and!; [done|intros He; apply H2; by destruct err| |].
  - intros He. assert (err = None) as -> by by destruct err. split; [by apply H3|].
    unfold Load. rewrite H3 by done. fold dst. rewrite lookup_insert_eq. cbn [content]. by rewrite profile_roundtrip.
  - destruct err; cbn; naive_solver.
Qed.

(** A board name is a path: one with dots reads a file outside the profile
    directory, whoever names it. *)
Lemma board_name_escapes fs f :
  fs !! "/home/op/notes/x.json"%string = Some f ->
  Load fs "/home/op/.config/ai-debug-gateway/profiles" "../../../notes/x" =
  match Unmarshal_into (into_struct profileFields) zeroProfile (content f) with
  | Some p => Ok p | None => Err ErrProfileJSON end.
Proof.
  intros Hf. unfold Load.
  change (profile_path "/home/op/.config/ai-debug-gateway/profiles" "../../../notes/x")
    with "/home/op/notes/x.json"%string.
  by rewrite Hf.
Qed.

(** *** Witnesses *)

Definition demo_profile : Profile :=
  {| Name := "lab";
     UART := Some {| uart_Identity := {| Kind := "usb-serial-by-id"; Key := "/dev/serial/by-id/usb-1" |};
                     uart_Line := {| BaudRate := 115200; DataBits := 8; Parity := "none"; StopBits := 1;
                                     Flow := "none" |} |};
     SSH := None; Telnet := Some {| telnet_Host := "10.0.0.2"; telnet_Port := 0 |} |}.

Definition demo_io : save_io :=
  {| tmp := "/p/.profile-1.tmp"; create_ok := true; chmod_ok := true; write_cut := None; close_ok := true;
     rename_ok := true |}.

Lemma Save_atomic_witness :
  (Save demo_io ∅ "/p" demo_profile).2 = None /\
  Load (default ∅ (last (Save demo_io ∅ "/p" demo_profile).1)) "/p" "lab" = Ok demo_profile.
Proof.
  destruct (Save_atomic demo_io ∅ "/p" demo_profile) as (_ & _ & H & Hiff).
  - reflexivity.
  - discriminate.
  - split_and!; intros x Hx; vm_compute in Hx; simplify_eq; unfold int64; cbn; lia.
  - assert (Hok : (Save demo_io ∅ "/p" demo_profile).2 = None)
      by (apply Hiff; split_and!; reflexivity).
    split; [exact Hok|]. destruct (H Hok) as [_ HL]. exact HL.
Defined.
