(* ===== verification/CoordinatorTx.v ===== *)
(** * Where transactions come from (src/internal/gateway/coordinator.go)

    Which critical sections record a transaction, what it records, and that
    none loses a result: the facts about the coordinator that the dispatcher's
    theorems rest on. *)

From S2P Require Import Prelude GoStd Session Ring Secret Validate Command Marker Coordinator CoordinatorSteps.

(** The transactions recorded so far. *)
Definition txs (c : Coordinator) : gmap string Transaction := transactions (commands c).

Lemma txs_finish now status code c : txs (finishActiveLocked now status code c) = txs c.
Proof.
  unfold finishActiveLocked. destruct (act c); [|done]. cbv zeta. unfold txs.
  set (c1 := set_commands _ c). assert (H : transactions (commands c1) = transactions (commands c)).
  { unfold c1. cbn. unfold CompleteTransaction. repeat case_match; done. }
  destruct (resultWaiters c1 !! _); exact H.
Qed.

(** Sections that leave the store alone. *)
Lemma commands_write who data c : commands (write_stream who data c) = commands c.
Proof. unfold write_stream. by case_match. Qed.

Lemma commands_close c : commands (close_stream c) = commands c.
Proof. unfold close_stream. by case_match. Qed.

Lemma commands_arm now c : commands (armAuthRetryLocked now c) = commands c.
Proof. unfold armAuthRetryLocked. repeat case_match; done. Qed.

Lemma commands_armPrompt now cfg c : commands (armPromptConfirmLocked now cfg c) = commands c.
Proof. unfold armPromptConfirmLocked. by case_match. Qed.

Lemma commands_auth now c : commands (handleAuthenticatingLocked now c) = commands c.
Proof.
  unfold handleAuthenticatingLocked. cbv zeta. rewrite commands_arm. case_match; [|done].
  exact (commands_write _ _ c).
Qed.

Lemma commands_begin now auth done c : commands (begin_stream now auth done c) = commands c.
Proof.
  unfold begin_stream. cbv zeta. destruct auth; [done|].
  exact (commands_arm now (apply_event "" TransportReady c)).
Qed.

Lemma commands_retryAuth now g c : commands (fire_auth now g c) = commands c.
Proof.
  unfold fire_auth, retryAuth. repeat (case_match; try done); cbv zeta; rewrite ?commands_arm; try done;
    try (etransitivity; [exact (commands_write _ _ _)|done]).
Qed.

Lemma commands_end_close fails c : commands (fst (EndSession_close fails c)) = commands c.
Proof. unfold EndSession_close. repeat case_match; done. Qed.

Lemma txs_same c c' : commands c' = commands c -> txs c' = txs c.
Proof. unfold txs. by intros ->. Qed.

Lemma txs_write who data c : txs (write_stream who data c) = txs c.
Proof. apply txs_same, commands_write. Qed.

Lemma txs_close c : txs (close_stream c) = txs c.
Proof. apply txs_same, commands_close. Qed.

Lemma txs_arm now c : txs (armAuthRetryLocked now c) = txs c.
Proof. apply txs_same, commands_arm. Qed.

Lemma txs_armPrompt now cfg c : txs (armPromptConfirmLocked now cfg c) = txs c.
Proof. apply txs_same, commands_armPrompt. Qed.

Lemma txs_auth now c : txs (handleAuthenticatingLocked now c) = txs c.
Proof. apply txs_same, commands_auth. Qed.

Lemma txs_begin now auth done c : txs (begin_stream now auth done c) = txs c.
Proof. apply txs_same, commands_begin. Qed.

Lemma txs_reboot now c : txs (handleTargetRebootLocked now c) = txs c.
Proof.
  unfold handleTargetRebootLocked. cbv zeta. rewrite finish_guard. case_match;
    exact (txs_finish now StatusTargetRebooted None c).
Qed.

Lemma txs_marker now c : txs (handleMarkerLocked now c) = txs c.
Proof.
  unfold handleMarkerLocked. case_match; [|done]. cbv zeta. case_match; [|done].
  exact (txs_finish _ _ _ (set_rebootSuspect false c)).
Qed.

Lemma txs_onData now raw c : txs (onData now raw c) = txs c.
Proof.
  unfold onData. cbv zeta. set (c1 := advanceLineTailLocked _ _).
  assert (txs c1 = txs c) as <- by done. clearbody c1.
  match goal with |- context [if ?b then set_rebootSuspect true c1 else c1] =>
    set (c2 := if b then set_rebootSuspect true c1 else c1) end.
  assert (txs c2 = txs c1) as <- by (unfold c2; by case_match). clearbody c2.
  case_match; [|case_match; [|case_match]].
  - rewrite txs_auth. exact (txs_reboot _ (set_rebootSuspect false c2)).
  - apply txs_armPrompt.
  - unfold set_deadline. by case_match.
  - rewrite txs_armPrompt. case_match; auto using txs_auth, txs_marker.
Qed.

Lemma txs_end now status code c :
  txs (let c := finishActiveLocked now status code c in
       if decide (st c = RunningCommand) then apply_event "" CommandResult c else c) = txs c.
Proof. cbv zeta. case_match; exact (txs_finish now status code c). Qed.

Lemma txs_start now rnd done s cfg op kind auth c :
  txs (fst (start now rnd done s cfg op kind auth c)) = txs c.
Proof.
  unfold start. case_match; [done|]. cbv zeta. cbn [fst]. rewrite txs_begin. by case_match.
Qed.

Lemma txs_retry now rnd done s auth c : txs (fst (retry_install now rnd done s auth c)) = txs c.
Proof.
  unfold retry_install. destruct (Session.Apply _ _ _) as [m [e|]]; [done|]. cbv zeta. cbn [fst].
  by rewrite txs_begin.
Qed.

(** The sections that may record a transaction. *)
Definition records (l : label) : bool :=
  match l with LApprove _ _ | LDiagnose _ _ _ _ _ => true | _ => false end.

Lemma txs_exec l c : records l = false -> txs (exec l c) = txs c.
Proof.
  intros Hl. destruct l; try discriminate; cbn [exec].
  - apply txs_start.
  - apply txs_retry.
  - apply txs_same, commands_end_close.
  - done.
  - unfold Stop. cbv zeta. rewrite finish_guard.
    etransitivity; [exact (txs_close _)|]. apply txs_finish.
  - unfold Propose. destruct (Command.Propose _ _ _ _) as [s r] eqn:H. cbn.
    unfold txs. cbn. revert H. unfold Command.Propose. case_match; intros; by simplify_eq.
  - unfold Reject, Command.Reject. repeat case_match; simplify_eq; done.
  - unfold Edit, Command.Edit. repeat case_match; simplify_eq; done.
  - unfold ConfirmSessionReady. by case_match.
  - unfold Takeover. case_match; [|done]. apply txs_end.
  - unfold BeginSecret, set_deadline. by case_match.
  - unfold EndSecret. by case_match.
  - unfold WriteHuman. case_match; [apply txs_write|done].
  - by case_match.
  - done.
  - apply txs_onData.
  - unfold onReadError. case_match; [done|]. cbv zeta. rewrite finish_guard.
    exact (txs_finish now StatusDisconnected None c).
  - unfold checkTimeout. case_match; [|done]. case_match; [done|]. cbv zeta.
    case_match; [|etransitivity; [exact (txs_close _)|]];
      (etransitivity; [exact (txs_end now StatusTimeout None _)|apply txs_write]).
  - unfold confirmShellPrompt. repeat case_match; done.
  - apply txs_same, commands_retryAuth.
  - unfold WaitResult_register. repeat case_match; done.
  - unfold WaitResult_cancel. repeat case_match; done.
Qed.

Lemma txs_startTx d t c :
  txs (fst (startTransactionLocked d t c)) = txs c /\ (startTransactionLocked d t c).2.1 = t.
Proof.
  unfold startTransactionLocked. cbv zeta. destruct (write_fails d); cbn [fst snd]; [|by rewrite txs_write].
  split; [|done]. etransitivity; [exact (txs_end (clock d) StatusDisconnected None _)|]. by rewrite txs_write.
Qed.

(** What an approval or a diagnosis records: nothing unless it returns a
    transaction, and then that one. *)
Definition recorded (out : option Transaction) (c c' : Coordinator) : Prop :=
  match out with
  | None => txs c' = txs c
  | Some t => txs c' = <[tx_ID t := t]> (txs c)
  end.

Lemma approve_txs now rnd pid s s' r :
  Command.Approve now now rnd pid s = (s', r) ->
  match r with
  | Ok t => transactions s' = <[tx_ID t := t]> (transactions s) /\
      exists p, proposals s !! pid = Some p /\ tx_SourceProposalID t = prop_ID p /\ tx_Text t = prop_Text p
  | Err _ => transactions s' = transactions s
  end.
Proof.
  unfold Command.Approve. intros H. repeat case_match; simplify_eq; try done. split; [done|]. by eexists.
Qed.

Lemma Approve_records d pid c c' out e :
  Approve d pid c = (c', (out, e)) ->
  recorded out c c' /\
  (forall t, out = Some t -> exists p, proposals (commands c) !! pid = Some p /\
     tx_SourceProposalID t = prop_ID p /\ tx_Text t = prop_Text p).
Proof.
  unfold Approve. destruct (canStartLocked c); [by intros; simplify_eq|].
  destruct (Command.Approve _ _ _ _ _) as [s r] eqn:HA. apply approve_txs in HA.
  destruct r as [t|]; cbv zeta; [|intros; simplify_eq; split; [exact HA|done]].
  destruct HA as [Ht Hp]. pose proof (txs_startTx d t (set_commands s c)) as [Hs Hfst].
  destruct (startTransactionLocked _ _ _) as [c1 [t1 e1]]. cbn in Hs, Hfst. subst t1.
  intros. simplify_eq. split; [|by intros ? [= <-]]. unfold recorded. rewrite Hs. exact Ht.
Qed.

Lemma Diagnose_records d sid text purpose timeout c c' out e :
  DiagnoseStart d sid text purpose timeout c = (c', (out, e)) ->
  recorded out c c' /\ (forall t, out = Some t -> tx_Text t = text) /\ (out = None -> e <> None).
Proof.
  unfold DiagnoseStart. destruct (canStartLocked c); [by intros; simplify_eq|].
  case_match; [by intros; simplify_eq|].
  destruct (Command.Propose _ _ _ _) as [s r] eqn:HP. cbv zeta.
  assert (Hs : transactions s = txs c /\ forall p, r = Ok p -> proposals s !! prop_ID p = Some p /\ prop_Text p = text).
  { revert HP. unfold Command.Propose. case_match; intros; simplify_eq; [done|]. split; [done|].
    intros p [= <-]. cbn. by rewrite lookup_insert_eq. }
  destruct Hs as [Hs Hr]. destruct r as [p|]; [|intros; simplify_eq; split_and!; done].
  destruct (Hr p eq_refl) as [Hp Htext].
  destruct (Command.Approve _ _ _ _ _) as [s2 r2] eqn:HA. apply approve_txs in HA.
  destruct r2 as [t|]; cbv zeta.
  - destruct HA as [Ht (q & Hq & _ & Hqt)]. cbn [commands set_commands] in Ht, Hq.
    pose proof (txs_startTx d t (set_commands s2 (set_commands s c))) as [Hf Hfst].
    destruct (startTransactionLocked _ _ _) as [c1 [t1 e1]]. cbn in Hf, Hfst. subst t1.
    intros. simplify_eq. split_and!; [|by intros ? [= <-]; congruence|done].
    unfold recorded. rewrite Hf. unfold txs at 1. cbn. cbn in Ht. by rewrite Ht, Hs.
  - intros. simplify_eq. split_and!; [|done|done]. unfold recorded, txs at 1. cbn in HA |- *.
    rewrite <-Hs, <-HA. unfold Command.Reject. repeat case_match; done.
Qed.

(** The transaction of an approval or a diagnosis has the drawn identifier. *)
Lemma approve_name now1 now2 rnd pid s s' t :
  Command.Approve now1 now2 rnd pid s = (s', Ok t) -> tx_ID t = New "txn" rnd.
Proof. unfold Command.Approve. intros H. repeat case_match; by simplify_eq. Qed.

Lemma Approve_names d pid c c' out e :
  Approve d pid c = (c', (out, e)) -> forall t, out = Some t -> tx_ID t = New "txn" (rnd_txn d).
Proof.
  unfold Approve. destruct (canStartLocked c); [by intros; simplify_eq|].
  destruct (Command.Approve _ _ _ _ _) as [s r] eqn:HA. destruct r as [t|]; cbv zeta; [|by intros; simplify_eq].
  apply approve_name in HA. pose proof (proj2 (txs_startTx d t (set_commands s c))) as Hfst.
  destruct (startTransactionLocked _ _ _) as [c1 [t1 e1]]. cbn in Hfst. subst t1. intros H t1 ->. by simplify_eq.
Qed.

Lemma Diagnose_names d sid text purpose timeout c c' out e :
  DiagnoseStart d sid text purpose timeout c = (c', (out, e)) ->
  forall t, out = Some t -> tx_ID t = New "txn" (rnd_txn d).
Proof.
  unfold DiagnoseStart. destruct (canStartLocked c); [by intros; simplify_eq|].
  case_match; [by intros; simplify_eq|]. destruct (Command.Propose _ _ _ _) as [s r]. cbv zeta.
  destruct r as [p|]; [|by intros; simplify_eq].
  destruct (Command.Approve _ _ _ _ _) as [s2 r2] eqn:HA. destruct r2 as [t|]; cbv zeta; [|by intros; simplify_eq].
  apply approve_name in HA.
  pose proof (proj2 (txs_startTx d t (set_commands s2 (set_commands s c)))) as Hfst.
  destruct (startTransactionLocked _ _ _) as [c1 [t1 e1]]. cbn in Hfst. subst t1. intros H' t1 ->. by simplify_eq.
Qed.

(** A diagnosis that is refused changes nothing; one that is not records its
    transaction. *)
Lemma Diagnose_refused d sid text purpose timeout c :
  sid <> sessionID (sess c) \/ canStartLocked c <> None \/ ValidateManaged text <> None ->
  exists e, DiagnoseStart d sid text purpose timeout c = (c, (None, Some e)).
Proof.
  intros Hr. unfold DiagnoseStart. destruct (canStartLocked c); [by eexists|].
  destruct (String.eqb_spec sid (sessionID (sess c))); cbn [negb]; [|by eexists].
  unfold Command.Propose. cbn [in_Text gw_input]. destruct (ValidateManaged text); [|naive_solver].
  eexists. cbv zeta. by destruct c.
Qed.

Lemma Diagnose_starts d sid text purpose timeout c :
  sid = sessionID (sess c) -> canStartLocked c = None -> ValidateManaged text = None ->
  0 <= proposalTTL (commands c) ->
  exists c' t e, DiagnoseStart d sid text purpose timeout c = (c', (Some t, e)).
Proof.
  intros -> Hcan Hv Httl. unfold DiagnoseStart. rewrite Hcan, String.eqb_refl. cbn [negb].
  unfold Command.Propose. cbn [in_Text gw_input]. rewrite Hv. cbv zeta. unfold Command.Approve.
  cbn [prop_ID commands set_commands proposals with_proposals]. rewrite lookup_insert_eq.
  rewrite decide_False by naive_solver. cbn [ExpiresAt].
  replace (clock d + proposalTTL (commands c) <? clock d) with false by (symmetry; apply Z.ltb_ge; lia).
  match goal with |- context [startTransactionLocked ?d ?t ?c] => pose proof (proj2 (txs_startTx d t c)) as Ht end.
  destruct (startTransactionLocked _ _ _) as [c1 [t1 e1]]. by eexists _, _, _.
Qed.

(** ** Outcomes *)

(** The results recorded so far. *)
Definition outcomes (c : Coordinator) : gmap string Command.Result := results (commands c).

Definition outcomes_kept (c c' : Coordinator) : Prop :=
  forall id r, outcomes c !! id = Some r -> outcomes c' !! id = Some r.

Lemma kept_refl c : outcomes_kept c c.
Proof. by intros id r. Qed.

Lemma kept_same c c' : commands c' = commands c -> outcomes_kept c c'.
Proof. intros H id r. unfold outcomes. by rewrite H. Qed.

Lemma kept_trans c2 c1 c3 : outcomes_kept c1 c2 -> outcomes_kept c2 c3 -> outcomes_kept c1 c3.
Proof. unfold outcomes_kept. auto. Qed.

Lemma kept_store s c : store_grows (commands c) s -> outcomes_kept c (set_commands s c).
Proof. intros H id r. exact (grow_res _ _ H id r). Qed.

#[export] Hint Resolve kept_refl : gw.

Lemma kept_finish now status code c : outcomes_kept c (finishActiveLocked now status code c).
Proof.
  unfold finishActiveLocked. destruct (act c); [|apply kept_refl]. cbv zeta.
  match goal with |- context [set_commands (fst (CompleteTransaction ?r _)) c] => set (res := r) end.
  pose proof (kept_store _ c (CompleteTransaction_grows res (commands c))) as H.
  destruct (resultWaiters _ !! _); exact H.
Qed.

Lemma kept_end now status code c :
  outcomes_kept c (let c := finishActiveLocked now status code c in
                   if decide (st c = RunningCommand) then apply_event "" CommandResult c else c).
Proof. cbv zeta. case_match; exact (kept_finish now status code c). Qed.

Lemma kept_reboot now c : outcomes_kept c (handleTargetRebootLocked now c).
Proof.
  unfold handleTargetRebootLocked. cbv zeta. rewrite finish_guard. case_match;
    exact (kept_finish now StatusTargetRebooted None c).
Qed.

Lemma kept_marker now c : outcomes_kept c (handleMarkerLocked now c).
Proof.
  unfold handleMarkerLocked. case_match; [|apply kept_refl]. cbv zeta. case_match; [|apply kept_refl].
  exact (kept_finish _ _ _ (set_rebootSuspect false c)).
Qed.

Lemma kept_onData now raw c : outcomes_kept c (onData now raw c).
Proof.
  unfold onData. cbv zeta. set (c1 := advanceLineTailLocked _ _).
  eapply (kept_trans c1); [by apply kept_same|]. clearbody c1.
  match goal with |- context [if ?b then set_rebootSuspect true c1 else c1] =>
    set (c2 := if b then set_rebootSuspect true c1 else c1) end.
  eapply (kept_trans c2); [apply kept_same; unfold c2; by case_match|]. clearbody c2.
  case_match; [|case_match; [|case_match]].
  - eapply kept_trans; [exact (kept_reboot now (set_rebootSuspect false c2))|].
    apply kept_same, commands_auth.
  - apply kept_same, commands_armPrompt.
  - apply kept_same. unfold set_deadline. by case_match.
  - eapply kept_trans; [|apply kept_same, commands_armPrompt].
    case_match; auto using kept_refl, kept_same, commands_auth, kept_marker.
Qed.

Lemma kept_startTx d t c : outcomes_kept c (fst (startTransactionLocked d t c)).
Proof.
  unfold startTransactionLocked. cbv zeta. destruct (write_fails d); cbn [fst];
    [|by apply kept_same; rewrite commands_write].
  eapply kept_trans; [|exact (kept_end (clock d) StatusDisconnected None _)].
  apply kept_same. by rewrite commands_write.
Qed.

Lemma kept_Approve d pid c : outcomes_kept c (fst (Approve d pid c)).
Proof.
  unfold Approve. case_match; [apply kept_refl|].
  destruct (Command.Approve _ _ _ _ _) as [s r] eqn:HA.
  assert (Hs : outcomes_kept c (set_commands s c)).
  { intros id x. revert HA. unfold Command.Approve. repeat case_match; intros; by simplify_eq. }
  destruct r as [t|]; [|exact Hs]. pose proof (kept_startTx d t (set_commands s c)) as Ht.
  destruct (startTransactionLocked _ _ _) as [c1 [t1 e1]]. by eapply kept_trans.
Qed.

Lemma kept_Propose now rnd inp c : outcomes_kept c (set_commands (fst (Command.Propose now rnd inp (commands c))) c).
Proof. intros id x. unfold Command.Propose. by case_match. Qed.

Lemma kept_Reject pid c : outcomes_kept c (set_commands (fst (Command.Reject pid (commands c))) c).
Proof. apply kept_store, Reject_grows. Qed.

Lemma kept_Diagnose d sid text purpose timeout c :
  outcomes_kept c (fst (DiagnoseStart d sid text purpose timeout c)).
Proof.
  unfold DiagnoseStart. case_match; [apply kept_refl|]. case_match; [apply kept_refl|].
  pose proof (kept_Propose (clock d) (rnd_prop d) (gw_input sid text purpose timeout c) c) as H1.
  destruct (Command.Propose _ _ _ _) as [s r]. cbn [fst] in H1. destruct r as [p|]; [|exact H1]. cbv zeta.
  destruct (Command.Approve _ _ _ _ _) as [s2 r2] eqn:HA.
  assert (Hs : outcomes_kept (set_commands s c) (set_commands s2 (set_commands s c))).
  { intros id x. revert HA. unfold Command.Approve. repeat case_match; intros; by simplify_eq. }
  eapply kept_trans; [exact H1|]. destruct r2 as [t|].
  - pose proof (kept_startTx d t (set_commands s2 (set_commands s c))) as Ht.
    destruct (startTransactionLocked _ _ _) as [c1 [t1 e1]]. by eapply kept_trans.
  - eapply kept_trans; [exact Hs|]. apply kept_Reject.
Qed.

(** Whatever the coordinator does, a recorded result stays. *)
Lemma kept_exec l c : outcomes_kept c (exec l c).
Proof.
  destruct l; cbn [exec].
  - unfold start. case_match; [apply kept_refl|]. cbv zeta. cbn [fst]. apply kept_same.
    rewrite commands_begin. by case_match.
  - unfold retry_install. destruct (Session.Apply _ _ _) as [m [e|]]; [by apply kept_same|]. cbv zeta. cbn [fst].
    apply kept_same. by rewrite commands_begin.
  - apply kept_same, commands_end_close.
  - by apply kept_same.
  - unfold Stop. cbv zeta. rewrite finish_guard.
    eapply kept_trans; [apply kept_finish|]. apply kept_same. exact (commands_close _).
  - unfold Propose. match goal with |- context [Command.Propose ?now ?rnd ?inp _] =>
      pose proof (kept_Propose now rnd inp c) as Hk end.
    destruct (Command.Propose _ _ _ _) as [s r]. exact Hk.
  - apply kept_Approve.
  - apply kept_Diagnose.
  - unfold Reject. match goal with |- context [Command.Reject ?pid _] => pose proof (kept_Reject pid c) as Hk end.
    by destruct (Command.Reject _ _).
  - unfold Edit. destruct (Command.Edit _ _ _ _ _ _) as [s r] eqn:HE. cbn. intros id x.
    revert HE. unfold Command.Edit. repeat case_match; intros; by simplify_eq.
  - apply kept_same. unfold ConfirmSessionReady. by case_match.
  - unfold Takeover. case_match; [|apply kept_refl]. apply kept_end.
  - apply kept_same. unfold BeginSecret, set_deadline. by case_match.
  - apply kept_same. unfold EndSecret. by case_match.
  - unfold WriteHuman. case_match; [apply kept_same, commands_write|apply kept_refl].
  - apply kept_same. by case_match.
  - by apply kept_same.
  - apply kept_onData.
  - unfold onReadError. case_match; [apply kept_refl|]. cbv zeta. rewrite finish_guard.
    exact (kept_finish now StatusDisconnected None c).
  - unfold checkTimeout. case_match; [|apply kept_refl]. case_match; [apply kept_refl|]. cbv zeta.
    case_match.
    + eapply kept_trans; [|exact (kept_end now StatusTimeout None _)]. apply kept_same, commands_write.
    + eapply kept_trans; [|apply kept_same; exact (commands_close _)].
      eapply kept_trans; [|exact (kept_end now StatusTimeout None _)]. apply kept_same, commands_write.
  - unfold confirmShellPrompt. apply kept_same. repeat case_match; done.
  - apply kept_same, commands_retryAuth.
  - unfold WaitResult_register. apply kept_same. repeat case_match; done.
  - unfold WaitResult_cancel. apply kept_same. repeat case_match; done.
Qed.
