(* ===== verification/Dispatcher.v ===== *)
(** * Dispatcher (src/cmd/gatewayd/dispatcher.go)

    The operations of the protocol over one board's coordinator, its policies,
    its open set and its records. A handler that takes several locks in turn,
    or waits for a transaction, is cut at each of these places: [Dispatch] runs
    it to the first cut and [advance] to the next. The payload decoders are
    parameters. *)

From S2P Require Import Prelude GoStd Session Ring Secret Validate Command Marker Shell Denylist Records OpenSet Profile Ipc Coordinator CoordinatorSteps CoordinatorTx.

(** ** Payloads *)

Record sessionStartPayload := {
  sp_Board : string; sp_Transport : string; sp_SSHPassword : string;
  sp_SSHKeyPassphrases : list (string * string); sp_SSHAcceptHost : bool
}.
Record outputReadPayload := { rp_After : Z; rp_Max : Z }.
(** Of [diagnose.execute] and [unsafeshell.execute], which have one shape. *)
Record executePayload := {
  xp_SessionID : string; xp_Text : string; xp_Purpose : string; xp_TimeoutMS : Z
}.
Record commandProposePayload := {
  pp_SessionID : string; pp_Text : string; pp_Purpose : string; pp_TimeoutMS : Z
}.
Record commandListPayload := { lp_SessionID : string }.
Record commandIDPayload := { ip_ProposalID : string }.
Record commandApprovePayload := { ap_ProposalID : string; ap_Confirmation : string }.
Record commandEditPayload := { ep_ProposalID : string; ep_Text : string; ep_Purpose : string }.
Record transportWritePayload := { wp_Data : bytes }.
Record recordsExportPayload := { xp_AfterTranscript : Z; xp_AfterAudit : Z }.

(** [json.Unmarshal] into each of them. *)
Class Decoders := {
  dec_start : bytes -> option sessionStartPayload;
  dec_read : bytes -> option outputReadPayload;
  dec_execute : bytes -> option executePayload;
  dec_propose : bytes -> option commandProposePayload;
  dec_list : bytes -> option commandListPayload;
  dec_id : bytes -> option commandIDPayload;
  dec_approve : bytes -> option commandApprovePayload;
  dec_edit : bytes -> option commandEditPayload;
  dec_write : bytes -> option transportWritePayload;
  dec_export : bytes -> option recordsExportPayload
}.

(** [if len(payload) > 0 { unmarshal }]: the zero value otherwise. *)
Definition optional {P} (dec : bytes -> option P) (zero : P) (payload : bytes) : option P :=
  match payload with [] => Some zero | _ => dec payload end.

(** ** The daemon *)

(** [diagnosticMu] and [unsafeShellMu] say whether the mutex is held. *)
Record daemon := {
  d_board : string;
  loginCfg : LoginConfig;
  coord : Coordinator;
  open : option openSet;
  aw : option Audit.Writer;
  tw : Transcript.Writer;
  policy : option Policy;
  unsafeShellPolicy : option DenylistPolicy;
  diagnosticMu : bool;
  unsafeShellMu : bool;
  retentionLimit : Z
}.

Definition set_coord (c : Coordinator) (d : daemon) : daemon :=
  {| d_board := d_board d; loginCfg := loginCfg d; coord := c; open := open d; aw := aw d; tw := tw d;
     policy := policy d; unsafeShellPolicy := unsafeShellPolicy d; diagnosticMu := diagnosticMu d;
     unsafeShellMu := unsafeShellMu d; retentionLimit := retentionLimit d |}.
Definition set_open (o : option openSet) (d : daemon) : daemon :=
  {| d_board := d_board d; loginCfg := loginCfg d; coord := coord d; open := o; aw := aw d; tw := tw d;
     policy := policy d; unsafeShellPolicy := unsafeShellPolicy d; diagnosticMu := diagnosticMu d;
     unsafeShellMu := unsafeShellMu d; retentionLimit := retentionLimit d |}.
Definition set_aw (w : option Audit.Writer) (d : daemon) : daemon :=
  {| d_board := d_board d; loginCfg := loginCfg d; coord := coord d; open := open d; aw := w; tw := tw d;
     policy := policy d; unsafeShellPolicy := unsafeShellPolicy d; diagnosticMu := diagnosticMu d;
     unsafeShellMu := unsafeShellMu d; retentionLimit := retentionLimit d |}.
Definition set_mutexes (diag unsafe : bool) (d : daemon) : daemon :=
  {| d_board := d_board d; loginCfg := loginCfg d; coord := coord d; open := open d; aw := aw d; tw := tw d;
     policy := policy d; unsafeShellPolicy := unsafeShellPolicy d; diagnosticMu := diag;
     unsafeShellMu := unsafe; retentionLimit := retentionLimit d |}.

(** What one call draws from its environment: random text and clock readings,
    the outcomes of its file operations, a new wait channel, and what
    the profile directory and the transports answer. *)
Record env := {
  dr : draws;
  rnd_sess : string;
  ios : io;
  fresh : nat;
  load : string -> option Profile;
  listPorts : option (list Port);
  openPort : Port -> LineSettings -> option nat;
  dialSSH : SSHConfig -> bool -> option nat;
  dialTelnet : TelnetConfig -> option nat;
  reopen : nat -> option nat;
  op_id : nat;
  done_id : nat;
  close_fails : bool;
  read_fails : bool
}.

Inductive reply :=
| RPorts (ports : list Port)
| RSession (id : string) (s : State)
| RState (s : State)
| RChunk (c : Ring.Chunk)
| RExecute (dec : Decision) (t : option Transaction) (res : option Command.Result)
    (truncatedStart truncatedEnd : bool)
| RProposal (p : Proposal)
| RPending (ps : list Proposal)
| RRecords (t : list Transcript.Record_) (a : list Audit.Record_)
| RTransaction (t : Transaction)
| RRejected (id : string)
| RWritten (n : nat).

(** The critical sections that record a transaction: [audit] up to the session
    it reads, its append, and [open.add]. *)
Inductive section :=
| SAudit (kind detail : string)
| SAppend (session kind detail : string)
| SOpenAdd (t : Transaction).

(** The two automatic modes. *)
Inductive mode := Diagnosing | UnsafeShell.

#[export] Instance mode_eq_dec : EqDecision mode.
Proof. solve_decision. Defined.

(** Where an automatic execution is: the request was checked and the command
    not started; its transaction is being recorded; it registers as a waiter;
    it waits; it has the result. *)
Inductive stage :=
| Checked (dec : Decision) (p : executePayload)
| Recording (dec : Decision) (t : Transaction) (todo : list section)
| Registering (dec : Decision) (t : Transaction)
| WaitingFor (dec : Decision) (t : Transaction) (wake : nat)
| Finalizing (dec : Decision) (t : Transaction) (res : Command.Result).

(** A handler that has run to one of its cuts. *)
Inductive flight :=
| Approving (t : Transaction) (todo : list section)
| Executing (m : mode) (st : stage).

(** What a handler comes to: an answer, a cut, a wait for the reader of the
    session, a wait for a mutex, or a nil dereference. *)
Inductive progress :=
| Answered (r : result ErrCode reply) | Continues (f : flight) | WaitsReader | Blocks | Panics.

Definition badPayload : progress := Answered (Err ErrCodeInvalidPayload).
Definition internalErr : progress := Answered (Err ErrCodeInternal).
Definition ok (r : reply) : progress := Answered (Ok r).

Definition session_reply (c : Coordinator) : progress := ok (RSession (Coordinator.SessionID c) (st c)).

(** ** Audit *)

(** [audit], once the session was read: an append that fails is ignored. *)
Definition append_audit (o : io) (session kind detail : string) (d : daemon) : daemon :=
  match aw d with
  | None => d
  | Some w =>
      let rec := {| Audit.Board := d_board d; Audit.Session := session;
                    Audit.Transport := ""; Audit.Seq := 0; Audit.Timestamp := 0; Audit.Kind := kind;
                    Audit.Detail := detail |} in
      set_aw (Some (fst (Audit.Append (now o) (append_ok o) rec w))) d
  end.

Definition audit (o : io) (kind detail : string) (d : daemon) : daemon :=
  append_audit o (Coordinator.SessionID (coord d)) kind detail d.

(** [if d.open != nil { _ = d.open.add(...) }]. *)
Definition open_add (o : io) (t : Transaction) (d : daemon) : daemon :=
  match open d with
  | None => d
  | Some s => set_open (Some (fst (OpenSet.add (save_ok o) (tx_ID t) (tx_SessionID t) s))) d
  end.

Definition finalizeResult (o : io) (txID : string) (res : Command.Result) (d : daemon) : daemon :=
  match open d with
  | Some s =>
      let '(s', aw', _) := OpenSet.finalize o (aw d) (d_board d) txID (resultDetail txID res) s in
      set_open (Some s') (set_aw aw' d)
  | None => audit o "result" (resultDetail txID res) d
  end.

(** One section: the daemon, and what is left of it. *)
Definition run_section (o : io) (s : section) (d : daemon) : daemon * list section :=
  match s with
  | SAudit kind detail => (d, [SAppend (Coordinator.SessionID (coord d)) kind detail])
  | SAppend session kind detail => (append_audit o session kind detail d, [])
  | SOpenAdd t => (open_add o t d, [])
  end.

(** ** Sessions *)

Definition startWith (s : nat) (out : Coordinator * option GwError) (d : daemon) : daemon * progress :=
  match out with
  | (c, Some _) => (set_coord (emit (EClose s) c) d, internalErr)
  | (c, None) => (set_coord c d, session_reply c)
  end.

(** The opener of a UART session. *)
Definition openUART (e : env) (u : UARTConfig) : option nat :=
  match listPorts e with
  | None => None
  | Some ports =>
      let m := Match (uart_Identity u) ports in
      match NeedsHumanSelection m, match_Port m with
      | false, Some p => openPort e p (uart_Line u)
      | _, _ => None
      end
  end.

Definition startUARTSession (e : env) (prof : Profile) (d : daemon) : daemon * progress :=
  match UART prof with
  | None => (d, badPayload)
  | Some u =>
      match openUART e u with
      | None => (d, internalErr)
      | Some s => startWith s (StartUART (clock (dr e)) (rnd_sess e) (done_id e) s (loginCfg d)
                                 (Some (op_id e)) (coord d)) d
      end
  end.

Definition startTelnetSession (e : env) (prof : Profile) (d : daemon) : daemon * progress :=
  match Telnet prof with
  | None => (d, badPayload)
  | Some t =>
      match dialTelnet e t with
      | None => (d, internalErr)
      | Some s => startWith s (StartTelnet (clock (dr e)) (rnd_sess e) (done_id e) s (loginCfg d)
                                 (Some (op_id e)) (coord d)) d
      end
  end.

(** The dial gets the human token only from an attach connection. *)
Definition startSSHSession (role : Role) (e : env) (prof : Profile) (p : sessionStartPayload)
    (d : daemon) : daemon * progress :=
  match SSH prof with
  | None => (d, badPayload)
  | Some cfg =>
      let accept := bool_decide (role = RoleAttach) && sp_SSHAcceptHost p in
      match dialSSH e cfg accept with
      | None => (d, internalErr)
      | Some s => startWith s (StartSSH (clock (dr e)) (rnd_sess e) (done_id e) s
                                 (Some (op_id e)) (coord d)) d
      end
  end.

Section Handlers.
Context `{UnicodeLower, GoQuote, ShellSyntax} `{Decoders}.

Definition sessionStart (role : Role) (e : env) (payload : bytes) (d : daemon) : daemon * progress :=
  match optional dec_start {| sp_Board := ""; sp_Transport := ""; sp_SSHPassword := "";
                              sp_SSHKeyPassphrases := []; sp_SSHAcceptHost := false |} payload with
  | None => (d, badPayload)
  | Some p =>
      let board := if String.eqb (sp_Board p) "" then d_board d else sp_Board p in
      match load e board with
      | None => (d, badPayload)
      | Some prof =>
          let kind := if String.eqb (sp_Transport p) ""
                      then match configured prof with [k] => Some k | _ => None end
                      else Some (sp_Transport p) in
          match kind with
          | None => (d, badPayload)
          | Some k =>
              if String.eqb k "uart" then startUARTSession e prof d
              else if String.eqb k "ssh" then startSSHSession role e prof p d
              else if String.eqb k "telnet" then startTelnetSession e prof d
              else (d, badPayload)
          end
      end
  end.

Definition portsList (e : env) (d : daemon) : daemon * progress :=
  (d, match listPorts e with Some ports => ok (RPorts ports) | None => internalErr end).

Definition sessionStatus (d : daemon) : daemon * progress := (d, session_reply (coord d)).

(** Up to the wait for the reader. *)
Definition sessionEnd (e : env) (d : daemon) : daemon * progress :=
  match EndSession_close (close_fails e) (coord d) with
  | (c, Err _) => (set_coord c d, internalErr)
  | (c, Ok _) => (set_coord c d, WaitsReader)
  end.

(** After it. *)
Definition sessionEnd_finish (d : daemon) : daemon * progress :=
  let c := EndSession_finish (coord d) in (set_coord c d, ok (RState (st c))).

Definition retryWith (out : Coordinator * option GwError) (d : daemon) : daemon * progress :=
  match out with
  | (c, Some _) => (set_coord c d, internalErr)
  | (c, None) => (set_coord c d, session_reply c)
  end.

Definition retryUART (e : env) (d : daemon) : daemon * progress :=
  retryWith (RetryUART (clock (dr e)) (rnd_sess e) (done_id e) (reopen e) (coord d)) d.
Definition retryTelnet (e : env) (d : daemon) : daemon * progress :=
  retryWith (RetryTelnet (clock (dr e)) (rnd_sess e) (done_id e) (reopen e) (coord d)) d.
Definition retrySSH (e : env) (d : daemon) : daemon * progress :=
  retryWith (RetrySSH (clock (dr e)) (rnd_sess e) (done_id e) (reopen e) (coord d)) d.

Definition takeover (e : env) (d : daemon) : daemon * progress :=
  let c := Coordinator.Takeover (clock (dr e)) (coord d) in (set_coord c d, ok (RState (st c))).
Definition secretBegin (e : env) (d : daemon) : daemon * progress :=
  let c := BeginSecret (clock (dr e)) (coord d) in (set_coord c d, ok (RState (st c))).
Definition secretDone (d : daemon) : daemon * progress :=
  let c := EndSecret (coord d) in (set_coord c d, ok (RState (st c))).

(** ** Output, proposals and writes *)

Definition outputRead (payload : bytes) (d : daemon) : daemon * progress :=
  match optional dec_read {| rp_After := 0; rp_Max := 0 |} payload with
  | None => (d, badPayload)
  | Some p =>
      let max := if rp_Max p <=? 0 then 64 * 1024 else rp_Max p in
      (d, ok (RChunk (Coordinator.ReadAfter (rp_After p) max (coord d))))
  end.

(** [time.Duration(ms) * time.Millisecond], which wraps. *)
Definition milliseconds (ms : Z) : Z := i64 (ms * 1000000).

Definition commandPropose (e : env) (payload : bytes) (d : daemon) : daemon * progress :=
  match dec_propose payload with
  | None => (d, badPayload)
  | Some p =>
      match Coordinator.Propose (dr e) (pp_SessionID p) (pp_Text p) (pp_Purpose p)
              (milliseconds (pp_TimeoutMS p)) (coord d) with
      | (c, Err _) => (set_coord c d, badPayload)
      | (c, Ok prop) => (set_coord c d, ok (RProposal prop))
      end
  end.

Definition commandList (payload : bytes) (d : daemon) : daemon * progress :=
  match optional dec_list {| lp_SessionID := "" |} payload with
  | None => (d, badPayload)
  | Some p =>
      let sid := if String.eqb (lp_SessionID p) "" then Coordinator.SessionID (coord d)
                 else lp_SessionID p in
      (d, ok (RPending (Coordinator.PendingForSession sid (coord d))))
  end.

Definition maxConfirmationBytes : Z := 4 * 1024.

(** The content of the confirmation is not recorded. *)
Definition approvalDetail (proposalID : string) (n : nat) : string :=
  "proposal=" +:+ proposalID +:+ " confirmation=[redacted] bytes=" +:+ of_bytes (dec_Z (Z.of_nat n)).

(** Up to the end of [coord.Approve]. *)
Definition commandApprove (e : env) (payload : bytes) (d : daemon) : daemon * progress :=
  match dec_approve payload with
  | None => (d, badPayload)
  | Some p =>
      if maxConfirmationBytes <? Z.of_nat (String.length (ap_Confirmation p)) then (d, badPayload)
      else
        let '(c, (t, err)) := Coordinator.Approve (dr e) (ap_ProposalID p) (coord d) in
        let d := set_coord c d in
        match err, t with
        | Some _, _ => (d, badPayload)
        | None, None => (d, Panics)
        | None, Some t =>
            (d, Continues (Approving t
                  [SAudit "approval" (approvalDetail (ap_ProposalID p) (String.length (ap_Confirmation p)));
                   SAudit "transaction" (tx_ID t); SOpenAdd t]))
        end
  end.

(** Both take the diagnosis mutex first. *)
Definition commandReject (payload : bytes) (d : daemon) : daemon * progress :=
  if diagnosticMu d then (d, Blocks)
  else
    match dec_id payload with
    | None => (d, badPayload)
    | Some p =>
        match Coordinator.Reject (ip_ProposalID p) (coord d) with
        | (c, Some _) => (set_coord c d, badPayload)
        | (c, None) => (set_coord c d, ok (RRejected (ip_ProposalID p)))
        end
    end.

Definition commandEdit (e : env) (payload : bytes) (d : daemon) : daemon * progress :=
  if diagnosticMu d then (d, Blocks)
  else
    match dec_edit payload with
    | None => (d, badPayload)
    | Some p =>
        match Coordinator.Edit (dr e) (ep_ProposalID p) (ep_Text p) (ep_Purpose p) (coord d) with
        | (c, Err _) => (set_coord c d, badPayload)
        | (c, Ok next) => (set_coord c d, ok (RProposal next))
        end
    end.

Definition ctrlC : ascii := "003"%char.

(** The write of the human's bytes may fail in the transport. *)
Definition transportWrite (e : env) (payload : bytes) (d : daemon) : daemon * progress :=
  match dec_write payload with
  | None => (d, badPayload)
  | Some p =>
      let isCtrlC := bool_decide (wp_Data p = [ctrlC]) in
      if bool_decide (st (coord d) = RunningCommand) && negb isCtrlC
      then (d, Answered (Err ErrCodePermissionDenied))
      else match WriteHuman (wp_Data p) (coord d) with
           | (c, Some _) => (set_coord c d, internalErr)
           | (c, None) => (set_coord c d, if write_fails (dr e) then internalErr
                                          else ok (RWritten (length (wp_Data p))))
           end
  end.

Definition recordsExport_ (e : env) (payload : bytes) (d : daemon) : daemon * progress :=
  match optional dec_export {| xp_AfterTranscript := 0; xp_AfterAudit := 0 |} payload with
  | None => (d, badPayload)
  | Some p =>
      if read_fails e then (d, internalErr)
      else match aw d with
           | None => (d, Panics)
           | Some w =>
               let '(t, a) := Records.recordsExport (xp_AfterTranscript p) (xp_AfterAudit p)
                                (retentionLimit d) (tw d) w in
               (d, ok (RRecords t a))
           end
  end.

(** ** Automatic execution *)

Definition diagnosticOutputLimit : nat := Z.to_nat (64 * 1024).

(** The policy's decision, the mutex and the audit kind of a mode. *)
Definition evaluate (m : mode) (d : daemon) : option (string -> Decision) :=
  match m with
  | Diagnosing => Shell.Evaluate <$> policy d
  | UnsafeShell => Denylist.Evaluate <$> unsafeShellPolicy d
  end.

Definition locked (m : mode) (d : daemon) : bool :=
  match m with Diagnosing => diagnosticMu d | UnsafeShell => unsafeShellMu d end.

Definition set_locked (m : mode) (b : bool) (d : daemon) : daemon :=
  match m with
  | Diagnosing => set_mutexes b (unsafeShellMu d) d
  | UnsafeShell => set_mutexes (diagnosticMu d) b d
  end.

Definition approval_kind (m : mode) : string :=
  match m with Diagnosing => "auto-readonly-approval" | UnsafeShell => "unsafe-shell-approval" end.

(** The reply once the result is known. *)
Definition execute_reply (dec : Decision) (t : Transaction) (res : Command.Result) : reply :=
  let over := (diagnosticOutputLimit <? length (Output res))%nat in
  let copy := {| TransactionID := TransactionID res; SourceProposalID := SourceProposalID res;
                 res_Status := res_Status res; ExitCode := ExitCode res; Duration := Duration res;
                 Output := if over then take diagnosticOutputLimit (Output res) else Output res;
                 OutputTruncatedStart := OutputTruncatedStart res;
                 ContextBefore := ContextBefore res; ContextAfter := ContextAfter res;
                 CompletedAt := CompletedAt res |} in
  RExecute dec (Some t) (Some copy) (OutputTruncatedStart res) over.

(** Up to the comparison of the session, with the mutex taken. *)
Definition execute_check (m : mode) (payload : bytes) (d : daemon) : daemon * progress :=
  match dec_execute payload with
  | None => (d, badPayload)
  | Some p =>
      match evaluate m d with
      | None => (d, internalErr)
      | Some eval =>
          if String.eqb (xp_SessionID p) "" || String.eqb (xp_Text p) "" || String.eqb (xp_Purpose p) ""
          then (d, badPayload)
          else if (xp_TimeoutMS p <=? 0) || (MaxDiagnosticTimeoutMS <? xp_TimeoutMS p) then (d, badPayload)
          else if locked m d then (d, badPayload)
          else
            let dec := eval (xp_Text p) in
            if negb (Allowed dec) then (d, ok (RExecute dec None None false false))
            else if negb (String.eqb (xp_SessionID p) (Coordinator.SessionID (coord d)))
            then (d, badPayload)
            else (set_locked m true d, Continues (Executing m (Checked dec p)))
      end
  end.

(** [coord.DiagnoseStart]. A returned handler has unlocked its mutex. *)
Definition execute_start (m : mode) (e : env) (dec : Decision) (p : executePayload) (d : daemon)
  : daemon * progress :=
  let '(c, (t, err)) := DiagnoseStart (dr e) (xp_SessionID p) (xp_Text p) (xp_Purpose p)
                          (milliseconds (xp_TimeoutMS p)) (coord d) in
  let d := set_coord c d in
  match t with
  | None => (set_locked m false d, match err with Some _ => badPayload | None => Panics end)
  | Some t =>
      (d, Continues (Executing m (Recording dec t
            [SAudit "proposal" (tx_SourceProposalID t); SAudit (approval_kind m) (tx_SourceProposalID t);
             SAudit "transaction" (tx_ID t); SOpenAdd t])))
  end.

(** [coord.WaitResult] up to its wait. *)
Definition execute_register (m : mode) (e : env) (dec : Decision) (t : Transaction) (d : daemon)
  : daemon * progress :=
  let '(c, w) := WaitResult_register (fresh e) (tx_ID t) (coord d) in
  let d := set_coord c d in
  match w with
  | WaitDone res => (d, Continues (Executing m (Finalizing dec t res)))
  | WaitFailed _ => (set_locked m false d, internalErr)
  | Waiting w => (d, Continues (Executing m (WaitingFor dec t w)))
  end.

(** The wait: cancelled by [Shutdown], or woken by the result. *)
Definition execute_wait (m : mode) (cancelled : bool) (dec : Decision) (t : Transaction) (w : nat) (d : daemon)
  : daemon * progress :=
  if cancelled then
    (set_locked m false (set_coord (fst (WaitResult_cancel w (tx_ID t) (coord d))) d), internalErr)
  else match WaitResult_woken (tx_ID t) (coord d) with
       | Ok res => (d, Continues (Executing m (Finalizing dec t res)))
       | Err _ => (d, Continues (Executing m (WaitingFor dec t w)))
       end.

(** The last section. A wait that succeeds returns a result, so the handler's
    test for an error without a result never holds. *)
Definition execute_finish (m : mode) (o : io) (dec : Decision) (t : Transaction) (res : Command.Result)
    (d : daemon) : daemon * progress :=
  (set_locked m false (finalizeResult o (tx_ID t) res d), ok (execute_reply dec t res)).

Definition diagnoseExecute (payload : bytes) (d : daemon) : daemon * progress :=
  execute_check Diagnosing payload d.

Definition unsafeShellExecute (payload : bytes) (d : daemon) : daemon * progress :=
  execute_check UnsafeShell payload d.

(** A handler from one of its cuts to the next. [e] and [cancelled] are what
    this part of it meets. *)
Definition advance (e : env) (cancelled : bool) (f : flight) (d : daemon) : daemon * progress :=
  match f with
  | Approving t [] => (d, ok (RTransaction t))
  | Approving t (s :: todo) =>
      let '(d, more) := run_section (ios e) s d in (d, Continues (Approving t (more ++ todo)))
  | Executing m (Checked dec p) => execute_start m e dec p d
  | Executing m (Recording dec t []) => (d, Continues (Executing m (Registering dec t)))
  | Executing m (Recording dec t (s :: todo)) =>
      let '(d, more) := run_section (ios e) s d in
      (d, Continues (Executing m (Recording dec t (more ++ todo))))
  | Executing m (Registering dec t) => execute_register m e dec t d
  | Executing m (WaitingFor dec t w) => execute_wait m cancelled dec t w d
  | Executing m (Finalizing dec t res) => execute_finish m (ios e) dec t res d
  end.

(** ** Routing *)

Definition Dispatch (role : Role) (req : Request) (e : env) (d : daemon) : daemon * progress :=
  let op := Operation req in
  let payload := Payload req in
  if String.eqb op OpPortsList then portsList e d
  else if String.eqb op OpSessionStart then sessionStart role e payload d
  else if String.eqb op OpSessionStatus then sessionStatus d
  else if String.eqb op OpSessionEnd then sessionEnd e d
  else if String.eqb op OpOutputRead then outputRead payload d
  else if String.eqb op OpDiagnoseExecute then diagnoseExecute payload d
  else if String.eqb op OpUnsafeShellExecute then unsafeShellExecute payload d
  else if String.eqb op OpCommandPropose then commandPropose e payload d
  else if String.eqb op OpCommandList then commandList payload d
  else if String.eqb op OpRecordsExport then recordsExport_ e payload d
  else if String.eqb op OpCommandApprove then commandApprove e payload d
  else if String.eqb op OpCommandReject then commandReject payload d
  else if String.eqb op OpCommandEdit then commandEdit e payload d
  else if String.eqb op OpTransportWrite then transportWrite e payload d
  else if String.eqb op OpRetryUART then retryUART e d
  else if String.eqb op OpRetrySSH then retrySSH e d
  else if String.eqb op OpRetryTelnet then retryTelnet e d
  else if String.eqb op OpTakeover then takeover e d
  else if String.eqb op OpSecretBegin then secretBegin e d
  else if String.eqb op OpSecretDone then secretDone d
  else (d, Answered (Err ErrCodeUnknownOperation)).

(** [Shutdown], before the cancelled waits return. *)
Definition Shutdown (now : Z) (d : daemon) : daemon := set_coord (Stop now (coord d)) d.

End Handlers.
