(* ===== verification/Payload.v ===== *)
(** * Payloads (src/cmd/gatewayd/dispatcher.go, src/internal/cli/control.go)

    The payload structs of the dispatcher as fields of JSON, which makes
    [json.Unmarshal] into them an instance of the dispatcher's decoders; and
    the round trip with the payloads the control client sends. *)

From S2P Require Import Prelude GoStd Json JsonStrings JsonTexts Ipc Wire Client Dispatcher.

(** ** The structs *)

Definition sessionStartFields : fields sessionStartPayload :=
  [("board", field into_string sp_Board (fun x p =>
      {| sp_Board := x; sp_Transport := sp_Transport p; sp_SSHPassword := sp_SSHPassword p;
         sp_SSHKeyPassphrases := sp_SSHKeyPassphrases p; sp_SSHAcceptHost := sp_SSHAcceptHost p |}));
   ("transport", field into_string sp_Transport (fun x p =>
      {| sp_Board := sp_Board p; sp_Transport := x; sp_SSHPassword := sp_SSHPassword p;
         sp_SSHKeyPassphrases := sp_SSHKeyPassphrases p; sp_SSHAcceptHost := sp_SSHAcceptHost p |}));
   ("ssh_password", field into_string sp_SSHPassword (fun x p =>
      {| sp_Board := sp_Board p; sp_Transport := sp_Transport p; sp_SSHPassword := x;
         sp_SSHKeyPassphrases := sp_SSHKeyPassphrases p; sp_SSHAcceptHost := sp_SSHAcceptHost p |}));
   ("ssh_key_passphrases", field (into_map into_string "") sp_SSHKeyPassphrases (fun x p =>
      {| sp_Board := sp_Board p; sp_Transport := sp_Transport p; sp_SSHPassword := sp_SSHPassword p;
         sp_SSHKeyPassphrases := x; sp_SSHAcceptHost := sp_SSHAcceptHost p |}));
   ("ssh_accept_host", field into_bool sp_SSHAcceptHost (fun x p =>
      {| sp_Board := sp_Board p; sp_Transport := sp_Transport p; sp_SSHPassword := sp_SSHPassword p;
         sp_SSHKeyPassphrases := sp_SSHKeyPassphrases p; sp_SSHAcceptHost := x |}))]%string.

Definition zeroStart : sessionStartPayload :=
  {| sp_Board := ""; sp_Transport := ""; sp_SSHPassword := ""; sp_SSHKeyPassphrases := [];
     sp_SSHAcceptHost := false |}.

Definition outputReadFields : fields outputReadPayload :=
  [("after", field into_uint rp_After (fun x p => {| rp_After := x; rp_Max := rp_Max p |}));
   ("max", field into_int rp_Max (fun x p => {| rp_After := rp_After p; rp_Max := x |}))]%string.

Definition executeFields : fields executePayload :=
  [("session_id", field into_string xp_SessionID (fun x p =>
      {| xp_SessionID := x; xp_Text := xp_Text p; xp_Purpose := xp_Purpose p; xp_TimeoutMS := xp_TimeoutMS p |}));
   ("text", field into_string xp_Text (fun x p =>
      {| xp_SessionID := xp_SessionID p; xp_Text := x; xp_Purpose := xp_Purpose p; xp_TimeoutMS := xp_TimeoutMS p |}));
   ("purpose", field into_string xp_Purpose (fun x p =>
      {| xp_SessionID := xp_SessionID p; xp_Text := xp_Text p; xp_Purpose := x; xp_TimeoutMS := xp_TimeoutMS p |}));
   ("timeout_ms", field into_int xp_TimeoutMS (fun x p =>
      {| xp_SessionID := xp_SessionID p; xp_Text := xp_Text p; xp_Purpose := xp_Purpose p; xp_TimeoutMS := x |}))]%string.

Definition commandProposeFields : fields commandProposePayload :=
  [("session_id", field into_string pp_SessionID (fun x p =>
      {| pp_SessionID := x; pp_Text := pp_Text p; pp_Purpose := pp_Purpose p; pp_TimeoutMS := pp_TimeoutMS p |}));
   ("text", field into_string pp_Text (fun x p =>
      {| pp_SessionID := pp_SessionID p; pp_Text := x; pp_Purpose := pp_Purpose p; pp_TimeoutMS := pp_TimeoutMS p |}));
   ("purpose", field into_string pp_Purpose (fun x p =>
      {| pp_SessionID := pp_SessionID p; pp_Text := pp_Text p; pp_Purpose := x; pp_TimeoutMS := pp_TimeoutMS p |}));
   ("timeout_ms", field into_int pp_TimeoutMS (fun x p =>
      {| pp_SessionID := pp_SessionID p; pp_Text := pp_Text p; pp_Purpose := pp_Purpose p; pp_TimeoutMS := x |}))]%string.

Definition commandListFields : fields commandListPayload :=
  [("session_id"%string, field into_string lp_SessionID (fun x _ => {| lp_SessionID := x |}))].

Definition commandIDFields : fields commandIDPayload :=
  [("proposal_id"%string, field into_string ip_ProposalID (fun x _ => {| ip_ProposalID := x |}))].

Definition commandApproveFields : fields commandApprovePayload :=
  [("proposal_id", field into_string ap_ProposalID (fun x p =>
      {| ap_ProposalID := x; ap_Confirmation := ap_Confirmation p |}));
   ("confirmation", field into_string ap_Confirmation (fun x p =>
      {| ap_ProposalID := ap_ProposalID p; ap_Confirmation := x |}))]%string.

Definition commandEditFields : fields commandEditPayload :=
  [("proposal_id", field into_string ep_ProposalID (fun x p =>
      {| ep_ProposalID := x; ep_Text := ep_Text p; ep_Purpose := ep_Purpose p |}));
   ("text", field into_string ep_Text (fun x p =>
      {| ep_ProposalID := ep_ProposalID p; ep_Text := x; ep_Purpose := ep_Purpose p |}));
   ("purpose", field into_string ep_Purpose (fun x p =>
      {| ep_ProposalID := ep_ProposalID p; ep_Text := ep_Text p; ep_Purpose := x |}))]%string.

Definition transportWriteFields : fields transportWritePayload :=
  [("data"%string, field into_bytes wp_Data (fun x _ => {| wp_Data := x |}))].

Definition recordsExportFields : fields recordsExportPayload :=
  [("after_transcript", field into_uint xp_AfterTranscript (fun x p =>
      {| xp_AfterTranscript := x; xp_AfterAudit := xp_AfterAudit p |}));
   ("after_audit", field into_uint xp_AfterAudit (fun x p =>
      {| xp_AfterTranscript := xp_AfterTranscript p; xp_AfterAudit := x |}))]%string.

(** [json.Unmarshal] into each of them. *)
#[export] Instance json_decoders : Decoders := {
  dec_start := Unmarshal_into (into_struct sessionStartFields) zeroStart;
  dec_read := Unmarshal_into (into_struct outputReadFields) {| rp_After := 0; rp_Max := 0 |};
  dec_execute := Unmarshal_into (into_struct executeFields)
    {| xp_SessionID := ""; xp_Text := ""; xp_Purpose := ""; xp_TimeoutMS := 0 |};
  dec_propose := Unmarshal_into (into_struct commandProposeFields)
    {| pp_SessionID := ""; pp_Text := ""; pp_Purpose := ""; pp_TimeoutMS := 0 |};
  dec_list := Unmarshal_into (into_struct commandListFields) {| lp_SessionID := "" |};
  dec_id := Unmarshal_into (into_struct commandIDFields) {| ip_ProposalID := "" |};
  dec_approve := Unmarshal_into (into_struct commandApproveFields) {| ap_ProposalID := ""; ap_Confirmation := "" |};
  dec_edit := Unmarshal_into (into_struct commandEditFields) {| ep_ProposalID := ""; ep_Text := ""; ep_Purpose := "" |};
  dec_write := Unmarshal_into (into_struct transportWriteFields) {| wp_Data := [] |};
  dec_export := Unmarshal_into (into_struct recordsExportFields) {| xp_AfterTranscript := 0; xp_AfterAudit := 0 |}
}.

(** The payload of an operation as it is sent. *)
Definition payload_of (op : operation) : bytes := default [] (snd op).

(** ** Lemmas *)

Lemma insert_key_map {A B} (f : A -> B) m ms :
  insert_key (prod_map id f m) (prod_map id f <$> ms) = prod_map id f <$> insert_key m ms.
Proof.
  induction ms as [|m2 ms IH]; [done|]. rewrite fmap_cons. cbn [insert_key].
  change (fst (prod_map id f m)) with (fst m). change (fst (prod_map id f m2)) with (fst m2).
  destruct (String.leb _ _); [done|]. by rewrite IH.
Qed.

Lemma sort_keys_map {A B} (f : A -> B) ms :
  sort_keys (prod_map id f <$> ms) = prod_map id f <$> sort_keys ms.
Proof. induction ms as [|m ms IH]; [done|]. cbn. rewrite <-insert_key_map. by f_equal. Qed.

Lemma insert_key_Forall {A} (P : string * A -> Prop) m ms : P m -> Forall P ms -> Forall P (insert_key m ms).
Proof.
  intros Hm. induction 1 as [|m2 ms H2 Hms IH]; cbn [insert_key]; [by apply Forall_singleton|].
  destruct (String.leb _ _); repeat constructor; done.
Qed.

Lemma sort_keys_Forall {A} (P : string * A -> Prop) ms : Forall P ms -> Forall P (sort_keys ms).
Proof. induction 1 as [|m ms Hm _ IH]; [constructor|]. by apply insert_key_Forall. Qed.

(** Decoding a marshalled map of members. *)
Lemma Unmarshal_map {R} (fs : fields R) zero n ms :
  (1 <= n)%nat -> (n < max_depth)%nat ->
  Forall (fun m => json_text n (snd m) /\ is_ascii (fst m) = true) ms ->
  Unmarshal_into (into_struct fs) zero (json_map ms) = apply_members fs (sort_keys ms) zero.
Proof.
  intros H1 Hn Hms. apply sort_keys_Forall in Hms. apply Forall_and in Hms as [Ht Hk].
  by apply (Unmarshal_object _ _ n).
Qed.

Lemma decode_strings (xs : list (string * string)) :
  decode_pairs into_string "" (prod_map id json_string <$> xs) = Some (prod_map id sanitize <$> xs).
Proof.
  induction xs as [|[k v] xs IH]; [done|]. cbn [fmap list_fmap decode_pairs].
  change (list_fmap ?A ?B ?f ?l) with (f <$> l). cbn [prod_map fst snd id]. rewrite into_string_json.
  cbn [mbind option_bind]. rewrite IH. done.
Qed.

Lemma passphrases_text xs : json_text 2 (json_map (prod_map id json_string <$> xs)).
Proof.
  apply (text_object 1); auto using ws_nil. apply sort_keys_Forall, Forall_fmap, Forall_forall.
  intros [k v] _. apply text_string.
Qed.

Lemma into_passphrases xs old :
  into_map into_string "" (json_map (prod_map id json_string <$> xs)) old =
  Some (old ++ (prod_map sanitize sanitize <$> sort_keys xs)).
Proof.
  unfold into_map, json_map, json_object. rewrite object_not_null, (members_print 1); auto using ws_nil.
  - cbn [mbind option_bind]. rewrite sort_keys_map.
    replace (sanitize_key <$> (prod_map id json_string <$> sort_keys xs))
      with (prod_map id json_string <$> (prod_map sanitize id <$> sort_keys xs))
      by (rewrite <-!list_fmap_compose; by apply list_fmap_ext).
    rewrite decode_strings. cbn [mbind option_bind]. by rewrite <-list_fmap_compose.
  - apply depth_ok. lia.
  - apply sort_keys_Forall, Forall_fmap, Forall_forall. intros [k v] _. apply text_string.
Qed.

Lemma field_passphrases {R} (get : R -> list (string * string)) put xs r :
  field (into_map into_string "") get put (json_map (prod_map id json_string <$> xs)) r =
  Some (put (get r ++ (prod_map sanitize sanitize <$> sort_keys xs)) r).
Proof. unfold field. by rewrite into_passphrases. Qed.

#[local] Hint Resolve text_string text_int text_bool : gw.

(** Discharge the members of a literal payload and run the fields. *)
Ltac order_keys :=
  unfold sort_keys; cbn [foldr insert_key fst snd];
  repeat match goal with
  | |- context [String.leb ?a ?b] =>
      let v := eval vm_compute in (String.leb a b) in change (String.leb a b) with v; cbn [insert_key fst snd]
  end.

Ltac show_fields :=
  cbn -[field json_string json_map json_bool dec_Z sanitize into_string into_int into_uint into_bool
        into_map into_bytes base64].

Ltac run_fields :=
  order_keys;
  repeat (show_fields;
          first [rewrite field_string | rewrite field_bool | rewrite field_int by done
                | rewrite field_uint by done | rewrite field_passphrases]);
  show_fields.

(** Turn the call into a decoded object. *)
Ltac open_payload :=
  cbv beta iota delta [dec_start dec_read dec_execute dec_propose dec_list dec_id dec_approve dec_edit
    dec_write dec_export json_decoders payload_of default snd SessionStartWithOptions OutputRead
    DiagnoseExecute UnsafeShellExecute MarshalExecute CommandPropose CommandList RecordsExport
    CommandApproveWithConfirmation CommandReject CommandEdit TransportWrite from_option];
  try change (id (json_map ?x)) with (json_map x); try change (id (json_object ?x)) with (json_object x).

Ltac run_payload :=
  open_payload;
  first [rewrite (Unmarshal_map _ _ 1) | rewrite (Unmarshal_object _ _ 1)];
  [run_fields; try done | lia | unfold max_depth; lia | 
   repeat (apply Forall_cons_2; [cbn [fst snd]; first [by auto with gw | split; [by auto with gw|done] | done]|]);
   apply Forall_nil_2..].

Lemma start_roundtrip board o :
  dec_start (payload_of (SessionStartWithOptions board o)) =
  Some {| sp_Board := sanitize board; sp_Transport := sanitize (opt_Transport o);
          sp_SSHPassword := sanitize (opt_SSHPassword o);
          sp_SSHKeyPassphrases := prod_map sanitize sanitize <$> sort_keys (opt_SSHKeyPassphrases o);
          sp_SSHAcceptHost := opt_SSHAcceptHost o |}.
Proof.
  open_payload. destruct o as [tr pw keys accept]. cbn [opt_Transport opt_SSHPassword opt_SSHKeyPassphrases opt_SSHAcceptHost].
  assert (Hk : (keys = [] /\ bool_decide (keys = []) = true) \/ bool_decide (keys = []) = false).
  { destruct keys; [left|right]; [done|by apply bool_decide_eq_false]. }
  rewrite (Unmarshal_map _ _ 2); [|lia|unfold max_depth; lia|].
  - destruct (String.eqb tr "") eqn:Ht; destruct (String.eqb pw "") eqn:Hp; bools; subst;
      (destruct Hk as [[-> ->] | ->]); destruct accept; cbn [negb when app]; run_fields; done.
  - rewrite !Forall_app. split_and!; try (unfold when; case_match; [|constructor]); apply Forall_singleton;
      cbn [fst snd]; (split; [|done]); try apply passphrases_text; eapply text_mono;
      try apply text_string; try apply text_bool; lia.
Qed.

Lemma execute_roundtrip r : - 2 ^ 63 <= ex_TimeoutMS r < 2 ^ 63 ->
  dec_execute (MarshalExecute r) =
  Some {| xp_SessionID := sanitize (ex_SessionID r); xp_Text := sanitize (ex_Text r);
          xp_Purpose := sanitize (ex_Purpose r); xp_TimeoutMS := ex_TimeoutMS r |}.
Proof. intros Hr. run_payload. Qed.

(** *** Every payload is one line of JSON *)

Definition plain (m : string * bytes) : Prop := json_text 2 (snd m) /\ line_feed ∉ snd m.

Lemma plain_string k s : plain (k, json_string s).
Proof. split; [apply (text_mono 1); [lia|apply text_string]|apply json_string_no_line]. Qed.

Lemma plain_int k z : plain (k, dec_Z z).
Proof. split; [apply (text_mono 1); [lia|apply text_int]|apply dec_Z_no_line]. Qed.

Lemma plain_bool k b : plain (k, json_bool b).
Proof.
  split; [apply (text_mono 1); [lia|apply text_bool]|]. destruct b; by apply (bool_decide_unpack (_ ∉ _)).
Qed.

Lemma plain_passphrases k xs : plain (k, json_map (prod_map id json_string <$> xs)).
Proof.
  split; [apply passphrases_text|]. apply json_object_no_line, sort_keys_Forall, Forall_fmap, Forall_forall.
  intros [k' v] _. apply json_string_no_line.
Qed.

Lemma plain_object ms : Forall plain ms -> marshalled (json_object ms).
Proof.
  intros Hms. apply Forall_and in Hms as [Ht Hl]. right. split; [|by apply json_object_no_line].
  apply (text_mono 3); [lia|]. apply (text_object 2); auto using ws_nil.
Qed.

Lemma plain_map ms : Forall plain ms -> marshalled (json_map ms).
Proof. intros Hms. by apply plain_object, sort_keys_Forall. Qed.

Lemma plain_when b m : plain m -> Forall plain (when b m).
Proof. intros Hm. destruct b; [by apply Forall_singleton|constructor]. Qed.

#[export] Hint Resolve plain_string plain_int plain_bool plain_passphrases plain_when : gw.

Ltac plain_members := repeat (apply Forall_cons_2; [by auto with gw|]); apply Forall_nil_2.

Lemma start_marshalled board o : marshalled (payload_of (SessionStartWithOptions board o)).
Proof. apply plain_map. rewrite !Forall_app. split_and!; auto with gw. Qed.

Lemma execute_marshalled r : marshalled (MarshalExecute r).
Proof. apply plain_object. plain_members. Qed.

Lemma read_marshalled after max : marshalled (payload_of (OutputRead after max)).
Proof. apply plain_map. plain_members. Qed.

Lemma propose_marshalled sid text purpose ms : marshalled (payload_of (CommandPropose sid text purpose ms)).
Proof. apply plain_map. plain_members. Qed.

Lemma approve_marshalled id c : marshalled (payload_of (CommandApproveWithConfirmation id c)).
Proof. apply plain_map. plain_members. Qed.

Lemma export_marshalled t a : marshalled (payload_of (RecordsExport t a)).
Proof. apply plain_map. plain_members. Qed.

Lemma nothing_marshalled : marshalled [].
Proof. by left. Qed.

#[export] Hint Resolve start_marshalled execute_marshalled read_marshalled propose_marshalled
  approve_marshalled export_marshalled nothing_marshalled : gw.

(** ** Properties *)

(** C22. Every payload the control client sends is decoded by the dispatcher
    into exactly the arguments of the call: texts as valid UTF-8 (a text that
    is valid already does not change), integers of their type's range and raw
    bytes unchanged; an omitted field is its zero value; the passphrases are
    the same entries in key order. *)
Theorem payloads_roundtrip :
  (forall board o, dec_start (payload_of (SessionStartWithOptions board o)) =
     Some {| sp_Board := sanitize board; sp_Transport := sanitize (opt_Transport o);
             sp_SSHPassword := sanitize (opt_SSHPassword o);
             sp_SSHKeyPassphrases := prod_map sanitize sanitize <$> sort_keys (opt_SSHKeyPassphrases o);
             sp_SSHAcceptHost := opt_SSHAcceptHost o |}) /\
  (forall after max, 0 <= after < 2 ^ 64 -> - 2 ^ 63 <= max < 2 ^ 63 ->
     dec_read (payload_of (OutputRead after max)) = Some {| rp_After := after; rp_Max := max |}) /\
  (forall r, - 2 ^ 63 <= ex_TimeoutMS r < 2 ^ 63 ->
     let p := {| xp_SessionID := sanitize (ex_SessionID r); xp_Text := sanitize (ex_Text r);
                 xp_Purpose := sanitize (ex_Purpose r); xp_TimeoutMS := ex_TimeoutMS r |} in
     dec_execute (payload_of (DiagnoseExecute r)) = Some p /\
     dec_execute (payload_of (UnsafeShellExecute r)) = Some p) /\
  (forall sid text purpose ms, - 2 ^ 63 <= ms < 2 ^ 63 ->
     dec_propose (payload_of (CommandPropose sid text purpose ms)) =
     Some {| pp_SessionID := sanitize sid; pp_Text := sanitize text; pp_Purpose := sanitize purpose;
             pp_TimeoutMS := ms |}) /\
  (forall sid, dec_list (payload_of (CommandList sid)) = Some {| lp_SessionID := sanitize sid |}) /\
  (forall t a, 0 <= t < 2 ^ 64 -> 0 <= a < 2 ^ 64 ->
     dec_export (payload_of (RecordsExport t a)) = Some {| xp_AfterTranscript := t; xp_AfterAudit := a |}) /\
  (forall id c, dec_approve (payload_of (CommandApproveWithConfirmation id c)) =
     Some {| ap_ProposalID := sanitize id; ap_Confirmation := sanitize c |}) /\
  (forall id, dec_id (payload_of (CommandReject id)) = Some {| ip_ProposalID := sanitize id |}) /\
  (forall id text purpose, dec_edit (payload_of (CommandEdit id text purpose)) =
     Some {| ep_ProposalID := sanitize id; ep_Text := sanitize text; ep_Purpose := sanitize purpose |}) /\
  (forall data, dec_write (payload_of (TransportWrite data)) = Some {| wp_Data := data |}).
Proof.
  split_and!.
  - apply start_roundtrip.
  - intros after max Ha Hm. run_payload.
  - intros r Hr p. split; by apply execute_roundtrip.
  - intros sid text purpose ms Hms. run_payload.
  - intros sid. run_payload.
  - intros t a Ht Ha. run_payload.
  - intros id c. run_payload.
  - intros id. run_payload.
  - intros id text purpose. run_payload.
  - intros data. run_payload. unfold field. by rewrite into_bytes_json.
Qed.

(** *** Witness *)

Lemma payloads_roundtrip_witness :
  dec_propose (payload_of (CommandPropose "s1" "ls -l" "look" 1000)) =
  Some {| pp_SessionID := "s1"; pp_Text := "ls -l"; pp_Purpose := "look"; pp_TimeoutMS := 1000 |}.
Proof.
  destruct payloads_roundtrip as (_ & _ & _ & H & _).
  exact (H "s1"%string "ls -l"%string "look"%string 1000 ltac:(lia)).
Defined.
