(* ===== verification/Durable.v ===== *)
(** * Files on disk (src/internal/core/framing/framing.go, audit/store.go,
    transcript/store.go, src/cmd/gatewayd/openset.go)

    The durable stores as the bytes of their files: appending and reading lines
    of JSON, the two kinds of record, writes that are cut short, and the open
    set through its temporary file. Records.v and OpenSet.v describe the same
    stores by what their files decode to; the theorems say how far that holds. *)

From S2P Require Import Prelude GoStd Json JsonStrings JsonTexts JsonPrefix Clock Wire Client Store Records OpenSet Payload.

(** ** Lines of JSON *)

(** A value that is stored: how it is marshalled, which may fail, and how it is
    decoded over a zero value. *)
Class Stored (T : Type) := {
  to_json : T -> option bytes;
  of_json : decoder T;
  zero_value : T
}.

(** What is assumed of it, and proved of both kinds of record: a value that can
    be stored is one object on one line, decoded to what is [seen] of it. *)
Class StoredLaws (T : Type) `{Stored T} := {
  storable : T -> Prop;
  seen : T -> T;
  stored_back r : storable r -> exists v, to_json r = Some v /\ json_text 3 v /\ head v = Some "{"%char /\
    line_feed ∉ v /\ of_json v zero_value = Some (seen r)
}.

(** How an append meets the file system: whether the file opens, and where the
    one write of the line is cut, by an error or a crash. *)
Record append_io := { can_open : bool; cut_at : option nat }.

Section Framing.
Context {T : Type} `{Stored T}.

Definition encode_line (v : bytes) : bytes := v ++ [line_feed].

(** [AppendJSONL]: the file and whether the call succeeded. Opening creates the
    file; a value that cannot be marshalled writes nothing. *)
Definition AppendJSONL (io : append_io) (v : T) (file : option bytes) : option bytes * bool :=
  if negb (can_open io) then (file, false)
  else
    let old := default [] file in
    match to_json v, cut_at io with
    | None, _ => (Some old, false)
    | Some line, None => (Some (old ++ encode_line line), true)
    | Some line, Some n => (Some (old ++ take n (encode_line line)), false)
    end.

(** The loop over [dec.More] and [dec.Decode]: a closing bracket between values
    ends it like the end of the file. *)
Fixpoint decode_stream (fuel : nat) (s : bytes) : option (list T) :=
  match fuel with
  | O => None
  | S fuel =>
      let s := skip_ws s in
      match s with
      | [] => Some []
      | c :: _ =>
          if Ascii.eqb c "]" || Ascii.eqb c "}" then Some []
          else
            r ← skip_value max_depth s;
            x ← of_json (read_part s r) zero_value;
            xs ← decode_stream fuel r;
            Some (x :: xs)
      end
  end.

(** [ReadAllJSONL]: a missing file is empty. *)
Definition ReadAllJSONL (can_read : bool) (file : option bytes) : option (list T) :=
  match file with
  | None => Some []
  | Some s => if can_read then decode_stream (S (length s)) s else None
  end.

(** ** What a file holds *)

(** The file holds these values in order, each line with its line feed or, when
    its write was cut right before it, without. *)
Definition holds (file : option bytes) (rs : list T) : Prop :=
  exists lines : list (bytes * bool),
    Forall2 (fun r (l : bytes * bool) => to_json r = Some (fst l)) rs lines /\
    default [] file = concat ((fun l : bytes * bool => fst l ++ if snd l then [line_feed] else []) <$> lines).

Lemma holds_empty file : default [] file = [] -> holds file [].
Proof. intros H0. exists []. by rewrite H0. Qed.

Lemma holds_app file rs r v (b : bool) :
  holds file rs -> to_json r = Some v ->
  holds (Some (default [] file ++ v ++ if b then [line_feed] else [])) (rs ++ [r]).
Proof.
  intros (lines & Hl & Hf) Hv. exists (lines ++ [(v, b)]). split.
  - apply Forall2_app; [done|]. by repeat constructor.
  - cbn. rewrite Hf, fmap_app, concat_app. cbn. by rewrite app_nil_r.
Qed.

Context `{!StoredLaws T}.

Lemma decode_value fuel r v s :
  storable r -> to_json r = Some v ->
  decode_stream (S fuel) (v ++ s) =
  match decode_stream fuel s with Some xs => Some (seen r :: xs) | None => None end.
Proof.
  intros Hr Hv. destruct (stored_back r Hr) as (v' & Hv' & Ht & Hh & _ & Hd). rewrite Hv in Hv'. injection Hv' as <-.
  assert (Hskip : skip_value max_depth (v ++ s) = Some s).
  { assert (Hdel : delimited v) by (destruct v; [done|]; injection Hh as ->; right; by left).
    assert (H0 : skip_value max_depth v = Some []).
    { destruct Ht as (_ & _ & Ht). specialize (Ht max_depth [] ltac:(apply depth_ok; lia) I). by rewrite app_nil_r in Ht. }
    by apply (skip_value_ext _ _ _ s) in H0; [|right]. }
  cbn [decode_stream]. rewrite (skip_ws_text 3) by done. rewrite Hskip. cbn [mbind option_bind].
  rewrite read_part_app, Hd. destruct v as [|c v]; [done|]. injection Hh as ->. cbn [app].
  change (Ascii.eqb "{" "]" || Ascii.eqb "{" "}") with false. cbn match. by destruct (decode_stream fuel s).
Qed.

Lemma decode_line_feed fuel s : decode_stream fuel (line_feed :: s) = decode_stream fuel s.
Proof. by destruct fuel. Qed.

(** The lines up to some rest, which decides. *)
Lemma decode_lines rs file rest fuel :
  holds file rs -> Forall storable rs -> (length rs <= fuel)%nat ->
  decode_stream fuel (default [] file ++ rest) =
  match decode_stream (fuel - length rs) rest with Some xs => Some ((seen <$> rs) ++ xs) | None => None end.
Proof.
  intros (lines & Hl & ->) Hs. revert fuel. induction Hl as [|r [v b] rs lines Hv Hl IH]; intros fuel Hf.
  { cbn. rewrite Nat.sub_0_r. by destruct (decode_stream fuel rest). }
  apply Forall_cons in Hs as [Hr Hs]. destruct fuel as [|fuel]; [cbn in Hf; lia|]. cbn in Hf.
  cbn [fmap list_fmap concat fst snd length Nat.sub]. rewrite <-!app_assoc. rewrite (decode_value _ r v) by done.
  assert (Hb : forall t, decode_stream fuel ((if b then [line_feed] else []) ++ t) = decode_stream fuel t).
  { intros t. destruct b; [apply decode_line_feed|done]. }
  rewrite Hb, IH by (done || lia). by destruct (decode_stream (fuel - length rs) rest).
Qed.

Lemma holds_length file rs : holds file rs -> Forall storable rs -> (length rs <= length (default [] file))%nat.
Proof.
  intros (lines & Hl & ->) Hs. induction Hl as [|r [v b] rs lines Hv Hl IH]; [cbn; lia|].
  apply Forall_cons in Hs as [Hr Hs]. specialize (IH Hs). cbn. rewrite !length_app.
  destruct (stored_back r Hr) as (v' & Hv' & _ & Hh & _). cbn in Hv. rewrite Hv in Hv'. injection Hv' as <-.
  destruct v; [done|]. cbn in *. lia.
Qed.

(** Reading returns what the file holds. *)
Lemma reads_back file rs :
  holds file rs -> Forall storable rs -> ReadAllJSONL true file = Some (seen <$> rs).
Proof.
  intros Hh Hs. pose proof (holds_length _ _ Hh Hs) as Hl. destruct file as [s|]; cbn in Hl.
  - pose proof (decode_lines rs (Some s) [] (S (length s)) Hh Hs ltac:(lia)) as E. change (default [] (Some s)) with s in E.
    rewrite app_nil_r in E. unfold ReadAllJSONL. rewrite E.
    replace (decode_stream (S (length s) - length rs) []) with (Some (@nil T)); [by rewrite app_nil_r|].
    destruct (S (length s) - length rs)%nat eqn:Ef; [lia|done].
  - by destruct rs; [|cbn in Hl; lia].
Qed.

(** A record of which only a part was written makes the file unreadable. *)
Lemma torn_line file rs r v n :
  holds file rs -> Forall storable rs -> storable r -> to_json r = Some v -> (0 < n < length v)%nat ->
  ReadAllJSONL true (Some (default [] file ++ take n v)) = None.
Proof.
  intros Hh Hs Hr Hv Hn. pose proof (holds_length _ _ Hh Hs) as Hl. cbn [ReadAllJSONL].
  rewrite (decode_lines rs) by (try done; rewrite length_app; lia).
  destruct (stored_back r Hr) as (v' & Hv' & Ht & Hhead & _). rewrite Hv in Hv'. injection Hv' as <-.
  destruct (S (length (default [] file ++ take n v)) - length rs)%nat as [|fuel] eqn:E; [rewrite length_app in E; lia|].
  assert (Hcut : skip_value max_depth (take n v) = None).
  { apply (cut_value 3); [done| |apply depth_ok; lia|lia]. destruct v; [done|]. injection Hhead as ->. right. by left. }
  destruct v as [|c v]; [done|]. injection Hhead as ->. destruct n as [|n]; [lia|]. cbn [take] in *.
  cbn [decode_stream]. change (skip_ws ("{"%char :: take n v)) with ("{"%char :: take n v). cbn match.
  change (Ascii.eqb "{" "]" || Ascii.eqb "{" "}") with false. cbn match. by rewrite Hcut.
Qed.

End Framing.
