(* ===== verification/RecordFiles.v ===== *)
(** * The record files (src/internal/core/audit/store.go, transcript/store.go,
    and records.export of src/cmd/gatewayd/dispatcher.go)

    The two kinds of record as JSON, the writers over the bytes of their files,
    and the export. The refinement theorem says that Records.v, whose files are
    lists of records, describes them; the theorem on cut writes says where it
    stops. *)

From S2P Require Import Prelude GoStd Json JsonStrings JsonTexts JsonPrefix Clock Wire Payload Records Durable.

(** ** Records as JSON *)

(** Times are kept as instants: the zone a text names is not looked at. *)
Definition into_instant : decoder Z := fun v old =>
  t ← into_time v {| instant := old; offset := 0 |}; Some (instant t).

Definition auditFields : fields Audit.Record_ :=
  let set b s t n ts k d := {| Audit.Board := b; Audit.Session := s; Audit.Transport := t; Audit.Seq := n;
                               Audit.Timestamp := ts; Audit.Kind := k; Audit.Detail := d |} in
  let put f r := f (Audit.Board r) (Audit.Session r) (Audit.Transport r) (Audit.Seq r) (Audit.Timestamp r)
                   (Audit.Kind r) (Audit.Detail r) in
  [("board", field into_string Audit.Board (fun x => put (fun _ => set x)));
   ("session", field into_string Audit.Session (fun x => put (fun b _ => set b x)));
   ("transport", field into_string Audit.Transport (fun x => put (fun b s _ => set b s x)));
   ("seq", field into_uint Audit.Seq (fun x => put (fun b s t _ => set b s t x)));
   ("timestamp", field into_instant Audit.Timestamp (fun x => put (fun b s t n _ => set b s t n x)));
   ("kind", field into_string Audit.Kind (fun x => put (fun b s t n ts _ => set b s t n ts x)));
   ("detail", field into_string Audit.Detail (fun x => put (fun b s t n ts k _ => set b s t n ts k x)))]%string.

Definition transcriptFields : fields Transcript.Record_ :=
  let set b s t n ts d o r x := {| Transcript.Board := b; Transcript.Session := s; Transcript.Transport := t;
                                   Transcript.Seq := n; Transcript.Timestamp := ts; Transcript.Direction := d;
                                   Transcript.Source := o; Transcript.Redacted := r; Transcript.Data := x |} in
  let put f r := f (Transcript.Board r) (Transcript.Session r) (Transcript.Transport r) (Transcript.Seq r)
                   (Transcript.Timestamp r) (Transcript.Direction r) (Transcript.Source r)
                   (Transcript.Redacted r) (Transcript.Data r) in
  [("board", field into_string Transcript.Board (fun x => put (fun _ => set x)));
   ("session", field into_string Transcript.Session (fun x => put (fun b _ => set b x)));
   ("transport", field into_string Transcript.Transport (fun x => put (fun b s _ => set b s x)));
   ("seq", field into_uint Transcript.Seq (fun x => put (fun b s t _ => set b s t x)));
   ("timestamp", field into_instant Transcript.Timestamp (fun x => put (fun b s t n _ => set b s t n x)));
   ("direction", field into_string Transcript.Direction (fun x => put (fun b s t n ts _ => set b s t n ts x)));
   ("source", field into_string Transcript.Source (fun x => put (fun b s t n ts d _ => set b s t n ts d x)));
   ("redacted", field into_bool Transcript.Redacted (fun x => put (fun b s t n ts d o _ => set b s t n ts d o x)));
   ("data", field into_bytes Transcript.Data (fun x => put (fun b s t n ts d o r _ => set b s t n ts d o r x)))]%string.

Section Json.
Context `{LocalZone}.

(** A time is written in the zone of the process; one that RFC 3339 cannot
    write fails the record. *)
Definition MarshalAudit (r : Audit.Record_) : option bytes :=
  ts ← MarshalTime (in_local (Audit.Timestamp r));
  Some (json_object [("board", json_string (Audit.Board r)); ("session", json_string (Audit.Session r));
                     ("transport", json_string (Audit.Transport r)); ("seq", dec_Z (Audit.Seq r));
                     ("timestamp", ts); ("kind", json_string (Audit.Kind r));
                     ("detail", json_string (Audit.Detail r))]%string).

(** The data is a slice that is not nil. *)
Definition MarshalTranscript (r : Transcript.Record_) : option bytes :=
  ts ← MarshalTime (in_local (Transcript.Timestamp r));
  Some (json_object [("board", json_string (Transcript.Board r)); ("session", json_string (Transcript.Session r));
                     ("transport", json_string (Transcript.Transport r)); ("seq", dec_Z (Transcript.Seq r));
                     ("timestamp", ts); ("direction", json_string (Transcript.Direction r));
                     ("source", json_string (Transcript.Source r)); ("redacted", json_bool (Transcript.Redacted r));
                     ("data", json_string (of_bytes (base64 (Transcript.Data r))))]%string).

#[export] Instance audit_stored : Stored Audit.Record_ := {
  to_json := MarshalAudit;
  of_json := into_struct auditFields;
  zero_value := {| Audit.Board := ""; Audit.Session := ""; Audit.Transport := ""; Audit.Seq := 0;
                   Audit.Timestamp := 0; Audit.Kind := ""; Audit.Detail := "" |}
}.

#[export] Instance transcript_stored : Stored Transcript.Record_ := {
  to_json := MarshalTranscript;
  of_json := into_struct transcriptFields;
  zero_value := {| Transcript.Board := ""; Transcript.Session := ""; Transcript.Transport := "";
                   Transcript.Seq := 0; Transcript.Timestamp := 0; Transcript.Direction := "";
                   Transcript.Source := ""; Transcript.Redacted := false; Transcript.Data := [] |}
}.

End Json.

(** *** The records as they are read back *)

Definition seen_audit (r : Audit.Record_) : Audit.Record_ :=
  {| Audit.Board := sanitize (Audit.Board r); Audit.Session := sanitize (Audit.Session r);
     Audit.Transport := sanitize (Audit.Transport r); Audit.Seq := Audit.Seq r;
     Audit.Timestamp := Audit.Timestamp r; Audit.Kind := sanitize (Audit.Kind r);
     Audit.Detail := sanitize (Audit.Detail r) |}.

Definition seen_transcript (r : Transcript.Record_) : Transcript.Record_ :=
  {| Transcript.Board := sanitize (Transcript.Board r); Transcript.Session := sanitize (Transcript.Session r);
     Transcript.Transport := sanitize (Transcript.Transport r); Transcript.Seq := Transcript.Seq r;
     Transcript.Timestamp := Transcript.Timestamp r; Transcript.Direction := sanitize (Transcript.Direction r);
     Transcript.Source := sanitize (Transcript.Source r); Transcript.Redacted := Transcript.Redacted r;
     Transcript.Data := Transcript.Data r |}.

Section Laws.
Context `{LocalZone}.

Lemma instant_back t : zone_ok t -> exists v, MarshalTime (in_local t) = Some v /\ json_text 1 v /\
  line_feed ∉ v /\ forall old, into_instant v old = Some t.
Proof.
  intros Hz. destruct (time_roundtrip (in_local t) {| instant := 0; offset := 0 |} Hz) as (v & Hm & Ht & Hl & _).
  exists v. split_and!; [done..|]. intros old. unfold into_instant.
  destruct (time_roundtrip (in_local t) {| instant := old; offset := 0 |} Hz) as (v' & Hm' & _ & _ & Hi).
  rewrite Hm in Hm'. injection Hm' as <-. by rewrite Hi.
Qed.

Lemma field_instant {R} (get : R -> Z) put v t r :
  (forall old, into_instant v old = Some t) -> field into_instant get put v r = Some (put t r).
Proof. unfold field. by intros ->. Qed.

Lemma field_data {R} (get : R -> bytes) put s r :
  field into_bytes get put (json_string (of_bytes (base64 s))) r = Some (put s r).
Proof. unfold field. by rewrite into_bytes_json. Qed.

(** What an object of short members on one line is, decoded. *)
Lemma object_back {R} (fs : fields R) ms zero r :
  ms <> [] -> Forall plain ms -> Forall (fun m => is_ascii (fst m) = true) ms -> apply_members fs ms zero = Some r ->
  json_text 3 (json_object ms) /\ head (json_object ms) = Some "{"%char /\ line_feed ∉ json_object ms /\
  into_struct fs (json_object ms) zero = Some r.
Proof.
  intros Hne Hms Hk Hr. apply Forall_and in Hms as Hms2. destruct Hms2 as [Ht Hl].
  split_and!; [apply (text_object 2); auto using ws_nil|by destruct ms|by apply json_object_no_line|].
  rewrite <-Hr. apply (struct_print fs 2); try apply ws_nil; [apply depth_ok; lia|done|done].
Qed.

End Laws.

Ltac run_record :=
  repeat (cbn -[field json_string json_bool dec_Z sanitize into_string into_bool into_uint into_instant into_bytes base64];
          first [rewrite field_string | rewrite field_bool | rewrite field_uint by done
                | rewrite field_data | erewrite field_instant by eassumption]);
  cbn -[sanitize].

Ltac record_back Hr :=
  destruct Hr as [Hseq Hz]; destruct (instant_back _ Hz) as (ts & Hm & Ht & Hl & Hi);
  eexists; split; [cbv [to_json audit_stored transcript_stored MarshalAudit MarshalTranscript]; rewrite Hm; reflexivity|];
  apply object_back; [done| |by repeat constructor|];
  [repeat (apply Forall_cons_2; [first [split; [by eapply text_mono, Ht; lia|done] | by auto with gw]|]); apply Forall_nil_2
  |run_record; reflexivity].

Section Instances.
Context `{LocalZone}.

#[export] Program Instance audit_laws : StoredLaws Audit.Record_ := {
  storable r := 0 <= Audit.Seq r < 2 ^ 64 /\ zone_ok (Audit.Timestamp r);
  seen := seen_audit
}.
Next Obligation. intros r Hr. record_back Hr. Qed.

#[export] Program Instance transcript_laws : StoredLaws Transcript.Record_ := {
  storable r := 0 <= Transcript.Seq r < 2 ^ 64 /\ zone_ok (Transcript.Timestamp r);
  seen := seen_transcript
}.
Next Obligation. intros r Hr. record_back Hr. Qed.

End Instances.

(** ** Writers *)

(** What [Append] sets of a record: its number, and the time if it has none. *)
Class Stamped (T : Type) := stamp : Z -> Z -> T -> T.

#[export] Instance audit_stamp : Stamped Audit.Record_ := fun n now rec =>
  {| Audit.Board := Audit.Board rec; Audit.Session := Audit.Session rec; Audit.Transport := Audit.Transport rec;
     Audit.Seq := n; Audit.Timestamp := if Audit.Timestamp rec =? 0 then now else Audit.Timestamp rec;
     Audit.Kind := Audit.Kind rec; Audit.Detail := Audit.Detail rec |}.

#[export] Instance transcript_stamp : Stamped Transcript.Record_ := fun n now rec =>
  {| Transcript.Board := Transcript.Board rec; Transcript.Session := Transcript.Session rec;
     Transcript.Transport := Transcript.Transport rec; Transcript.Seq := n;
     Transcript.Timestamp := if Transcript.Timestamp rec =? 0 then now else Transcript.Timestamp rec;
     Transcript.Direction := Transcript.Direction rec; Transcript.Source := Transcript.Source rec;
     Transcript.Redacted := Transcript.Redacted rec; Transcript.Data := Transcript.Data rec |}.

(** The counter in memory and the bytes of the file, if there is one. *)
Record FileWriter := { fw_seq : Z; fw_file : option bytes }.

Definition NewFileWriter (file : option bytes) : FileWriter := {| fw_seq := 0; fw_file := file |}.

Definition FileAppend {T} `{Stored T, Stamped T} (now : Z) (io : append_io) (rec : T) (w : FileWriter)
  : FileWriter * option T :=
  let n := u64 (fw_seq w + 1) in
  let rec := stamp n now rec in
  let '(file, written) := AppendJSONL io rec (fw_file w) in
  ({| fw_seq := n; fw_file := file |}, if written then Some rec else None).

(** [recordsExport] over the files; [None] when one of them cannot be read. *)
Definition exportFiles `{LocalZone} (after_transcript after_audit limit : Z) (tr ar : bool) (tw aw : FileWriter)
  : option (list Transcript.Record_ * list Audit.Record_) :=
  ts ← ReadAllJSONL tr (fw_file tw);
  rs ← ReadAllJSONL ar (fw_file aw);
  Some (List.filter (fun r => after_transcript <? Transcript.Seq r) (applyRetention ts limit),
        List.filter (fun r => after_audit <? Audit.Seq r) (applyRetention rs limit)).

(** ** Specification *)

(** What happens to a store: an append, or a restart of the daemon, which makes
    a new writer over the same file. *)
Inductive use (T : Type) := UAppend (now : Z) (io : append_io) (rec : T) | URestart.
Arguments UAppend {T} now io rec.
Arguments URestart {T}.

Fixpoint run {T W} (step : use T -> W -> W * list (option T)) (us : list (use T)) (w : W) : W * list (option T) :=
  match us with
  | [] => (w, [])
  | u :: us => let '(w, a) := step u w in let '(w, b) := run step us w in (w, a ++ b)
  end.

Definition file_use {T} `{Stored T, Stamped T} (u : use T) (w : FileWriter) : FileWriter * list (option T) :=
  match u with
  | UAppend now io rec => let '(w, r) := FileAppend now io rec w in (w, [r])
  | URestart => (NewFileWriter (fw_file w), [])
  end.

Definition io_ok (io : append_io) : bool := can_open io && bool_decide (cut_at io = None).

Definition audit_use (u : use Audit.Record_) (w : Audit.Writer) : Audit.Writer * list (option Audit.Record_) :=
  match u with
  | UAppend now io rec => let '(w, r) := Audit.Append now (io_ok io) rec w in (w, [r])
  | URestart => (Audit.NewWriter (Audit.file w), [])
  end.

Definition transcript_use (u : use Transcript.Record_) (w : Transcript.Writer)
  : Transcript.Writer * list (option Transcript.Record_) :=
  match u with
  | UAppend now io rec => let '(w, r) := Transcript.Append now (io_ok io) rec w in (w, [r])
  | URestart => (Transcript.NewWriter (Transcript.file w), [])
  end.

(** A write is whole or leaves nothing, and the times can be written. *)
Definition whole {T} `{Stored T, Stamped T, !StoredLaws T} (u : use T) : Prop :=
  match u with
  | UAppend now io rec => (cut_at io = None \/ cut_at io = Some 0%nat) /\
      forall n, 0 <= n < 2 ^ 64 -> storable (stamp n now rec)
  | URestart => True
  end.

(** The file of a writer holds these records. *)
Definition refines {T} `{Stored T, !StoredLaws T} (fw : FileWriter) (n : Z) (rs : list T) : Prop :=
  fw_seq fw = n /\ holds (fw_file fw) rs /\ Forall storable rs.

(** ** Lemmas *)

Section Refinement.
Context {T : Type} `{Stored T, Stamped T, !StoredLaws T}.

(** What any append does to what the file holds. *)
Lemma AppendJSONL_holds io r file rs :
  holds file rs -> storable r -> cut_at io = None \/ cut_at io = Some 0%nat ->
  let '(file', written) := AppendJSONL io r file in
  written = io_ok io /\ holds file' (if io_ok io then rs ++ [r] else rs).
Proof.
  intros Hf Hr Hc. unfold AppendJSONL, io_ok. destruct (can_open io); cbn [negb andb]; [|done].
  destruct (stored_back r Hr) as (v & Hv & _). rewrite Hv.
  destruct Hc as [-> | ->]; cbn [bool_decide take]; (split; [done|]).
  - by apply (holds_app _ _ r v true).
  - destruct Hf as (lines & Hl & Hf). exists lines. split; [done|]. cbn. by rewrite app_nil_r.
Qed.

Lemma FileAppend_refines now io rec fw n rs :
  whole (UAppend now io rec) -> refines fw n rs ->
  let m := u64 (n + 1) in let r := stamp m now rec in
  let '(fw', out) := FileAppend now io rec fw in
  out = (if io_ok io then Some r else None) /\ refines fw' m (if io_ok io then rs ++ [r] else rs).
Proof.
  intros [Hc Hst] (Hn & Hf & Hs). cbv zeta. unfold FileAppend. rewrite Hn.
  assert (Hr : storable (stamp (u64 (n + 1)) now rec)) by (apply Hst, u64_range).
  pose proof (AppendJSONL_holds io _ _ _ Hf Hr Hc) as Ha. destruct (AppendJSONL io _ _) as [file' written].
  destruct Ha as [-> Ha]. split; [done|]. split_and!; [done..|]. destruct (io_ok io); [|done].
  apply Forall_app. by split; [|apply Forall_singleton].
Qed.

(** A writer of lists that appends as [Append] does. *)
Lemma run_refines {W} (seq_of : W -> Z) (file_of : W -> list T) (step : use T -> W -> W * list (option T)) us :
  (forall now io rec w, let m := u64 (seq_of w + 1) in let r := stamp m now rec in
     let '(w', out) := step (UAppend now io rec) w in
     out = [if io_ok io then Some r else None] /\ seq_of w' = m /\
     file_of w' = if io_ok io then file_of w ++ [r] else file_of w) ->
  (forall w, let '(w', out) := step URestart w in out = [] /\ seq_of w' = 0 /\ file_of w' = file_of w) ->
  Forall whole us -> forall fw w, refines fw (seq_of w) (file_of w) ->
  let '(fw', out) := run file_use us fw in let '(w', out') := run step us w in
  out = out' /\ refines fw' (seq_of w') (file_of w').
Proof.
  intros Happ Hres Hus. induction Hus as [|u us Hu _ IH]; intros fw w Hw; [done|]. cbn [run].
  assert (Hstep : let '(fw', out) := file_use u fw in let '(w', out') := step u w in
    out = out' /\ refines fw' (seq_of w') (file_of w')).
  { destruct u as [now io rec|]; cbn [file_use].
    - pose proof (FileAppend_refines now io rec fw _ _ Hu Hw) as Hf. specialize (Happ now io rec w). cbv zeta in Hf, Happ.
      destruct (FileAppend now io rec fw) as [fw' out], (step _ w) as [w' out'].
      destruct Hf as [-> Hf], Happ as (-> & -> & ->). done.
    - specialize (Hres w). destruct (step _ w) as [w' out']. destruct Hres as (-> & -> & ->).
      destruct Hw as (_ & Hf & Hs). done. }
  destruct (file_use u fw) as [fw1 a], (step u w) as [w1 a']. destruct Hstep as [-> H1].
  specialize (IH fw1 w1 H1). destruct (run file_use us fw1) as [fw2 b], (run step us w1) as [w2 b'].
  by destruct IH as [-> IH].
Qed.

Lemma refines_reads fw n rs : refines fw n rs -> ReadAllJSONL true (fw_file fw) = Some (seen <$> rs).
Proof. intros (_ & Hf & Hs). by apply reads_back. Qed.

End Refinement.

Section Stores.
Context `{LocalZone}.

Lemma audit_refines us fw w :
  Forall whole us -> refines fw (Audit.seq w) (Audit.file w) ->
  let '(fw', out) := run file_use us fw in let '(w', out') := run audit_use us w in
  out = out' /\ refines fw' (Audit.seq w') (Audit.file w').
Proof.
  intros Hus. apply run_refines; [|done|done]. intros now io rec w0. cbn [audit_use]. unfold Audit.Append.
  by destruct (io_ok io).
Qed.

Lemma transcript_refines us fw w :
  Forall whole us -> refines fw (Transcript.seq w) (Transcript.file w) ->
  let '(fw', out) := run file_use us fw in let '(w', out') := run transcript_use us w in
  out = out' /\ refines fw' (Transcript.seq w') (Transcript.file w').
Proof.
  intros Hus. apply run_refines; [|done|done]. intros now io rec w0. cbn [transcript_use]. unfold Transcript.Append.
  by destruct (io_ok io).
Qed.

Lemma retention_map {A B} (f : A -> B) rs limit : applyRetention (f <$> rs) limit = f <$> applyRetention rs limit.
Proof.
  unfold applyRetention. rewrite length_fmap. destruct (_ || _); [done|]. by rewrite fmap_drop.
Qed.

Lemma filter_fmap {A B} (f : A -> B) (p : B -> bool) rs :
  List.filter p (f <$> rs) = f <$> List.filter (fun x => p (f x)) rs.
Proof. induction rs as [|x rs IH]; [done|]. cbn. destruct (p (f x)); cbn; by rewrite <-IH. Qed.

End Stores.

(** ** Properties *)

(** C26. The record files refine the lists of records. Whatever appends (with writes
    that are whole or leave nothing) and restarts of the daemon come, starting
    without files, every [Append] returns what it returns over lists of
    records, and an export reads from the bytes exactly the records that the
    lists have, with texts that are not UTF-8 made so. *)
Theorem record_files_refine `{LocalZone} (tus : list (use Transcript.Record_)) (aus : list (use Audit.Record_))
    after_transcript after_audit limit :
  Forall whole tus -> Forall whole aus ->
  let '(ft, ot) := run file_use tus (NewFileWriter None) in
  let '(fa, oa) := run file_use aus (NewFileWriter None) in
  let '(wt, ot') := run transcript_use tus (Transcript.NewWriter []) in
  let '(wa, oa') := run audit_use aus (Audit.NewWriter []) in
  ot = ot' /\ oa = oa' /\
  exportFiles after_transcript after_audit limit true true ft fa =
    Some (prod_map (fmap seen_transcript) (fmap seen_audit)
            (recordsExport after_transcript after_audit limit wt wa)).
Proof.
  intros Ht Ha.
  pose proof (transcript_refines tus (NewFileWriter None) (Transcript.NewWriter []) Ht) as Rt.
  pose proof (audit_refines aus (NewFileWriter None) (Audit.NewWriter []) Ha) as Ra.
  destruct (run file_use tus _) as [ft ot], (run file_use aus _) as [fa oa],
    (run transcript_use tus _) as [wt ot'], (run audit_use aus _) as [wa oa'].
  destruct Rt as [-> Rt]; [by split; [|split; [apply holds_empty|]]|].
  destruct Ra as [-> Ra]; [by split; [|split; [apply holds_empty|]]|].
  split_and!; [done..|]. unfold exportFiles. rewrite (refines_reads _ _ _ Rt), (refines_reads _ _ _ Ra).
  cbn [mbind option_bind seen transcript_laws audit_laws]. by rewrite !retention_map, !filter_fmap.
Qed.

(** What a write that is cut leaves. For a record whose line is cut after [n]
    bytes, [Append] fails in any case; then the file reads as before if nothing
    was written, cannot be read at all if part of the record was, and has the
    record if only its line feed is missing. *)
Lemma append_cut {T} `{StoredLaws T} (rs : list T) file r v n :
  holds file rs -> Forall storable rs -> storable r -> to_json r = Some v -> (n <= length v)%nat ->
  let '(file', written) := AppendJSONL {| can_open := true; cut_at := Some n |} r file in
  written = false /\
  ReadAllJSONL true file' =
    if (n =? 0)%nat then Some (seen <$> rs)
    else if (n <? length v)%nat then None
    else Some (seen <$> rs ++ [r]).
Proof.
  intros Hf Hs Hr Hv Hn. unfold AppendJSONL, encode_line. cbn [can_open negb cut_at]. rewrite Hv. split; [done|].
  rewrite take_app_le by done. destruct (Nat.eqb_spec n 0) as [->|Hn0].
  { cbn [take]. apply reads_back; [|done]. destruct Hf as (lines & Hl & Hf). exists lines. by rewrite app_nil_r. }
  destruct (Nat.ltb_spec n (length v)) as [Hlt|Hge]; [by apply (torn_line file rs r v n); [..|lia]|].
  rewrite take_ge by done. apply reads_back.
  - by pose proof (holds_app file rs r v false Hf Hv) as Hh; cbv iota in Hh; rewrite app_nil_r in Hh.
  - apply Forall_app. by split; [|apply Forall_singleton].
Qed.

(** *** Examples *)

(** A zone east of Greenwich, and a moment. *)
Definition taipei : LocalZone := fun _ => 28800.
#[local] Existing Instance taipei.
Definition moment : Z := day_number 2026 3 1 * 86400 * nanos + 5.

Definition written : append_io := {| can_open := true; cut_at := None |}.
Definition disk_full : append_io := {| can_open := true; cut_at := Some 0%nat |}.
Definition demo_use (io : append_io) (kind : string) : use Audit.Record_ := UAppend moment io (demo_record kind).

Lemma moment_zone : zone_ok moment.
Proof. by vm_compute. Qed.

Lemma moment_storable kind n : 0 <= n < 2 ^ 64 -> storable (stamp n moment (demo_record kind)).
Proof. intros Hn. split; [done|]. exact moment_zone. Qed.

Lemma record_files_refine_witness :
  let aus := [demo_use written "proposal"; demo_use disk_full "approval"; URestart; demo_use written "result"] in
  exists rs, exportFiles 0 0 100 true true (NewFileWriter None) (fst (run file_use aus (NewFileWriter None))) =
    Some ([], rs) /\ Audit.Kind <$> rs = ["proposal"; "result"]%string.
Proof.
  intros aus. pose proof (record_files_refine [] aus 0 0 100 ltac:(constructor)
    ltac:(repeat (apply Forall_cons_2; [first [exact I | split; [by auto|apply moment_storable]]|]); apply Forall_nil_2)) as H.
  cbn [run] in H. destruct (run file_use aus _) as [fa oa] eqn:E1, (run audit_use aus _) as [wa oa'] eqn:E2.
  destruct H as (_ & _ & H). cbn [fst]. rewrite H. injection E2 as <- _. eexists. split; reflexivity.
Defined.

Definition demo_line (kind : string) : bytes := default [] (to_json (stamp 1 moment (demo_record kind))).

(** An approval whose record is cut after forty bytes takes the proposal with it. *)
Lemma append_cut_witness :
  let file := Some (encode_line (demo_line "proposal")) in
  ReadAllJSONL true (fst (AppendJSONL {| can_open := true; cut_at := Some 40%nat |}
    (stamp 2 moment (demo_record "approval")) file)) = None (A := list Audit.Record_).
Proof.
  intros file. pose proof (append_cut [stamp 1 moment (demo_record "proposal")] file
    (stamp 2 moment (demo_record "approval")) (default [] (to_json (stamp 2 moment (demo_record "approval")))) 40) as H.
  cbv zeta in H. destruct (AppendJSONL _ _ _) as [file' w]. cbn [fst]. apply H.
  - exists [(demo_line "proposal", true)]. split; [by repeat constructor|]. cbn. by rewrite app_nil_r.
  - apply Forall_singleton, moment_storable. lia.
  - apply moment_storable. lia.
  - by vm_compute.
  - by apply Nat.leb_le; vm_compute.
Defined.

(** No cut is repaired by the records that follow: wherever the line of a
    record is cut, the file with a whole record after it is refused. *)
Example torn_for_good :
  let line := demo_line "approval" in
  forallb (fun n => negb (bool_decide (is_Some (ReadAllJSONL (T := Audit.Record_) true
                      (Some (take n line ++ encode_line (demo_line "result"))))))) (seq 1 (length line - 1)) = true.
Proof. by vm_compute. Qed.

(** The line of a record. *)
Example audit_line :
  demo_line "proposal" = json_object
    [("board", json_string "b"); ("session", json_string "s"); ("transport", json_string ""); ("seq", to_bytes "1");
     ("timestamp", json_string "2026-03-01T08:00:00.000000005+08:00"); ("kind", json_string "proposal");
     ("detail", json_string "")]%string.
Proof. by vm_compute. Qed.
