(* ===== verification/OpenFile.v ===== *)
(** * The file of the open transactions (src/cmd/gatewayd/openset.go)

    The open set as the bytes of its file, replaced through a temporary file
    beside it, and the finalisation with every state the disk passes through.
    OpenSet.v keeps what the file decodes to; here the two are related. *)

From S2P Require Import Prelude GoStd Json JsonStrings JsonTexts Client Payload Clock Store Records OpenSet Durable RecordFiles.

(** ** The file *)

(** [json.Marshal] of the map of identifiers to sessions. *)
Definition MarshalOpen (ids : gmap string string) : bytes := json_map (prod_map id json_string <$> map_to_list ids).

(** The entries a map is given in turn. *)
Definition set_entries (xs : list (string * string)) : gmap string string :=
  foldl (fun (m : gmap string string) kv => <[fst kv := snd kv]> m) ∅ xs.

(** The two attempts of [loadOpenSet]: the map, then the list of the earlier
    format. (Go's map is nil after a file [null], which the gateway never
    writes.) *)
Definition decode_open (file : option bytes) : open_file :=
  match file with
  | None => NoFile
  | Some data =>
      match Unmarshal_into (into_map into_string "") [] data with
      | Some xs => CurrentFormat (set_entries xs)
      | None =>
          match Unmarshal_into (into_list into_string "") [] data with
          | Some l => LegacyFormat l
          | None => BadFile
          end
      end
  end.

(** What the set's file is in a directory. *)
Definition open_on (path : string) (fs : filesystem) : open_file := decode_open (content <$> fs !! path).

(** [saveLocked]: the states of the directory, and the error. *)
Definition save_open (io : save_io) (path : string) (ids : gmap string string) (fs : filesystem)
  : list filesystem * option ReplaceError := replace_file io fs path (MarshalOpen ids).

Definition add_files (io : save_io) (path id session : string) (ids : gmap string string) (fs : filesystem)
  : gmap string string * (list filesystem * option ReplaceError) :=
  let ids := <[id := session]> ids in (ids, save_open io path ids fs).

(** What a crash during an append may leave of the file: any part of the line. *)
Definition append_states `{LocalZone} (now : Z) (io : append_io) (rec : Audit.Record_) (fw : FileWriter) : list (option bytes) :=
  let old := default [] (fw_file fw) in
  match can_open io, to_json (stamp (u64 (fw_seq fw + 1)) now rec) with
  | true, Some line => (fun n => Some (old ++ take n line)) <$> seq 0 (S (length line))
  | _, _ => []
  end.

(** [finalize]: the set, the writer, the states of the audit file and the
    directory, and (ok, err == nil). *)
Definition finalize_files `{LocalZone} (now : Z) (aio : append_io) (sio : save_io) (path board id detail : string)
    (ids : gmap string string) (fw : FileWriter) (fs : filesystem)
  : gmap string string * FileWriter * list (option bytes * filesystem) * (bool * bool) :=
  match ids !! id with
  | None => (ids, fw, [], (false, true))
  | Some session =>
      let rec := {| Audit.Board := board; Audit.Session := session; Audit.Transport := "";
                    Audit.Seq := 0; Audit.Timestamp := 0; Audit.Kind := "result"; Audit.Detail := detail |} in
      let appending := (fun file => (file, fs)) <$> append_states now aio rec fw in
      let '(fw1, stored) := FileAppend now aio rec fw in
      match stored with
      | None => (ids, fw1, appending ++ [(fw_file fw1, fs)], (false, false))
      | Some _ =>
          let ids := delete id ids in
          let '(states, err) := save_open sio path ids fs in
          (ids, fw1, appending ++ (fw_file fw1, fs) :: (pair (fw_file fw1) <$> states), (true, bool_decide (err = None)))
      end
  end.

(** ** Specification *)

(** Identifiers and sessions are valid UTF-8; the gateway's are ASCII. *)
Definition texts_ok (ids : gmap string string) : Prop :=
  map_Forall (fun k v => valid_utf8 k = true /\ valid_utf8 v = true) ids.

(** No system call of a save fails. *)
Definition save_whole (io : save_io) : bool :=
  create_ok io && chmod_ok io && bool_decide (write_cut io = None) && close_ok io && rename_ok io.

(** The temporary name is a new one. *)
Definition fresh (io : save_io) (path : string) (fs : filesystem) : Prop := fs !! tmp io = None /\ tmp io <> path.

(** The set in memory and on disk is what OpenSet.v has. *)
Definition shown (path : string) (ids_ : gmap string string) (fs : filesystem) (s : openSet) : Prop :=
  ids_ = ids s /\ open_on path fs = disk s.

(** The daemon that starts here finds the transaction open. *)
Definition still_open (path id : string) (fs : filesystem) : Prop :=
  exists s, loadOpenSet (open_on path fs) = Some s /\ is_Some (ids s !! id).

(** The last record of the audit file is this transaction's result. *)
Definition recorded (detail : string) `{LocalZone} (file : option bytes) : Prop :=
  exists rs r, ReadAllJSONL true file = Some (rs ++ [r]) /\ Audit.Kind r = "result"%string /\
    Audit.Detail r = sanitize detail.

Definition last_disk {A} (old : A) (states : list A) : A := default old (last states).

(** ** Lemmas *)

Lemma insert_key_perm {A} (m : string * A) ms : insert_key m ms ≡ₚ m :: ms.
Proof.
  induction ms as [|m2 ms IH]; [done|]. cbn [insert_key]. destruct (String.leb _ _); [done|]. rewrite IH. constructor.
Qed.

Lemma sort_keys_perm {A} (ms : list (string * A)) : sort_keys ms ≡ₚ ms.
Proof. induction ms as [|m ms IH]; [done|]. cbn [sort_keys foldr]. etrans; [apply insert_key_perm|]. by f_equiv. Qed.

Lemma set_entries_foldl (xs : list (string * string)) (m : gmap string string) :
  foldl (fun (m : gmap string string) kv => <[fst kv := snd kv]> m) m xs = list_to_map (rev xs) ∪ m.
Proof.
  revert m. induction xs as [|[k v] xs IH]; intros m; cbn [foldl rev fst snd].
  { by rewrite list_to_map_nil, (left_id_L ∅ (∪)). }
  rewrite IH, list_to_map_app. cbn. rewrite <-(assoc_L (∪)). f_equal.
  by rewrite insert_empty, <-insert_union_singleton_l.
Qed.

Lemma set_entries_list xs : NoDup xs.*1 -> set_entries xs = list_to_map xs.
Proof.
  intros Hn. unfold set_entries. rewrite set_entries_foldl, (right_id_L ∅ (∪)).
  symmetry. apply list_to_map_proper; [done|]. apply Permutation_rev.
Qed.

Lemma texts_sorted ids : texts_ok ids ->
  prod_map sanitize sanitize <$> sort_keys (map_to_list ids) = sort_keys (map_to_list ids).
Proof.
  intros Hv. rewrite <-(list_fmap_id (sort_keys _)) at 2. apply list_fmap_ext. intros i [k v] Hi.
  apply list_elem_of_lookup_2 in Hi. rewrite sort_keys_perm in Hi. apply elem_of_map_to_list in Hi.
  apply Hv in Hi as [Hk Hx]. unfold prod_map, id. cbn [fst snd]. by rewrite !valid_sanitize.
Qed.

(** What is saved is loaded. *)
Lemma open_back ids : texts_ok ids -> decode_open (Some (MarshalOpen ids)) = CurrentFormat ids.
Proof.
  intros Hv. unfold decode_open, MarshalOpen.
  rewrite (Unmarshal_text _ _ 2 _ ltac:(apply depth_ok; lia) (passphrases_text _)), into_passphrases, texts_sorted by done.
  cbn [app]. rewrite set_entries_list.
  - f_equal. rewrite <-(list_to_map_to_list ids) at 2. apply list_to_map_proper; [|apply sort_keys_perm].
    rewrite (sort_keys_perm (map_to_list ids)). apply NoDup_fst_map_to_list.
  - rewrite (sort_keys_perm (map_to_list ids)). apply NoDup_fst_map_to_list.
Qed.

(** A save, at the level of the decoded file. *)
Lemma save_open_spec io path ids fs :
  texts_ok ids -> fresh io path fs ->
  let '(states, err) := save_open io path ids fs in
  let final := default fs (last states) in
  Forall (fun fs' => open_on path fs' = open_on path fs \/ open_on path fs' = CurrentFormat ids) states /\
  bool_decide (err = None) = save_whole io /\
  open_on path final = if save_whole io then CurrentFormat ids else open_on path fs.
Proof.
  intros Hv [Hf Hne]. unfold save_open.
  destruct (replace_file_atomic io fs path (MarshalOpen ids) Hf Hne) as (H1 & H2 & H3 & H4).
  destruct (replace_file io fs path (MarshalOpen ids)) as [states err]. cbn [fst snd] in *.
  assert (Hw : bool_decide (err = None) = save_whole io).
  { unfold save_whole. apply eq_true_iff_eq. rewrite bool_decide_eq_true, H4, !andb_true_iff, bool_decide_eq_true. tauto. }
  split_and!; [|done|].
  - eapply Forall_impl; [exact H1|]. intros fs' [[Hd|Hd] _]; unfold open_on; rewrite Hd; [by left|right]. by apply open_back.
  - rewrite <-Hw. case_bool_decide as He.
    + rewrite H3 by done. unfold open_on. rewrite lookup_insert_eq. by apply open_back.
    + by rewrite H2.
Qed.

Lemma texts_delete id ids : texts_ok ids -> texts_ok (delete id ids).
Proof. intros Hv k v [_ Hk]%lookup_delete_Some. by apply Hv. Qed.

Lemma add_files_refines io path id session fs s :
  texts_ok (<[id := session]> (ids s)) -> fresh io path fs -> shown path (ids s) fs s ->
  let '(ids_, (states, err)) := add_files io path id session (ids s) fs in
  let '(s', fine) := add (save_whole io) id session s in
  bool_decide (err = None) = fine /\ shown path ids_ (default fs (last states)) s'.
Proof.
  intros Hv Hf [_ Hd]. unfold add_files, add, saveLocked. cbn [ids disk].
  pose proof (save_open_spec io path _ fs Hv Hf) as Hs. destruct (save_open io path _ fs) as [states err].
  destruct Hs as (_ & -> & Hl). destruct (save_whole io); (split; [done|]; split; [done|]); cbn [disk]; [exact Hl|by rewrite Hl].
Qed.

Lemma last_disk_app {A} (old x : A) l l' : last_disk old (l ++ x :: l') = last_disk x l'.
Proof. unfold last_disk. rewrite last_app, last_cons. by destruct (last l'). Qed.

Lemma last_disk_cons {A B} (f : A -> B) (x : A) l : last_disk (f x) (f <$> l) = f (last_disk x l).
Proof. unfold last_disk. rewrite fmap_last. by destruct (last l). Qed.

Lemma Append_stamp t ok rec w :
  Audit.Append t ok rec w =
  let r := stamp (u64 (Audit.seq w + 1)) t rec in
  ({| Audit.seq := u64 (Audit.seq w + 1); Audit.file := if ok then Audit.file w ++ [r] else Audit.file w |},
   if ok then Some r else None).
Proof. unfold Audit.Append, AppendJSONL. by destruct ok. Qed.

(** ** Properties *)

(** C25. Finalising a transaction on disk, when the append of the record is
    whole or writes nothing (what a torn one leaves is in RecordFiles.v), does
    to the decoded files what OpenSet.finalize does, with the same answer; and in every state the audit
    file and the directory pass through, where a crash may leave them, a
    transaction that was in the open set's file is still there or its result is
    the last record of the audit file: none is ever lost. *)
Theorem finalize_files_safe `{LocalZone} t aio sio path board id detail fs fw s w :
  texts_ok (ids s) -> fresh sio path fs -> shown path (ids s) fs s ->
  refines fw (Audit.seq w) (Audit.file w) -> cut_at aio = None \/ cut_at aio = Some 0%nat -> zone_ok t ->
  let '(ids_, fw', states, answer) := finalize_files t aio sio path board id detail (ids s) fw fs in
  let '(s', w', answer') :=
    finalize {| now := t; append_ok := io_ok aio; save_ok := save_whole sio |} (Some w) board id detail s in
  answer = answer' /\
  shown path ids_ (snd (last_disk (fw_file fw, fs) states)) s' /\
  (exists w1, w' = Some w1 /\ refines fw' (Audit.seq w1) (Audit.file w1)) /\
  (still_open path id fs -> Forall (fun '(file, fs') => still_open path id fs' \/ recorded detail file) states).
Proof.
  intros Hv Hf Hs Hw Hc Hz. unfold finalize_files, finalize. destruct (ids s !! id) as [session|] eqn:Hid.
  2:{ split_and!; [done|done|by eexists|constructor]. }
  set (rec := Audit.Build_Record_ _ _ _ _ _ _ _). cbn [now append_ok save_ok].
  assert (Hwhole : whole (UAppend t aio rec)) by by split.
  assert (Happ : still_open path id fs -> Forall (fun '(file, fs') => still_open path id fs' \/ recorded detail file)
    ((fun file => (file, fs)) <$> append_states t aio rec fw)).
  { intros Ho. apply Forall_fmap, Forall_true. intros file. by left. }
  pose proof (FileAppend_refines t aio rec fw _ _ Hwhole Hw) as Ha. cbv zeta in Ha.
  destruct (FileAppend t aio rec fw) as [fw' out]. destruct Ha as [-> Ha].
  rewrite (Append_stamp t (io_ok aio) rec w). destruct (io_ok aio).
  - unfold saveLocked. cbn [negb OpenSet.ids disk]. destruct Hs as [_ Hd].
    pose proof (save_open_spec sio path _ fs (texts_delete id _ Hv) Hf) as Hsv.
    destruct (save_open sio path (delete id (ids s)) fs) as [states err]. destruct Hsv as (Hst & -> & Hl).
    rewrite last_disk_app, last_disk_cons.
    assert (Hrec : recorded detail (fw_file fw')).
    { unfold recorded. rewrite (refines_reads _ _ _ Ha), fmap_app. by eexists _, _. }
    assert (Hall : still_open path id fs -> Forall (fun '(file, fs') => still_open path id fs' \/ recorded detail file)
      (((fun file => (file, fs)) <$> append_states t aio rec fw) ++ (fw_file fw', fs) :: (pair (fw_file fw') <$> states))).
    { intros Ho. apply Forall_app. split; [by apply Happ|]. apply Forall_cons_2; [by right|].
      apply Forall_fmap, Forall_true. intros fs'. by right. }
    destruct (save_whole sio); (split_and!; [done| |by eexists|done]); (split; [done|]); [exact Hl|exact (eq_trans Hl Hd)].
  - cbn [negb]. split_and!; [done| |by eexists|].
    + by rewrite last_disk_app.
    + intros Ho. apply Forall_app. split; [by apply Happ|]. apply Forall_singleton. by left.
Qed.

(** The witness: the one open transaction of a daemon, finalised while the
    rename fails. *)
#[local] Existing Instance taipei.
Definition demo_ids : gmap string string := {["txn-1" := "sess-1"]}%string.
Definition demo_fs : filesystem := {["/open.json"%string := {| mode := 384; content := MarshalOpen demo_ids |}]}.
Definition demo_save (renames : bool) : save_io :=
  {| tmp := "/.open-1.tmp"; create_ok := true; chmod_ok := true; write_cut := None; close_ok := true;
     rename_ok := renames |}.

Lemma finalize_files_safe_witness :
  let '(_, _, states, answer) := finalize_files moment written (demo_save false) "/open.json" "b" "txn-1" "done"
    demo_ids (NewFileWriter None) demo_fs in
  answer = (true, false) /\
  Forall (fun '(file, fs') => still_open "/open.json" "txn-1" fs' \/ recorded "done" file) states.
Proof.
  assert (Hv : texts_ok demo_ids) by (apply map_Forall_singleton; by vm_compute).
  assert (Hopen : open_on "/open.json" demo_fs = CurrentFormat demo_ids).
  { unfold open_on, demo_fs. rewrite lookup_singleton_eq. by apply open_back. }
  pose proof (finalize_files_safe moment written (demo_save false) "/open.json" "b" "txn-1" "done" demo_fs
    (NewFileWriter None) {| OpenSet.ids := demo_ids; disk := CurrentFormat demo_ids |} (Audit.NewWriter []) Hv) as H.
  cbn [OpenSet.ids] in H. destruct (finalize_files _ _ _ _ _ _ _ _ _ _) as [[[ids' fw'] states] answer].
  destruct (finalize _ _ _ _ _ _) as [[s' w'] answer'] eqn:E. destruct H as (-> & _ & _ & H).
  - split; [by vm_compute|discriminate].
  - split; [reflexivity|exact Hopen].
  - by split; [|split; [apply holds_empty|constructor]].
  - by left.
  - exact moment_zone.
  - split; [by injection E as _ _ <-|]. apply H. eexists {| OpenSet.ids := demo_ids; disk := CurrentFormat demo_ids |}.
    rewrite Hopen. split; [done|]. by eexists.
Defined.

(** The file as it is written, the earlier format, and what is neither. *)
Example open_files :
  MarshalOpen demo_ids = json_object [("txn-1", json_string "sess-1")]%string /\
  decode_open (Some (json_array [json_string "txn-1"])) = LegacyFormat ["txn-1"%string] /\
  decode_open (Some (to_bytes "[1]")) = BadFile /\ decode_open (Some []) = BadFile.
Proof. by vm_compute. Qed.
