(* ===== verification/Replies.v ===== *)
(** * The dispatcher's results as JSON (src/cmd/gatewayd/dispatcher.go,
    src/internal/cli/control.go, attach.go, src/internal/core/command/types.go)

    What [json.Marshal] makes of each result in handleConn, and what the client
    makes of those it decodes: the results of diagnose and unsafe-shell, which
    the command line prints again, and the chunks that the attach terminal
    shows. *)

From S2P Require Import Prelude GoStd Json JsonStrings JsonTexts Clock Session Ring Shell Command Records OpenSet Profile Store Wire Client Payload.
From S2P Require Import Durable RecordFiles Coordinator CoordinatorTx Dispatcher.

(** ** Values *)

(** A [[]byte]; [None] is the nil slice. *)
Definition json_slice (b : option bytes) : bytes :=
  match b with Some b => json_string (of_bytes (base64 b)) | None => json_null end.

Definition into_slice : decoder (option bytes) := into_option into_bytes [].

(** A slice of marshalled values; an empty one is nil here. *)
Definition json_list (vs : list bytes) : bytes := match vs with [] => json_null | _ => json_array vs end.

(** A pointer, left out when it is nil. *)
Definition omit_nil (key : string) (v : option bytes) : list (string * bytes) :=
  match v with Some v => [(key, v)] | None => [] end.

Definition state_text (s : State) : string :=
  match s with
  | Disconnected => "DISCONNECTED"
  | Connecting => "CONNECTING"
  | Authenticating => "AUTHENTICATING"
  | Ready => "READY"
  | RunningCommand => "RUNNING_COMMAND"
  | Reconnecting => "RECONNECTING"
  | Session.Error => "ERROR"
  end.

Definition proposal_state_text (s : ProposalState) : string :=
  match s with
  | ProposalPending => "pending"
  | ProposalRejected => "rejected"
  | ProposalExpired => "expired"
  | ProposalReplaced => "replaced"
  | ProposalApproved => "approved"
  end.

(** A pointer to a value that may fail to be marshalled. *)
Definition through {A} (f : A -> option bytes) (o : option A) : option (option bytes) :=
  match o with None => Some None | Some x => Some <$> f x end.

(** ** Execution results, as both sides have them *)

(** [command.Transaction] and [command.Result] with their times as Go has them:
    the daemon's are in its zone, the client's in the zone of the text. *)
Record transaction_value := {
  tv_ID : string; tv_SourceProposalID : string; tv_SessionID : string; tv_Transport : string;
  tv_Board : string; tv_Text : string; tv_Timeout : Z; tv_ApprovedAt : Time
}.

Record result_value := {
  rv_TransactionID : string; rv_SourceProposalID : string; rv_Status : string; rv_ExitCode : option Z;
  rv_Duration : Z; rv_Output : option bytes; rv_OutputTruncatedStart : bool;
  rv_ContextBefore : option bytes; rv_ContextAfter : option bytes; rv_CompletedAt : Time
}.

(** [DiagnoseResult] and [UnsafeShellResult], alike on both sides. *)
Record ExecuteResult := {
  er_Decision : Decision; er_Transaction : option transaction_value; er_Result : option result_value;
  er_TruncatedStart : bool; er_TruncatedEnd : bool
}.

(** *** Marshalling *)

Definition MarshalDecision (d : Decision) : bytes :=
  json_object [("allowed", json_bool (Allowed d)); ("rule", json_string (Rule d)); ("reason", json_string (Reason d))]%string.

Definition MarshalTransaction (t : transaction_value) : option bytes :=
  at_ ← MarshalTime (tv_ApprovedAt t);
  Some (json_object [("ID", json_string (tv_ID t)); ("SourceProposalID", json_string (tv_SourceProposalID t));
                     ("SessionID", json_string (tv_SessionID t)); ("Transport", json_string (tv_Transport t));
                     ("Board", json_string (tv_Board t)); ("Text", json_string (tv_Text t));
                     ("Timeout", dec_Z (tv_Timeout t)); ("ApprovedAt", at_)]%string).

Definition json_int_pointer (z : option Z) : bytes := match z with Some z => dec_Z z | None => json_null end.

Definition MarshalResult (r : result_value) : option bytes :=
  at_ ← MarshalTime (rv_CompletedAt r);
  Some (json_object [("TransactionID", json_string (rv_TransactionID r));
                     ("SourceProposalID", json_string (rv_SourceProposalID r));
                     ("Status", json_string (rv_Status r)); ("ExitCode", json_int_pointer (rv_ExitCode r));
                     ("Duration", dec_Z (rv_Duration r)); ("Output", json_slice (rv_Output r));
                     ("OutputTruncatedStart", json_bool (rv_OutputTruncatedStart r));
                     ("ContextBefore", json_slice (rv_ContextBefore r));
                     ("ContextAfter", json_slice (rv_ContextAfter r)); ("CompletedAt", at_)]%string).

Definition MarshalExecuteResult (x : ExecuteResult) : option bytes :=
  t ← through MarshalTransaction (er_Transaction x);
  r ← through MarshalResult (er_Result x);
  Some (json_object ([("decision"%string, MarshalDecision (er_Decision x))] ++ omit_nil "transaction" t ++
                     omit_nil "result" r ++
                     [("truncated_start", json_bool (er_TruncatedStart x));
                      ("truncated_end", json_bool (er_TruncatedEnd x))]%string)).

(** *** Decoding, by the client *)

Definition decisionFields : fields Decision :=
  [("allowed", field into_bool Allowed (fun x d => {| Allowed := x; Rule := Rule d; Reason := Reason d |}));
   ("rule", field into_string Rule (fun x d => {| Allowed := Allowed d; Rule := x; Reason := Reason d |}));
   ("reason", field into_string Reason (fun x d => {| Allowed := Allowed d; Rule := Rule d; Reason := x |}))]%string.

Definition transactionFields : fields transaction_value :=
  let set a b c d e f g h := {| tv_ID := a; tv_SourceProposalID := b; tv_SessionID := c; tv_Transport := d;
                                tv_Board := e; tv_Text := f; tv_Timeout := g; tv_ApprovedAt := h |} in
  let put k t := k (tv_ID t) (tv_SourceProposalID t) (tv_SessionID t) (tv_Transport t) (tv_Board t) (tv_Text t)
                   (tv_Timeout t) (tv_ApprovedAt t) in
  [("ID", field into_string tv_ID (fun x => put (fun _ => set x)));
   ("SourceProposalID", field into_string tv_SourceProposalID (fun x => put (fun a _ => set a x)));
   ("SessionID", field into_string tv_SessionID (fun x => put (fun a b _ => set a b x)));
   ("Transport", field into_string tv_Transport (fun x => put (fun a b c _ => set a b c x)));
   ("Board", field into_string tv_Board (fun x => put (fun a b c d _ => set a b c d x)));
   ("Text", field into_string tv_Text (fun x => put (fun a b c d e _ => set a b c d e x)));
   ("Timeout", field into_int tv_Timeout (fun x => put (fun a b c d e f _ => set a b c d e f x)));
   ("ApprovedAt", field into_time tv_ApprovedAt (fun x => put (fun a b c d e f g _ => set a b c d e f g x)))]%string.

Definition resultFields : fields result_value :=
  let set a b c d e f g h i j := {| rv_TransactionID := a; rv_SourceProposalID := b; rv_Status := c;
    rv_ExitCode := d; rv_Duration := e; rv_Output := f; rv_OutputTruncatedStart := g; rv_ContextBefore := h;
    rv_ContextAfter := i; rv_CompletedAt := j |} in
  let put k r := k (rv_TransactionID r) (rv_SourceProposalID r) (rv_Status r) (rv_ExitCode r) (rv_Duration r)
    (rv_Output r) (rv_OutputTruncatedStart r) (rv_ContextBefore r) (rv_ContextAfter r) (rv_CompletedAt r) in
  [("TransactionID", field into_string rv_TransactionID (fun x => put (fun _ => set x)));
   ("SourceProposalID", field into_string rv_SourceProposalID (fun x => put (fun a _ => set a x)));
   ("Status", field into_string rv_Status (fun x => put (fun a b _ => set a b x)));
   ("ExitCode", field (into_option into_int 0) rv_ExitCode (fun x => put (fun a b c _ => set a b c x)));
   ("Duration", field into_int rv_Duration (fun x => put (fun a b c d _ => set a b c d x)));
   ("Output", field into_slice rv_Output (fun x => put (fun a b c d e _ => set a b c d e x)));
   ("OutputTruncatedStart", field into_bool rv_OutputTruncatedStart (fun x => put (fun a b c d e f _ => set a b c d e f x)));
   ("ContextBefore", field into_slice rv_ContextBefore (fun x => put (fun a b c d e f g _ => set a b c d e f g x)));
   ("ContextAfter", field into_slice rv_ContextAfter (fun x => put (fun a b c d e f g h _ => set a b c d e f g h x)));
   ("CompletedAt", field into_time rv_CompletedAt (fun x => put (fun a b c d e f g h i _ => set a b c d e f g h i x)))]%string.

Definition zeroTime : Time := {| instant := 0; offset := 0 |}.
Definition zeroTransaction : transaction_value :=
  {| tv_ID := ""; tv_SourceProposalID := ""; tv_SessionID := ""; tv_Transport := ""; tv_Board := ""; tv_Text := "";
     tv_Timeout := 0; tv_ApprovedAt := zeroTime |}.
Definition zeroResult : result_value :=
  {| rv_TransactionID := ""; rv_SourceProposalID := ""; rv_Status := ""; rv_ExitCode := None; rv_Duration := 0;
     rv_Output := None; rv_OutputTruncatedStart := false; rv_ContextBefore := None; rv_ContextAfter := None;
     rv_CompletedAt := zeroTime |}.
Definition zeroExecute : ExecuteResult :=
  {| er_Decision := {| Allowed := false; Rule := ""; Reason := "" |}; er_Transaction := None; er_Result := None;
     er_TruncatedStart := false; er_TruncatedEnd := false |}.

Definition executeResultFields : fields ExecuteResult :=
  let set a b c d e := {| er_Decision := a; er_Transaction := b; er_Result := c; er_TruncatedStart := d; er_TruncatedEnd := e |} in
  let put k x := k (er_Decision x) (er_Transaction x) (er_Result x) (er_TruncatedStart x) (er_TruncatedEnd x) in
  [("decision", field (into_struct decisionFields) er_Decision (fun x => put (fun _ => set x)));
   ("transaction", field (into_option (into_struct transactionFields) zeroTransaction) er_Transaction
      (fun x => put (fun a _ => set a x)));
   ("result", field (into_option (into_struct resultFields) zeroResult) er_Result (fun x => put (fun a b _ => set a b x)));
   ("truncated_start", field into_bool er_TruncatedStart (fun x => put (fun a b c _ => set a b c x)));
   ("truncated_end", field into_bool er_TruncatedEnd (fun x => put (fun a b c d _ => set a b c d x)))]%string.

(** What [Call] decodes into a result that was zero: nothing when the response
    has no result. *)
Definition decode_execute (data : bytes) : option ExecuteResult :=
  match data with [] => Some zeroExecute | _ => Unmarshal_into (into_struct executeResultFields) zeroExecute data end.

(** The chunk that the output poller looks at: [next] and [data]. *)
Definition polled : Type := Z * option bytes.
Definition polledFields : fields polled :=
  [("next", field into_uint fst (fun x p => (x, snd p))); ("data", field into_slice snd (fun x p => (fst p, x)))]%string.
Definition decode_chunk (data : bytes) : option polled := Unmarshal_into (into_struct polledFields) (0, None) data.

(** ** What the daemon answers *)

Section Server.
Context `{LocalZone}.

(** The zero time is in UTC; any other is the clock's. *)
Definition time_of (t : Z) : Time := if t =? 0 then zeroTime else in_local t.

Definition transaction_of (t : Transaction) : transaction_value :=
  {| tv_ID := tx_ID t; tv_SourceProposalID := tx_SourceProposalID t; tv_SessionID := tx_SessionID t;
     tv_Transport := tx_Transport t; tv_Board := tx_Board t; tv_Text := tx_Text t; tv_Timeout := tx_Timeout t;
     tv_ApprovedAt := time_of (ApprovedAt t) |}.

(** The output is a copy that is nil when it is empty, and so are the contexts. *)
Definition nil_if_empty (b : bytes) : option bytes := match b with [] => None | _ => Some b end.

Definition result_of (r : Command.Result) : result_value :=
  {| rv_TransactionID := TransactionID r; rv_SourceProposalID := SourceProposalID r;
     rv_Status := status_text (res_Status r); rv_ExitCode := ExitCode r; rv_Duration := Duration r;
     rv_Output := nil_if_empty (Output r); rv_OutputTruncatedStart := OutputTruncatedStart r;
     rv_ContextBefore := nil_if_empty (ContextBefore r); rv_ContextAfter := nil_if_empty (ContextAfter r);
     rv_CompletedAt := time_of (CompletedAt r) |}.

Definition MarshalProposal (p : Proposal) : option bytes :=
  created ← MarshalTime (time_of (CreatedAt p));
  expires ← MarshalTime (time_of (ExpiresAt p));
  Some (json_object [("ID", json_string (prop_ID p)); ("SessionID", json_string (prop_SessionID p));
                     ("Transport", json_string (prop_Transport p)); ("Board", json_string (prop_Board p));
                     ("Text", json_string (prop_Text p)); ("Purpose", json_string (prop_Purpose p));
                     ("Timeout", dec_Z (prop_Timeout p)); ("CreatedAt", created); ("ExpiresAt", expires);
                     ("State", json_string (proposal_state_text (prop_State p)));
                     ("ReplacesID", json_string (ReplacesID p)); ("Advisory", json_string (Advisory p))]%string).

Definition MarshalPort (p : Port) : bytes :=
  json_object [("Path", json_string (Path p)); ("ByIDPath", json_string (ByIDPath p));
               ("USBSerialNumber", json_string (USBSerialNumber p))]%string.

(** The maps the handlers return. *)
Definition ports_json (ports : list Port) : bytes := json_map [("ports"%string, json_array (MarshalPort <$> ports))].
Definition session_json (id : string) (s : State) : bytes :=
  json_map [("session_id", json_string id); ("state", json_string (state_text s))]%string.
Definition state_json (s : State) : bytes := json_map [("state"%string, json_string (state_text s))].
Definition chunk_json (c : Chunk) : bytes :=
  json_map [("start", dec_Z (Start c)); ("next", dec_Z (Next c)); ("data", json_slice (Some (Data c)));
            ("gap", json_bool (Gap c))]%string.
Definition rejected_json (id : string) : bytes :=
  json_map [("proposal_id", json_string id); ("state", json_string "rejected")]%string.
Definition written_json (n : nat) : bytes := json_map [("written"%string, dec_Z (Z.of_nat n))].

Definition pending_json (ps : list Proposal) : option bytes :=
  vs ← mapM MarshalProposal ps; Some (json_map [("pending"%string, json_list vs)]).

(** The times of records are in the zone they were written in. *)
Definition records_json (t : list Transcript.Record_) (a : list Audit.Record_) : option bytes :=
  ts ← mapM MarshalTranscript t;
  rs ← mapM MarshalAudit a;
  Some (json_map [("transcript", json_list ts); ("audit", json_list rs)]%string).

(** [json.Marshal] of what the dispatcher returned. *)
Definition MarshalReply (r : reply) : option bytes :=
  match r with
  | RPorts ports => Some (ports_json ports)
  | RSession id s => Some (session_json id s)
  | RState s => Some (state_json s)
  | RChunk c => Some (chunk_json c)
  | RExecute dec t res first last =>
      MarshalExecuteResult {| er_Decision := dec; er_Transaction := transaction_of <$> t; er_Result := result_of <$> res;
                              er_TruncatedStart := first; er_TruncatedEnd := last |}
  | RProposal p => MarshalProposal p
  | RPending ps => pending_json ps
  | RRecords t a => records_json t a
  | RTransaction t => MarshalTransaction (transaction_of t)
  | RRejected id => Some (rejected_json id)
  | RWritten n => Some (written_json n)
  end.

(** ** Specification *)

(** A time that RFC 3339 can write. *)
Definition timely (t : Z) : Prop := t = 0 \/ zone_ok t.

(** The times of a reply can be written, as the clock's can until the year 9999. *)
Definition reply_ok (r : reply) : Prop :=
  match r with
  | RExecute _ t res _ _ => (forall x, t = Some x -> timely (ApprovedAt x)) /\
      (forall x, res = Some x -> timely (CompletedAt x))
  | RProposal p => timely (CreatedAt p) /\ timely (ExpiresAt p)
  | RPending ps => Forall (fun p => timely (CreatedAt p) /\ timely (ExpiresAt p)) ps
  | RRecords t a => Forall (fun r => zone_ok (Transcript.Timestamp r)) t /\ Forall (fun r => zone_ok (Audit.Timestamp r)) a
  | RTransaction t => timely (ApprovedAt t)
  | _ => True
  end.

End Server.

(** The values a client can be sent: Go integers and times with a zone of whole
    minutes. *)
Definition transaction_fits (t : transaction_value) : Prop := int64 (tv_Timeout t) /\ valid_time (tv_ApprovedAt t).
Definition result_fits (r : result_value) : Prop :=
  (forall z, rv_ExitCode r = Some z -> int64 z) /\ int64 (rv_Duration r) /\ valid_time (rv_CompletedAt r).
Definition execute_fits (x : ExecuteResult) : Prop :=
  (forall t, er_Transaction x = Some t -> transaction_fits t) /\ (forall r, er_Result x = Some r -> result_fits r).

(** They arrive with their texts as valid UTF-8. *)
Definition seen_transaction (t : transaction_value) : transaction_value :=
  {| tv_ID := sanitize (tv_ID t); tv_SourceProposalID := sanitize (tv_SourceProposalID t);
     tv_SessionID := sanitize (tv_SessionID t); tv_Transport := sanitize (tv_Transport t);
     tv_Board := sanitize (tv_Board t); tv_Text := sanitize (tv_Text t); tv_Timeout := tv_Timeout t;
     tv_ApprovedAt := tv_ApprovedAt t |}.
Definition seen_result (r : result_value) : result_value :=
  {| rv_TransactionID := sanitize (rv_TransactionID r); rv_SourceProposalID := sanitize (rv_SourceProposalID r);
     rv_Status := sanitize (rv_Status r); rv_ExitCode := rv_ExitCode r; rv_Duration := rv_Duration r;
     rv_Output := rv_Output r; rv_OutputTruncatedStart := rv_OutputTruncatedStart r;
     rv_ContextBefore := rv_ContextBefore r; rv_ContextAfter := rv_ContextAfter r; rv_CompletedAt := rv_CompletedAt r |}.
Definition seen_execute (x : ExecuteResult) : ExecuteResult :=
  {| er_Decision := {| Allowed := Allowed (er_Decision x); Rule := sanitize (Rule (er_Decision x));
                       Reason := sanitize (Reason (er_Decision x)) |};
     er_Transaction := seen_transaction <$> er_Transaction x; er_Result := seen_result <$> er_Result x;
     er_TruncatedStart := er_TruncatedStart x; er_TruncatedEnd := er_TruncatedEnd x |}.

(** ** Lemmas *)

(** *** Values on one line *)

Definition one_line (n : nat) (v : bytes) : Prop := json_text n v /\ line_feed ∉ v.

Lemma one_line_mono n m v : (n <= m)%nat -> one_line n v -> one_line m v.
Proof. intros Hn [Ht Hl]. split; [by apply (text_mono n)|done]. Qed.

Lemma line_string n s : (1 <= n)%nat -> one_line n (json_string s).
Proof. intros Hn. apply (one_line_mono 1); [done|]. split; [apply text_string|apply json_string_no_line]. Qed.

Lemma line_int n z : (1 <= n)%nat -> one_line n (dec_Z z).
Proof. intros Hn. apply (one_line_mono 1); [done|]. split; [apply text_int|apply dec_Z_no_line]. Qed.

Lemma line_bool n b : (1 <= n)%nat -> one_line n (json_bool b).
Proof.
  intros Hn. apply (one_line_mono 1); [done|]. split; [apply text_bool|]. destruct b; by apply (bool_decide_unpack (_ ∉ _)).
Qed.

Lemma line_null n : (1 <= n)%nat -> one_line n json_null.
Proof. intros Hn. apply (one_line_mono 1); [done|]. split; [apply text_null|by apply (bool_decide_unpack (_ ∉ _))]. Qed.

Lemma line_slice n b : (1 <= n)%nat -> one_line n (json_slice b).
Proof. intros Hn. destruct b; [by apply line_string|by apply line_null]. Qed.

Lemma line_int_pointer n z : (1 <= n)%nat -> one_line n (json_int_pointer z).
Proof. intros Hn. destruct z; [by apply line_int|by apply line_null]. Qed.

Lemma line_object n ms : (1 <= n)%nat -> Forall (fun m => one_line n (snd m)) ms -> one_line (S n) (json_object ms).
Proof.
  intros Hn [Ht Hl]%Forall_and. split; [apply text_object; auto using ws_nil|by apply json_object_no_line].
Qed.

Lemma line_map n ms : (1 <= n)%nat -> Forall (fun m => one_line n (snd m)) ms -> one_line (S n) (json_map ms).
Proof. intros Hn Hms. by apply line_object, sort_keys_Forall. Qed.

Lemma line_array n vs : (1 <= n)%nat -> Forall (one_line n) vs -> one_line (S n) (json_array vs).
Proof.
  intros Hn [Ht Hl]%Forall_and. split; [apply text_array; auto using ws_nil|].
  destruct Hl as [|v vs Hv Hvs]; [by apply (bool_decide_unpack (_ ∉ _))|].
  unfold json_array, print_array. cbn [print_items app]. rewrite not_elem_of_cons, !not_elem_of_app.
  split_and!; [done|done| |by apply (bool_decide_unpack (_ ∉ _))]. clear Ht.
  induction Hvs as [|v2 vs H2 _ IH]; [apply not_elem_of_nil|]. cbn [more_items app].
  rewrite not_elem_of_cons, not_elem_of_app. by split_and!.
Qed.

Lemma line_list n vs : (1 <= n)%nat -> Forall (one_line n) vs -> one_line (S n) (json_list vs).
Proof. intros Hn Hvs. destruct vs; [apply line_null; lia|by apply line_array]. Qed.

#[export] Hint Resolve line_string line_int line_bool line_null line_slice line_int_pointer : gw.

Lemma line_time n t : (1 <= n)%nat -> valid_time t -> exists v, MarshalTime t = Some v /\ one_line n v /\
  forall old, into_time v old = Some t.
Proof.
  intros Hn Ht. destruct (time_roundtrip t t Ht) as (v & Hm & Hx & Hl & _). exists v.
  split_and!; [done|by apply (one_line_mono 1)|]. intros old. destruct (time_roundtrip t old Ht) as (v' & Hm' & _ & _ & Hi).
  rewrite Hm in Hm'. by injection Hm' as ->.
Qed.

Lemma one_line_marshalled n v : (n <= 1000)%nat -> one_line n v -> marshalled v.
Proof. intros Hn [Ht Hl]. right. split; [by apply (text_mono n)|done]. Qed.

(** The members of a literal object. *)
Ltac members := repeat (apply Forall_cons_2; [cbn [snd]; first [assumption | by auto with gw arith | by eauto using one_line_mono with arith]|]); apply Forall_nil_2.

(** *** Round trips *)

Lemma field_time {R} (get : R -> Time) put v t r :
  (forall old, into_time v old = Some t) -> field into_time get put v r = Some (put t r).
Proof. unfold field. by intros ->. Qed.

Lemma field_slice {R} (get : R -> option bytes) put b r :
  field into_slice get put (json_slice b) r = Some (put b r).
Proof.
  unfold field, into_slice, into_option. destruct b as [b|]; [|done]. cbn [json_slice].
  unfold is_null. rewrite bool_decide_eq_false_2 by discriminate. by rewrite into_bytes_json.
Qed.

Lemma field_int_pointer {R} (get : R -> option Z) put z r :
  (forall x, z = Some x -> int64 x) -> field (into_option into_int 0) get put (json_int_pointer z) r = Some (put z r).
Proof.
  intros Hz. unfold field, into_option. destruct z as [z|]; [|done]. cbn [json_int_pointer].
  rewrite (proj1 (int_not_null z)), into_int_json by by apply Hz. done.
Qed.

(** A field that is a struct, or a pointer to one, printed as an object. *)
Lemma field_struct {R A} (fs : fields A) (get : R -> A) put n ms a r :
  (1 <= n)%nat -> (n < max_depth)%nat -> Forall (fun m => json_text n (snd m)) ms ->
  Forall (fun m => is_ascii (fst m) = true) ms -> apply_members fs ms (get r) = Some a ->
  field (into_struct fs) get put (json_object ms) r = Some (put a r).
Proof.
  intros H1 Hn Hms Hk Ha. unfold field, json_object. rewrite (struct_print fs n) by (try apply ws_nil; done || lia).
  by rewrite Ha.
Qed.

Lemma field_struct_pointer {R A} (fs : fields A) zero (get : R -> option A) put n ms a r :
  (1 <= n)%nat -> (n < max_depth)%nat -> Forall (fun m => json_text n (snd m)) ms ->
  Forall (fun m => is_ascii (fst m) = true) ms -> apply_members fs ms (default zero (get r)) = Some a ->
  field (into_option (into_struct fs) zero) get put (json_object ms) r = Some (put (Some a) r).
Proof.
  intros H1 Hn Hms Hk Ha. unfold field, into_option. unfold json_object at 1. rewrite object_not_null.
  unfold json_object. rewrite (struct_print fs n) by (try apply ws_nil; done || lia). by rewrite Ha.
Qed.

Ltac run_reply :=
  repeat (cbn -[field json_string json_bool json_slice json_int_pointer dec_Z sanitize into_string into_bool into_int
                into_uint into_time into_slice into_option];
          first [rewrite field_string | rewrite field_bool | rewrite field_int by done | rewrite field_uint by done
                | rewrite field_slice | rewrite field_int_pointer by done | erewrite field_time by eassumption]);
  cbn -[sanitize].

(** What is printed as an object on one line and read over a zero value. *)
Definition object_of {R} (fs : fields R) (zero x : R) (v : bytes) : Prop :=
  exists ms, v = json_object ms /\ Forall (fun m => one_line 1 (snd m)) ms /\
    Forall (fun m => is_ascii (fst m) = true) ms /\ apply_members fs ms zero = Some x.

Lemma transaction_object t : transaction_fits t ->
  exists v, MarshalTransaction t = Some v /\ object_of transactionFields zeroTransaction (seen_transaction t) v.
Proof.
  intros [Hi Ht]. destruct (line_time 1 _ ltac:(lia) Ht) as (ts & Hm & Hl & Hd). unfold MarshalTransaction. rewrite Hm.
  eexists. split; [reflexivity|]. eexists. split_and!; [reflexivity|members|by repeat constructor|].
  run_reply. reflexivity.
Qed.

Lemma result_object r : result_fits r ->
  exists v, MarshalResult r = Some v /\ object_of resultFields zeroResult (seen_result r) v.
Proof.
  intros (Hx & Hi & Ht). destruct (line_time 1 _ ltac:(lia) Ht) as (ts & Hm & Hl & Hd). unfold MarshalResult. rewrite Hm.
  eexists. split; [reflexivity|]. eexists. split_and!; [reflexivity|members|by repeat constructor|].
  run_reply. reflexivity.
Qed.

Lemma object_one_line {R} (fs : fields R) zero x v : object_of fs zero x v -> one_line 2 v.
Proof. intros (ms & -> & Hms & _). by apply line_object. Qed.

Lemma object_pointer {R A} (fs : fields A) zero a v (get : R -> option A) put r :
  object_of fs zero a v -> get r = None ->
  field (into_option (into_struct fs) zero) get put v r = Some (put (Some a) r).
Proof.
  intros (ms & -> & Hms & Hk & Ha) Hr. apply Forall_and in Hms as [Hms _].
  apply (field_struct_pointer _ _ _ _ 1); [lia|unfold max_depth; lia|done|done|by rewrite Hr].
Qed.

Lemma decision_line d : one_line 2 (MarshalDecision d).
Proof. apply line_object; [lia|]. members. Qed.

Lemma field_decision (x : ExecuteResult) d put :
  field (into_struct decisionFields) er_Decision put (MarshalDecision d) x =
  Some (put {| Allowed := Allowed d; Rule := sanitize (Rule d); Reason := sanitize (Reason d) |} x).
Proof.
  apply (field_struct _ _ _ 1); [lia|unfold max_depth; lia| |by repeat constructor|].
  - repeat constructor; first [apply text_bool|apply text_string].
  - run_reply. reflexivity.
Qed.

#[local] Ltac show := cbn -[field MarshalDecision json_bool sanitize into_option into_struct].

(** An execution result arrives as it was sent. *)
Lemma execute_result_roundtrip x : execute_fits x ->
  exists v, MarshalExecuteResult x = Some v /\ one_line 3 v /\ v <> [] /\ decode_execute v = Some (seen_execute x).
Proof.
  intros [Ht Hr]. destruct x as [dec t r a b]. cbn [er_Transaction er_Result] in *.
  assert (Hdec : forall ms, ms <> [] -> Forall (fun m => one_line 2 (snd m)) ms -> Forall (fun m => is_ascii (fst m) = true) ms ->
    apply_members executeResultFields ms zeroExecute = Some (seen_execute (Build_ExecuteResult dec t r a b)) ->
    one_line 3 (json_object ms) /\ json_object ms <> [] /\ decode_execute (json_object ms) =
      Some (seen_execute (Build_ExecuteResult dec t r a b))).
  { intros ms Hne Hms Hk Ha. assert (Hv : json_object ms <> []) by by destruct ms.
    split_and!; [by apply line_object; [lia|]|done|]. unfold decode_execute. destruct (json_object ms) eqn:E; [done|].
    rewrite <-E. apply Forall_and in Hms as [Hms _]. rewrite (Unmarshal_object _ _ 2); [done|lia|unfold max_depth; lia|done|done]. }
  unfold MarshalExecuteResult. cbn [er_Transaction er_Result er_Decision er_TruncatedStart er_TruncatedEnd].
  pose proof (decision_line dec) as Hd.
  destruct t as [t|]; [destruct (transaction_object t (Ht t eq_refl)) as (tv & Htv & Hto); pose proof (object_one_line _ _ _ _ Hto)|];
    (destruct r as [r|]; [destruct (result_object r (Hr r eq_refl)) as (rv & Hrv & Hro); pose proof (object_one_line _ _ _ _ Hro)|]);
    cbn [through]; rewrite ?Htv, ?Hrv; cbn [fmap option_fmap option_map mbind option_bind omit_nil app];
    (eexists; split; [reflexivity|apply Hdec; [done|members|by repeat constructor|]]);
    show; rewrite field_decision; show;
    repeat (first [rewrite field_bool | rewrite (object_pointer _ _ _ _ _ _ _ Hto) by done
                  | rewrite (object_pointer _ _ _ _ _ _ _ Hro) by done]; show); reflexivity.
Qed.

(** The command line decodes the result and marshals it again. *)
Definition reprint (data : bytes) : option bytes := x ← decode_execute data; MarshalExecuteResult x.

(** What the command line prints of an execution result. *)
Lemma reprint_seen x : execute_fits x ->
  exists v w, MarshalExecuteResult x = Some v /\ one_line 3 v /\ v <> [] /\
    MarshalExecuteResult (seen_execute x) = Some w /\ one_line 3 w /\ w <> [] /\ reprint v = Some w.
Proof.
  intros Hx. assert (Hs : execute_fits (seen_execute x)).
  { destruct Hx as [Ht Hr]. split.
    - intros t (t0 & E & ->)%fmap_Some. exact (Ht t0 E).
    - intros r (r0 & E & ->)%fmap_Some. exact (Hr r0 E). }
  destruct (execute_result_roundtrip x Hx) as (v & Hv & Hl & Hne & Hd), (execute_result_roundtrip _ Hs) as (w & Hw & Hlw & Hnw & _).
  exists v, w. split_and!; [done..|]. unfold reprint. by rewrite Hd.
Qed.

Section Replies.
Context `{LocalZone}.

Lemma timely_valid t : timely t -> valid_time (time_of t).
Proof.
  unfold time_of. intros [->|Hz]; [by vm_compute|]. case_match eqn:E; [by vm_compute|exact Hz].
Qed.

Lemma proposal_line p : timely (CreatedAt p) -> timely (ExpiresAt p) ->
  exists v, MarshalProposal p = Some v /\ one_line 2 v.
Proof.
  intros Hc He. destruct (line_time 1 _ ltac:(lia) (timely_valid _ Hc)) as (c & Hmc & Hlc & _).
  destruct (line_time 1 _ ltac:(lia) (timely_valid _ He)) as (e & Hme & Hle & _).
  unfold MarshalProposal. rewrite Hmc, Hme. eexists. split; [reflexivity|]. apply line_object; [lia|]. members.
Qed.

Lemma transaction_line t : valid_time (tv_ApprovedAt t) -> exists v, MarshalTransaction t = Some v /\ one_line 2 v.
Proof.
  intros Ht. destruct (line_time 1 _ ltac:(lia) Ht) as (a & Ha & Hl & _). unfold MarshalTransaction. rewrite Ha.
  eexists. split; [reflexivity|]. apply line_object; [lia|]. members.
Qed.

Lemma result_line r : valid_time (rv_CompletedAt r) -> exists v, MarshalResult r = Some v /\ one_line 2 v.
Proof.
  intros Ht. destruct (line_time 1 _ ltac:(lia) Ht) as (a & Ha & Hl & _). unfold MarshalResult. rewrite Ha.
  eexists. split; [reflexivity|]. apply line_object; [lia|]. members.
Qed.

Lemma audit_record_line r : zone_ok (Audit.Timestamp r) -> exists v, MarshalAudit r = Some v /\ one_line 2 v.
Proof.
  intros Ht. destruct (line_time 1 _ ltac:(lia) Ht) as (a & Ha & Hl & _). unfold MarshalAudit. rewrite Ha.
  eexists. split; [reflexivity|]. apply line_object; [lia|]. members.
Qed.

Lemma transcript_record_line r : zone_ok (Transcript.Timestamp r) -> exists v, MarshalTranscript r = Some v /\ one_line 2 v.
Proof.
  intros Ht. destruct (line_time 1 _ ltac:(lia) Ht) as (a & Ha & Hl & _). unfold MarshalTranscript. rewrite Ha.
  eexists. split; [reflexivity|]. apply line_object; [lia|]. members.
Qed.

(** Every one of a list is marshalled. *)
Lemma lines {A} (f : A -> option bytes) n (P : A -> Prop) xs :
  (forall x, P x -> exists v, f x = Some v /\ one_line n v) -> Forall P xs ->
  exists vs, mapM f xs = Some vs /\ Forall (one_line n) vs.
Proof.
  intros Hf Hxs. induction Hxs as [|x xs Hx _ (vs & Hvs & Hl)]; [by exists []|].
  destruct (Hf x Hx) as (v & Hv & Hlv). exists (v :: vs). split; [|by constructor].
  apply mapM_Some. constructor; [done|]. by apply mapM_Some.
Qed.

Lemma execute_line x :
  (forall t, er_Transaction x = Some t -> valid_time (tv_ApprovedAt t)) ->
  (forall r, er_Result x = Some r -> valid_time (rv_CompletedAt r)) ->
  exists v, MarshalExecuteResult x = Some v /\ one_line 3 v.
Proof.
  intros Ht Hr. destruct x as [dec t r a b]. cbn [er_Transaction er_Result] in *. unfold MarshalExecuteResult.
  cbn [er_Transaction er_Result er_Decision er_TruncatedStart er_TruncatedEnd]. pose proof (decision_line dec) as Hd.
  destruct t as [t|]; [destruct (transaction_line t (Ht t eq_refl)) as (tv & Htv & Hto)|];
    (destruct r as [r|]; [destruct (result_line r (Hr r eq_refl)) as (rv & Hrv & Hro)|]);
    cbn [through]; rewrite ?Htv, ?Hrv; cbn [fmap option_fmap option_map mbind option_bind omit_nil app];
    (eexists; split; [reflexivity|]); (apply line_object; [lia|]); members.
Qed.

Lemma line_member1 n k v : one_line n v -> (1 <= n)%nat -> one_line (S n) (json_map [(k, v)]).
Proof. intros Hv Hn. apply line_map; [done|]. by apply Forall_singleton. Qed.

(** Every reply is one line of JSON, nested at most four deep. *)
Lemma reply_line r : reply_ok r -> exists v, MarshalReply r = Some v /\ one_line 4 v.
Proof.
  assert (H2 : forall v, one_line 2 v -> one_line 4 v) by (intros v; apply one_line_mono; lia).
  destruct r as [ports|sid s|s|c|dec t res a b|p|ps|ts rs|t|pid|n]; cbn [reply_ok MarshalReply]; unfold pending_json, records_json.
  - intros _. eexists. split; [reflexivity|]. apply line_member1; [|lia]. apply line_array; [lia|].
    apply Forall_fmap, Forall_true. intros p. apply line_object; [lia|]. members.
  - intros _. eexists. split; [reflexivity|]. apply H2, line_map; [lia|]. members.
  - intros _. eexists. split; [reflexivity|]. apply H2, line_map; [lia|]. members.
  - intros _. eexists. split; [reflexivity|]. apply H2, line_map; [lia|]. members.
  - intros [Ht Hr]. destruct (execute_line {| er_Decision := dec; er_Transaction := transaction_of <$> t;
      er_Result := result_of <$> res; er_TruncatedStart := a; er_TruncatedEnd := b |}) as (v & Hv & Hl).
    + intros x (x0 & E & ->)%fmap_Some. apply timely_valid, (Ht x0 E).
    + intros x (x0 & E & ->)%fmap_Some. apply timely_valid, (Hr x0 E).
    + exists v. split; [done|]. apply (one_line_mono 3); [lia|done].
  - intros [Hc He]. destruct (proposal_line p Hc He) as (v & Hv & Hl). exists v. by split; [|apply H2].
  - intros Hps. destruct (lines MarshalProposal 2 _ ps (fun p '(conj Hc He) => proposal_line p Hc He) Hps) as (vs & -> & Hl).
    eexists. split; [reflexivity|]. apply line_member1; [|lia]. apply line_list; [lia|done].
  - intros [Ht Ha]. destruct (lines MarshalTranscript 2 _ ts transcript_record_line Ht) as (vs & -> & Hl).
    destruct (lines MarshalAudit 2 _ rs audit_record_line Ha) as (ws & -> & Hw).
    eexists. split; [reflexivity|]. apply line_map; [lia|].
    apply Forall_cons_2; [by apply line_list; [lia|]|]. apply Forall_singleton. by apply line_list; [lia|].
  - intros Ht. destruct (transaction_line (transaction_of t) (timely_valid _ Ht)) as (v & Hv & Hl). exists v. by split; [|apply H2].
  - intros _. eexists. split; [reflexivity|]. apply H2, line_map; [lia|]. members.
  - intros _. eexists. split; [reflexivity|]. apply H2, line_map; [lia|]. members.
Qed.

(** The poller sees the bytes of a chunk and where to go on. *)
Lemma chunk_back c v : 0 <= Next c < 2 ^ 64 -> MarshalReply (RChunk c) = Some v -> decode_chunk v = Some (Next c, Some (Data c)).
Proof.
  intros Hn [= <-]. unfold decode_chunk, chunk_json. rewrite (Unmarshal_map _ _ 1); [|lia|unfold max_depth; lia|].
  - order_keys. change (json_string (of_bytes (base64 (Data c)))) with (json_slice (Some (Data c))).
    repeat (cbn -[field json_bool json_slice dec_Z into_slice into_uint]; first [rewrite field_uint by done | rewrite field_slice]).
    done.
  - repeat (apply Forall_cons_2; [split; [cbn [snd]; first [apply (line_string 1); lia|apply (line_bool 1); lia|apply (line_int 1); lia]|done]|]).
    apply Forall_nil_2.
Qed.

End Replies.
