(* ===== verification/Serial.v ===== *)
(** * Serial ports (src/internal/transport/serial/discovery_linux.go,
    byid_production_linux.go)

    Discovery, the opening of a port, and what it takes for a UART session to
    get one. The port list and the opening of a device are those of
    go.bug.st/serial; the directory and its links are the operating system's. *)

From S2P Require Import Prelude GoStd Profile Dispatcher.

(** ** The host *)

(** [portMode] is the [upstream.Mode] a port is opened with. *)
Inductive UpParity := NoParity | OddParity | EvenParity.
Inductive UpStopBits := OneStopBit | TwoStopBits.
Record portMode := { up_BaudRate : Z; up_DataBits : Z; up_Parity : UpParity; up_StopBits : UpStopBits }.

(** What the calls out of this package return: [GetPortsList], [os.ReadDir] of
    the by-id directory, [filepath.EvalSymlinks] and [upstream.Open]. *)
Record host := {
  GetPortsList : option (list string);
  ReadDir : string -> option (list string);
  EvalSymlinks : string -> option string;
  upstream_Open : string -> portMode -> option nat
}.

(** ** Discovery *)

Definition trustedByIDDir : string := "/dev/serial/by-id".
Definition serialByIDDir : string := trustedByIDDir.

(** A production build adds no ports. *)
Definition appendIntegrationPorts (ports : list Port) (byID : gmap string string) : list Port := ports.

Definition link_path (e : string) : string := PathJoin [serialByIDDir; e].

(** One directory entry; a later link to the same device replaces an earlier one. *)
Definition resolve_step (h : host) (out : gmap string string) (e : string) : gmap string string :=
  match EvalSymlinks h (link_path e) with
  | Some target => <[target := link_path e]> out
  | None => out
  end.

(** A nil map has no entries. *)
Definition resolveByID (h : host) : gmap string string :=
  match ReadDir h serialByIDDir with
  | None => ∅
  | Some entries => foldl (resolve_step h) ∅ entries
  end.

Definition listed_port (byID : gmap string string) (name : string) : Port :=
  {| Path := name; ByIDPath := default ""%string (byID !! name); USBSerialNumber := "" |}.

Definition List_ (h : host) : option (list Port) :=
  match GetPortsList h with
  | None => None
  | Some names => let byID := resolveByID h in
                  Some (appendIntegrationPorts (listed_port byID <$> names) byID)
  end.

(** ** Opening *)

Definition toUpstreamMode (s : LineSettings) : portMode :=
  {| up_BaudRate := BaudRate s; up_DataBits := DataBits s;
     up_Parity := if String.eqb (Parity s) "odd" then OddParity
                  else if String.eqb (Parity s) "even" then EvenParity else NoParity;
     up_StopBits := if StopBits s =? 2 then TwoStopBits else OneStopBit |}.

Inductive OpenError := ErrSettings (e : LineError) | ErrFlow | ErrUpstream.

(** The stream is the handle with the port's identity. *)
Record stream := { handle : nat; identity : Identity }.

Definition stream_Kind (s : stream) : string := "uart".

Definition Open (h : host) (port : Port) (settings : LineSettings) : result OpenError stream :=
  match Validate settings with
  | Some e => Err (ErrSettings e)
  | None =>
      if negb (String.eqb (Flow settings) "none") then Err ErrFlow
      else match upstream_Open h (Path port) (toUpstreamMode settings) with
           | None => Err ErrUpstream
           | Some fd => Ok {| handle := fd; identity := port_Identity port |}
           end
  end.

(** The dispatcher's ports, from this host: [doListPorts] and [doOpenPort]. *)
Definition on_host (h : host) (e : env) : env :=
  {| dr := dr e; rnd_sess := rnd_sess e; ios := ios e; fresh := fresh e; load := load e;
     listPorts := List_ h;
     openPort := fun p l => match Open h p l with Ok s => Some (handle s) | Err _ => None end;
     dialSSH := dialSSH e; dialTelnet := dialTelnet e; reopen := reopen e; op_id := op_id e;
     done_id := done_id e; close_fails := close_fails e; read_fails := read_fails e |}.

(** ** Lemmas *)

(** The link recorded for a device is the last one in the directory that
    resolves to it. *)
Lemma resolve_spec h entries out name link :
  foldl (resolve_step h) out entries !! name = Some link <->
  (exists before e after, entries = before ++ e :: after /\ link = link_path e /\
     EvalSymlinks h link = Some name /\
     forall e', e' ∈ after -> EvalSymlinks h (link_path e') <> Some name) \/
  (out !! name = Some link /\ forall e, e ∈ entries -> EvalSymlinks h (link_path e) <> Some name).
Proof.
  revert out. induction entries as [|e entries IH]; intros out; cbn [foldl].
  { split; [right; split; [done|]; by intros ? ?%elem_of_nil|].
    intros [(before & x & after & Heq & _)|[H _]]; [by destruct before|done]. }
  rewrite IH. unfold resolve_step. split.
  - intros [(before & x & after & -> & H)|[Hout Hnone]].
    { left. by exists (e :: before), x, after. }
    destruct (EvalSymlinks h (link_path e)) as [target|] eqn:He.
    + destruct (decide (target = name)) as [->|Hne].
      * rewrite lookup_insert_eq in Hout. injection Hout as <-. left. by exists [], e, entries.
      * rewrite lookup_insert_ne in Hout by done. right. split; [done|].
        intros x [->|Hx]%elem_of_cons; [congruence|by apply Hnone].
    + right. split; [done|]. intros x [->|Hx]%elem_of_cons; [congruence|by apply Hnone].
  - intros [(before & x & after & Heq & Hl & Hx & Hafter)|[Hout Hnone]].
    + destruct before as [|y before]; injection Heq as -> ->.
      * right. subst link. rewrite Hx, lookup_insert_eq. done.
      * left. by exists before, x, after.
    + right. split; [|intros x Hx; apply Hnone; set_solver].
      destruct (EvalSymlinks h (link_path e)) as [target|] eqn:He; [|done].
      rewrite lookup_insert_ne; [done|]. intros ->. apply (Hnone e); [set_solver|done].
Qed.

Lemma link_path_nonempty e : link_path e <> ""%string.
Proof. unfold link_path, PathJoin. cbn [List.filter]. by destruct (negb (String.eqb e "")). Qed.

(** A recorded link names an entry that resolves to the device now. *)
Lemma by_id_resolves h name link :
  resolveByID h !! name = Some link ->
  EvalSymlinks h link = Some name /\ link <> ""%string /\
  exists entries e, ReadDir h trustedByIDDir = Some entries /\ e ∈ entries /\ link = link_path e.
Proof.
  unfold resolveByID, serialByIDDir. destruct (ReadDir h trustedByIDDir) as [entries|] eqn:Hr; [|done].
  intros [(before & e & after & -> & -> & He & _)|[H _]]%resolve_spec; [|done].
  split_and!; [done|apply link_path_nonempty|]. exists (before ++ e :: after), e. split_and!; [done|set_solver|done].
Qed.

(** Ports are listed by name; the only identity they carry is their link. *)
Lemma listed_identity h name i :
  Known i = true ->
  port_Identity (listed_port (resolveByID h) name) = i <->
  exists link, i = {| Kind := "usb-serial-by-id"; Key := link |} /\ resolveByID h !! name = Some link.
Proof.
  intros Hk. unfold port_Identity, listed_port. cbn [ByIDPath USBSerialNumber].
  destruct (resolveByID h !! name) as [link|] eqn:Hl; cbn [default from_option id].
  - destruct (by_id_resolves h name link Hl) as (_ & Hne & _).
    apply String.eqb_neq in Hne. rewrite Hne. cbn [negb]. split; [intros <-; by exists link|].
    intros (l & -> & [= ->]). done.
  - cbn. split; [by intros <-|]. by intros (l & _ & ?).
Qed.

(** The match over the listed ports. *)
Lemma match_ports h want names p :
  match_Port (Match want (listed_port (resolveByID h) <$> names)) = Some p <->
  exists before name after link, names = before ++ name :: after /\ name ∉ before ++ after /\
    want = {| Kind := "usb-serial-by-id"; Key := link |} /\
    resolveByID h !! name = Some link /\ p = listed_port (resolveByID h) name.
Proof.
  rewrite (proj1 (Match_unique want _ p)). split.
  - intros (Hk & ports1 & ports2 & Heq & Hid & Hother).
    apply fmap_app_inv in Heq as (before & rest & -> & Hrest & ->).
    symmetry in Hrest. apply fmap_cons_inv in Hrest as (name & after & -> & -> & ->).
    apply (listed_identity h name want Hk) in Hid as (link & -> & Hl).
    exists before, name, after, link. split_and!; try done. intros Hin.
    apply (Hother (listed_port (resolveByID h) name)).
    + rewrite <-fmap_app. by apply list_elem_of_fmap_2.
    + apply listed_identity; [done|by exists link].
  - intros (before & name & after & link & -> & Hnin & -> & Hl & ->).
    destruct (by_id_resolves h name link Hl) as (He & Hne & _).
    assert (Hk : Known {| Kind := "usb-serial-by-id"; Key := link |} = true).
    { unfold Known. cbn. apply String.eqb_neq in Hne. by rewrite Hne. }
    split; [done|]. exists (listed_port (resolveByID h) <$> before), (listed_port (resolveByID h) <$> after).
    split_and!; [by rewrite fmap_app|apply listed_identity; [done|by exists link]|].
    intros q Hq Hid. rewrite <-fmap_app in Hq. apply list_elem_of_fmap in Hq as (n & -> & Hn).
    apply listed_identity in Hid as (l & [= <-] & Hln); [|done].
    destruct (by_id_resolves h n link Hln) as (He' & _). congruence.
Qed.

(** ** Properties *)

(** A UART session opens exactly the board's adapter. It gets a device
    exactly when the profile's identity is a link in the trusted by-id
    directory that resolves at this moment to one enumerated device, listed
    once, the line settings are valid and ask for no flow control, and the
    operating system opens that device with that very baud rate, data bits,
    parity and stop bits. In particular a device that took over an old name, a
    device that only a link names, and an identity by raw serial number never
    open. *)
Theorem uart_open_exact h e u fd :
  openUART (on_host h e) u = Some fd <->
  exists before name after link,
    GetPortsList h = Some (before ++ name :: after) /\ name ∉ before ++ after /\
    uart_Identity u = {| Kind := "usb-serial-by-id"; Key := link |} /\
    resolveByID h !! name = Some link /\ EvalSymlinks h link = Some name /\
    (exists entries x, ReadDir h "/dev/serial/by-id" = Some entries /\ x ∈ entries /\
       link = PathJoin ["/dev/serial/by-id"%string; x]) /\
    Validate (uart_Line u) = None /\ Flow (uart_Line u) = "none"%string /\
    upstream_Open h name (toUpstreamMode (uart_Line u)) = Some fd.
Proof.
  unfold openUART. cbn [listPorts openPort on_host]. unfold List_, appendIntegrationPorts.
  destruct (GetPortsList h) as [names|] eqn:Hn; [|by split; [|naive_solver]].
  set (ports := listed_port (resolveByID h) <$> names).
  assert (Hmatch : forall p, match_Port (Match (uart_Identity u) ports) = Some p <->
    exists before name after link, names = before ++ name :: after /\ name ∉ before ++ after /\
      uart_Identity u = {| Kind := "usb-serial-by-id"; Key := link |} /\
      resolveByID h !! name = Some link /\ p = listed_port (resolveByID h) name) by apply match_ports.
  destruct (Match_unique (uart_Identity u) ports (listed_port ∅ "")) as [_ Hneeds]. rewrite Hneeds.
  destruct (match_Port (Match (uart_Identity u) ports)) as [p|] eqn:Hp.
  - rewrite bool_decide_false by done. unfold Open.
    destruct (proj1 (Hmatch p) eq_refl) as (before & name & after & link & -> & Hnin & Hi & Hlink & ->).
    cbn [Path listed_port]. split.
    + intros Hopen. exists before, name, after, link. destruct (by_id_resolves h name link Hlink) as (He & _ & Hx).
      destruct (Validate (uart_Line u)); [done|]. destruct (String.eqb (Flow (uart_Line u)) "none") eqn:Hf; [|done].
      bools. cbn [negb] in Hopen. destruct (upstream_Open h name _); simplify_eq/=. split_and!; done.
    + intros (before' & name' & after' & link' & [= Hns] & _ & Hi' & Hlink' & He' & _ & Hv & Hf & Hup).
      rewrite Hi in Hi'. injection Hi' as <-. destruct (by_id_resolves h name link Hlink) as (He & _ & _).
      assert (name' = name) as -> by congruence. rewrite Hv, Hf. cbn. by rewrite Hup.
  - rewrite bool_decide_true by done. split; [done|].
    intros (before & name & after & link & [= ->] & Hnin & Hi & Hlink & _).
    assert (Hsome : None = Some (listed_port (resolveByID h) name)); [|done].
    apply Hmatch. by exists before, name, after, link.
Qed.

(** *** An instance: two listed ports, one of them with a link *)

Definition demo_host : host :=
  {| GetPortsList := Some ["/dev/ttyS0"; "/dev/ttyUSB0"]%string;
     ReadDir := fun d => if String.eqb d "/dev/serial/by-id" then Some ["usb-1"%string] else None;
     EvalSymlinks := fun p => if String.eqb p "/dev/serial/by-id/usb-1" then Some "/dev/ttyUSB0"%string else None;
     upstream_Open := fun p _ => if String.eqb p "/dev/ttyUSB0" then Some 7%nat else None |}.

Example demo_host_ports :
  List_ demo_host = Some
    [{| Path := "/dev/ttyS0"; ByIDPath := ""; USBSerialNumber := "" |};
     {| Path := "/dev/ttyUSB0"; ByIDPath := "/dev/serial/by-id/usb-1"; USBSerialNumber := "" |}].
Proof. vm_compute. reflexivity. Qed.

Example demo_host_open :
  Open demo_host {| Path := "/dev/ttyUSB0"; ByIDPath := "/dev/serial/by-id/usb-1"; USBSerialNumber := "" |}
    {| BaudRate := 115200; DataBits := 7; Parity := "even"; StopBits := 2; Flow := "none" |} =
  Ok {| handle := 7; identity := {| Kind := "usb-serial-by-id"; Key := "/dev/serial/by-id/usb-1" |} |}.
Proof. vm_compute. reflexivity. Qed.
