(* ===== verification/Server.v ===== *)
(** * Life of the servers (src/internal/ipc/server_linux.go,
    src/cmd/gatewayd/main.go: serveDaemonSockets)

    Listening, accepting and closing as interleaved steps: the accept loop, one
    handler per connection, the goroutine that closes, and the daemon that
    starts and stops its servers. What a handler answers is Ipc.v; here it is
    the number of requests it has still to read. *)

From S2P Require Import Prelude Ipc Store.

(** ** Listen *)

(** The system calls that fail, and the mode a socket gets from the umask. *)
Record listen_io := { bind_ok : bool; umask_mode : Z; sock_chmod_ok : bool; sock_rename_ok : bool }.

(** The states of the directory after each call of [Listen], and whether it
    returns a server. Closing a listener unlinks the name it was bound to. *)
Definition Listen (io : listen_io) (fs : filesystem) (path : string) : list filesystem * bool :=
  let tmp := (path +:+ ".tmp")%string in
  let fs0 := delete tmp fs in
  if negb (bind_ok io) then ([fs0], false)
  else
    let fs1 := <[tmp := {| mode := umask_mode io; content := [] |}]> fs0 in
    if negb (sock_chmod_ok io) then ([fs0; fs1; delete tmp fs1], false)
    else
      let fs2 := <[tmp := {| mode := 384; content := [] |}]> fs1 in
      let fs3 := delete path fs2 in
      if negb (sock_rename_ok io) then ([fs0; fs1; fs2; fs3; delete tmp fs3], false)
      else ([fs0; fs1; fs2; fs3; <[path := {| mode := 384; content := [] |}]> (delete tmp fs3)], true).

(** ** One server *)

(** The accept loop: its goroutine has not run yet, waits in [Accept], holds a
    connection it has not registered, or has returned. *)
Inductive serve_state := NotServing | Accepting | Accepted (c : nat) | ServeEnded.

(** A handler by where it is, with the requests it has buffered: reading,
    inside the dispatcher, inside it and waiting for a transaction, inside it
    and in a call that leaves the program and has no deadline (the dial of a
    session start or a retry, a write to the target, the wait for a session's
    reader), about to run its cleanup, about to run [wg.Done]. *)
Inductive handler :=
| Reading (buffered : nat) | Dispatching (buffered : nat) | Waiting (buffered : nat) | Outside (buffered : nat)
| Cleaning | Finishing.

(** [Close]: not called, and its calls in turn; [CloseWaiting] is [wg.Wait]. *)
Inductive close_state := NotClosed | QuitClosed | ListenerClosed | PathRemoved | CloseWaiting | CloseReturned.

(** [open_conns] are the connections whose descriptor is open. [spawned] says
    that the goroutine of [Serve] was started, [closing] that [Close] was
    called, [shut] that the dispatcher was shut down. *)
Record server := {
  spawned : bool;
  closing : bool;
  shut : bool;
  quit : bool;
  listening : bool;
  bound : bool;
  serve : serve_state;
  conns : gset nat;
  open_conns : gset nat;
  handlers : gmap nat handler;
  wg : Z;
  closer : close_state
}.

(** What [Listen] returns: it has called [wg.Add(1)] for [Serve]. *)
Definition new_server : server :=
  {| spawned := false; closing := false; shut := false; quit := false; listening := true; bound := true;
     serve := NotServing; conns := ∅; open_conns := ∅; handlers := ∅; wg := 1; closer := NotClosed |}.

Definition set_serve (v : serve_state) (d : Z) (s : server) : server :=
  {| spawned := spawned s; closing := closing s; shut := shut s; quit := quit s; listening := listening s;
     bound := bound s; serve := v; conns := conns s; open_conns := open_conns s; handlers := handlers s;
     wg := wg s + d; closer := closer s |}.
Definition set_open (o : gset nat) (s : server) : server :=
  {| spawned := spawned s; closing := closing s; shut := shut s; quit := quit s; listening := listening s;
     bound := bound s; serve := serve s; conns := conns s; open_conns := o; handlers := handlers s;
     wg := wg s; closer := closer s |}.
Definition set_conns (cs : gset nat) (s : server) : server :=
  {| spawned := spawned s; closing := closing s; shut := shut s; quit := quit s; listening := listening s;
     bound := bound s; serve := serve s; conns := cs; open_conns := open_conns s; handlers := handlers s;
     wg := wg s; closer := closer s |}.
Definition set_handlers (h : gmap nat handler) (d : Z) (s : server) : server :=
  {| spawned := spawned s; closing := closing s; shut := shut s; quit := quit s; listening := listening s;
     bound := bound s; serve := serve s; conns := conns s; open_conns := open_conns s; handlers := h;
     wg := wg s + d; closer := closer s |}.
Definition set_flags (sp cl sh : bool) (s : server) : server :=
  {| spawned := sp; closing := cl; shut := sh; quit := quit s; listening := listening s;
     bound := bound s; serve := serve s; conns := conns s; open_conns := open_conns s; handlers := handlers s;
     wg := wg s; closer := closer s |}.
Definition set_closer (q l b : bool) (v : close_state) (s : server) : server :=
  {| spawned := spawned s; closing := closing s; shut := shut s; quit := q; listening := l;
     bound := b; serve := serve s; conns := conns s; open_conns := open_conns s; handlers := handlers s;
     wg := wg s; closer := v |}.

(** [Accept] fails, for whatever reason: [Serve] returns. *)
Definition accept_fails (s : server) : server := set_serve ServeEnded (-1) s.

(** The critical section after [Accept]: close the connection when quitting,
    register it and start its handler otherwise. *)
Definition register (c : nat) (s : server) : server :=
  if quit s then set_serve ServeEnded (-1) (set_open (open_conns s ∖ {[c]}) s)
  else set_serve Accepting 0 (set_handlers (<[c := Reading 0]> (handlers s)) 1 (set_conns ({[c]} ∪ conns s) s)).

Definition put_handler (c : nat) (h : handler) (s : server) : server :=
  set_handlers (<[c := h]> (handlers s)) 0 s.

(** The deferred cleanup of a handler, then [wg.Done]. *)
Definition cleanup (c : nat) (s : server) : server :=
  put_handler c Finishing (set_open (open_conns s ∖ {[c]}) (set_conns (conns s ∖ {[c]}) s)).
Definition finish (c : nat) (s : server) : server := set_handlers (delete c (handlers s)) (-1) s.

(** The steps of one server. [srv_hang_up] is any reason to stop reading: the
    peer closed, the connection was closed here, or the frame is too large. *)
Inductive server_step : server -> server -> Prop :=
| srv_serve s : spawned s = true -> serve s = NotServing -> server_step s (set_serve Accepting 0 s)
| srv_accept s c :
    serve s = Accepting -> listening s = true -> c ∉ open_conns s -> c ∉ conns s -> handlers s !! c = None ->
    server_step s (set_serve (Accepted c) 0 (set_open ({[c]} ∪ open_conns s) s))
| srv_accept_fails s : serve s = Accepting -> server_step s (accept_fails s)
| srv_register s c : serve s = Accepted c -> server_step s (register c s)
| srv_deliver s c b :
    handlers s !! c = Some (Reading b) -> c ∈ open_conns s -> server_step s (put_handler c (Reading (S b)) s)
| srv_take s c b :
    handlers s !! c = Some (Reading (S b)) -> server_step s (put_handler c (Dispatching b) s)
| srv_wait s c b :
    handlers s !! c = Some (Dispatching b) -> server_step s (put_handler c (Waiting b) s)
| srv_call s c b :
    handlers s !! c = Some (Dispatching b) -> server_step s (put_handler c (Outside b) s)
| srv_return s c b :
    handlers s !! c = Some (Outside b) -> server_step s (put_handler c (Reading b) s)
| srv_answer s c b :
    handlers s !! c = Some (Dispatching b) -> server_step s (put_handler c (Reading b) s)
| srv_finished s c b :
    handlers s !! c = Some (Waiting b) -> server_step s (put_handler c (Reading b) s)
| srv_hang_up s c b :
    handlers s !! c = Some (Reading b) -> server_step s (put_handler c Cleaning s)
| srv_cleanup s c : handlers s !! c = Some Cleaning -> server_step s (cleanup c s)
| srv_finish s c : handlers s !! c = Some Finishing -> server_step s (finish c s)
| srv_close_quit s :
    closing s = true -> closer s = NotClosed ->
    server_step s (set_closer true (listening s) (bound s) QuitClosed s)
| srv_close_listener s :
    closer s = QuitClosed -> server_step s (set_closer (quit s) false (bound s) ListenerClosed s)
| srv_close_path s :
    closer s = ListenerClosed -> server_step s (set_closer (quit s) (listening s) false PathRemoved s)
| srv_close_conns s :
    closer s = PathRemoved ->
    server_step s (set_closer (quit s) (listening s) (bound s) CloseWaiting
      (set_open (open_conns s ∖ conns s) s))
| srv_close_return s :
    closer s = CloseWaiting -> wg s = 0 ->
    server_step s (set_closer (quit s) (listening s) (bound s) CloseReturned s).

(** ** The daemon *)

(** [serveDaemonSockets]: listening on the sockets still to open, running,
    returning, with the dispatcher shut down, closing the servers, returned. *)
Inductive phase := Listening (todo : nat) | Running | Stopping | ShutDown | Closing | Done.

Record daemon := { now_in : phase; servers : list server }.

Definition new_daemon (sockets : nat) : daemon := {| now_in := Listening sockets; servers := [] |}.

Definition spawn (s : server) : server := set_flags true (closing s) (shut s) s.
Definition shutdown (s : server) : server := set_flags (spawned s) (closing s) true s.
Definition start_close (s : server) : server := set_flags (spawned s) true (shut s) s.

(** [listenerGroup.Close] closes every server in a goroutine of its own and
    returns when all have. *)
Inductive daemon_step : daemon -> daemon -> Prop :=
| d_listen n ss :
    daemon_step {| now_in := Listening (S n); servers := ss |}
                {| now_in := Listening n; servers := ss ++ [new_server] |}
| d_listen_fails n ss :
    daemon_step {| now_in := Listening (S n); servers := ss |} {| now_in := Stopping; servers := ss |}
| d_run ss :
    daemon_step {| now_in := Listening 0; servers := ss |} {| now_in := Running; servers := spawn <$> ss |}
| d_signal ss :
    daemon_step {| now_in := Running; servers := ss |} {| now_in := Stopping; servers := ss |}
| d_serve_stopped ss s :
    s ∈ ss -> serve s = ServeEnded ->
    daemon_step {| now_in := Running; servers := ss |} {| now_in := Stopping; servers := ss |}
| d_shutdown ss :
    daemon_step {| now_in := Stopping; servers := ss |} {| now_in := ShutDown; servers := shutdown <$> ss |}
| d_close ss :
    daemon_step {| now_in := ShutDown; servers := ss |} {| now_in := Closing; servers := start_close <$> ss |}
| d_closed ss :
    (forall s, s ∈ ss -> closer s = CloseReturned) ->
    daemon_step {| now_in := Closing; servers := ss |} {| now_in := Done; servers := ss |}
| d_server p ss i s s' :
    ss !! i = Some s -> server_step s s' ->
    daemon_step {| now_in := p; servers := ss |} {| now_in := p; servers := <[i := s']> ss |}.

(** ** Specification *)

(** A server that holds nothing: no goroutine, no connection, no name. *)
Definition released (s : server) : Prop :=
  serve s = ServeEnded /\ handlers s = ∅ /\ conns s = ∅ /\ open_conns s = ∅ /\
  listening s = false /\ bound s = false.

(** How far [Close] is. *)
Definition close_rank (v : close_state) : nat :=
  match v with
  | NotClosed => 0 | QuitClosed => 1 | ListenerClosed => 2 | PathRemoved => 3
  | CloseWaiting => 4 | CloseReturned => 5
  end.

(** The steps a server takes by itself: no client, no transaction that ends, no
    call that returns from outside and no failing system call is needed. A
    handler in the dispatcher answers, waits or calls outside. *)
Inductive own_step : server -> server -> Prop :=
| own_serve s : spawned s = true -> serve s = NotServing -> own_step s (set_serve Accepting 0 s)
| own_accept_fails s : serve s = Accepting -> listening s = false -> own_step s (accept_fails s)
| own_register s c : serve s = Accepted c -> own_step s (register c s)
| own_take s c b : handlers s !! c = Some (Reading (S b)) -> own_step s (put_handler c (Dispatching b) s)
| own_answer s c b : handlers s !! c = Some (Dispatching b) -> own_step s (put_handler c (Reading b) s)
| own_wait s c b : handlers s !! c = Some (Dispatching b) -> own_step s (put_handler c (Waiting b) s)
| own_call s c b : handlers s !! c = Some (Dispatching b) -> own_step s (put_handler c (Outside b) s)
| own_wake s c b :
    handlers s !! c = Some (Waiting b) -> shut s = true -> own_step s (put_handler c (Reading b) s)
| own_hang_up s c b :
    handlers s !! c = Some (Reading b) -> c ∉ open_conns s -> own_step s (put_handler c Cleaning s)
| own_cleanup s c : handlers s !! c = Some Cleaning -> own_step s (cleanup c s)
| own_finish s c : handlers s !! c = Some Finishing -> own_step s (finish c s)
| own_close_quit s :
    closing s = true -> closer s = NotClosed ->
    own_step s (set_closer true (listening s) (bound s) QuitClosed s)
| own_close_listener s :
    closer s = QuitClosed -> own_step s (set_closer (quit s) false (bound s) ListenerClosed s)
| own_close_path s :
    closer s = ListenerClosed -> own_step s (set_closer (quit s) (listening s) false PathRemoved s)
| own_close_conns s :
    closer s = PathRemoved ->
    own_step s (set_closer (quit s) (listening s) (bound s) CloseWaiting
      (set_open (open_conns s ∖ conns s) s))
| own_close_return s :
    closer s = CloseWaiting -> wg s = 0 ->
    own_step s (set_closer (quit s) (listening s) (bound s) CloseReturned s).

(** A server that only calls outside the program hold: [Close] waits, the accept
    loop has returned, and each handler left is in such a call. *)
Definition outside (h : handler) : bool := match h with Outside _ => true | _ => false end.

Definition hung (s : server) : Prop :=
  closer s = CloseWaiting /\ serve s = ServeEnded /\ handlers s <> ∅ /\
  map_Forall (fun _ h => outside h = true) (handlers s).

(** ** Lemmas *)

#[export] Hint Constructors server_step : gw.

Lemma own_is_step s s' : own_step s s' -> server_step s s'.
Proof. intros []; eauto with gw. Qed.

Definition serving (s : server) : Z := match serve s with ServeEnded => 0 | _ => 1 end.

Record server_inv (s : server) : Prop := {
  inv_wg : wg s = serving s + Z.of_nat (size (handlers s));
  inv_conns : forall c, c ∈ conns s <-> exists h, handlers s !! c = Some h /\ h <> Finishing;
  inv_open : forall c, c ∈ open_conns s -> c ∈ conns s \/ serve s = Accepted c;
  inv_fresh : forall c, serve s = Accepted c -> handlers s !! c = None;
  inv_quit : (1 <= close_rank (closer s))%nat -> quit s = true;
  inv_listening : (2 <= close_rank (closer s))%nat -> listening s = false;
  inv_bound : (3 <= close_rank (closer s))%nat -> bound s = false;
  inv_shut : (4 <= close_rank (closer s))%nat -> forall c, c ∈ conns s -> c ∉ open_conns s;
  inv_gone : closer s = CloseReturned -> serve s = ServeEnded /\ handlers s = ∅
}.

Lemma server_inv_new : server_inv new_server.
Proof. split; cbn; try lia; try done; set_solver. Qed.

Lemma server_inv_flags a b d s : server_inv s -> server_inv (set_flags a b d s).
Proof. intros []. by split. Qed.

Lemma put_handler_size c (h h' : handler) (m : gmap nat handler) :
  m !! c = Some h' -> size (<[c := h]> m) = size m.
Proof. intros H. rewrite map_size_insert_Some; [done|by eexists]. Qed.

(** A handler moves between the states that keep its connection. *)
Lemma server_inv_put c h h' s :
  handlers s !! c = Some h -> h <> Finishing -> h' <> Finishing -> server_inv s -> server_inv (put_handler c h' s).
Proof.
  intros Hc Hh Hh' []. split; cbn; unfold serving in *; cbn; try done.
  - rewrite (put_handler_size _ _ _ _ Hc). lia.
  - intros c'. rewrite inv_conns0. destruct (decide (c = c')) as [<-|].
    + rewrite lookup_insert_eq. naive_solver.
    + by rewrite lookup_insert_ne.
  - intros c' Hs. destruct (decide (c = c')) as [<-|]; [|rewrite lookup_insert_ne; auto].
    specialize (inv_fresh0 _ Hs). congruence.
  - intros Hr. destruct (inv_gone0 Hr) as [? He]. rewrite He in Hc. done.
Qed.

Lemma server_inv_register c s : serve s = Accepted c -> server_inv s -> server_inv (register c s).
Proof.
  intros Hc []. pose proof (inv_fresh0 _ Hc) as Hn. unfold register. destruct (quit s) eqn:Hq.
  - split; cbn; unfold serving in *; cbn; try done.
    + rewrite inv_wg0, Hc. lia.
    + intros c' Ho. apply elem_of_difference in Ho as [Ho Hne]. apply inv_open0 in Ho as [|Ho]; [by left|].
      rewrite Hc in Ho. set_solver.
    + intros Hr c' Hc'. specialize (inv_shut0 Hr c' Hc'). set_solver.
    + intros Hr. destruct (inv_gone0 Hr). done.
  - assert (Hr : close_rank (closer s) = 0%nat) by (destruct (close_rank (closer s)); [done|]; naive_solver lia).
    split; cbn; unfold serving in *; cbn; rewrite ?Hr; try lia; try done.
    + rewrite map_size_insert_None by done. rewrite inv_wg0, Hc. lia.
    + intros c'. rewrite elem_of_union, elem_of_singleton, inv_conns0. destruct (decide (c = c')) as [<-|].
      * rewrite lookup_insert_eq. naive_solver.
      * rewrite lookup_insert_ne by done. naive_solver.
    + intros c' Ho. apply inv_open0 in Ho. rewrite Hc in Ho. set_solver.
    + intros Hcl. rewrite Hcl in Hr. done.
Qed.

Lemma server_inv_cleanup c s : handlers s !! c = Some Cleaning -> server_inv s -> server_inv (cleanup c s).
Proof.
  intros Hc []. split; cbn; unfold serving in *; cbn; try done.
  - rewrite (put_handler_size _ _ _ _ Hc). lia.
  - intros c'. rewrite elem_of_difference, elem_of_singleton, inv_conns0. destruct (decide (c = c')) as [<-|].
    + rewrite lookup_insert_eq. naive_solver.
    + rewrite lookup_insert_ne by done. naive_solver.
  - intros c' Ho. apply elem_of_difference in Ho as [Ho ?]. apply inv_open0 in Ho. set_solver.
  - intros c' Hs. destruct (decide (c = c')) as [<-|]; [|rewrite lookup_insert_ne; auto].
    specialize (inv_fresh0 _ Hs). congruence.
  - intros Hr c' Hc'. apply elem_of_difference in Hc' as [Hc' _]. specialize (inv_shut0 Hr c' Hc'). set_solver.
  - intros Hr. destruct (inv_gone0 Hr) as [? He]. rewrite He in Hc. done.
Qed.

Lemma server_inv_finish c s : handlers s !! c = Some Finishing -> server_inv s -> server_inv (finish c s).
Proof.
  intros Hc []. split; cbn; unfold serving in *; cbn; try done.
  - rewrite map_size_delete_Some by (by eexists). rewrite inv_wg0.
    assert (size (handlers s) <> 0%nat); [|lia]. apply map_size_ne_0_lookup. by exists c, Finishing.
  - intros c'. rewrite inv_conns0. destruct (decide (c = c')) as [<-|].
    + rewrite lookup_delete_eq. naive_solver.
    + by rewrite lookup_delete_ne.
  - intros c' Hs. destruct (decide (c = c')) as [<-|].
    + apply lookup_delete_eq.
    + rewrite lookup_delete_ne; auto.
  - intros Hr. destruct (inv_gone0 Hr) as [? He]. rewrite He in Hc. done.
Qed.

(** The accept loop moves without registering a connection. *)
Lemma server_inv_serve v d s :
  serve s <> ServeEnded -> (v = Accepting /\ d = 0 \/ v = ServeEnded /\ d = -1) ->
  (forall c, serve s <> Accepted c) -> server_inv s -> server_inv (set_serve v d s).
Proof.
  intros Hne Hv Ha []. split; cbn; unfold serving in *; cbn; try done.
  - rewrite inv_wg0. destruct Hv as [[-> ->]|[-> ->]], (serve s); lia || done.
  - intros c' Ho. apply inv_open0 in Ho as [|Ho]; [by left|]. by destruct (Ha c').
  - intros c' Hs. by destruct Hv as [[-> _]|[-> _]].
  - intros Hr. by destruct (inv_gone0 Hr).
Qed.

Lemma server_inv_accept c s :
  serve s = Accepting -> listening s = true -> c ∉ conns s -> handlers s !! c = None ->
  server_inv s -> server_inv (set_serve (Accepted c) 0 (set_open ({[c]} ∪ open_conns s) s)).
Proof.
  intros Hs Hl Hc Hh []. split; cbn; unfold serving in *; cbn; try done.
  - rewrite inv_wg0, Hs. lia.
  - intros c' Ho. apply elem_of_union in Ho as [->%elem_of_singleton|Ho]; [by right|].
    apply inv_open0 in Ho as [|Ho]; [by left|congruence].
  - by intros c' [= <-].
  - intros Hr. rewrite inv_listening0 in Hl by lia. done.
  - intros Hr. rewrite Hr in *. cbn in *. rewrite inv_listening0 in Hl by lia. done.
Qed.

(** A call of [Close] has done one more of its parts. *)
Lemma server_inv_closer q l b o v s :
  o ⊆ open_conns s ->
  ((1 <= close_rank v)%nat -> q = true) -> ((2 <= close_rank v)%nat -> l = false) ->
  ((3 <= close_rank v)%nat -> b = false) ->
  ((4 <= close_rank v)%nat -> forall c, c ∈ conns s -> c ∉ o) -> (v = CloseReturned -> wg s = 0) ->
  server_inv s -> server_inv (set_closer q l b v (set_open o s)).
Proof.
  intros Ho Hq Hl Hb Hs Hw []. split; cbn; unfold serving in *; cbn; try done.
  - intros c Hc. apply inv_open0. by apply Ho.
  - intros Hv. specialize (Hw Hv). rewrite inv_wg0 in Hw. destruct (serve s); (split; [lia || done|]);
      apply map_size_empty_iff; lia.
Qed.

Lemma server_inv_closer_same q l b v s :
  ((1 <= close_rank v)%nat -> q = true) -> ((2 <= close_rank v)%nat -> l = false) ->
  ((3 <= close_rank v)%nat -> b = false) ->
  ((4 <= close_rank v)%nat -> forall c, c ∈ conns s -> c ∉ open_conns s) -> (v = CloseReturned -> wg s = 0) ->
  server_inv s -> server_inv (set_closer q l b v s).
Proof. intros. by apply (server_inv_closer q l b (open_conns s) v s) in H4. Qed.

Lemma server_inv_step s s' : server_step s s' -> server_inv s -> server_inv s'.
Proof.
  intros Hs Hi.
  destruct Hs as [s Hsp Hs|s c Hs Hl Ho Hc Hh|s Hs|s c Hs|s c b Hh Ho|s c b Hh|s c b Hh|s c b Hh|s c b Hh|s c b Hh|s c b Hh
    |s c b Hh|s c Hh|s c Hh|s Hcl Hv|s Hv|s Hv|s Hv|s Hv Hw];
    eauto 3 using server_inv_put, server_inv_register, server_inv_cleanup, server_inv_finish, server_inv_accept.
  1,2: apply server_inv_serve; [congruence|naive_solver|intros c'; congruence|done].
  all: pose proof (inv_quit _ Hi) as Iq; pose proof (inv_listening _ Hi) as Il; pose proof (inv_bound _ Hi) as Ib;
    pose proof (inv_shut _ Hi) as Is; rewrite Hv in Iq, Il, Ib, Is; cbn in Iq, Il, Ib, Is.
  4: apply server_inv_closer; cbn; auto with lia; set_solver.
  all: apply server_inv_closer_same; cbn; auto with lia; try done; lia.
Qed.

Lemma tmp_other (path : string) : (path +:+ ".tmp")%string <> path.
Proof.
  intros H. apply (f_equal (fun x => length (to_bytes x))) in H. rewrite to_bytes_app, length_app in H.
  cbn in H. lia.
Qed.

(** While [Listen] runs the socket's name is the old one, absent, or the new
    socket with mode 0600; when it returns a server the name is that socket,
    whatever the umask, and the temporary name is gone in any case. Nothing
    else in the directory is touched. *)
Lemma Listen_private io fs path :
  let tmp := (path +:+ ".tmp")%string in
  let out := Listen io fs path in
  Forall (fun st => (st !! path = fs !! path \/ st !! path = None \/
    st !! path = Some {| mode := 384; content := [] |}) /\
    forall other, other <> path -> other <> tmp -> st !! other = fs !! other) out.1 /\
  default fs (last out.1) !! tmp = None /\
  (out.2 = true -> default fs (last out.1) !! path = Some {| mode := 384; content := [] |}).
Proof.
  intros tmp out. assert (Hne : tmp <> path) by apply tmp_other.
  unfold out, Listen. fold tmp. repeat case_match; cbn [fst snd last default from_option id]; split_and!; try done;
    rewrite ?lookup_delete_eq, ?lookup_insert_ne, ?lookup_insert_eq, ?lookup_delete_eq by done; try done;
    repeat (apply Forall_cons_2; [|]); try apply Forall_nil_2;
    (split; [|intros other Ho1 Ho2]);
    repeat first [rewrite lookup_insert_eq | rewrite lookup_delete_eq | rewrite lookup_insert_ne by done
      | rewrite lookup_delete_ne by done]; auto.
Qed.

(** What is left to do once the connections are closed. *)
Definition weight (h : handler) : nat :=
  match h with
  | Reading b => 4 * b + 3
  | Dispatching b => 4 * b + 6
  | Waiting b => 4 * b + 5
  | Outside b => 4 * b + 5
  | Cleaning => 2
  | Finishing => 1
  end.
Definition total (m : gmap nat handler) : nat := map_fold (fun _ h n => weight h + n)%nat 0%nat m.
Definition server_measure (s : server) : nat :=
  (total (handlers s) + match serve s with NotServing => 2 | ServeEnded => 0 | _ => 1 end +
   match closer s with CloseReturned => 0 | _ => 1 end)%nat.

Lemma total_insert_new c h m : m !! c = None -> total (<[c := h]> m) = (weight h + total m)%nat.
Proof. intros Hc. unfold total. rewrite map_fold_insert_L; [done|lia|done]. Qed.

Lemma total_delete c h m : m !! c = Some h -> total m = (weight h + total (delete c m))%nat.
Proof. intros Hc. unfold total. rewrite (map_fold_delete_L _ _ c h m); [done|lia|done]. Qed.

Lemma total_put c h h' m : m !! c = Some h -> (total (<[c := h']> m) + weight h = weight h' + total m)%nat.
Proof.
  intros Hc. rewrite <-insert_delete_eq, total_insert_new by apply lookup_delete_eq.
  rewrite (total_delete c h m) by done. lia.
Qed.

(** After the connections are closed every step of a server is progress, and
    what [Close] has done is never undone. *)
Lemma step_progress s s' :
  server_step s s' -> server_inv s ->
  (close_rank (closer s) <= close_rank (closer s'))%nat /\
  ((4 <= close_rank (closer s))%nat -> (server_measure s' < server_measure s)%nat).
Proof.
  intros Hs [_ Hc Ho Hf Hq Hl _ Hsh _].
  destruct Hs as [s Hsp Hv|s c Hv Hli Hoc Hcn Hh|s Hv|s c Hv|s c b Hh Hoc|s c b Hh|s c b Hh|s c b Hh|s c b Hh|s c b Hh|s c b Hh
    |s c b Hh|s c Hh|s c Hh|s Hcl Hv|s Hv|s Hv|s Hv|s Hv Hw];
    try (unfold register; destruct (quit s) eqn:Hqs); cbn; rewrite ?Hv; cbn; (split; [lia|]); intros Hr; try lia;
    unfold server_measure; cbn; rewrite ?Hv; cbn; try lia;
    try (pose proof (total_put _ _ (Reading (S b)) _ Hh); pose proof (total_put _ _ (Reading b) _ Hh);
         pose proof (total_put _ _ (Dispatching b) _ Hh); pose proof (total_put _ _ (Waiting b) _ Hh);
         pose proof (total_put _ _ (Outside b) _ Hh);
         pose proof (total_put _ _ Cleaning _ Hh); cbn in *; lia).
  - rewrite Hl in Hli by lia. done.
  - exfalso. assert (Hcc : c ∈ conns s) by (apply Hc; by eexists). by apply (Hsh Hr c).
  - pose proof (total_put _ _ Finishing _ Hh). cbn in *. lia.
  - pose proof (total_delete _ _ _ Hh). cbn in *. lia.
Qed.

(** A server being closed can take a step of its own, unless it is hung. *)
Lemma own_progress s :
  server_inv s -> spawned s = true -> closing s = true -> shut s = true ->
  closer s = CloseReturned \/ hung s \/ exists s', own_step s s' /\
    ((close_rank (closer s) < 4)%nat -> close_rank (closer s') = S (close_rank (closer s))).
Proof.
  intros [Hw Hc _ _ _ Hl _ Hsh _] Hsp Hcl Hst. unfold serving in Hw.
  assert (HR : (close_rank (closer s) < 4)%nat \/ closer s = CloseWaiting \/ closer s = CloseReturned)
    by (destruct (closer s); cbn; auto; left; lia).
  destruct HR as [Hr|[Hr|Hr]]; [right; right| |by left].
  - destruct (closer s) eqn:Hk; cbn in Hr; try lia; eexists; (split; [by constructor|]); done.
  - right.
    assert (Hgo : (exists s', own_step s s') -> exists s', own_step s s' /\
      ((close_rank (closer s) < 4)%nat -> close_rank (closer s') = S (close_rank (closer s)))).
    { intros [s' Hs']. exists s'. split; [done|]. rewrite Hr. cbn. lia. }
    destruct (serve s) eqn:Hs; [right; apply Hgo; eexists; by apply own_serve
      |right; apply Hgo; eexists; apply own_accept_fails; [done|]; rewrite Hr in Hl; cbn in Hl; auto with lia
      |right; apply Hgo; eexists; by eapply own_register|].
    destruct (decide (map_Forall (fun _ h => outside h = true) (handlers s))) as [Hall|Hex].
    + destruct (decide (handlers s = ∅)) as [He|Hne]; [right; apply Hgo|by left].
      eexists. eapply own_close_return; [done|]. rewrite Hw, He. done.
    + right. apply Hgo. apply map_not_Forall in Hex as (c & h & Hh & Hno); [|apply _].
      destruct h as [[|b]|b|b|b| |]; try done; eexists; try by econstructor.
      eapply own_hang_up; [done|]. rewrite Hr in Hsh. apply Hsh; [cbn; lia|]. apply Hc. by eexists.
Qed.

(** A hung server cannot. *)
Lemma hung_stays s s' : server_inv s -> hung s -> ~ own_step s s'.
Proof.
  intros Hi (Hc & Hs & Hne & Hall) Hown.
  assert (Hno : forall c h, handlers s !! c = Some h -> outside h = true) by (intros c h; apply Hall).
  destruct Hown; try congruence; try (by specialize (Hno _ _ H)).
  pose proof (inv_wg _ Hi) as Hw. unfold serving in Hw. rewrite Hs in Hw. apply Hne, map_size_empty_iff. lia.
Qed.

Lemma server_released s : server_inv s -> closer s = CloseReturned -> released s.
Proof.
  intros [_ Hc Ho _ _ Hl Hb _ Hg] Hr. rewrite Hr in *. cbn in *. destruct (Hg eq_refl) as [Hs Hh].
  assert (He : conns s = ∅).
  { apply set_eq. intros c. rewrite Hc, Hh. set_solver. }
  unfold released. split_and!; auto with lia. apply set_eq. intros c. split; [|done].
  intros [Hi|Hi]%Ho; [by rewrite He in Hi|congruence].
Qed.

Lemma rtc_trans {A} {R : relation A} {x y z} : rtc R x y -> rtc R y z -> rtc R x z.
Proof. apply transitivity. Qed.

Lemma rtc_keeps {A} (R : relation A) (P : A -> Prop) x y :
  (forall a b, R a b -> P a -> P b) -> rtc R x y -> P x -> P y.
Proof. intros Hk Hr. induction Hr; eauto. Qed.

(** What holds of a daemon: of its servers always, and of those it serves on
    once it runs. *)
Definition daemon_inv (d : daemon) : Prop :=
  forall s, s ∈ servers d -> server_inv s /\ (now_in d = Done -> closer s = CloseReturned).

Definition ran (d : daemon) : Prop :=
  (forall n, now_in d <> Listening n) /\
  forall s, s ∈ servers d -> spawned s = true /\
    (now_in d = ShutDown \/ now_in d = Closing \/ now_in d = Done -> shut s = true) /\
    (now_in d = Closing \/ now_in d = Done -> closing s = true).

Lemma step_flags s s' :
  server_step s s' -> spawned s' = spawned s /\ closing s' = closing s /\ shut s' = shut s.
Proof. intros []; try done. unfold register. by case_match. Qed.

Lemma elem_of_insert_list {A} (i : nat) (x y : A) (l : list A) : x ∈ <[i := y]> l -> x = y \/ x ∈ l.
Proof.
  intros [j Hj]%list_elem_of_lookup. destruct (decide (i = j)) as [<-|Hne].
  - apply list_lookup_insert_Some in Hj as [(_ & -> & _)|(? & _)]; [by left|done].
  - rewrite list_lookup_insert_ne in Hj by done. right. by eapply list_elem_of_lookup_2.
Qed.

Lemma daemon_inv_step d d' : daemon_step d d' -> daemon_inv d -> daemon_inv d'.
Proof.
  intros Hs Hi. destruct Hs as [n ss|n ss|ss|ss|ss s Hin Hs|ss|ss|ss Hall|p ss i s s' Hl Hs];
    intros x Hx; cbn in *.
  - apply elem_of_app in Hx as [Hx| ->%list_elem_of_singleton];
      [split; [by apply Hi|done]|]. split; [apply server_inv_new|done].
  - split; [by apply Hi|done].
  - apply list_elem_of_fmap in Hx as (y & -> & Hy). split; [by apply server_inv_flags, Hi|done].
  - split; [by apply Hi|done].
  - split; [by apply Hi|done].
  - apply list_elem_of_fmap in Hx as (y & -> & Hy). split; [by apply server_inv_flags, Hi|done].
  - apply list_elem_of_fmap in Hx as (y & -> & Hy). split; [by apply server_inv_flags, Hi|done].
  - split; [by apply Hi|auto].
  - apply elem_of_insert_list in Hx as [->|Hx]; [|by apply Hi].
    destruct (Hi s) as [Hsi Hd]; [by eapply list_elem_of_lookup_2|].
    split; [by eapply server_inv_step|]. intros Hp. specialize (Hd Hp).
    destruct (step_progress _ _ Hs Hsi) as [Hle _]. rewrite Hd in Hle. cbn in Hle.
    destruct (closer s'); cbn in Hle; try lia; done.
Qed.

Lemma ran_step d d' : daemon_step d d' -> ran d -> ran d'.
Proof.
  intros Hs [Hn Hr].
  destruct Hs as [n ss|n ss|ss|ss|ss s Hin Hs|ss|ss|ss Hall|p ss i s s' Hl Hs]; cbn in *;
    try (by destruct (Hn (S n))); try (by destruct (Hn 0%nat)); (split; [done|]); cbn; intros x Hx;
    try (apply list_elem_of_fmap in Hx as (y & -> & Hy); specialize (Hr y Hy); cbn; naive_solver);
    try (specialize (Hr x Hx); naive_solver).
  apply elem_of_insert_list in Hx as [->|Hx]; [|by apply Hr].
  destruct (step_flags _ _ Hs) as (-> & -> & ->). apply Hr. by eapply list_elem_of_lookup_2.
Qed.

Lemma running_ran d d' : daemon_step d d' -> (now_in d = Running -> ran d) -> now_in d' = Running -> ran d'.
Proof.
  intros Hs Hr. destruct Hs as [n ss|n ss|ss|ss|ss s Hin Hs|ss|ss|ss Hall|p ss i s s' Hl Hs]; cbn in *; try done.
  - intros _. split; cbn; [done|]. intros x (y & -> & _)%list_elem_of_fmap. cbn. naive_solver.
  - intros ->. apply (ran_step {| now_in := Running; servers := ss |}); [by eapply d_server|auto].
Qed.

Lemma reachable_daemon n d : rtc daemon_step (new_daemon n) d -> daemon_inv d.
Proof. intros Hr. eapply rtc_keeps; [exact daemon_inv_step|exact Hr|]. intros x Hx. by apply elem_of_nil in Hx. Qed.

Lemma reachable_ran n r d :
  rtc daemon_step (new_daemon n) r -> now_in r = Running -> rtc daemon_step r d -> ran d.
Proof.
  intros Hr Hp Hd. eapply rtc_keeps; [exact ran_step|exact Hd|].
  revert Hp. pattern r. eapply rtc_keeps; [exact running_ran|exact Hr|done].
Qed.

(** What a daemon whose servers have closed their connections has left. *)
Definition daemon_measure (d : daemon) : nat :=
  (sum_list (server_measure <$> servers d) + match now_in d with Done => 0 | _ => 1 end)%nat.

Definition waiting_only (d : daemon) : Prop :=
  (now_in d = Closing \/ now_in d = Done) /\ forall s, s ∈ servers d -> (4 <= close_rank (closer s))%nat.

Lemma sum_list_put i (x y : server) l :
  l !! i = Some x -> (server_measure y < server_measure x)%nat ->
  (sum_list (server_measure <$> <[i := y]> l) < sum_list (server_measure <$> l))%nat.
Proof.
  revert i. induction l as [|z l IH]; intros [|i] Hi Hlt; cbn -[server_measure] in *; simplify_eq;
    [by apply Nat.add_lt_mono_r|].
  apply Nat.add_lt_mono_l, (IH _ Hi Hlt).
Qed.

Lemma waiting_step d d' :
  daemon_inv d -> daemon_step d d' -> waiting_only d ->
  waiting_only d' /\ (daemon_measure d' < daemon_measure d)%nat.
Proof.
  intros Hi Hs [Hp Hw]. unfold waiting_only, daemon_measure.
  destruct Hs as [n ss|n ss|ss|ss|ss s Hin Hs|ss|ss|ss Hall|p ss i s s' Hl Hs]; cbn in *; try naive_solver;
    [split; [split; [auto|done]|lia]|].
  destruct (step_progress _ _ Hs) as [Hle Hm]; [apply Hi; by eapply list_elem_of_lookup_2|].
  assert (Hs4 : (4 <= close_rank (closer s))%nat) by (apply Hw; by eapply list_elem_of_lookup_2).
  split; [split; [done|]|].
  - intros x [->|Hx]%elem_of_insert_list; [lia|auto].
  - apply Nat.add_lt_mono_r. by eapply sum_list_put; [|apply Hm].
Qed.

Lemma waiting_runs k d d' :
  daemon_inv d -> nsteps daemon_step k d d' -> waiting_only d -> (k + daemon_measure d' <= daemon_measure d)%nat.
Proof.
  intros Hi Hr. induction Hr as [|k d e d' Hs Hr IH]; intros Hw; [lia|].
  destruct (waiting_step _ _ Hi Hs Hw) as [Hw' Hlt]. specialize (IH (daemon_inv_step _ _ Hs Hi) Hw'). lia.
Qed.

Lemma all_or_some (P : server -> Prop) (Q : server -> Prop) (ss : list server) :
  (forall s, s ∈ ss -> P s \/ Q s) -> (forall s, s ∈ ss -> P s) \/ exists i s, ss !! i = Some s /\ Q s.
Proof.
  induction ss as [|s ss IH]; intros Hpq; [left; intros s Hs; by apply elem_of_nil in Hs|].
  destruct (Hpq s (list_elem_of_here _ _)) as [Hp|Hq]; [|right; by exists 0%nat, s].
  destruct IH as [IH|(i & x & Hx & Hq)]; [|left|right; by exists (S i), x].
  - intros x Hx. apply Hpq. by apply list_elem_of_further.
  - intros x [->|Hx]%elem_of_cons; auto.
Qed.

(** A step of the daemon that no client and no failure has to cause. *)
Definition own_daemon_step (d d' : daemon) : Prop :=
  (exists i s s', servers d !! i = Some s /\ own_step s s' /\
     d' = {| now_in := now_in d; servers := <[i := s']> (servers d) |}) \/
  (now_in d = Closing /\ d' = {| now_in := Done; servers := servers d |}).

(** Nothing in the daemon can go on: every server has closed or is hung, and
    one is. *)
Definition hung_daemon (d : daemon) : Prop :=
  (forall s, s ∈ servers d -> closer s = CloseReturned \/ hung s) /\ exists s, s ∈ servers d /\ hung s.

(** A closing daemon can go on unless it is hung, and so can each of its calls
    of [Close]. *)
Lemma closing_progress n r d :
  rtc daemon_step (new_daemon n) r -> now_in r = Running -> rtc daemon_step r d -> now_in d = Closing ->
  ((exists d', daemon_step d d' /\ own_daemon_step d d') \/ hung_daemon d) /\
  (forall s, s ∈ servers d -> (close_rank (closer s) < 4)%nat ->
     exists s', own_step s s' /\ close_rank (closer s') = S (close_rank (closer s))).
Proof.
  intros Hn Hp Hr Hc. pose proof (reachable_daemon _ _ (rtc_trans Hn Hr)) as Hi.
  pose proof (reachable_ran _ _ _ Hn Hp Hr) as [_ Hran].
  assert (Hown : forall s, s ∈ servers d -> closer s = CloseReturned \/ hung s \/ exists s', own_step s s' /\
    ((close_rank (closer s) < 4)%nat -> close_rank (closer s') = S (close_rank (closer s)))).
  { intros s Hs. destruct (Hran s Hs) as (? & Hsh & Hcl). apply own_progress; auto. by apply Hi. }
  split.
  - destruct (all_or_some (fun s => closer s = CloseReturned \/ hung s) (fun s => exists s', own_step s s') (servers d))
      as [Hall|(i & s & Hs & s' & Hs')].
    + intros s Hs. destruct (Hown s Hs) as [?|[?|(s' & Hs' & _)]]; eauto.
    + destruct (all_or_some (fun s => closer s = CloseReturned) hung (servers d) Hall) as [Hret|(i & s & Hs & Hh)].
      * left. exists {| now_in := Done; servers := servers d |}. destruct d as [p ss]; cbn in *. subst p.
        split; [by apply d_closed|by right].
      * right. split; [done|]. exists s. split; [by eapply list_elem_of_lookup_2|done].
    + left. exists {| now_in := now_in d; servers := <[i := s']> (servers d) |}. split; [|left; by exists i, s, s'].
      destruct d as [p ss]. by eapply d_server, own_is_step.
  - intros s Hs Hlt. destruct (Hown s Hs) as [Hd|[(Hd & _)|(s' & Hs' & Hrk)]]; [rewrite Hd in Hlt; cbn in Hlt; lia..|].
    exists s'. auto.
Qed.

(** [Close] never goes back. *)
Lemma rank_step i s s' d d' :
  daemon_inv d -> daemon_step d d' -> servers d !! i = Some s -> servers d' !! i = Some s' ->
  (close_rank (closer s) <= close_rank (closer s'))%nat.
Proof.
  intros Hi Hd Hs Hs'.
  destruct Hd as [m ss|m ss|ss|ss|ss x Hin Hx|ss|ss|ss Hall|p ss j x x' Hl Hx]; cbn in *; simplify_eq; try lia.
  - rewrite lookup_app_l in Hs' by (by eapply lookup_lt_Some). by simplify_eq.
  - rewrite list_lookup_fmap, Hs in Hs'. by simplify_eq/=.
  - rewrite list_lookup_fmap, Hs in Hs'. by simplify_eq/=.
  - rewrite list_lookup_fmap, Hs in Hs'. by simplify_eq/=.
  - destruct (decide (j = i)) as [->|Hne].
    + rewrite list_lookup_insert_eq in Hs' by (by eapply lookup_lt_Some). simplify_eq.
      apply (step_progress _ _ Hx). apply Hi. by eapply list_elem_of_lookup_2.
    + rewrite list_lookup_insert_ne in Hs' by done. by simplify_eq.
Qed.

Lemma waiting_forever d d' :
  rtc daemon_step d d' -> daemon_inv d -> waiting_only d -> daemon_inv d' /\ waiting_only d'.
Proof.
  intros Hr Hi Hw. eapply (rtc_keeps daemon_step (fun e => daemon_inv e /\ waiting_only e)); [|exact Hr|done].
  intros a b Hab [Ha Hwa]. split; [by eapply daemon_inv_step|by eapply waiting_step].
Qed.

(** ** Properties *)

(** C19. Closing the sockets ends, as far as it depends on the daemon. Take a
    daemon that has run and is closing its servers, after any accepting,
    reading, answering, waiting for transactions, calling outside the program,
    hanging up and failing accepts, in any interleaving. Until it has returned
    it can take a step of its own, one that needs neither a client nor a
    transaction that ends, unless every server has closed or waits for nothing
    but handlers whose call outside the program does not return. A server that
    has not yet reached the wait in [Close] can at any moment take the next
    part of [Close], and none is ever taken back. Once every server waits,
    every run, whatever its schedule, is bounded by the requests and handlers
    that are left, and when nothing can go on by itself it has returned or only
    such calls are left. Those have no deadline, and [Shutdown] does not end
    them: see [hung_dial_blocks_shutdown]. *)
Theorem close_terminates n r d :
  rtc daemon_step (new_daemon n) r -> now_in r = Running -> rtc daemon_step r d -> now_in d = Closing ->
  ((exists d', daemon_step d d' /\ own_daemon_step d d') \/ hung_daemon d) /\
  (forall s, s ∈ servers d -> (close_rank (closer s) < 4)%nat ->
     exists s', own_step s s' /\ close_rank (closer s') = S (close_rank (closer s))) /\
  (forall i s d' s', servers d !! i = Some s -> daemon_step d d' -> servers d' !! i = Some s' ->
     (close_rank (closer s) <= close_rank (closer s'))%nat) /\
  ((forall s, s ∈ servers d -> (4 <= close_rank (closer s))%nat) ->
   forall k d', nsteps daemon_step k d d' ->
     (k <= daemon_measure d)%nat /\
     ((forall e, daemon_step d' e -> ~ own_daemon_step d' e) -> now_in d' = Done \/ hung_daemon d')).
Proof.
  intros Hn Hp Hr Hc.
  destruct (closing_progress n r d) as [H1 H2]; [done..|].
  pose proof (reachable_daemon _ _ (rtc_trans Hn Hr)) as Hi.
  split_and!; [done|done| |].
  - intros i s d' s' Hs Hd Hs'. by eapply rank_step.
  - intros Hw k d' Hk. assert (Hwo : waiting_only d) by (split; auto).
    split; [pose proof (waiting_runs _ _ _ Hi Hk Hwo); lia|]. intros Hstuck. apply rtc_nsteps_2 in Hk.
    destruct (waiting_forever _ _ Hk Hi Hwo) as [_ [[Hcl|Hdone] _]]; [|by left].
    destruct (closing_progress n r d' Hn Hp (rtc_trans Hr Hk) Hcl) as [[(e & He & Ho)|Hh] _]; [|by right].
    by destruct (Hstuck e He).
Qed.

(** A server is closed by the daemon, after the dispatcher was shut down. *)
Definition shut_first (d : daemon) : Prop :=
  forall s, s ∈ servers d ->
    (closer s <> NotClosed -> closing s = true) /\ (closing s = true -> shut s = true) /\
    (now_in d = ShutDown -> shut s = true).

Lemma step_closer s s' : server_step s s' -> closer s' <> NotClosed -> closer s <> NotClosed \/ closing s = true.
Proof. intros []; cbn; auto; try (left; congruence). unfold register. case_match; cbn; auto. Qed.

Lemma shut_first_step d d' : daemon_step d d' -> shut_first d -> shut_first d'.
Proof.
  intros Hs Hi. destruct Hs as [n ss|n ss|ss|ss|ss s Hin Hs|ss|ss|ss Hall|p ss i s s' Hl Hs];
    intros x Hx; cbn in *;
    try (apply list_elem_of_fmap in Hx as (y & -> & Hx)); try (specialize (Hi x Hx); naive_solver);
    try (specialize (Hi y Hx); cbn; naive_solver).
  - apply elem_of_app in Hx as [Hx| ->%list_elem_of_singleton]; [|done]. specialize (Hi x Hx). naive_solver.
  - apply elem_of_insert_list in Hx as [->|Hx]; [|by apply Hi].
    destruct (step_flags _ _ Hs) as (_ & -> & ->). destruct (Hi s) as (H1 & H2 & H3); [by eapply list_elem_of_lookup_2|].
    split_and!; [|done|done]. intros Hc. destruct (step_closer _ _ Hs Hc); auto.
Qed.

Lemma reachable_shut n d s :
  rtc daemon_step (new_daemon n) d -> s ∈ servers d -> closer s <> NotClosed -> shut s = true.
Proof.
  intros Hr Hs. assert (H : shut_first d); [|destruct (H s Hs) as (H1 & H2 & _); auto].
  eapply rtc_keeps; [exact shut_first_step|exact Hr|]. intros x Hx. by apply elem_of_nil in Hx.
Qed.

Lemma total_waitgroup s s' : server_step s s' -> server_inv s -> 0 <= wg s /\ (wg s = 0 -> wg s' = 0).
Proof.
  intros Hs Hi. pose proof (server_inv_step _ _ Hs Hi) as Hi'. pose proof (inv_wg _ Hi) as Hw.
  split; [unfold serving in Hw; destruct (serve s); lia|]. intros Hz.
  assert (He : serve s = ServeEnded /\ handlers s = ∅).
  { unfold serving in Hw. destruct (serve s); (split; [lia || done|]); apply map_size_empty_iff; lia. }
  destruct He as [He Hh]. destruct Hs; cbn in *; rewrite ?Hh in *; try congruence; by rewrite ?lookup_empty in *.
Qed.

(** C20. What is closed holds nothing. In every state a daemon can reach, a
    server whose [Close] has returned has no goroutine left, neither the accept
    loop nor a handler, no connection, registered or not, no listener and no
    name in the file system; a daemon that has returned has only such servers.
    A server is closed only after the dispatcher was shut down. The counter
    [Close] waits for is never negative, and once it is zero no step of the
    server raises it again, as [sync.WaitGroup] demands. *)
Theorem close_drains n d :
  rtc daemon_step (new_daemon n) d ->
  (forall s, s ∈ servers d ->
     (closer s = CloseReturned -> released s) /\ (now_in d = Done -> released s) /\
     (closer s <> NotClosed -> shut s = true) /\
     forall s', server_step s s' -> 0 <= wg s /\ (wg s = 0 -> wg s' = 0)).
Proof.
  intros Hr s Hs. pose proof (reachable_daemon _ _ Hr) as Hi. destruct (Hi s Hs) as [Hsi Hd].
  split_and!; [by apply server_released|intros Hp; apply server_released; auto| |].
  - by apply (reachable_shut n d).
  - intros s' Hst. by apply total_waitgroup.
Qed.

(** When a later listener cannot be opened, the servers opened before it are
    closed without ever having been served: their [Close] waits for a [Serve]
    that is not called, and the daemon never returns the error. *)
Lemma listen_failure_hangs d :
  rtc daemon_step {| now_in := Stopping; servers := [new_server] |} d -> now_in d <> Done.
Proof.
  intros Hr.
  assert (Hd : daemon_inv d /\ (now_in d = Stopping \/ now_in d = ShutDown \/ now_in d = Closing) /\
    exists s, servers d = [s] /\ spawned s = false /\ serve s = NotServing).
  { eapply (rtc_keeps daemon_step (fun d => daemon_inv d /\
      (now_in d = Stopping \/ now_in d = ShutDown \/ now_in d = Closing) /\
      exists s, servers d = [s] /\ spawned s = false /\ serve s = NotServing)); [|exact Hr|].
    - clear. intros d d' Hs (Hi & Hp & s & Hss & Hsp & Hsv). split; [by eapply daemon_inv_step|].
      destruct Hs as [m ss|m ss|ss|ss|ss x Hin Hx|ss|ss|ss Hall|p ss j x x' Hl Hx]; cbn in *; try naive_solver.
      + subst ss. destruct (Hi s ltac:(by apply list_elem_of_here)) as [Hsi _].
        apply (inv_gone _ Hsi) in Hall; [|by apply list_elem_of_here]. destruct Hall. congruence.
      + split; [done|]. subst ss. destruct j as [|j]; cbn in Hl; [|done]. simplify_eq.
        exists x'. split; [done|]. destruct (step_flags _ _ Hx) as (-> & _ & _). split; [done|].
        destruct Hx; cbn in *; congruence.
    - split; [|split; [auto|by eexists]]. intros s [->|Hs]%elem_of_cons; [|by apply elem_of_nil in Hs].
      split; [apply server_inv_new|done]. }
  destruct Hd as (_ & [->|[->| ->]] & _); done.
Qed.

(** *** Witnesses *)

(** One server with one client that has sent a request, when the signal comes. *)
Definition demo_served : server :=
  put_handler 7 (Reading 1) (register 7 (set_serve (Accepted 7) 0
    (set_open ({[7%nat]} ∪ ∅) (set_serve Accepting 0 (spawn new_server))))).
Definition demo_running : daemon := {| now_in := Running; servers := [demo_served] |}.
Definition demo_closing : daemon :=
  {| now_in := Closing; servers := [start_close (shutdown demo_served)] |}.

Lemma demo_runs : rtc daemon_step (new_daemon 1) demo_running.
Proof.
  eapply rtc_l; [apply d_listen|]. eapply rtc_l; [apply d_run|].
  eapply rtc_l; [apply (d_server _ _ 0 (spawn new_server)); [done|by apply srv_serve]|].
  eapply rtc_l; [eapply (d_server _ _ 0); [done|by apply (srv_accept _ 7)]|].
  eapply rtc_l; [eapply (d_server _ _ 0); [done|by apply (srv_register _ 7)]|].
  eapply rtc_l; [eapply (d_server _ _ 0); [done|by apply (srv_deliver _ 7 0)]|].
  apply rtc_refl.
Qed.

Lemma demo_closes : rtc daemon_step demo_running demo_closing.
Proof.
  eapply rtc_l; [apply d_signal|]. eapply rtc_l; [apply d_shutdown|]. eapply rtc_l; [apply d_close|]. apply rtc_refl.
Qed.

Lemma close_terminates_witness :
  (exists d', daemon_step demo_closing d' /\ own_daemon_step demo_closing d') \/ hung_daemon demo_closing.
Proof. apply (close_terminates 1 demo_running demo_closing demo_runs eq_refl demo_closes eq_refl). Defined.

(** The same server when its client has asked for a session and the dial does
    not return: [Close] has done its parts and waits. *)
Definition demo_hung : server :=
  set_closer true false false CloseWaiting (set_open ∅
    (accept_fails (set_closer true false false PathRemoved
      (start_close (shutdown (put_handler 7 (Outside 0) (put_handler 7 (Dispatching 0) demo_served))))))).
Definition demo_waits : daemon := {| now_in := Closing; servers := [demo_hung] |}.

Lemma demo_hangs : rtc daemon_step demo_running demo_waits.
Proof.
  eapply rtc_l; [apply (d_server _ _ 0 demo_served); [done|by apply (srv_take _ 7 0)]|].
  eapply rtc_l; [eapply (d_server _ _ 0); [done|by apply (srv_call _ 7 0)]|].
  eapply rtc_l; [apply d_signal|]. eapply rtc_l; [apply d_shutdown|]. eapply rtc_l; [apply d_close|].
  eapply rtc_l; [eapply (d_server _ _ 0); [done|by apply srv_close_quit]|].
  eapply rtc_l; [eapply (d_server _ _ 0); [done|by apply srv_close_listener]|].
  eapply rtc_l; [eapply (d_server _ _ 0); [done|by apply srv_close_path]|].
  eapply rtc_l; [eapply (d_server _ _ 0); [done|by apply srv_accept_fails]|].
  eapply rtc_l; [eapply (d_server _ _ 0); [done|by apply srv_close_conns]|].
  apply rtc_refl.
Qed.

(** A dial that does not return (it has no timeout, and its context is never
    cancelled) holds the shutdown of the daemon for good: the dispatcher is
    shut down, [Close] waits, and no step of the daemon's own is left. *)
Lemma hung_dial_blocks_shutdown :
  rtc daemon_step (new_daemon 1) demo_waits /\ now_in demo_waits = Closing /\ shut demo_hung = true /\
  hung demo_hung /\ forall d', daemon_step demo_waits d' -> ~ own_daemon_step demo_waits d'.
Proof.
  assert (Hr : rtc daemon_step (new_daemon 1) demo_waits) by exact (rtc_trans demo_runs demo_hangs).
  assert (Hh : hung demo_hung).
  { split_and!; [done|done|by apply (bool_decide_unpack _); vm_compute|].
    assert (E : handlers demo_hung = {[7%nat := Outside 0]}) by (vm_compute; reflexivity).
    rewrite E. by apply map_Forall_singleton. }
  split_and!; [done|done|done|done|]. intros d' Hd Hown.
  pose proof (reachable_daemon _ _ Hr) as Hi.
  destruct (Hi demo_hung (list_elem_of_here _ _)) as [Hsi _].
  destruct Hown as [(i & s & s' & Hs & Hst & _)|[_ ->]].
  - destruct i as [|i]; [|done]. injection Hs as <-. by apply (hung_stays demo_hung s').
  - pose proof (reachable_daemon 1 _ (rtc_r _ _ _ Hr Hd)) as Hi'.
    by destruct (Hi' demo_hung (list_elem_of_here _ _)) as [_ Hx]; specialize (Hx eq_refl).
Qed.

(** The same server when it has closed, with the request answered first. *)
Definition demo_drained : server :=
  set_closer true false false CloseReturned
    (finish 7 (cleanup 7 (put_handler 7 Cleaning (put_handler 7 (Reading 0) (put_handler 7 (Dispatching 0)
      (accept_fails (set_closer true false false CloseWaiting (set_open ∅ (start_close (shutdown demo_served)))))))))).
Definition demo_done : daemon := {| now_in := Done; servers := [demo_drained] |}.

Lemma demo_drains : rtc server_step (start_close (shutdown demo_served)) demo_drained.
Proof.
  eapply rtc_l; [by apply srv_close_quit|]. eapply rtc_l; [by apply srv_close_listener|].
  eapply rtc_l; [by apply srv_close_path|]. eapply rtc_l; [by apply srv_close_conns|].
  eapply rtc_l; [by apply srv_accept_fails|]. eapply rtc_l; [by apply (srv_take _ 7 0)|].
  eapply rtc_l; [by apply (srv_answer _ 7 0)|]. eapply rtc_l; [by apply (srv_hang_up _ 7 0)|].
  eapply rtc_l; [by apply (srv_cleanup _ 7)|]. eapply rtc_l; [by apply (srv_finish _ 7)|].
  eapply rtc_l; [by apply srv_close_return|]. apply rtc_refl.
Qed.

Lemma demo_ends : rtc daemon_step demo_closing demo_done.
Proof.
  eapply (rtc_trans (y := {| now_in := Closing; servers := [demo_drained] |})).
  - apply (rtc_congruence (R := server_step) (fun s => {| now_in := Closing; servers := [s] |})), demo_drains.
    intros s s' Hs. by apply (d_server Closing [s] 0 s s').
  - apply rtc_once, d_closed. by intros s ->%list_elem_of_singleton.
Qed.

Lemma close_drains_witness : released demo_drained.
Proof.
  destruct (close_drains 1 demo_done (rtc_trans demo_runs (rtc_trans demo_closes demo_ends)) demo_drained
    ltac:(by apply list_elem_of_here)) as (_ & H & _). by apply H.
Defined.
