(* ===== verification/Host.v ===== *)
(** * Directories, sockets and the daemon lock (src/internal/xdgpaths/xdgpaths.go,
    src/cmd/gatewayd/lock.go, src/cmd/gatewayd/main.go, src/cmd/gateway/main.go)

    The directories both programs derive from the environment, the socket names
    they agree on, and the life of daemon processes around the lock. *)

From S2P Require Import Prelude GoStd Ipc Store Server.

(** ** Directories *)

Inductive entry := Dir (perm : Z) | File.

(** A file tree by name, without trailing slashes. *)
Abbreviation tree := (gmap string entry).

(** The environment of a process, its umask and the [mkdir] calls that fail. *)
Record environment := {
  HOME : string; XDG_CONFIG_HOME : string; XDG_DATA_HOME : string;
  umask : Z; mkdir_fails : string -> bool
}.

(** The parent of [os.MkdirAll]: trailing slashes and the last element go. *)
Definition parent (path : string) : string :=
  let l := drop_slashes (rev (to_bytes path)) in
  match drop (length (upto_slash l)) l with
  | [] => ""%string
  | _ :: d => if decide (d = []) then "/"%string else of_bytes (rev d)
  end.

Inductive DirError := ErrHome | ErrNotDirectory | ErrMkdir.

(** [os.MkdirAll]; the fuel is the length of the name. *)
Fixpoint mkdir_all (fuel : nat) (env : environment) (perm : Z) (path : string) (t : tree) : tree * bool :=
  match t !! path with
  | Some (Dir _) => (t, true)
  | Some File => (t, false)
  | None =>
      match fuel with
      | O => (t, false)
      | S fuel =>
          let above := parent path in
          let '(t, ok) := if String.eqb above "" then (t, true) else mkdir_all fuel env perm above t in
          if negb ok then (t, false)
          else if mkdir_fails env path then (t, false)
          else (<[path := Dir (Z.ldiff perm (umask env))]> t, true)
      end
  end.

Definition MkdirAll (env : environment) (perm : Z) (path : string) (t : tree) : tree * bool :=
  mkdir_all (String.length path) env perm path t.

(** ** xdgpaths *)

Definition appName : string := "ai-debug-gateway".

Record Dirs := { Config : string; Data : string }.

(** [os.UserHomeDir]. *)
Definition UserHomeDir (env : environment) : result DirError string :=
  if String.eqb (HOME env) "" then Err ErrHome else Ok (HOME env).

Definition resolved (env : environment) (home : string) : Dirs :=
  let configBase := if String.eqb (XDG_CONFIG_HOME env) "" then PathJoin [home; ".config"%string]
                    else XDG_CONFIG_HOME env in
  let dataBase := if String.eqb (XDG_DATA_HOME env) "" then PathJoin [home; ".local"%string; "share"%string]
                  else XDG_DATA_HOME env in
  {| Config := PathJoin [configBase; appName]; Data := PathJoin [dataBase; appName] |}.

Definition Resolve (env : environment) (t : tree) : tree * result DirError Dirs :=
  match UserHomeDir env with
  | Err e => (t, Err e)
  | Ok home =>
      let d := resolved env home in
      let '(t, ok) := MkdirAll env 448 (Config d) t in
      if negb ok then (t, Err ErrMkdir)
      else
        let '(t, ok) := MkdirAll env 448 (Data d) t in
        if negb ok then (t, Err ErrMkdir) else (t, Ok d)
  end.

(** ** Sockets *)

Definition socket_name (r : Role) : string :=
  match r with
  | RoleControl => "gatewayd.control.sock"
  | RoleAttach => "gatewayd.attach.sock"
  | RoleDiagnose => "gatewayd.diagnose.sock"
  | RoleUnsafeShell => "gatewayd.unsafeshell.sock"
  end.

(** Where [serveDaemonSockets] listens. *)
Definition listener_path (dataDir : string) (r : Role) : string := PathJoin [dataDir; socket_name r].

(** [os.Remove] of a socket that may not exist; [fails] are the names that
    cannot be removed. *)
Definition remove_socket (fails : string -> bool) (path : string) (fs : filesystem) : filesystem * bool :=
  match fs !! path with
  | None => (fs, true)
  | Some _ => if fails path then (fs, false) else (delete path fs, true)
  end.

(** The sockets of disabled modes are removed before any listener is opened. *)
Definition remove_disabled (dataDir : string) (autoReadonly unsafeAutoShell : bool) (fails : string -> bool)
    (fs : filesystem) : filesystem * bool :=
  let '(fs, ok) := if autoReadonly then (fs, true) else remove_socket fails (listener_path dataDir RoleDiagnose) fs in
  if negb ok then (fs, false)
  else if unsafeAutoShell then (fs, true) else remove_socket fails (listener_path dataDir RoleUnsafeShell) fs.

Record socketPaths := {
  Control : string; Attach : string; Diagnose : string; UnsafeShell : string; ProfileDir : string
}.

(** What [main] of the command line dials. *)
Definition client_paths (d : Dirs) : socketPaths :=
  {| Control := PathJoin [Data d; "gatewayd.control.sock"%string];
     Attach := PathJoin [Data d; "gatewayd.attach.sock"%string];
     Diagnose := PathJoin [Data d; "gatewayd.diagnose.sock"%string];
     UnsafeShell := PathJoin [Data d; "gatewayd.unsafeshell.sock"%string];
     ProfileDir := PathJoin [Config d; "profiles"%string] |}.

Definition dialled (p : socketPaths) (r : Role) : string :=
  match r with
  | RoleControl => Control p | RoleAttach => Attach p | RoleDiagnose => Diagnose p | RoleUnsafeShell => UnsafeShell p
  end.

(** The other files of the data directory. *)
Definition lock_name : string := "gatewayd.lock".
Definition audit_name : string := "audit.jsonl".
Definition transcript_name : string := "transcript.jsonl".
Definition open_set_name : string := "open-transactions.json".

Definition lock_path (dataDir : string) : string := PathJoin [dataDir; lock_name].

(** ** The lock *)

Inductive LockError := ErrOpenLock | ErrLockHeld.

(** The kernel's exclusive [flock] on each lock file, by the process that holds
    it. The file itself is created and never removed. *)
Abbreviation locks := (gmap string nat).

Definition acquireLock (open_ok : bool) (pid : nat) (path : string) (l : locks) : locks * option LockError :=
  if negb open_ok then (l, Some ErrOpenLock)
  else match l !! path with
       | Some _ => (l, Some ErrLockHeld)
       | None => (<[path := pid]> l, None)
       end.

Definition releaseLock (path : string) (l : locks) : locks := delete path l.

(** ** Daemon processes *)

(** [run] by its calls: before [acquireLock]; holding the lock while the
    records of the last run are recovered; serving; with its sockets closed and
    the deferred calls running; with the lock released; gone. *)
Inductive stage := Starting | Recovering | Serving | Leaving | Released | Exited.

Record process := { data_dir : string; at_stage : stage }.

Record host := { held : locks; procs : gmap nat process }.

Definition put_stage (pid : nat) (p : process) (st : stage) (l : locks) (h : host) : host :=
  {| held := l; procs := <[pid := {| data_dir := data_dir p; at_stage := st |}]> (procs h) |}.

(** The kernel drops the locks of a process that ends. *)
Definition dropped (pid : nat) (l : locks) : locks := filter (fun '(_, q) => q <> pid) l.

Inductive host_step : host -> host -> Prop :=
| h_start h pid dir :
    procs h !! pid = None ->
    host_step h {| held := held h; procs := <[pid := {| data_dir := dir; at_stage := Starting |}]> (procs h) |}
| h_acquire h pid p open_ok :
    procs h !! pid = Some p -> at_stage p = Starting ->
    host_step h (match acquireLock open_ok pid (lock_path (data_dir p)) (held h) with
                 | (l, None) => put_stage pid p Recovering l h
                 | (l, Some _) => put_stage pid p Exited l h
                 end)
| h_recovered h pid p :
    procs h !! pid = Some p -> at_stage p = Recovering -> host_step h (put_stage pid p Serving (held h) h)
| h_leave h pid p :
    procs h !! pid = Some p -> at_stage p = Recovering \/ at_stage p = Serving ->
    host_step h (put_stage pid p Leaving (held h) h)
| h_release h pid p :
    procs h !! pid = Some p -> at_stage p = Leaving ->
    host_step h (put_stage pid p Released (releaseLock (lock_path (data_dir p)) (held h)) h)
| h_exit h pid p :
    procs h !! pid = Some p -> host_step h (put_stage pid p Exited (dropped pid (held h)) h).

Definition no_daemons : host := {| held := ∅; procs := ∅ |}.

(** ** Specification *)

(** A process between [acquireLock] and [releaseLock]. *)
Definition holding (p : process) : bool :=
  match at_stage p with Recovering | Serving | Leaving => true | _ => false end.

(** A process whose goroutines may append to the records: those it started run
    until it exits. *)
Definition may_write (p : process) : bool :=
  match at_stage p with Recovering | Serving | Leaving | Released => true | _ => false end.

(** The names in the data directory. *)
Definition data_names : list string :=
  (socket_name <$> [RoleControl; RoleAttach; RoleDiagnose; RoleUnsafeShell]) ++
  [lock_name; audit_name; transcript_name; open_set_name].

(** ** Lemmas *)

(** *** Directories *)

Lemma drop_slashes_length s : (length (drop_slashes s) <= length s)%nat.
Proof. induction s as [|c s IH]; cbn; [lia|]. destruct (Ascii.eqb c "/"); cbn; lia. Qed.

Lemma length_of_bytes b : String.length (of_bytes b) = length b.
Proof. induction b; cbn; congruence. Qed.

Lemma length_to_bytes s : length (to_bytes s) = String.length s.
Proof. induction s; cbn; congruence. Qed.

Lemma upto_slash_nonempty s : drop_slashes s = s -> s <> [] -> upto_slash s <> [].
Proof.
  destruct s as [|c s]; [done|]. cbn. destruct (Ascii.eqb c "/") eqn:E; [|done]. intros H _.
  apply (f_equal length) in H. cbn in H. pose proof (drop_slashes_length s). lia.
Qed.

Lemma drop_slashes_twice s : drop_slashes (drop_slashes s) = drop_slashes s.
Proof. induction s as [|c s IH]; cbn; [done|]. destruct (Ascii.eqb c "/") eqn:E; [done|]. cbn. by rewrite E. Qed.

(** The recursion of [os.MkdirAll] descends. *)
Lemma parent_shorter path : path <> ""%string -> (String.length (parent path) < String.length path)%nat.
Proof.
  intros Hne. assert (Hpos : (0 < String.length path)%nat) by (destruct path; [done|cbn; lia]).
  unfold parent. pose proof (drop_slashes_length (rev (to_bytes path))) as Hl.
  rewrite length_rev, length_to_bytes in Hl.
  pose proof (upto_slash_nonempty (drop_slashes (rev (to_bytes path))) (drop_slashes_twice _)) as Hu.
  revert Hl Hu. generalize (drop_slashes (rev (to_bytes path))) as l. intros l Hl Hu.
  destruct (drop (length (upto_slash l)) l) as [|c d] eqn:Hd; [done|].
  apply (f_equal length) in Hd. rewrite length_drop in Hd. cbn in Hd.
  assert (l <> []) by (intros ->; cbn in Hd; lia).
  assert (length (upto_slash l) <> 0%nat) by (destruct (upto_slash l); [by destruct Hu|done]).
  destruct (decide (d = [])) as [->|]; cbn in *; [lia|]. rewrite length_of_bytes, length_rev. lia.
Qed.

(** What is there stays; what is new is a directory of the given mode. *)
Lemma mkdir_all_spec env perm fuel path t t' ok :
  mkdir_all fuel env perm path t = (t', ok) ->
  (forall name e, t !! name = Some e -> t' !! name = Some e) /\
  (forall name e, t' !! name = Some e -> t !! name = Some e \/ e = Dir (Z.ldiff perm (umask env))) /\
  (ok = true -> exists m, t' !! path = Some (Dir m)).
Proof.
  revert path t t' ok. induction fuel as [|fuel IH]; intros path t t' ok; cbn [mkdir_all];
    destruct (t !! path) as [[m|]|] eqn:Hp; try (intros [= <- <-]; split_and!; [auto|auto|naive_solver]).
  destruct (if String.eqb (parent path) "" then (t, true) else mkdir_all fuel env perm (parent path) t)
    as [t1 ok1] eqn:H1.
  assert (Ht1 : (forall name e, t !! name = Some e -> t1 !! name = Some e) /\
    (forall name e, t1 !! name = Some e -> t !! name = Some e \/ e = Dir (Z.ldiff perm (umask env)))).
  { destruct (String.eqb (parent path) ""); [injection H1 as <- <-; auto|].
    destruct (IH _ _ _ _ H1) as (? & ? & _). done. }
  destruct Ht1 as [Ha Hb].
  destruct ok1; cbn [negb]; [|intros [= <- <-]; split_and!; [auto|auto|done]].
  destruct (mkdir_fails env path); intros [= <- <-]; (split_and!; [| |try done]); auto.
  - intros name e Hn. destruct (decide (path = name)) as [<-|]; [congruence|]. rewrite lookup_insert_ne; auto.
  - intros name e Hn. destruct (decide (path = name)) as [<-|].
    + rewrite lookup_insert_eq in Hn. right. congruence.
    + rewrite lookup_insert_ne in Hn by done. auto.
  - intros _. rewrite lookup_insert_eq. by eexists.
Qed.

(** The fuel is enough: without a file in the way and a failing call the
    directory is made. *)
Lemma MkdirAll_succeeds env perm path t :
  path <> ""%string -> (forall name, t !! name <> Some File) -> (forall name, mkdir_fails env name = false) ->
  snd (MkdirAll env perm path t) = true.
Proof.
  intros Hne Hf Hm. unfold MkdirAll.
  assert (H : forall fuel path, path <> ""%string -> (String.length path <= fuel)%nat ->
    snd (mkdir_all fuel env perm path t) = true); [|by apply H].
  clear path Hne. induction fuel as [|fuel IH]; intros path Hne Hlen; [destruct path; [done|cbn in Hlen; lia]|].
  cbn [mkdir_all]. destruct (t !! path) as [[m|]|] eqn:Hp; [done|by destruct (Hf path)|].
  destruct (String.eqb (parent path) "") eqn:E; bools; [by rewrite Hm|].
  specialize (IH _ E). destruct (mkdir_all fuel env perm (parent path) t) as [t1 ok1]. cbn in IH.
  pose proof (parent_shorter _ Hne). rewrite IH by lia. cbn. by rewrite Hm.
Qed.

(** Resolving keeps every existing entry, makes new directories owner-only, and
    gives directories that exist; it does not change the mode of one that was
    there. *)
Lemma Resolve_dirs env t t' r :
  Resolve env t = (t', r) ->
  (forall name e, t !! name = Some e -> t' !! name = Some e) /\
  (forall name e, t' !! name = Some e -> t !! name = Some e \/ e = Dir (Z.ldiff 448 (umask env))) /\
  (forall d, r = Ok d -> HOME env <> ""%string /\ d = resolved env (HOME env) /\
     (exists m, t' !! Config d = Some (Dir m)) /\ exists m, t' !! Data d = Some (Dir m)).
Proof.
  unfold Resolve, UserHomeDir. destruct (String.eqb (HOME env) "") eqn:Hh; bools.
  { intros [= <- <-]. split_and!; [auto|auto|done]. }
  set (d := resolved env (HOME env)). unfold MkdirAll.
  destruct (mkdir_all _ env 448 (Config d) t) as [t1 ok1] eqn:H1. apply mkdir_all_spec in H1 as (Ha & Hb & Hc).
  destruct ok1; cbn [negb]; [|intros [= <- <-]; split_and!; [auto|auto|done]].
  destruct (mkdir_all _ env 448 (Data d) t1) as [t2 ok2] eqn:H2. apply mkdir_all_spec in H2 as (Ha2 & Hb2 & Hc2).
  assert (Hback : forall name e, t2 !! name = Some e -> t !! name = Some e \/ e = Dir (Z.ldiff 448 (umask env))).
  { intros name e [He|He]%Hb2; auto. }
  destruct ok2; cbn [negb]; intros [= <- <-]; (split_and!; [auto|done|]); [|done].
  intros d' [= <-]. split_and!; [done|done| |auto]. destruct (Hc eq_refl) as [m Hm]. exists m. auto.
Qed.

(** *** Names in a directory *)

(** A file name: no slash, not empty, no dots alone. *)
Definition plain_name (x : string) : bool :=
  negb (HasByte x "/") && negb (String.eqb x "") && negb (String.eqb x ".") && negb (String.eqb x "..").

Lemma split_on_snoc sep s e : sep ∉ e -> split_on sep (s ++ sep :: e) = split_on sep s ++ [e].
Proof.
  intros He. induction s as [|c s IH]; cbn.
  - rewrite Ascii.eqb_refl. by rewrite split_on_no_sep.
  - destruct (Ascii.eqb c sep); [by rewrite IH|]. rewrite IH.
    destruct (split_on sep s) as [|w ws] eqn:E; [|done]. by destruct s as [|c' s]; cbn in E; [|repeat case_match].
Qed.

Lemma join_slash_snoc es e :
  join_slash (es ++ [e]) = match es with [] => [] | _ => join_slash es ++ ["/"%char] end ++ e.
Proof.
  destruct es as [|x es]; cbn; [by rewrite app_nil_r|].
  rewrite fmap_app, concat_app. cbn. rewrite app_nil_r. by rewrite <-!(assoc_L (++)).
Qed.

Lemma plain_name_spec x :
  plain_name x = true ->
  "/"%char ∉ to_bytes x /\ to_bytes x <> [] /\ to_bytes x <> to_bytes "." /\ to_bytes x <> to_bytes "..".
Proof.
  unfold plain_name, HasByte. rewrite !andb_true_iff, !negb_true_iff, !String.eqb_neq.
  intros [[[Hs He] Hd] Hdd]. split_and!.
  - intros Hin. apply not_true_iff_false in Hs. apply Hs. apply existsb_exists. exists "/"%char.
    split; [by apply list_elem_of_In|apply Ascii.eqb_refl].
  - intros E. by apply He, to_bytes_inj.
  - intros E. by apply Hd, to_bytes_inj.
  - intros E. by apply Hdd, to_bytes_inj.
Qed.

(** Joining a plain name to a directory puts the name after a prefix that only
    the directory determines. *)
Lemma PathJoin_name dir :
  dir <> ""%string -> exists pre, forall x, plain_name x = true -> PathJoin [dir; x] = of_bytes (pre ++ to_bytes x).
Proof.
  intros Hd.
  set (r := rooted_bytes (to_bytes dir)).
  set (st := foldl (clean_step r) [] (split_on "/" (to_bytes dir))).
  set (body := match rev st with [] => [] | _ => join_slash (rev st) ++ ["/"%char] end).
  exists (if r then "/"%char :: body else body).
  intros x Hx. apply plain_name_spec in Hx as (H1 & H2 & H3 & H4).
  unfold PathJoin. cbn [List.filter].
  destruct (String.eqb dir "") eqn:E1; bools; [done|]. destruct (String.eqb x "") eqn:E2; bools; [by subst|].
  cbn [negb]. unfold Clean. rewrite HasPrefix_slash.
  assert (Hj : to_bytes (Join [dir; x] "/") = to_bytes dir ++ "/"%char :: to_bytes x).
  { unfold Join. cbn [String.concat]. by rewrite !to_bytes_app. }
  rewrite Hj. unfold clean_comps. rewrite split_on_snoc by done.
  assert (Hr : rooted_bytes (to_bytes dir ++ "/"%char :: to_bytes x) = r).
  { unfold r. destruct dir; [done|]. done. }
  rewrite Hr, foldl_app. fold st. cbn [foldl].
  assert (Hst : clean_step r st (to_bytes x) = to_bytes x :: st).
  { unfold clean_step. by rewrite !decide_False. }
  rewrite Hst. cbn [rev]. rewrite join_slash_snoc. fold body.
  clearbody body r st. destruct r; [done|]. destruct (rev st); done.
Qed.

Lemma PathJoin_inj dir x y :
  dir <> ""%string -> plain_name x = true -> plain_name y = true -> PathJoin [dir; x] = PathJoin [dir; y] -> x = y.
Proof.
  intros Hd Hx Hy. destruct (PathJoin_name dir Hd) as [pre Hp]. rewrite !Hp by done.
  intros H%of_bytes_inj. apply app_inv_head in H. by apply to_bytes_inj.
Qed.

Lemma Clean_nonempty s : Clean s <> ""%string.
Proof.
  unfold Clean. destruct (HasPrefix s "/") eqn:E; [done|].
  pose proof (clean_comps_kept false (to_bytes s)) as [Hk _].
  destruct (clean_comps false (to_bytes s)) as [|e es]; [done|]. cbn in Hk. apply Forall_app in Hk as [_ Hk].
  inversion Hk as [|? ? (He & _) _]; subst. by destruct e.
Qed.

Lemma data_names_plain : forallb plain_name data_names = true /\ NoDup data_names.
Proof. split; [done|]. apply (bool_decide_unpack _). by vm_compute. Qed.

(** The command line dials, for each role, the socket the daemon serves it on,
    and no two files of the data directory share a name. *)
Lemma paths_agree env t t' d :
  Resolve env t = (t', Ok d) ->
  (forall r, dialled (client_paths d) r = listener_path (Data d) r) /\
  Data d <> ""%string /\
  forall x y, x ∈ data_names -> y ∈ data_names -> PathJoin [Data d; x] = PathJoin [Data d; y] -> x = y.
Proof.
  intros Hr. apply Resolve_dirs in Hr as (_ & _ & Hd). destruct (Hd d eq_refl) as (_ & Hdir & _ & _).
  assert (Hne : Data d <> ""%string).
  { subst d. unfold resolved, PathJoin. cbn [Data List.filter].
    destruct (negb (String.eqb (if String.eqb (XDG_DATA_HOME env) "" then _ else _) "")); apply Clean_nonempty. }
  split_and!; [by intros []|done|]. intros x y Hx Hy.
  destruct data_names_plain as [Hp _]. rewrite forallb_forall in Hp.
  apply PathJoin_inj; [done| |]; apply Hp; by apply list_elem_of_In.
Qed.

Lemma remove_socket_spec fails path fs fs' ok :
  remove_socket fails path fs = (fs', ok) ->
  (ok = true -> fs' = delete path fs) /\ (ok = false -> fs' = fs).
Proof.
  unfold remove_socket. destruct (fs !! path) eqn:Hp; [destruct (fails path)|]; intros [= <- <-]; split; try done.
  intros _. by rewrite delete_id.
Qed.

(** A daemon that goes on to listen has no socket of a disabled mode left over
    from an earlier run. *)
Lemma disabled_sockets_gone dataDir a u fails fs fs' :
  remove_disabled dataDir a u fails fs = (fs', true) ->
  (a = false -> fs' !! listener_path dataDir RoleDiagnose = None) /\
  (u = false -> fs' !! listener_path dataDir RoleUnsafeShell = None) /\
  forall path, path <> listener_path dataDir RoleDiagnose -> path <> listener_path dataDir RoleUnsafeShell ->
    fs' !! path = fs !! path.
Proof.
  unfold remove_disabled.
  destruct (if a then _ else _) as [fs1 ok1] eqn:H1. destruct ok1; cbn [negb]; [|done].
  assert (Hd : fs1 = if a then fs else delete (listener_path dataDir RoleDiagnose) fs).
  { destruct a; [by injection H1|]. apply remove_socket_spec in H1 as [H1 _]. by rewrite H1. }
  intros H2.
  assert (Hu : fs' = if u then fs1 else delete (listener_path dataDir RoleUnsafeShell) fs1).
  { destruct u; [by injection H2|]. apply remove_socket_spec in H2 as [H2 _]. by rewrite H2. }
  subst fs1 fs'. split_and!.
  - intros ->. destruct u; [by rewrite lookup_delete_eq|].
    destruct (decide (listener_path dataDir RoleUnsafeShell = listener_path dataDir RoleDiagnose)) as [->|];
      [by rewrite lookup_delete_eq|]. by rewrite lookup_delete_ne, lookup_delete_eq.
  - intros ->. by rewrite lookup_delete_eq.
  - intros path Hp1 Hp2. destruct u, a; by rewrite ?lookup_delete_ne.
Qed.

(** *** The lock *)

(** The lock of a data directory is held exactly by the process that is
    between acquiring and releasing it. *)
Definition lock_inv (h : host) : Prop :=
  forall path pid, held h !! path = Some pid <->
    exists p, procs h !! pid = Some p /\ holding p = true /\ lock_path (data_dir p) = path.

Lemma lock_inv_put h pid p st l :
  procs h !! pid = Some p ->
  (forall path q, l !! path = Some q <->
     (q = pid /\ match st with Recovering | Serving | Leaving => true | _ => false end = true /\
      lock_path (data_dir p) = path) \/
     (q <> pid /\ held h !! path = Some q)) ->
  lock_inv h -> lock_inv (put_stage pid p st l h).
Proof.
  intros Hp Hl Hi path q. cbn [held procs put_stage]. rewrite Hl. destruct (decide (q = pid)) as [->|Hne].
  - rewrite lookup_insert_eq. split.
    + intros [(_ & Hst & Hpath)|[? _]]; [|done]. eexists. split; [done|]. by split.
    + intros (p' & [= <-] & Hst & Hpath). left. by split_and!.
  - rewrite lookup_insert_ne by done. rewrite (Hi path q). naive_solver.
Qed.

Lemma holder_path h path pid p :
  lock_inv h -> procs h !! pid = Some p -> held h !! path = Some pid ->
  holding p = true /\ lock_path (data_dir p) = path.
Proof. intros Hi Hp (p' & Hp' & ? & ?)%Hi. by simplify_eq. Qed.

Lemma lock_inv_step h h' : host_step h h' -> lock_inv h -> lock_inv h'.
Proof.
  intros Hs Hi. destruct Hs as [h pid dir Hn|h pid p ok Hp Hst|h pid p Hp Hst|h pid p Hp Hst|h pid p Hp Hst|h pid p Hp].
  - intros path q. cbn. rewrite (Hi path q). destruct (decide (q = pid)) as [->|]; [|by rewrite lookup_insert_ne].
    rewrite lookup_insert_eq, Hn. split; [naive_solver|]. intros (p & [= <-] & ? & _). done.
  - assert (Hnot : forall path, held h !! path <> Some pid).
    { intros path Hh. apply (holder_path _ _ _ _ Hi Hp) in Hh as [Hh _]. unfold holding in Hh. by rewrite Hst in Hh. }
    assert (Hfail : lock_inv (put_stage pid p Exited (held h) h)).
    { apply lock_inv_put; [done| |done]. intros path q. naive_solver. }
    unfold acquireLock. destruct ok; cbn [negb]; [|done]. destruct (held h !! _) as [o|] eqn:Hh; [done|].
    apply lock_inv_put; [done| |done]. intros path q. destruct (decide (lock_path (data_dir p) = path)) as [<-|Hne].
    + rewrite lookup_insert_eq, Hh. naive_solver.
    + rewrite lookup_insert_ne by done. naive_solver.
  - apply lock_inv_put; [done| |done]. intros path q.
    destruct (decide (q = pid)) as [->|]; [|naive_solver]. rewrite (Hi path pid).
    split; [intros (p' & ? & ? & ?); simplify_eq; auto|intros [(_ & _ & ?)|[? _]]; [|done]].
    exists p. unfold holding. by rewrite Hst.
  - apply lock_inv_put; [done| |done]. intros path q.
    destruct (decide (q = pid)) as [->|]; [|naive_solver]. rewrite (Hi path pid).
    split; [intros (p' & ? & ? & ?); simplify_eq; auto|intros [(_ & _ & ?)|[? _]]; [|done]].
    exists p. unfold holding. by destruct Hst as [-> | ->].
  - apply lock_inv_put; [done| |done]. intros path q. unfold releaseLock. rewrite lookup_delete_Some.
    assert (Hmine : held h !! lock_path (data_dir p) = Some pid).
    { apply Hi. exists p. unfold holding. by rewrite Hst. }
    destruct (decide (q = pid)) as [->|].
    + split; [|naive_solver]. intros [Hne Hh]. apply (holder_path _ _ _ _ Hi Hp) in Hh as [_ Hh]. done.
    + split; [naive_solver|]. intros [(_ & ? & _)|[_ Hh]]; [done|]. split; [|done]. intros <-. congruence.
  - apply lock_inv_put; [done| |done]. intros path q. unfold dropped. rewrite map_lookup_filter_Some. naive_solver.
Qed.

Lemma reachable_locks h : rtc host_step no_daemons h -> lock_inv h.
Proof.
  intros Hr. eapply rtc_keeps; [exact lock_inv_step|exact Hr|]. intros path pid. cbn.
  rewrite lookup_empty. split; [done|]. intros (p & Hp & _). by rewrite lookup_empty in Hp.
Qed.

(** ** Properties *)

(** C23. One daemon per data directory. In every interleaving of daemons that
    start, fail to get the lock, recover, serve, leave, exit and are killed,
    two processes that both hold the lock of one data directory are the same
    process: the sockets, the records and the open transactions of a directory
    have one owner. A daemon that tries to start gets the lock exactly when it
    can open the file and no live process holds it, so neither a crash nor a
    kill leaves the directory locked. Two processes that may write the records
    of one directory overlap only while one of them, its lock released, is
    about to exit. *)
Theorem single_daemon h pid p :
  rtc host_step no_daemons h -> procs h !! pid = Some p ->
  let path := lock_path (data_dir p) in
  (forall qid q, procs h !! qid = Some q -> holding p = true -> holding q = true ->
     lock_path (data_dir q) = path -> qid = pid) /\
  (forall open_ok, snd (acquireLock open_ok pid path (held h)) = None <->
     open_ok = true /\
     forall qid q, procs h !! qid = Some q -> lock_path (data_dir q) = path -> holding q = false) /\
  (forall qid q, procs h !! qid = Some q -> qid <> pid -> lock_path (data_dir q) = path ->
     may_write p = true -> may_write q = true -> at_stage p = Released \/ at_stage q = Released).
Proof.
  intros Hr Hp path. pose proof (reachable_locks _ Hr) as Hi.
  assert (Hone : forall qid q, procs h !! qid = Some q -> holding p = true -> holding q = true ->
     lock_path (data_dir q) = path -> qid = pid).
  { intros qid q Hq Hhp Hhq Hpath.
    assert (H1 : held h !! path = Some pid) by (apply Hi; by exists p).
    assert (H2 : held h !! path = Some qid) by (apply Hi; by exists q). congruence. }
  split_and!; [done| |].
  - intros open_ok. unfold acquireLock. destruct open_ok; cbn; [|naive_solver].
    destruct (held h !! path) as [o|] eqn:Ho; cbn.
    + split; [done|]. intros [_ Hall]. apply Hi in Ho as (q & Hq & Hh & Hpath). specialize (Hall o q Hq Hpath).
      congruence.
    + split; [|done]. intros _. split; [done|]. intros qid q Hq Hpath. destruct (holding q) eqn:Hh; [|done].
      assert (held h !! path = Some qid) by (apply Hi; by exists q). congruence.
  - intros qid q Hq Hne Hpath Hwp Hwq.
    destruct (holding p) eqn:Hhp, (holding q) eqn:Hhq; [by destruct Hne; apply (Hone qid q)| | |];
      unfold holding, may_write in *; destruct (at_stage p), (at_stage q); auto; done.
Qed.

(** *** Witnesses *)

Definition demo_process (st : stage) : process := {| data_dir := "/home/op/.local/share/ai-debug-gateway"; at_stage := st |}.

(** A daemon that serves, and a second one that starts beside it. *)
Definition demo_host : host :=
  {| held := {[lock_path "/home/op/.local/share/ai-debug-gateway" := 1%nat]};
     procs := <[1%nat := demo_process Serving]> (<[2%nat := demo_process Starting]>
       (<[1%nat := demo_process Recovering]> (<[1%nat := demo_process Starting]> ∅))) |}.

Lemma demo_host_runs : rtc host_step no_daemons demo_host.
Proof.
  eapply rtc_l; [apply (h_start _ 1 "/home/op/.local/share/ai-debug-gateway"); done|].
  eapply rtc_l; [apply (h_acquire _ 1 (demo_process Starting) true); done|].
  eapply rtc_l; [apply (h_start _ 2 "/home/op/.local/share/ai-debug-gateway"); done|].
  eapply rtc_l; [apply (h_recovered _ 1 (demo_process Recovering)); done|].
  apply rtc_refl.
Qed.

Lemma single_daemon_witness :
  snd (acquireLock true 2 (lock_path "/home/op/.local/share/ai-debug-gateway") (held demo_host)) <> None.
Proof.
  destruct (single_daemon demo_host 2 (demo_process Starting) demo_host_runs eq_refl) as (_ & H & _).
  intros Hn. apply (H true) in Hn as [_ Hall]. specialize (Hall 1%nat (demo_process Serving) eq_refl eq_refl).
  discriminate Hall.
Defined.

Example demo_resolve :
  let '(t, dirs) :=
    Resolve {| HOME := "/home/op"; XDG_CONFIG_HOME := ""; XDG_DATA_HOME := "/srv/data/"; umask := 18;
               mkdir_fails := fun _ => false |} {["/"%string := Dir 493; "/home"%string := Dir 493; "/srv"%string := Dir 493]} in
  dirs = Ok {| Config := "/home/op/.config/ai-debug-gateway"; Data := "/srv/data/ai-debug-gateway" |} /\
  (t !!.) <$> ["/srv"; "/srv/data"; "/srv/data/ai-debug-gateway"; "/home/op"; "/home/op/.config";
               "/home/op/.config/ai-debug-gateway"]%string =
    Some (Dir 493) :: replicate 5 (Some (Dir 448)) /\
  size t = 8%nat.
Proof. vm_compute. done. Qed.
