(* ===== verification/Gateway.v ===== *)
(** * The gateway command (src/cmd/gateway/main.go)

    The command line of the operator: which socket each command dials, the one
    request it sends, what it prints; the requests of an attach session, those
    of the key loop of Cli.v and those of its poller; the interactive creation
    of a profile; and the raw terminal mode of the attach session with its
    signal handler. *)

From S2P Require Import Prelude GoStd Cli Json JsonStrings JsonTexts Command Ipc Wire Client Profile Store Serial Server Host Replies.

(** ** Flags *)

(** The value is the argument after the first occurrence that has one. *)
Fixpoint flagValue (args : list string) (name : string) : string :=
  match args with
  | [] => ""%string
  | a :: rest =>
      match rest with
      | [] => ""%string
      | v :: _ => if String.eqb a name then v else flagValue rest name
      end
  end.

Definition hasFlag (args : list string) (name : string) : bool := existsb (fun a => String.eqb a name) args.

(** The error is dropped and the value that comes with it kept. *)
Definition parseUint (s : string) : Z := fst (ParseUint (to_bytes s)).
Definition parseInt (s : string) : Z := fst (ParseInt (to_bytes s)).

(** ** Creating a profile *)

(** [ReadString('\n')] of a reader: the text up to and with the next newline,
    or all of it at the end. *)
Definition read_string_line (stdin : bytes) : bytes * bytes :=
  match cut_line stdin with Some lr => lr | None => (stdin, []) end.

Fixpoint drop_eol (s : bytes) : bytes :=
  match s with
  | c :: s' => if Ascii.eqb c newline || Ascii.eqb c (ascii_of_nat 13) then drop_eol s' else s
  | [] => []
  end.

(** [prompt]: the answer and the rest of the input. *)
Definition prompt (stdin : bytes) : string * bytes :=
  let '(line, rest) := read_string_line stdin in (of_bytes (rev (drop_eol (rev line))), rest).

Inductive create_err :=
| ErrProfileDir | ErrDiscovery | ErrIndex (idx : Z) | ErrLineSettings (e : LineError) | ErrNoIdentity
| ErrSave (e : SaveError).

(** What [profileCreate] runs on. *)
Record create_env := {
  process_env : environment; ports_of : Serial.host; stdin : bytes; save_calls : save_io
}.

(** The directory tree, the states of the profile directory and the outcome.
    What is printed on the way is not part of it. *)
Definition profileCreate (e : create_env) (t : tree) (fs : filesystem) (profileDir : string)
  : tree * list filesystem * option create_err :=
  let '(t, ok) := MkdirAll (process_env e) 448 profileDir t in
  if negb ok then (t, [], Some ErrProfileDir)
  else match List_ (ports_of e) with
       | None => (t, [], Some ErrDiscovery)
       | Some ports =>
           let '(name, input) := prompt (stdin e) in
           let '(index, input) := prompt input in
           let idx := parseInt index in
           if (idx <? 0) || (zlen ports <=? idx) then (t, [], Some (ErrIndex idx))
           else
             let '(baud, input) := prompt input in
             let '(dataBits, input) := prompt input in
             let '(parity, input) := prompt input in
             let '(stopBits, input) := prompt input in
             let '(flow, input) := prompt input in
             let line := {| BaudRate := parseInt baud; DataBits := parseInt dataBits; Parity := parity;
                            StopBits := parseInt stopBits; Flow := flow |} in
             match Profile.Validate line with
             | Some err => (t, [], Some (ErrLineSettings err))
             | None =>
                 match ports !! Z.to_nat idx with
                 | None => (t, [], Some (ErrIndex idx))
                 | Some port =>
                     if negb (Known (port_Identity port)) then (t, [], Some ErrNoIdentity)
                     else
                       let p := {| Name := name;
                                   UART := Some {| uart_Identity := port_Identity port; uart_Line := line |};
                                   SSH := None; Telnet := None |} in
                       let '(states, err) := Save (save_calls e) fs profileDir p in
                       (t, states, ErrSave <$> err)
                 end
             end
       end.

(** ** Commands *)

Definition maxConfirmationBytes : Z := 4 * 1024.

(** What an attach session meets: what is typed until the end of the input; for
    each write to the connection, by its number, the fresh identifier and where
    it is cut; for each call of the key loop the error text it comes back with;
    and the polls that the other goroutine sends before that call, each with
    the offset it comes back with, when it does not fail. Nothing is assumed of
    the responses, since the two goroutines take them from one reader
    ([Client.shared_client_swaps]). *)
Record attach_env := {
  keyboard : bytes;
  nth_rid : nat -> string; nth_cut : nat -> option nat;
  nth_error : nat -> option string;
  nth_polls : nat -> list (option Z);
  quoting : GoQuote
}.

(** What a run of the command meets: the build texts, the terminal, the fresh
    request identifier, where a write to a connection is cut, what arrives on
    each socket ([None]: dialling fails), and the calls that fail. *)
Record cli_env := {
  build_version : string; build_commit : string;
  stdin_terminal : bool; typed_password : option string;
  rid : string; cut : option nat; arrives : string -> option (list bytes);
  stdout_ok : bool; stderr_ok : bool;
  make_raw_ok : bool; attached : attach_env;
  creating : create_env; tree_before : tree; profiles_before : filesystem
}.

(** The run after the directories were made. *)
Definition on_tree (t : tree) (env : cli_env) : cli_env :=
  {| build_version := build_version env; build_commit := build_commit env;
     stdin_terminal := stdin_terminal env; typed_password := typed_password env;
     rid := rid env; cut := cut env; arrives := arrives env;
     stdout_ok := stdout_ok env; stderr_ok := stderr_ok env;
     make_raw_ok := make_raw_ok env; attached := attached env;
     creating := creating env; tree_before := t; profiles_before := profiles_before env |}.

(** What a run does, in order. *)
Inductive effect :=
| Warned (text : bytes)
| AskedPassword
| Dialled (path : string)
| Sent (path : string) (op : operation) (data : bytes)
| Printed (text : bytes)
| Created (t : tree) (states : list filesystem).

Inductive cli_error :=
| ErrNoCommand | ErrUnknownCommand | ErrPasswordFlag | ErrExecuteFlags | ErrTimeoutTooLong | ErrDisplay
| ErrApproveFlags | ErrConfirmationTooLong | ErrDial | ErrRequest (e : cli_err) | ErrStdout | ErrCreate_ (e : create_err).

(** [runCLI] returns, or the process exits inside it. *)
Inductive cli_end := Returned (e : option cli_error) | Exit (code : Z).

(** [printResultTo], and the printing of an execution result. *)
Definition printResultTo (env : cli_env) (r : result cli_err bytes) : list effect * cli_end :=
  match r with
  | Err e => ([], Returned (Some (ErrRequest e)))
  | Ok data => if stdout_ok env then ([Printed (data ++ [newline])], Returned None)
               else ([], Returned (Some ErrStdout))
  end.

(** What a call for a [DiagnoseResult] makes of the outcome. *)
Definition execute_result (out : result call_err received) : result cli_err bytes :=
  match out with
  | Err e => Err (ErrCall e)
  | Ok resp =>
      match rcv_Error resp with
      | Some e => Err (ErrProtocol e)
      | None => match reprint (rcv_Result resp) with Some b => Ok b | None => Err ErrResult end
      end
  end.

(** [runClient] with one call in its function. *)
Definition runClient (env : cli_env) (path : string) (op : operation)
    (read : result call_err received -> result cli_err bytes) : list effect * cli_end :=
  match arrives env path with
  | None => ([], Returned (Some ErrDial))
  | Some pieces =>
      let '(data, out, _) := Call (cut env) (to_request (rid env) op) (Dial pieces) in
      let '(printed, e) := printResultTo env (read out) in
      (Dialled path :: Sent path op data :: printed, e)
  end.

Definition blank (s : string) : bool := String.eqb (TrimSpace s) "".

Definition promptPassword (env : cli_env) : list effect * string :=
  ([AskedPassword], default ""%string (typed_password env)).

(** [diagnose] and [unsafe-shell]: the same checks, then the command is shown
    and sent. *)
Definition runExecute (env : cli_env) (path : string) (call : ExecuteRequest -> operation) (args : list string)
  : list effect * cli_end :=
  let req := {| ex_SessionID := flagValue args "--session"; ex_Text := flagValue args "--text";
                ex_Purpose := flagValue args "--purpose"; ex_TimeoutMS := parseInt (flagValue args "--timeout-ms") |} in
  if blank (ex_SessionID req) || blank (ex_Text req) || blank (ex_Purpose req) || (ex_TimeoutMS req <=? 0) then
    ([], Returned (Some ErrExecuteFlags))
  else if MaxDiagnosticTimeoutMS <? ex_TimeoutMS req then ([], Returned (Some ErrTimeoutTooLong))
  else if negb (stderr_ok env) then ([], Returned (Some ErrDisplay))
  else
    let '(effects, e) := runClient env path (call req) execute_result in
    (Warned (to_bytes (ex_Text req) ++ [newline]) :: effects, e).

Definition runStart (env : cli_env) (path : string) (args : list string) : list effect * cli_end :=
  if hasFlag args "--ssh-password" then ([], Returned (Some ErrPasswordFlag))
  else
    let board := flagValue args "--board" in
    let transport := flagValue args "--transport" in
    let '(asked, password) :=
      if String.eqb transport "ssh" && stdin_terminal env then promptPassword env else ([], ""%string) in
    let opts := {| opt_Transport := transport; opt_SSHPassword := password; opt_SSHKeyPassphrases := [];
                   opt_SSHAcceptHost := hasFlag args "--ssh-accept-host" |} in
    let '(effects, e) := runClient env path (SessionStartWithOptions board opts) raw_result in
    (asked ++ effects, e).

Definition runApprove (env : cli_env) (path : string) (args : list string) : list effect * cli_end :=
  let proposal := flagValue args "--proposal" in
  let confirmation := flagValue args "--confirmation" in
  if blank proposal || blank confirmation then ([], Returned (Some ErrApproveFlags))
  else if maxConfirmationBytes <? Z.of_nat (String.length confirmation) then
    ([], Returned (Some ErrConfirmationTooLong))
  else runClient env path (CommandApproveWithConfirmation proposal confirmation) raw_result.

(** *** The attach session *)

(** The requests of the key loop as operations of the control client. *)
Definition attach_op (r : Cli.request) : operation :=
  match r with
  | Cli.TransportWrite data => TransportWrite data
  | Cli.CommandApprove id => CommandApprove id
  | Cli.CommandReject id => CommandReject id
  | Cli.CommandEdit id text purpose => CommandEdit id text purpose
  | Cli.SecretBegin => SecretBegin
  | Cli.SecretDone => SecretDone
  | Cli.RetryUART => RetryUART
  | Cli.RetrySSH => RetrySSH
  | Cli.RetryTelnet => RetryTelnet
  | Cli.Takeover => Takeover
  | Cli.SessionEnd => SessionEnd
  end.

(** The connection: what was sent on it so far, the calls of the key loop, and
    where the poller reads on. *)
Record attach_state := { sent : list effect; loop_calls : nat; after : Z }.

Definition send (a : attach_env) (path : string) (op : operation) (st : attach_state) : attach_state :=
  let n := length (sent st) in
  {| sent := sent st ++ [Sent path op (write_request (nth_cut a n) (to_request (nth_rid a n) op)).1];
     loop_calls := loop_calls st; after := after st |}.

(** [pollOutput], for the ticks that fall here. *)
Fixpoint poll_ticks (a : attach_env) (path : string) (ticks : list (option Z)) (st : attach_state) : attach_state :=
  match ticks with
  | [] => st
  | next :: ticks =>
      let st := send a path (OutputRead (after st) (64 * 1024)) st in
      poll_ticks a path ticks {| sent := sent st; loop_calls := loop_calls st; after := default (after st) next |}
  end.

(** The polls of the moment, between two calls of the key loop. *)
Definition polls_now (a : attach_env) (path : string) (st : attach_state) : attach_state :=
  poll_ticks a path (nth_polls a (loop_calls st)) st.

(** A call of the key loop, after them. *)
#[local] Instance attach_client (a : attach_env) (path : string) : Cli.Client attach_state := fun r st =>
  let st := send a path (attach_op r) (polls_now a path st) in
  ({| sent := sent st; loop_calls := S (loop_calls st); after := after st |}, nth_error a (loop_calls st)).

(** Ctrl-]. *)
Definition EscapePrefix : ascii := ascii_of_nat 29.

(** [cli.Attach] on the dialled connection; the end of the input is an error,
    and [fatal] exits with 1. The texts on the terminal are not part of it. *)
Definition attach_session (a : attach_env) (path : string) : list effect * cli_end :=
  let start := {| sent := []; loop_calls := 0; after := 0 |} in
  match @Cli.Attach _ (attach_client a path) (quoting a) EscapePrefix (keyboard a) start with
  | Some (st, _, e) =>
      (sent (polls_now a path st), match e with Detached => Returned None | InputEnded => Exit 1 end)
  | None => ([], Exit 1)
  end.

Definition runAttach (env : cli_env) (path : string) : list effect * cli_end :=
  match arrives env path with
  | None => ([], Exit 1)
  | Some _ =>
      if stdin_terminal env && negb (make_raw_ok env) then ([Dialled path], Exit 1)
      else let '(effects, e) := attach_session (attached env) path in (Dialled path :: effects, e)
  end.

Definition runProfile (env : cli_env) (dir : string) (args : list string) : list effect * cli_end :=
  match args with
  | sub :: _ =>
      if String.eqb sub "create" then
        let '(t, states, err) := profileCreate (creating env) (tree_before env) (profiles_before env) dir in
        ([Created t states], Returned (ErrCreate_ <$> err))
      else ([], Exit 2)
  | [] => ([], Exit 2)
  end.

Definition versionText (env : cli_env) : bytes :=
  to_bytes "gateway version=" ++ to_bytes (build_version env) ++ to_bytes " commit=" ++
  to_bytes (build_commit env) ++ [newline].

Definition runCLI (env : cli_env) (sockets : socketPaths) (argv : list string) : list effect * cli_end :=
  match argv with
  | [] => ([], Returned (Some ErrNoCommand))
  | cmd :: args =>
      let cmd_is := String.eqb cmd in
      let control op := runClient env (Control sockets) op raw_result in
      if cmd_is "version"%string then
        (if stdout_ok env then ([Printed (versionText env)], Returned None) else ([], Returned (Some ErrStdout)))
      else if cmd_is "ports"%string then control PortsList
      else if cmd_is "profile"%string then runProfile env (ProfileDir sockets) args
      else if cmd_is "start"%string then runStart env (Attach sockets) args
      else if cmd_is "status"%string then control SessionStatus
      else if cmd_is "output"%string then control (OutputRead (parseUint (flagValue args "--after")) (64 * 1024))
      else if cmd_is "propose"%string then
        control (CommandPropose (flagValue args "--session") (flagValue args "--text")
                   (flagValue args "--purpose") (parseInt (flagValue args "--timeout-ms")))
      else if cmd_is "diagnose"%string then runExecute env (Diagnose sockets) DiagnoseExecute args
      else if cmd_is "unsafe-shell"%string then runExecute env (UnsafeShell sockets) UnsafeShellExecute args
      else if cmd_is "approve"%string then runApprove env (Attach sockets) args
      else if cmd_is "export"%string then control (RecordsExport 0 0)
      else if cmd_is "attach"%string then runAttach env (Attach sockets)
      else ([], Returned (Some ErrUnknownCommand))
  end.

(** [main]: the usage and exit code 2 without a command, 1 for any error. *)
Definition main (env : cli_env) (argv : list string) : list effect * Z :=
  match argv with
  | [] => ([], 2)
  | _ =>
      match Resolve (process_env (creating env)) (tree_before env) with
      | (_, Err _) => ([], 1)
      | (t, Ok d) =>
          let '(effects, e) := runCLI (on_tree t env) (client_paths d) argv in
          (effects, match e with Returned None => 0 | Returned (Some _) => 1 | Exit code => code end)
      end
  end.

(** ** Specification *)

(** An execution request fit to be sent. *)
Definition fit (r : ExecuteRequest) : Prop :=
  TrimSpace (ex_SessionID r) <> ""%string /\ TrimSpace (ex_Text r) <> ""%string /\
  TrimSpace (ex_Purpose r) <> ""%string /\ 0 < ex_TimeoutMS r <= MaxDiagnosticTimeoutMS.

(** The requests each command may send: on which socket, and what the operator
    has seen or done before. *)
Inductive asks (env : cli_env) : string -> list string -> Role -> operation -> list effect -> Prop :=
| asks_ports args : asks env "ports" args RoleControl PortsList []
| asks_status args : asks env "status" args RoleControl SessionStatus []
| asks_output args after : 0 <= after <= max_uint64 -> asks env "output" args RoleControl (OutputRead after 65536) []
| asks_propose args session text purpose timeout :
    asks env "propose" args RoleControl (CommandPropose session text purpose timeout) []
| asks_export args : asks env "export" args RoleControl (RecordsExport 0 0) []
| asks_diagnose args r :
    fit r -> asks env "diagnose" args RoleDiagnose (DiagnoseExecute r) [Warned (to_bytes (ex_Text r) ++ [newline])]
| asks_unsafe args r :
    fit r ->
    asks env "unsafe-shell" args RoleUnsafeShell (UnsafeShellExecute r) [Warned (to_bytes (ex_Text r) ++ [newline])]
| asks_start args board o :
    "--ssh-password"%string ∉ args -> opt_SSHPassword o = ""%string -> opt_SSHKeyPassphrases o = [] ->
    asks env "start" args RoleAttach (SessionStartWithOptions board o) []
| asks_start_password args board o :
    "--ssh-password"%string ∉ args -> stdin_terminal env = true -> opt_Transport o = "ssh"%string ->
    opt_SSHPassword o = default ""%string (typed_password env) -> opt_SSHKeyPassphrases o = [] ->
    asks env "start" args RoleAttach (SessionStartWithOptions board o) [AskedPassword]
| asks_approve args proposal confirmation :
    TrimSpace proposal <> ""%string -> TrimSpace confirmation <> ""%string ->
    Z.of_nat (String.length confirmation) <= 4096 ->
    asks env "approve" args RoleAttach (CommandApproveWithConfirmation proposal confirmation) [].

(** A run that sends one request on a socket after [pre]: it fails, printing
    nothing, or prints what the daemon returned for it. *)
Definition sends (env : cli_env) (path : string) (op : operation) (pre : list effect)
    (run : list effect * cli_end) : Prop :=
  exists data, (exists pieces, arrives env path = Some pieces /\
    data = (Call (cut env) (to_request (rid env) op) (Dial pieces)).1.1) /\
  ((run.1 = pre ++ [Dialled path; Sent path op data] /\ exists e, run.2 = Returned (Some e)) \/
   exists text, run.1 = pre ++ [Dialled path; Sent path op data; Printed text] /\ run.2 = Returned None).

(** A session on the attach socket: it sends, in order, the requests that what
    was typed stands for, among polls of the output, each with an operation
    that the role permits and each its whole line unless the write fails; it
    returns after a detach or end, and exits with 1 when the input ends. *)
Definition poll_of (op : operation) : Prop := exists after, op = OutputRead after 65536.

Definition is_poll (op : operation) : bool := String.eqb (fst op) OpOutputRead.

Definition sent_ops (effects : list effect) : list operation :=
  omap (fun e => match e with Sent _ op _ => Some op | _ => None end) effects.

Definition whole_or_cut (path : string) (e : effect) : Prop :=
  exists op rid data, e = Sent path op data /\ permitted RoleAttach (fst op) = true /\
    data `prefix_of` (request_line (to_request rid op) ++ [newline]).

Definition attaches (a : attach_env) (path : string) (run : list effect * cli_end) : Prop :=
  exists ts tail effects,
    Forall (typed_ok EscapePrefix) ts /\ unfinished EscapePrefix tail /\
    keyboard a = concat (keys EscapePrefix <$> ts) ++ tail /\
    let '(rs, e) := requests EscapePrefix ts in
    run = (Dialled path :: effects, match e with Detached => Returned None | InputEnded => Exit 1 end) /\
    Forall (whole_or_cut path) effects /\
    Forall (fun op => is_poll op = true -> poll_of op) (sent_ops effects) /\
    List.filter (fun op => negb (is_poll op)) (sent_ops effects) = attach_op <$> rs.

Definition no_request (effects : list effect) : Prop := forall path op data, Sent path op data ∉ effects.

(** ** Lemmas *)

Lemma runClient_spec env path op read pre :
  let '(effects, e) := runClient env path op read in
  (arrives env path = None /\ effects = [] /\ e = Returned (Some ErrDial)) \/
  sends env path op pre (pre ++ effects, e).
Proof.
  unfold runClient, sends. destruct (arrives env path) as [pieces|] eqn:Ha; [|by left].
  destruct (Call (cut env) (to_request (rid env) op) (Dial pieces)) as [[data out] c] eqn:Hc.
  unfold printResultTo. destruct (read out) as [text|err]; [destruct (stdout_ok env)|]; right; exists data;
    (split; [exists pieces; by rewrite Hc|]); cbn; eauto.
Qed.

(** *** The attach session *)

(** What was sent so far: only the calls [ops] and polls. *)
Record sent_only (path : string) (ops : list operation) (st : attach_state) : Prop := {
  so_lines : Forall (whole_or_cut path) (sent st);
  so_polls : Forall (fun op => is_poll op = true -> poll_of op) (sent_ops (sent st));
  so_ops : List.filter (fun op => negb (is_poll op)) (sent_ops (sent st)) = ops
}.

Lemma sent_ops_app a b : sent_ops (a ++ b) = sent_ops a ++ sent_ops b.
Proof. apply omap_app. Qed.

Lemma written_prefix cut req : (write_request cut req).1 `prefix_of` (request_line req ++ [newline]).
Proof.
  destruct cut as [n|]; unfold write_request; cbv zeta; cbv beta iota delta [fst].
  - exists (drop n (request_line req ++ [newline])). symmetry. apply take_drop.
  - exists []. symmetry. apply app_nil_r.
Qed.

Lemma sent_send a path op ops st :
  permitted RoleAttach (fst op) = true -> (is_poll op = true -> poll_of op) ->
  sent_only path ops st -> sent_only path (ops ++ if is_poll op then [] else [op]) (send a path op st).
Proof.
  intros Hp Hpoll [H1 H2 H3]. split; cbn [send sent].
  - apply Forall_app. split; [exact H1|]. apply Forall_singleton.
    exists op, (nth_rid a (length (sent st))). eexists. split_and!; [done|done|]. apply written_prefix.
  - rewrite sent_ops_app. apply Forall_app. split; [exact H2|]. by apply Forall_singleton.
  - rewrite sent_ops_app, List.filter_app, H3. cbn. by destruct (is_poll op).
Qed.

Lemma sent_polls a path ticks ops st : sent_only path ops st -> sent_only path ops (poll_ticks a path ticks st).
Proof.
  revert st. induction ticks as [|next ticks IH]; intros st H; [done|]. cbn [poll_ticks]. apply IH.
  pose proof (sent_send a path (OutputRead (after st) (64 * 1024)) ops st eq_refl ltac:(by eexists) H) as [H1 H2 H3].
  cbn [is_poll] in H3. rewrite app_nil_r in H3. by split.
Qed.

Lemma attach_permitted r : permitted RoleAttach (fst (attach_op r)) = true /\ is_poll (attach_op r) = false.
Proof. destruct r; split; apply (bool_decide_unpack _) || reflexivity; vm_compute; reflexivity. Qed.

Lemma sent_perform a path rs ops st :
  sent_only path ops st ->
  sent_only path (ops ++ (attach_op <$> rs)) (@Cli.perform _ (attach_client a path) rs st).
Proof.
  revert ops st. induction rs as [|r rs IH]; intros ops st H; [by rewrite app_nil_r|].
  destruct (attach_permitted r) as [Hp Hn]. cbn [Cli.perform foldl].
  pose proof (sent_send a path (attach_op r) ops _ Hp ltac:(by rewrite Hn)
    (sent_polls a path (nth_polls a (loop_calls st)) ops st H)) as [H1 H2 H3]. rewrite Hn in H3.
  specialize (IH (ops ++ [attach_op r]) _ (Build_sent_only path (ops ++ [attach_op r])
    (@Cli.call _ (attach_client a path) r st).1 H1 H2 H3)).
  rewrite <-app_assoc in IH. exact IH.
Qed.

Lemma attach_session_ok a path :
  let '(effects, e) := attach_session a path in attaches a path (Dialled path :: effects, e).
Proof.
  destruct (typed_exists EscapePrefix (keyboard a)) as (ts & tail & Hok & Ht & Hk).
  set (start := {| sent := []; loop_calls := 0; after := 0 |}).
  destruct (@attach_spec _ (attach_client a path) (quoting a) (S (length (keyboard a))) EscapePrefix ts tail start Hok Ht)
    as [out Hspec]; [rewrite Hk; lia|]. rewrite <-Hk in Hspec. unfold attach_session, Cli.Attach. fold start.
  rewrite Hspec. exists ts, tail, (sent (polls_now a path (@Cli.perform _ (attach_client a path) (requests EscapePrefix ts).1 start))).
  split_and!; [done|done|done|]. destruct (requests EscapePrefix ts) as [rs e]. cbn [fst snd].
  assert (H0 : sent_only path [] start) by (split; [by apply Forall_nil|by apply Forall_nil|done]).
  pose proof (sent_polls a path (nth_polls a (loop_calls (@Cli.perform _ (attach_client a path) rs start))) _ _
    (sent_perform a path rs [] start H0)) as [H1 H2 H3].
  split_and!; [done|exact H1|exact H2|exact H3].
Qed.

Definition reqs_ok (env : cli_env) (sockets : socketPaths) (cmd : string) (args : list string)
    (run : list effect * cli_end) : Prop :=
  no_request run.1 \/
  (exists role op pre, asks env cmd args role op pre /\ sends env (dialled sockets role) op pre run) \/
  (cmd = "attach"%string /\ attaches (attached env) (Attach sockets) run).

Lemma nothing_sent effects : Forall (fun e => match e with Sent _ _ _ => False | _ => True end) effects -> no_request effects.
Proof. intros Hf path op data Hin. rewrite Forall_forall in Hf. by apply (Hf _ Hin). Qed.

Lemma client_ok env sockets cmd args role op read pre :
  asks env cmd args role op pre ->
  Forall (fun e => match e with Sent _ _ _ => False | _ => True end) pre ->
  let '(effects, e) := runClient env (dialled sockets role) op read in
  reqs_ok env sockets cmd args (pre ++ effects, e).
Proof.
  intros Ha Hp. pose proof (runClient_spec env (dialled sockets role) op read pre) as Hs.
  destruct (runClient env (dialled sockets role) op read) as [effects e]. destruct Hs as [(_ & -> & ->)|Hs].
  - left. cbn. rewrite app_nil_r. by apply nothing_sent.
  - right; left. by exists role, op, pre.
Qed.

Lemma hasFlag_false args name : hasFlag args name = false -> name ∉ args.
Proof.
  intros H Hin. apply not_true_iff_false in H. apply H. unfold hasFlag. apply existsb_exists.
  exists name. split; [by apply list_elem_of_In|apply String.eqb_refl].
Qed.

Lemma parse_uint_range n s : 0 <= n <= max_uint64 -> 0 <= fst (parse_uint_go n s) <= max_uint64.
Proof.
  revert n. induction s as [|c s IH]; intros n Hn; cbn [parse_uint_go]; [done|].
  destruct (negb (is_digit c)); [cbn; unfold max_uint64; lia|].
  destruct (max_uint64 / 10 + 1 <=? n) eqn:E1; bools; [cbn; unfold max_uint64; lia|].
  destruct (max_uint64 <? n * 10 + Z.of_N (digit_val c)) eqn:E2; bools; [cbn; unfold max_uint64; lia|].
  apply IH. lia.
Qed.

Lemma parseUint_range s : 0 <= parseUint s <= max_uint64.
Proof.
  unfold parseUint, ParseUint. destruct (to_bytes s) as [|c l]; [cbn; unfold max_uint64; lia|].
  apply parse_uint_range. unfold max_uint64. lia.
Qed.

Lemma execute_ok env sockets cmd args role call :
  (forall r, fit r -> asks env cmd args role (call r) [Warned (to_bytes (ex_Text r) ++ [newline])]) ->
  reqs_ok env sockets cmd args (runExecute env (dialled sockets role) call args).
Proof.
  intros Ha. unfold runExecute. set (req := {| ex_SessionID := _ |}).
  destruct (blank (ex_SessionID req) || blank (ex_Text req) || blank (ex_Purpose req) || (ex_TimeoutMS req <=? 0))
    eqn:Hb; [left; by apply nothing_sent|].
  destruct (MaxDiagnosticTimeoutMS <? ex_TimeoutMS req) eqn:Ht; [left; by apply nothing_sent|].
  destruct (stderr_ok env); [|left; by apply nothing_sent]. cbn [negb].
  assert (Hfit : fit req) by (unfold blank in Hb; bools; by split_and!).
  pose proof (client_ok env sockets cmd args role (call req) execute_result _ (Ha _ Hfit)) as Hc.
  destruct (runClient _ _ _ _) as [effects e]. apply Hc. by repeat constructor.
Qed.

Lemma start_ok env sockets args :
  reqs_ok env sockets "start" args (runStart env (Attach sockets) args).
Proof.
  unfold runStart. destruct (hasFlag args "--ssh-password") eqn:Hp; [left; by apply nothing_sent|].
  apply hasFlag_false in Hp. change (Attach sockets) with (dialled sockets RoleAttach).
  destruct (String.eqb (flagValue args "--transport") "ssh" && stdin_terminal env) eqn:Ht; cbn [promptPassword].
  - bools.
    match goal with |- context [runClient env _ ?op raw_result] =>
      pose proof (client_ok env sockets "start" args RoleAttach op raw_result [AskedPassword]
        ltac:(by apply asks_start_password) ltac:(by repeat constructor)) as Hc end.
    destruct (runClient _ _ _ _) as [effects e]. exact Hc.
  - match goal with |- context [runClient env _ ?op raw_result] =>
      pose proof (client_ok env sockets "start" args RoleAttach op raw_result []
        ltac:(by apply asks_start) ltac:(by constructor)) as Hc end.
    destruct (runClient _ _ _ _) as [effects e]. exact Hc.
Qed.

Lemma approve_ok env sockets args : reqs_ok env sockets "approve" args (runApprove env (Attach sockets) args).
Proof.
  unfold runApprove. destruct (blank _ || blank _) eqn:Hb; [left; by apply nothing_sent|].
  destruct (maxConfirmationBytes <? _) eqn:Hl; [left; by apply nothing_sent|].
  unfold blank, maxConfirmationBytes in *. bools.
  match goal with |- context [runClient env _ ?op raw_result] =>
    pose proof (client_ok env sockets "approve" args RoleAttach op raw_result []
      ltac:(apply asks_approve; [done|done|lia]) ltac:(by constructor)) as Hc end.
  cbn [dialled] in Hc. by destruct (runClient _ _ _ _) as [effects e].
Qed.

Lemma control_ok env sockets cmd args op :
  asks env cmd args RoleControl op [] -> reqs_ok env sockets cmd args (runClient env (Control sockets) op raw_result).
Proof.
  intros Ha. pose proof (client_ok env sockets cmd args RoleControl op raw_result [] Ha ltac:(by constructor)) as Hc.
  cbn [dialled] in Hc. by destruct (runClient _ _ _ _) as [effects e].
Qed.

Lemma runCLI_ok env sockets cmd args : reqs_ok env sockets cmd args (runCLI env sockets (cmd :: args)).
Proof.
  cbn [runCLI]. repeat (destruct (String.eqb cmd _) eqn:?; bools; [subst cmd|]).
  - left. destruct (stdout_ok env); by apply nothing_sent; repeat constructor.
  - apply control_ok, asks_ports.
  - left. unfold runProfile. destruct args as [|sub args]; [by apply nothing_sent|].
    destruct (String.eqb sub "create"); [|by apply nothing_sent].
    destruct (profileCreate _ _ _ _) as [[t states] err]. apply nothing_sent. by repeat constructor.
  - apply start_ok.
  - apply control_ok, asks_status.
  - apply control_ok, asks_output, parseUint_range.
  - apply control_ok, asks_propose.
  - apply (execute_ok env sockets _ _ RoleDiagnose). intros. by apply asks_diagnose.
  - apply (execute_ok env sockets _ _ RoleUnsafeShell). intros. by apply asks_unsafe.
  - apply approve_ok.
  - apply control_ok, asks_export.
  - unfold runAttach. destruct (arrives env (Attach sockets)); [|left; by apply nothing_sent].
    destruct (stdin_terminal env && negb (make_raw_ok env)); [left; apply nothing_sent; by repeat constructor|].
    right; right. split; [done|]. pose proof (attach_session_ok (attached env) (Attach sockets)) as Ha.
    by destruct (attach_session _ _).
  - left. by apply nothing_sent.
Qed.

Lemma Call_written n req c :
  (Call n req c).1.1 =
  match n with Some k => take k (request_line req ++ [newline]) | None => request_line req ++ [newline] end.
Proof.
  unfold Call. destruct n as [k|]; cbn [write_request]; [reflexivity|]. by destruct (receive c).
Qed.

Lemma asks_permitted env cmd args role op pre : asks env cmd args role op pre -> permitted role (fst op) = true.
Proof. intros []; try done; apply bool_decide_eq_true; by vm_compute. Qed.

(** ** Properties *)

(** C17. What the command line can ask of a daemon. A run sends nothing, or one
    request, or is an attach session. The one request goes out on the socket of
    the role its command belongs to, and is one that the role permits. An
    execution goes out only after its exact text was shown, with a session, a
    text and a purpose that are not blank and a timeout in the allowed range;
    an approval only with a confirmation that is not blank and not too long; a
    start carries no password but one typed at the hidden prompt of a terminal,
    and none when the password flag is among the arguments. What is written is
    the whole line of the request or, when the write fails, a beginning of it.
    The run prints the daemon's result and returns, or prints nothing and
    fails. An attach session sends only on the attach socket: in order the
    requests that the keys and local lines typed stand for, and polls of the
    output between them, nothing else, all of them permitted to the role; it
    returns after a detach or end and exits with 1 when the input ends. *)
Theorem cli_requests env sockets argv :
  let run := runCLI env sockets argv in
  no_request run.1 \/
  (exists cmd args role op pre,
    argv = cmd :: args /\ asks env cmd args role op pre /\
    permitted role (fst op) = true /\
    sends env (dialled sockets role) op pre run /\
    forall path op' data, Sent path op' data ∈ run.1 ->
      path = dialled sockets role /\ op' = op /\
      data `prefix_of` (request_line (to_request (rid env) op) ++ [newline]) /\
      (cut env = None -> data = request_line (to_request (rid env) op) ++ [newline])) \/
  (exists args, argv = "attach"%string :: args /\ attaches (attached env) (Attach sockets) run).
Proof.
  destruct argv as [|cmd args]; [left; intros path op data Hin; by apply elem_of_nil in Hin|].
  intros run. destruct (runCLI_ok env sockets cmd args) as [Hn|[(role & op & pre & Ha & Hs)|[-> Hs]]];
    [by left|right; left|right; right; by exists args].
  exists cmd, args, role, op, pre. split_and!; [done|done|by eapply asks_permitted|done|].
  assert (Hpre : no_request pre) by (destruct Ha; apply nothing_sent; by repeat constructor).
  destruct Hs as (data & (pieces & _ & Hdata) & Hrun). intros path op' data' Hin.
  assert (Heq : path = dialled sockets role /\ op' = op /\ data' = data).
  { destruct Hrun as [[Hr _]|(text & Hr & _)]; unfold run in Hin; rewrite Hr in Hin;
      apply elem_of_app in Hin as [Hin|Hin]; try (by destruct (Hpre _ _ _ Hin));
      rewrite !elem_of_cons, elem_of_nil in Hin; naive_solver. }
  destruct Heq as (-> & -> & ->). rewrite Hdata, Call_written. split_and!; [done|done| |by intros ->].
  pose proof (written_prefix (cut env) (to_request (rid env) op)) as Hw. by destruct (cut env).
Qed.

(** A flag name given as the value of another flag is taken for the flag: the
    text sent is not the one the operator wrote after --text. *)
Lemma flag_taken_for_value session :
  flagValue ["--session"; session; "--purpose"; "--text"; "--text"; "uptime"]%string "--text" =
  if String.eqb session "--text" then "--purpose"%string else "--text"%string.
Proof. cbn [flagValue]. cbn. by destruct (String.eqb session "--text"). Qed.

(** A password in the form --ssh-password=... is not refused. *)
Lemma password_flag_form env sockets p :
  String.eqb (String.append "--ssh-password=" p) "--ssh-password" = false /\
  (runCLI env sockets ["start"; String.append "--ssh-password=" p]%string).2 <> Returned (Some ErrPasswordFlag).
Proof.
  split; [done|]. cbn. unfold runStart. cbn. unfold runClient. destruct (arrives env (Attach sockets)); [|done].
  destruct (Call _ _ _) as [[data out] c]. destruct (printResultTo env (raw_result out)) as [printed e] eqn:Hp.
  unfold printResultTo in Hp. destruct (raw_result out); [destruct (stdout_ok env)|]; by simplify_eq.
Qed.


(** An answer that is not a number selects the first port. *)
Lemma port_index_not_a_number : parseInt "ttyUSB1" = 0 /\ parseInt "" = 0.
Proof. done. Qed.

(** ** The raw mode of the attach session *)

(** [enterRawMode]: the main goroutine runs [Attach], then calls the returned
    function ([close(done)], [signal.Stop], [restoreOnce]); the other waits for
    a signal and restores before it exits. *)
Inductive main_at := InAttach | DoneClosed | SignalStopped | MainRestored.
Inductive waiter_at := Waits | GotSignal | WaiterRestored | WaiterEnded.

(** A process exits with a code or is killed by a signal. *)
Inductive ending := ExitCode (code : Z) | Killed.

Record rawmode := {
  main_goroutine : main_at; waiter : waiter_at; notify : bool; pending : bool;
  restored : bool; raw : bool; ended : option ending
}.

Definition entered : rawmode :=
  {| main_goroutine := InAttach; waiter := Waits; notify := true; pending := false;
     restored := false; raw := true; ended := None |}.

(** [restoreOnce]. *)
Definition restoreOnce (m : main_at) (w : waiter_at) (s : rawmode) : rawmode :=
  {| main_goroutine := m; waiter := w; notify := notify s; pending := pending s;
     restored := true; raw := if restored s then raw s else false; ended := ended s |}.

(** SIGINT and SIGTERM go to the channel while they are notified; any other
    signal that ends a process, SIGHUP among them, kills this one, as do these
    two after [Stop]. *)
Inductive raw_step : rawmode -> rawmode -> Prop :=
| rm_signal s :
    ended s = None -> notify s = true ->
    raw_step s {| main_goroutine := main_goroutine s; waiter := waiter s; notify := notify s; pending := true;
                  restored := restored s; raw := raw s; ended := None |}
| rm_killed s :
    ended s = None ->
    raw_step s {| main_goroutine := main_goroutine s; waiter := waiter s; notify := notify s; pending := pending s;
                  restored := restored s; raw := raw s; ended := Some Killed |}
| rm_take s :
    ended s = None -> waiter s = Waits -> pending s = true ->
    raw_step s {| main_goroutine := main_goroutine s; waiter := GotSignal; notify := notify s; pending := false;
                  restored := restored s; raw := raw s; ended := None |}
| rm_done s :
    ended s = None -> waiter s = Waits -> main_goroutine s <> InAttach ->
    raw_step s {| main_goroutine := main_goroutine s; waiter := WaiterEnded; notify := notify s; pending := pending s;
                  restored := restored s; raw := raw s; ended := None |}
| rm_waiter_restores s :
    ended s = None -> waiter s = GotSignal -> raw_step s (restoreOnce (main_goroutine s) WaiterRestored s)
| rm_waiter_exits s :
    ended s = None -> waiter s = WaiterRestored ->
    raw_step s {| main_goroutine := main_goroutine s; waiter := waiter s; notify := notify s; pending := pending s;
                  restored := restored s; raw := raw s; ended := Some (ExitCode 130) |}
| rm_close_done s :
    ended s = None -> main_goroutine s = InAttach ->
    raw_step s {| main_goroutine := DoneClosed; waiter := waiter s; notify := notify s; pending := pending s;
                  restored := restored s; raw := raw s; ended := None |}
| rm_stop s :
    ended s = None -> main_goroutine s = DoneClosed ->
    raw_step s {| main_goroutine := SignalStopped; waiter := waiter s; notify := false; pending := pending s;
                  restored := restored s; raw := raw s; ended := None |}
| rm_restores s :
    ended s = None -> main_goroutine s = SignalStopped -> raw_step s (restoreOnce MainRestored (waiter s) s)
| rm_exits s code :
    ended s = None -> main_goroutine s = MainRestored -> code = 0 \/ code = 1 ->
    raw_step s {| main_goroutine := main_goroutine s; waiter := waiter s; notify := notify s; pending := pending s;
                  restored := restored s; raw := raw s; ended := Some (ExitCode code) |}.

(** The two goroutines share [restored] without a lock; whichever restores
    first, a process that exits by itself or on an interrupt leaves the terminal
    as it found it. *)
Lemma terminal_restored s code : rtc raw_step entered s -> ended s = Some (ExitCode code) -> raw s = false.
Proof.
  intros Hr He.
  assert (Hi : (raw s = negb (restored s)) /\
    (waiter s = WaiterRestored \/ main_goroutine s = MainRestored -> restored s = true) /\
    (ended s = None \/ ended s = Some Killed \/ restored s = true)).
  { eapply (rtc_keeps raw_step (fun s => raw s = negb (restored s) /\
      (waiter s = WaiterRestored \/ main_goroutine s = MainRestored -> restored s = true) /\
      (ended s = None \/ ended s = Some Killed \/ restored s = true))); [|exact Hr|].
    - clear. intros a b Hs (H1 & H2 & H3). destruct Hs as [s H4 H5|s H4|s H4 H5 H6|s H4 H5 H6|s H4 H5|s H4 H5
        |s H4 H5|s H4 H5|s H4 H5|s code H4 H5 H6]; cbn in *; rewrite ?H4, ?H5 in *;
        (split_and!; [try done; by destruct (restored s)|intuition congruence|intuition congruence]).
    - cbn. intuition congruence. }
  destruct Hi as (H1 & _ & [H3|[H3|H3]]); [congruence|congruence|]. by rewrite H1, H3.
Qed.

(** A hangup in the middle of the session leaves the terminal raw. *)
Lemma hangup_leaves_raw : exists s, rtc raw_step entered s /\ ended s = Some Killed /\ raw s = true.
Proof. eexists. split; [eapply rtc_l; [by apply rm_killed|apply rtc_refl]|]. done. Qed.

(** The returned function as one call; closing a closed channel panics. *)
Definition restore (s : rawmode) : option rawmode :=
  match main_goroutine s with
  | InAttach => Some (restoreOnce MainRestored (waiter s)
      {| main_goroutine := SignalStopped; waiter := waiter s; notify := false; pending := pending s;
         restored := restored s; raw := raw s; ended := ended s |})
  | _ => None
  end.

(** It restores once; a second call panics. *)
Lemma restore_not_idempotent s :
  main_goroutine s = InAttach -> exists s', restore s = Some s' /\ restored s' = true /\ restore s' = None.
Proof. intros Hm. unfold restore. rewrite Hm. by eexists. Qed.

(** *** Witnesses *)

(** A key, an approval and a detach, with two polls. *)
Definition demo_attach : attach_env :=
  {| keyboard := ["l"; EscapePrefix]%char ++ to_bytes "approve p1" ++ [newline; EscapePrefix] ++ to_bytes "detach" ++ [newline];
     nth_rid := fun _ => "req-1"%string; nth_cut := fun _ => None; nth_error := fun _ => None;
     nth_polls := fun n => if (n <? 2)%nat then [Some 3] else []; quoting := fun s => s |}.

Definition demo_env : cli_env :=
  {| build_version := "dev"; build_commit := "none"; stdin_terminal := false; typed_password := None;
     rid := "req-1"; cut := None;
     arrives := fun _ => Some [MarshalResponse (H := fun _ _ => ""%string)
       {| resp_Version := Version; resp_RequestID := "req-1"; Result := Some (to_bytes "{}"); Error := None |} ++ [newline]];
     stdout_ok := true; stderr_ok := true; make_raw_ok := true; attached := demo_attach;
     creating := {| process_env := {| HOME := "/home/op"; XDG_CONFIG_HOME := ""; XDG_DATA_HOME := ""; umask := 63;
                                      mkdir_fails := fun _ => false |};
                    ports_of := {| GetPortsList := Some []; ReadDir := fun _ => None; EvalSymlinks := fun _ => None;
                                   upstream_Open := fun _ _ => None |};
                    stdin := []; save_calls := demo_io |};
     tree_before := {["/"%string := Dir 493]}; profiles_before := ∅ |}.

Lemma cli_requests_witness :
  let sockets := client_paths {| Config := "/c"; Data := "/d" |} in
  (exists role op pre, asks demo_env "ports" [] role op pre /\
    sends demo_env (dialled sockets role) op pre (runCLI demo_env sockets ["ports"%string])) /\
  attaches demo_attach (Attach sockets) (runCLI demo_env sockets ["attach"%string]) /\
  sent_ops (runCLI demo_env sockets ["attach"%string]).1 =
    [OutputRead 0 65536; TransportWrite ["l"%char]; OutputRead 3 65536; CommandApprove "p1"].
Proof.
  intros sockets. split_and!; [| |vm_compute; reflexivity].
  - destruct (cli_requests demo_env sockets ["ports"%string])
      as [Hn|[(cmd & args & role & op & pre & Heq & Ha & _ & Hs & _)|(args & [=] & _)]].
    + exfalso. apply (Hn "/d/gatewayd.control.sock"%string PortsList (request_line (to_request "req-1" PortsList) ++ [newline])).
      vm_compute. apply list_elem_of_further, list_elem_of_here.
    + injection Heq as <- <-. by exists role, op, pre.
  - destruct (cli_requests demo_env sockets ["attach"%string])
      as [Hn|[(cmd & args & role & op & pre & Heq & Ha & _)|(args & _ & H)]]; [| |exact H].
    + exfalso. apply (Hn "/d/gatewayd.attach.sock"%string (OutputRead 0 65536) (request_line (to_request "req-1" (OutputRead 0 65536)) ++ [newline])).
      vm_compute. apply list_elem_of_further, list_elem_of_here.
    + injection Heq as <- <-. inversion Ha.
Defined.

(** The whole path of a profile: directories made, the port chosen by its index
    and saved with its link as identity. *)
Example demo_create :
  let e := {| process_env := process_env (creating demo_env);
              ports_of := {| GetPortsList := Some ["/dev/ttyUSB0"%string];
                             ReadDir := fun _ => Some ["usb-1"%string];
                             EvalSymlinks := fun _ => Some "/dev/ttyUSB0"%string;
                             upstream_Open := fun _ _ => None |};
              stdin := to_bytes "lab" ++ [newline] ++ to_bytes "0" ++ [newline] ++ to_bytes "115200" ++ [newline] ++
                       to_bytes "8" ++ [newline] ++ to_bytes "none" ++ [ascii_of_nat 13; newline] ++
                       to_bytes "1" ++ [newline] ++ to_bytes "none";
              save_calls := demo_io |} in
  let '(t, states, err) := profileCreate e {["/"%string := Dir 493]} ∅ "/p" in
  err = None /\ t !! "/p"%string = Some (Dir 448) /\
  (last states ≫= fun fs => uart_Identity <$> (match Load fs "/p" "lab" with Ok p => UART p | Err _ => None end)) =
    Some {| Kind := "usb-serial-by-id"; Key := "/dev/serial/by-id/usb-1" |}.
Proof. vm_compute. split_and!; reflexivity. Qed.
