(* ===== verification/Shown.v ===== *)
(** * What the operator is shown of an execution (src/cmd/gateway/main.go,
    src/internal/cli/control.go, src/internal/ipc, src/cmd/gatewayd/dispatcher.go)

    The whole way of a diagnose or unsafe-shell command: from the flags through
    the request on the socket to the dispatcher, and from its reply through the
    response to the line that is printed. The parts are in Gateway.v, Client.v,
    Wire.v, Ipc.v, Payload.v and Replies.v. *)

From S2P Require Import Prelude GoStd Json JsonStrings JsonTexts Clock RecordFiles Shell Command Ipc Wire Client Payload CoordinatorTx Dispatcher Store Replies Gateway.

(** The two operations that execute, and the role of their socket. *)
Definition execute_op (m : Dispatcher.mode) : ExecuteRequest -> operation :=
  match m with Diagnosing => DiagnoseExecute | UnsafeShell => UnsafeShellExecute end.

Definition execute_role (m : Dispatcher.mode) : Role :=
  match m with Diagnosing => RoleDiagnose | UnsafeShell => RoleUnsafeShell end.

(** A reply of the dispatcher, as handleConn takes it. *)
Definition handed `{LocalZone} (r : reply) : dispatched := DResult (MarshalReply r).

(** The daemon returns a result or an error, and never neither. *)
Definition returned `{LocalZone} (out : result ErrCode reply) : dispatched :=
  match out with Ok r => handed r | Err e => DErr e end.

Lemma returned_something `{LocalZone} out : returned out <> DNone.
Proof. by destruct out. Qed.

(** The result of an execution as the daemon has it. *)
Definition executed `{LocalZone} (dec : Decision) (t : option Transaction) (res : option Command.Result) (first last : bool)
  : ExecuteResult :=
  {| er_Decision := dec; er_Transaction := transaction_of <$> t; er_Result := result_of <$> res;
     er_TruncatedStart := first; er_TruncatedEnd := last |}.

(** ** Lemmas *)

Lemma execute_permitted m req : permitted (execute_role m) (fst (execute_op m req)) = true.
Proof. by destruct m. Qed.

(** The server's side of one request that it permits. *)
Lemma answer_reply {S} `{Hd : Ipc.Dispatcher S} role req (s s' : S) v :
  sendable req -> permitted role (sanitize (Operation req)) = true -> req_Version req = ""%string ->
  Ipc.Dispatch role (arrived (defaultVersion req)) s = (s', DResult (Some v)) ->
  answer role (request_line req) s =
    (s', {| resp_Version := Version; resp_RequestID := sanitize (RequestID req); Result := Some v; Error := None |}).
Proof.
  intros Hs Hp Hv Hdisp. pose proof (sendable_line req Hs) as (_ & _ & Hu). unfold answer. rewrite Hu.
  destruct req as [ver rid op pl]. cbn [req_Version Operation RequestID] in *. subst ver.
  cbn [defaultVersion arrived req_Version Operation RequestID Payload String.eqb] in *.
  change (String.eqb (sanitize Version) Version) with true. cbn [negb]. rewrite Hp. cbn [negb]. by rewrite Hdisp.
Qed.

(** The request that the flags name. *)
Definition flags_request (args : list string) : ExecuteRequest :=
  {| ex_SessionID := flagValue args "--session"; ex_Text := flagValue args "--text";
     ex_Purpose := flagValue args "--purpose"; ex_TimeoutMS := parseInt (flagValue args "--timeout-ms") |}.

Lemma blank_false s : TrimSpace s <> ""%string -> blank s = false.
Proof. intros H. unfold blank. by apply String.eqb_neq. Qed.

(** Flags that are fit are shown and sent. *)
Lemma runExecute_fit env path call args :
  fit (flags_request args) -> stderr_ok env = true ->
  runExecute env path call args =
  let '(effects, e) := runClient env path (call (flags_request args)) execute_result in
  (Warned (to_bytes (ex_Text (flags_request args)) ++ [newline]) :: effects, e).
Proof.
  intros (Hs & Ht & Hp & Hm) He. unfold runExecute. fold (flags_request args).
  rewrite !blank_false by done. cbn [orb]. rewrite (proj2 (Z.leb_gt _ 0)) by lia.
  rewrite (proj2 (Z.ltb_ge MaxDiagnosticTimeoutMS _)) by lia. by rewrite He.
Qed.

(** What the client makes of the daemon's answer. *)
Lemma runClient_execute `{ErrorTexts} env path op v w pieces :
  let resp := {| resp_Version := Version; resp_RequestID := sanitize (rid env); Result := Some v; Error := None |} in
  marshalled v -> (length (MarshalResponse resp) < MaxFrameBytes)%nat -> reprint v = Some w ->
  cut env = None -> stdout_ok env = true -> arrives env path = Some pieces -> concat pieces = writeResponse resp ->
  runClient env path op execute_result =
  ([Dialled path; Sent path op (request_line (to_request (rid env) op) ++ [newline]); Printed (w ++ [newline])], Returned None).
Proof.
  intros resp Hm Hl Hw Hcut Hout Harr Hcat. unfold runClient. rewrite Harr, Hcut.
  destruct (response_texts resp Hm) as [Hn Hu].
  destruct (Call_line (to_request (rid env) op) (Dial pieces) (MarshalResponse resp) []) as (c & Hc & _); [done|done| |].
  { unfold Dial, stream_of. cbn [reader buffered Ipc.pieces app]. by rewrite app_nil_r. }
  assert (Hread : execute_result (Ok (delivered resp)) = Ok w).
  { change (match reprint v with Some b => Ok b | None => Err ErrResult end = Ok w). by rewrite Hw. }
  rewrite Hc, Hu, Hread. unfold printResultTo. by rewrite Hout.
Qed.

Lemma sent_payload rid m req :
  Ipc.Payload (arrived (defaultVersion (to_request rid (execute_op m req)))) = MarshalExecute req /\
  permitted (execute_role m) (sanitize (Operation (to_request rid (execute_op m req)))) = true.
Proof. by destruct m. Qed.

(** The server's one response to the request. *)
Lemma execute_response {S} `{Ipc.Dispatcher S} rid m req (s s' : S) v :
  let sent := to_request rid (execute_op m req) in
  (length (request_line sent) < MaxFrameBytes)%nat ->
  Ipc.Dispatch (execute_role m) (arrived (defaultVersion sent)) s = (s', DResult (Some v)) ->
  (answers (execute_role m) [request_line sent] s).2 =
    [{| resp_Version := Version; resp_RequestID := sanitize rid; Result := Some v; Error := None |}].
Proof.
  intros sent Hlen Hdisp. destruct (sent_payload rid m req) as (_ & Hperm).
  assert (Hsend : sendable sent).
  { split; [|exact Hlen]. replace (Ipc.Payload sent) with (MarshalExecute req) by by destruct m. apply execute_marshalled. }
  rewrite answers_cons, (answer_reply _ sent s s' v Hsend Hperm eq_refl Hdisp). done.
Qed.

(** ** Properties *)

(** C18. What the operator is shown of an execution. When the flags of a diagnose or
    unsafe-shell command are fit, its request and the response stay below the
    frame limit, and the daemon dispatches it to this decision, transaction and
    result, then the dispatcher was given exactly the flags, and the command
    prints exactly that decision, transaction and result, with times, output
    bytes, exit code and truncation marks as the daemon has them and texts as
    valid UTF-8, after the command text and nothing else. *)
Theorem execution_shown {S} `{Ipc.Dispatcher S, ErrorTexts, LocalZone} env m path args pieces (s s' : S)
    dec t res first last :
  let req := flags_request args in
  let sent := to_request (rid env) (execute_op m req) in
  let x := executed dec t res first last in
  let resps := (answers (execute_role m) [request_line sent] s).2 in
  fit req -> (length (request_line sent) < MaxFrameBytes)%nat ->
  Ipc.Dispatch (execute_role m) (arrived (defaultVersion sent)) s = (s', handed (RExecute dec t res first last)) ->
  execute_fits x -> Forall (fun r => length (MarshalResponse r) < MaxFrameBytes)%nat resps ->
  arrives env path = Some pieces -> concat pieces = concat (writeResponse <$> resps) ->
  cut env = None -> stdout_ok env = true -> stderr_ok env = true ->
  dec_execute (Ipc.Payload (arrived (defaultVersion sent))) =
    Some {| xp_SessionID := sanitize (ex_SessionID req); xp_Text := sanitize (ex_Text req);
            xp_Purpose := sanitize (ex_Purpose req); xp_TimeoutMS := ex_TimeoutMS req |} /\
  exists text, MarshalExecuteResult (seen_execute x) = Some text /\
    runExecute env path (execute_op m) args =
    ([Warned (to_bytes (ex_Text req) ++ [newline]); Dialled path;
      Sent path (execute_op m req) (request_line sent ++ [newline]); Printed (text ++ [newline])], Returned None).
Proof.
  intros req sent x resps Hfit Hlen Hdisp Hx Hsize Harr Hcat Hcut Hout Herr.
  destruct (reprint_seen x Hx) as (v & w & Hv & Hlv & Hnv & Hw & Hlw & Hnw & Hr).
  assert (Hmv : marshalled v) by (apply (one_line_marshalled 3); [lia|done]).
  assert (Hans := execute_response (rid env) m req s s' v Hlen). fold sent in Hans.
  rewrite Hdisp in Hans. unfold handed in Hans. change (MarshalReply (RExecute dec t res first last)) with (MarshalExecuteResult x) in Hans.
  rewrite Hv in Hans. specialize (Hans eq_refl). fold resps in Hans.
  rewrite Hans in Hsize, Hcat. apply Forall_cons in Hsize as [Hsize _]. cbn [fmap list_fmap concat] in Hcat. rewrite app_nil_r in Hcat.
  pose proof (runClient_execute env path (execute_op m req) v w pieces Hmv Hsize Hr Hcut Hout Harr Hcat) as Hrun.
  split.
  - unfold sent. rewrite (proj1 (sent_payload (rid env) m req)). apply execute_roundtrip. destruct Hfit as (_ & _ & _ & Hm).
    unfold MaxDiagnosticTimeoutMS in Hm. lia.
  - exists w. split; [exact Hw|]. rewrite runExecute_fit by assumption. fold req. rewrite Hrun. reflexivity.
Qed.

(** The witness: a diagnosis that listed one file. *)
#[local] Existing Instance taipei.
#[local] Instance no_texts : ErrorTexts := fun _ _ => ""%string.

Definition demo_decision : Decision := {| Allowed := true; Rule := "ls"; Reason := "listed" |}.
Definition demo_transaction : Transaction :=
  {| tx_ID := "txn-1"; tx_SourceProposalID := "prop-1"; tx_SessionID := "s1"; tx_Transport := "uart"; tx_Board := "b";
     tx_Text := "ls"; tx_Timeout := 1000000000; ApprovedAt := moment |}.
Definition demo_result : Command.Result :=
  {| TransactionID := "txn-1"; SourceProposalID := "prop-1"; res_Status := StatusCompleted; Command.ExitCode := Some 0;
     Duration := 7; Output := to_bytes "file"; OutputTruncatedStart := false; ContextBefore := []; ContextAfter := [];
     CompletedAt := moment |}.
Definition demo_execute : reply := RExecute demo_decision (Some demo_transaction) (Some demo_result) false false.

#[local] Instance demo_daemon : Ipc.Dispatcher nat := fun _ _ n => (S n, handed demo_execute).

Definition demo_args : list string :=
  ["--session"; "s1"; "--text"; "ls"; "--purpose"; "look"; "--timeout-ms"; "1000"]%string.

Definition demo_responses : list Response :=
  (answers RoleDiagnose [request_line (to_request "req-1" (DiagnoseExecute (flags_request demo_args)))] 0%nat).2.

Definition demo_cli : cli_env :=
  {| build_version := "dev"; build_commit := "none"; stdin_terminal := false; typed_password := None;
     rid := "req-1"; cut := None; arrives := fun _ => Some [concat (writeResponse <$> demo_responses)];
     stdout_ok := true; stderr_ok := true; make_raw_ok := true; attached := demo_attach;
     creating := creating demo_env; tree_before := tree_before demo_env; profiles_before := ∅ |}.

Lemma execution_shown_witness :
  exists text, MarshalExecuteResult (seen_execute (executed demo_decision (Some demo_transaction) (Some demo_result) false false)) =
    Some text /\ Printed (text ++ [newline]) ∈ (runExecute demo_cli "/d" DiagnoseExecute demo_args).1.
Proof.
  destruct (execution_shown demo_cli Diagnosing "/d" demo_args [concat (writeResponse <$> demo_responses)] 0%nat 1%nat
    demo_decision (Some demo_transaction) (Some demo_result) false false) as (_ & text & Ht & Hrun).
  - vm_compute. repeat split; discriminate.
  - apply Nat.ltb_lt. by vm_compute.
  - reflexivity.
  - split; cbn; [intros t [= <-]; by split|intros r [= <-]]. split_and!; [by intros z [= <-]|by vm_compute|by vm_compute].
  - change (Forall (fun r => length (MarshalResponse r) < MaxFrameBytes)%nat demo_responses).
    assert (Hb : forallb (fun r => length (MarshalResponse r) <? MaxFrameBytes)%nat demo_responses = true) by by vm_compute.
    apply Forall_forall. intros r Hr%list_elem_of_In. apply Nat.ltb_lt. exact (proj1 (forallb_forall _ _) Hb r Hr).
  - reflexivity.
  - cbn [concat]. apply app_nil_r.
  - reflexivity.
  - reflexivity.
  - reflexivity.
  - exists text. split; [exact Ht|]. change DiagnoseExecute with (execute_op Diagnosing). rewrite Hrun.
    do 3 apply list_elem_of_further. apply list_elem_of_here.
Defined.
