(* ===== verification/System.v ===== *)
(** * The whole daemon (src/cmd/gatewayd/dispatcher.go over src/internal/ipc
    and src/internal/gateway)

    Runs of the daemon: requests of every role, the handlers that resume, the
    coordinator's own goroutines and the reconciler, interleaved arbitrarily.
    Who may make the daemon execute a command, and what the automatic paths do
    when they refuse. *)

From S2P Require Import Prelude GoStd Session Ring Secret Validate Command Marker Shell Common Denylist Records OpenSet Profile Ipc Coordinator CoordinatorSteps CoordinatorProps CoordinatorTx Dispatcher.

Section System.
Context {UL : UnicodeLower} {GQ : GoQuote} {SS : ShellSyntax} {DD : Decoders}.

(** ** Runs *)

(** Every request that reached the dispatcher, with the role of its
    connection, and the handlers at one of their cuts. *)
Record system := { daemon_ : daemon; history : list (Role * Request); pool : list flight }.

(** The identifiers a request draws are new. *)
Definition fresh_ids (e : env) (c : Coordinator) : Prop :=
  proposals (commands c) !! New "prop" (rnd_prop (dr e)) = None /\
  transactions (commands c) !! New "txn" (rnd_txn (dr e)) = None.

Definition continuing (p : progress) : list flight :=
  match p with Continues f => [f] | _ => [] end.

(** A request is dispatched only when its role permits it. A handler in the
    pool goes on from its cut at any time, with whatever the daemon has become
    by then. The coordinator takes any step of its own, other than recording a
    transaction, at any time; these include the second halves of a session
    start, a retry and a human's write, whose first halves change nothing. The
    reconciler's pass is its finalisations, one at a time, of identifiers
    whose result the coordinator has. *)
Inductive system_step (s : system) : system -> Prop :=
| sys_dispatch role req e :
    permitted role (Operation req) = true -> fresh_ids e (coord (daemon_ s)) ->
    let out := Dispatch role req e (daemon_ s) in
    system_step s {| daemon_ := out.1; history := (role, req) :: history s; pool := continuing out.2 ++ pool s |}
| sys_advance e cancelled pre f post :
    pool s = pre ++ f :: post -> fresh_ids e (coord (daemon_ s)) ->
    let out := advance e cancelled f (daemon_ s) in
    system_step s {| daemon_ := out.1; history := history s; pool := pre ++ continuing out.2 ++ post |}
| sys_resume_end :
    system_step s {| daemon_ := (sessionEnd_finish (daemon_ s)).1; history := history s; pool := pool s |}
| sys_coordinator l :
    records l = false -> enabled l (coord (daemon_ s)) ->
    system_step s {| daemon_ := set_coord (exec l (coord (daemon_ s))) (daemon_ s);
                     history := history s; pool := pool s |}
| sys_reconcile o board s0 id res s' aw' r :
    open (daemon_ s) = Some s0 -> Coordinator.Result id (coord (daemon_ s)) = Ok res ->
    finalize o (aw (daemon_ s)) board id (resultDetail id res) s0 = (s', aw', r) ->
    system_step s {| daemon_ := set_open (Some s') (set_aw aw' (daemon_ s));
                     history := history s; pool := pool s |}.

(** A daemon that has just started, whatever it recovered from disk. *)
Definition started (s : system) : Prop :=
  history s = [] /\ pool s = [] /\ diagnosticMu (daemon_ s) = false /\ unsafeShellMu (daemon_ s) = false /\
  exists r brd rnd, coord (daemon_ s) = newCoordinatorWith r brd rnd.

Definition system_reachable (s : system) : Prop := exists s0, started s0 /\ rtc system_step s0 s.

(** ** Specification *)

(** This request, on a connection of this role, permits this transaction. *)
Definition authorises (d : daemon) (x : Role * Request) (t : Transaction) : Prop :=
  permitted x.1 (Operation x.2) = true /\
  ((Operation x.2 = OpCommandApprove /\
    exists p, dec_approve (Payload x.2) = Some p /\ ap_ProposalID p = tx_SourceProposalID t) \/
   (Operation x.2 = OpDiagnoseExecute /\
    exists p pol, dec_execute (Payload x.2) = Some p /\ xp_Text p = tx_Text t /\
      policy d = Some pol /\ Allowed (Shell.Evaluate pol (tx_Text t)) = true) \/
   (Operation x.2 = OpUnsafeShellExecute /\
    exists p pol, dec_execute (Payload x.2) = Some p /\ xp_Text p = tx_Text t /\
      unsafeShellPolicy d = Some pol /\ Allowed (Denylist.Evaluate pol (tx_Text t)) = true)).

(** The session cannot take this command: it is another session, it cannot
    start a command, or the text is no single managed line. *)
Definition start_refused (p : executePayload) (c : Coordinator) : Prop :=
  xp_SessionID p <> Coordinator.SessionID c \/ canStartLocked c <> None \/ ValidateManaged (xp_Text p) <> None.

(** Why an automatic execution of this payload is refused: a missing field, a
    timeout out of range, the mode disabled, another execution running, the
    policy's denial, or the session. *)
Definition refused (m : mode) (p : executePayload) (d : daemon) : Prop :=
  xp_SessionID p = ""%string \/ xp_Text p = ""%string \/ xp_Purpose p = ""%string \/
  xp_TimeoutMS p <= 0 \/ MaxDiagnosticTimeoutMS < xp_TimeoutMS p \/
  evaluate m d = None \/ locked m d = true \/
  (exists ev, evaluate m d = Some ev /\ Allowed (ev (xp_Text p)) = false) \/
  start_refused p (coord d).

(** The answer is an error, or the denying decision alone. *)
Definition refusal_reply (m : mode) (p : executePayload) (d : daemon) (out : result ErrCode reply) : Prop :=
  (exists code, out = Err code) \/
  (exists ev, evaluate m d = Some ev /\ Allowed (ev (xp_Text p)) = false /\
     out = Ok (RExecute (ev (xp_Text p)) None None false false)).

(** The handler of a mode up to its start of the command, with nothing in
    between. *)
Definition handler (m : mode) (payload : bytes) (d : daemon) : daemon * progress :=
  match m with
  | Diagnosing => diagnoseExecute payload d
  | UnsafeShell => unsafeShellExecute payload d
  end.

Definition undisturbed (m : mode) (e : env) (payload : bytes) (d : daemon) : daemon * progress :=
  match handler m payload d with
  | (d1, Continues f) => advance e false f d1
  | out => out
  end.

(** ** Lemmas *)

(** The policies never change. *)
Definition same_policies (d d' : daemon) : Prop :=
  policy d' = policy d /\ unsafeShellPolicy d' = unsafeShellPolicy d.

Lemma policies_trans d1 d2 d3 : same_policies d1 d2 -> same_policies d2 d3 -> same_policies d1 d3.
Proof. unfold same_policies. intuition congruence. Qed.

(** A change of the coordinator that keeps its invariant and its results and
    records no transaction. *)
Definition moves (c c' : Coordinator) : Prop :=
  outcomes_kept c c' /\ (inv c -> inv c' /\ txs c' = txs c).

Lemma moves_refl c : moves c c.
Proof. split; [apply kept_refl|done]. Qed.

Lemma moves_exec l c : records l = false -> enabled l c -> moves c (exec l c).
Proof. intros Hl He. split; [apply kept_exec|]. intros Hi. split; [by apply inv_exec|by apply txs_exec]. Qed.

Lemma moves_close s c c' : moves c c' -> moves c (emit (EClose s) c').
Proof.
  intros [Hk H]. split; [by eapply kept_trans; [|apply kept_same]|]. intros Hi.
  destruct (H Hi) as [H1 H2]. split; [by apply inv_emit; [apply plain_close|]|done].
Qed.

(** The daemon after a step that moves its coordinator. *)
Definition quiet (d d' : daemon) : Prop := moves (coord d) (coord d') /\ same_policies d d'.

Lemma quiet_refl d : quiet d d.
Proof. split; [apply moves_refl|done]. Qed.

Lemma quiet_coord c d : moves (coord d) c -> quiet d (set_coord c d).
Proof. by split. Qed.

Lemma quiet_then d d1 d2 : quiet d d1 -> coord d2 = coord d1 -> same_policies d1 d2 -> quiet d d2.
Proof.
  intros [H1 [H2 H3]] Hc [H4 H5]. split; [by rewrite Hc|]. split; congruence.
Qed.

(** A step that leaves the coordinator alone. *)
Definition frame (d d' : daemon) : Prop := coord d' = coord d /\ same_policies d d'.

Lemma frame_refl d : frame d d.
Proof. by repeat split. Qed.

Lemma frame_trans d1 d2 d3 : frame d1 d2 -> frame d2 d3 -> frame d1 d3.
Proof. unfold frame, same_policies. intuition congruence. Qed.

Lemma frame_append o session kind detail d : frame d (append_audit o session kind detail d).
Proof. unfold append_audit. by case_match. Qed.

Lemma frame_finalize o id res d : frame d (finalizeResult o id res d).
Proof.
  unfold finalizeResult. destruct (open d); [|apply frame_append].
  by destruct (OpenSet.finalize _ _ _ _ _ _) as [[] ].
Qed.

Lemma frame_section o s d : frame d (run_section o s d).1.
Proof.
  destruct s; cbn [run_section fst]; [apply frame_refl|apply frame_append|]. unfold open_add. by case_match.
Qed.

Lemma frame_locked m b d : frame d (set_locked m b d).
Proof. by destruct m. Qed.

Lemma quiet_frame d d' : frame d d' -> quiet d d'.
Proof. intros [Hc Hp]. by eapply quiet_then; [apply quiet_refl|..]. Qed.

Lemma quiet_start s now rnd done cfg op kind auth d :
  quiet d (startWith s (start now rnd done s cfg op kind auth (coord d)) d).1.
Proof.
  pose proof (moves_exec (LStart now rnd done s cfg op kind auth) (coord d) eq_refl I) as Hm.
  cbn [exec] in Hm. unfold startWith.
  destruct (start now rnd done s cfg op kind auth (coord d)) as [c [err|]]; cbn in Hm |- *;
    apply quiet_coord; [by apply moves_close|done].
Qed.

Lemma quiet_sessionStart role e payload d : quiet d (sessionStart role e payload d).1.
Proof.
  unfold sessionStart. destruct (optional _ _ _) as [p|]; [|apply quiet_refl].
  destruct (load e _) as [prof|]; [|apply quiet_refl]. cbv zeta.
  match goal with |- context [match ?x with Some _ => _ | None => _ end] => destruct x as [k|] end;
    [|apply quiet_refl].
  destruct (String.eqb k "uart").
  { unfold startUARTSession. destruct (UART prof); [|apply quiet_refl].
    destruct (openUART e _); [|apply quiet_refl]. apply quiet_start. }
  destruct (String.eqb k "ssh").
  { unfold startSSHSession. destruct (SSH prof); [|apply quiet_refl].
    destruct (dialSSH e _ _); [|apply quiet_refl]. apply quiet_start. }
  destruct (String.eqb k "telnet"); [|apply quiet_refl].
  unfold startTelnetSession. destruct (Telnet prof); [|apply quiet_refl].
  destruct (dialTelnet e _); [|apply quiet_refl]. apply quiet_start.
Qed.

Lemma quiet_retry now rnd done op auth d :
  quiet d (retryWith (retry now rnd done op auth (coord d)) d).1.
Proof.
  assert (Hm : moves (coord d) (fst (retry now rnd done op auth (coord d)))).
  { unfold retry. destruct (retry_check (coord d)) as [o|]; [|apply moves_refl].
    destruct (op o) as [s|]; [|apply moves_refl].
    exact (moves_exec (LRetry now rnd done s auth) (coord d) eq_refl I). }
  unfold retryWith. destruct (retry _ _ _ _ _ _) as [c [err|]]; by apply quiet_coord.
Qed.

(** The handlers that take one step of the coordinator. *)
Lemma quiet_step l c d p :
  records l = false -> enabled l (coord d) -> c = exec l (coord d) -> quiet d (set_coord c d, p : progress).1.
Proof. intros Hl He ->. apply quiet_coord. by apply moves_exec. Qed.

Lemma quiet_sessionEnd e d : quiet d (sessionEnd e d).1.
Proof.
  pose proof (moves_exec (LEndClose (close_fails e)) (coord d) eq_refl I) as Hm. cbn [exec] in Hm.
  unfold sessionEnd. destruct (EndSession_close _ _) as [c []]; by apply quiet_coord.
Qed.

Lemma quiet_propose e payload d :
  fresh_ids e (coord d) -> quiet d (commandPropose e payload d).1.
Proof.
  intros [Hp _]. unfold commandPropose. destruct (dec_propose payload) as [p|]; [|apply quiet_refl].
  pose proof (moves_exec (LPropose (dr e) (pp_SessionID p) (pp_Text p) (pp_Purpose p)
    (milliseconds (pp_TimeoutMS p))) (coord d) eq_refl Hp) as Hm. cbn [exec] in Hm.
  destruct (Coordinator.Propose _ _ _ _ _ _) as [c []]; by apply quiet_coord.
Qed.

Lemma quiet_reject payload d : quiet d (commandReject payload d).1.
Proof.
  unfold commandReject. destruct (diagnosticMu d); [apply quiet_refl|].
  destruct (dec_id payload) as [p|]; [|apply quiet_refl].
  pose proof (moves_exec (LReject (ip_ProposalID p)) (coord d) eq_refl I) as Hm. cbn [exec] in Hm.
  destruct (Coordinator.Reject _ _) as [c []]; by apply quiet_coord.
Qed.

Lemma quiet_edit e payload d : fresh_ids e (coord d) -> quiet d (commandEdit e payload d).1.
Proof.
  intros [Hp _]. unfold commandEdit. destruct (diagnosticMu d); [apply quiet_refl|].
  destruct (dec_edit payload) as [p|]; [|apply quiet_refl].
  pose proof (moves_exec (LEdit (dr e) (ep_ProposalID p) (ep_Text p) (ep_Purpose p)) (coord d) eq_refl Hp) as Hm.
  cbn [exec] in Hm. destruct (Coordinator.Edit _ _ _ _ _) as [c []]; by apply quiet_coord.
Qed.

Lemma quiet_write e payload d : quiet d (transportWrite e payload d).1.
Proof.
  unfold transportWrite. destruct (dec_write payload) as [p|]; [|apply quiet_refl]. cbv zeta.
  case_match; [apply quiet_refl|].
  pose proof (moves_exec (LWriteHuman (wp_Data p)) (coord d) eq_refl I) as Hm. cbn [exec] in Hm.
  destruct (WriteHuman _ _) as [c []]; by apply quiet_coord.
Qed.

Lemma quiet_readers e payload d :
  quiet d (outputRead payload d).1 /\ quiet d (commandList payload d).1 /\
  quiet d (recordsExport_ e payload d).1.
Proof.
  split_and!; unfold outputRead, commandList, recordsExport_; repeat case_match; apply quiet_refl.
Qed.

(** What a handler that may record a transaction does to the coordinator. *)
Definition may_record (d d' : daemon) (why : Transaction -> Prop) : Prop :=
  outcomes_kept (coord d) (coord d') /\ (inv (coord d) -> inv (coord d') /\ same_policies d d' /\
  (txs (coord d') = txs (coord d) \/ exists t, txs (coord d') = <[tx_ID t := t]> (txs (coord d)) /\ why t)).

Lemma quiet_may_record d d' why : quiet d d' -> may_record d d' why.
Proof. intros [[Hk Hm] Hp]. split; [done|]. intros Hi. destruct (Hm Hi). split; [done|]. split; [done|by left]. Qed.

Lemma approve_records e payload d :
  fresh_ids e (coord d) ->
  may_record d (commandApprove e payload d).1 (fun t =>
    exists p, dec_approve payload = Some p /\ ap_ProposalID p = tx_SourceProposalID t).
Proof.
  intros [_ Ht]. unfold commandApprove.
  destruct (dec_approve payload) as [p|]; [|by apply quiet_may_record, quiet_refl].
  case_match; [by apply quiet_may_record, quiet_refl|].
  pose proof (kept_Approve (dr e) (ap_ProposalID p) (coord d)) as Hk.
  pose proof (inv_exec (LApprove (dr e) (ap_ProposalID p)) (coord d) Ht) as Hx. cbn [exec] in Hx.
  destruct (Coordinator.Approve (dr e) (ap_ProposalID p) (coord d)) as [c [t err]] eqn:HA.
  destruct (Approve_records _ _ _ _ _ _ HA) as [Hr Hwhy].
  assert (Hgo : may_record d (set_coord c d) (fun t => exists p0, Some p = Some p0 /\ ap_ProposalID p0 = tx_SourceProposalID t)).
  { split; [exact Hk|]. intros Hi. split; [by apply Hx|]. split; [done|]. destruct t as [t|]; [right|by left].
    exists t. split; [exact Hr|]. exists p. split; [done|]. destruct (Hwhy t eq_refl) as (q & Hq & -> & _).
    by rewrite (ok_prop_id _ (core_store_ok _ (inv_core _ Hi)) _ _ Hq). }
  cbv zeta. by destruct err, t.
Qed.

(** The start of an automatic execution, and the parts after it. *)
Lemma start_records m e dec p d :
  fresh_ids e (coord d) -> may_record d (execute_start m e dec p d).1 (fun t => xp_Text p = tx_Text t).
Proof.
  intros Hf. unfold execute_start.
  pose proof (kept_Diagnose (dr e) (xp_SessionID p) (xp_Text p) (xp_Purpose p)
    (milliseconds (xp_TimeoutMS p)) (coord d)) as Hk.
  pose proof (inv_exec (LDiagnose (dr e) (xp_SessionID p) (xp_Text p) (xp_Purpose p)
    (milliseconds (xp_TimeoutMS p))) (coord d) Hf) as Hx. cbn [exec] in Hx.
  destruct (DiagnoseStart _ _ _ _ _ _) as [c [t err]] eqn:HD.
  destruct (Diagnose_records _ _ _ _ _ _ _ _ _ HD) as (Hr & Htext & _).
  assert (Hgo : forall d', frame (set_coord c d) d' -> may_record d d' (fun t => xp_Text p = tx_Text t)).
  { intros d' [Hc Hp]. split; rewrite Hc; [exact Hk|]. intros Hi. split; [by apply Hx|]. split; [exact Hp|].
    destruct t as [t|]; [right|by left]. exists t. split; [exact Hr|]. by rewrite (Htext t eq_refl). }
  cbv zeta. destruct t; apply Hgo; [apply frame_refl|apply frame_locked].
Qed.

Lemma quiet_check m payload d : quiet d (execute_check m payload d).1.
Proof.
  unfold execute_check. repeat (case_match; try apply quiet_refl). apply quiet_frame, frame_locked.
Qed.

Lemma quiet_register m e dec t d : quiet d (execute_register m e dec t d).1.
Proof.
  unfold execute_register. pose proof (moves_exec (LWait (fresh e) (tx_ID t)) (coord d) eq_refl I) as Hm.
  cbn [exec] in Hm. destruct (WaitResult_register _ _ _) as [c w]. cbn [fst] in Hm.
  assert (Hq : quiet d (set_coord c d)) by by apply quiet_coord.
  cbv zeta. destruct w; cbn [fst]; [done| |done]. eapply quiet_then; [exact Hq|..]; apply frame_locked.
Qed.

Lemma quiet_wait m cancelled dec t w d : quiet d (execute_wait m cancelled dec t w d).1.
Proof.
  unfold execute_wait. destruct cancelled; [|case_match; apply quiet_refl]. cbn [fst].
  pose proof (moves_exec (LCancel w (tx_ID t)) (coord d) eq_refl I) as Hm.
  eapply quiet_then; [by apply quiet_coord|..]; apply frame_locked.
Qed.

Lemma quiet_finish m o dec t res d : quiet d (execute_finish m o dec t res d).1.
Proof.
  apply quiet_frame. eapply frame_trans; [apply frame_finalize|apply frame_locked].
Qed.

(** A handler that goes on records the transaction of its checked request, or
    nothing. *)
Lemma advance_records e cancelled f d :
  fresh_ids e (coord d) ->
  may_record d (advance e cancelled f d).1 (fun t =>
    exists m dec p, f = Executing m (Checked dec p) /\ xp_Text p = tx_Text t).
Proof.
  intros Hf.
  assert (Hsec : forall s k, quiet d (let '(d, more) := run_section (ios e) s d in (d, k more) : daemon * progress).1).
  { intros s k. pose proof (frame_section (ios e) s d) as Hs. destruct (run_section _ _ _). by apply quiet_frame. }
  destruct f as [t [|s todo]|m [dec p|dec t [|s todo]|dec t|dec t w|dec t res]]; cbn [advance];
    try (apply quiet_may_record; first [apply quiet_refl|apply quiet_register|apply quiet_wait|apply quiet_finish]).
  - apply quiet_may_record, (Hsec s (fun more => Continues (Approving t (more ++ todo)))).
  - destruct (start_records m e dec p d Hf) as [Hk Hr]. split; [exact Hk|]. intros Hi.
    destruct (Hr Hi) as (H1 & H2 & [H3|(t & H3 & Ht)]); (split; [done|]; split; [done|]); [by left|].
    right. exists t. split; [done|]. by exists m, dec, p.
  - apply quiet_may_record, (Hsec s (fun more => Continues (Executing m (Recording dec t (more ++ todo))))).
Qed.

(** ** Cuts *)

Definition operation_of (m : mode) : string :=
  match m with Diagnosing => OpDiagnoseExecute | UnsafeShell => OpUnsafeShellExecute end.

(** A checked request: who asked, and that the policy allowed the text. *)
Definition entitled (h : list (Role * Request)) (d : daemon) (f : flight) : Prop :=
  forall m dec p, f = Executing m (Checked dec p) ->
  exists x ev, x ∈ h /\ permitted x.1 (Operation x.2) = true /\ Operation x.2 = operation_of m /\
    dec_execute (Payload x.2) = Some p /\ evaluate m d = Some ev /\ Allowed (ev (xp_Text p)) = true.

Lemma entitled_weaken h h' d d' f :
  h ⊆ h' -> same_policies d d' -> entitled h d f -> entitled h' d' f.
Proof.
  intros Hh [H1 H2] He m dec p Hf. destruct (He m dec p Hf) as (x & ev & Hx & Hp & Ho & Hd & Hev & Ha).
  exists x, ev. split_and!; try done; [by apply Hh|]. rewrite <-Hev. destruct m; cbn; congruence.
Qed.

Lemma check_cut m payload d f :
  f ∈ continuing (execute_check m payload d).2 ->
  exists dec p ev, f = Executing m (Checked dec p) /\ dec_execute payload = Some p /\ evaluate m d = Some ev /\
    Allowed (ev (xp_Text p)) = true /\ locked m d = false /\ (execute_check m payload d).1 = set_locked m true d.
Proof.
  unfold execute_check. destruct (dec_execute payload) as [p|]; [|by intros ?%elem_of_nil].
  destruct (evaluate m d) as [ev|]; [|by intros ?%elem_of_nil]. case_match; [by intros ?%elem_of_nil|].
  case_match; [by intros ?%elem_of_nil|]. destruct (locked m d) eqn:Hl; [by intros ?%elem_of_nil|]. cbv zeta.
  destruct (Allowed (ev (xp_Text p))) eqn:Ha; cbn [negb]; [|by intros ?%elem_of_nil].
  case_match; [by intros ?%elem_of_nil|]. cbn [continuing fst snd]. intros ->%list_elem_of_singleton. by eauto 10.
Qed.

Lemma approve_cut e payload d f :
  f ∈ continuing (commandApprove e payload d).2 ->
  exists p c t, dec_approve payload = Some p /\ Coordinator.Approve (dr e) (ap_ProposalID p) (coord d) = (c, (Some t, None)) /\
    (commandApprove e payload d).1 = set_coord c d /\
    f = Approving t [SAudit "approval" (approvalDetail (ap_ProposalID p) (String.length (ap_Confirmation p)));
                     SAudit "transaction" (tx_ID t); SOpenAdd t].
Proof.
  unfold commandApprove. destruct (dec_approve payload) as [p|]; [|by intros ?%elem_of_nil].
  case_match; [by intros ?%elem_of_nil|]. destruct (Coordinator.Approve _ _ _) as [c [t err]] eqn:HA. cbv zeta.
  destruct err; [by intros ?%elem_of_nil|]. destruct t as [t|]; [|by intros ?%elem_of_nil]. cbn [continuing fst snd].
  intros ->%list_elem_of_singleton. by eauto 10.
Qed.

(** The other handlers have no cut. *)
Definition uncut (out : daemon * progress) : Prop := continuing out.2 = [].

Lemma uncut_start s out d : uncut (startWith s out d).
Proof. unfold startWith. by destruct out as [c []]. Qed.

Lemma uncut_retry out d : uncut (retryWith out d).
Proof. unfold retryWith. by destruct out as [c []]. Qed.

Lemma uncut_sessionStart role e payload d : uncut (sessionStart role e payload d).
Proof.
  unfold sessionStart, startUARTSession, startSSHSession, startTelnetSession.
  repeat (case_match; try done); apply uncut_start.
Qed.

Lemma uncut_others e payload d :
  uncut (portsList e d) /\ uncut (sessionEnd e d) /\ uncut (outputRead payload d) /\ uncut (commandList payload d) /\
  uncut (recordsExport_ e payload d) /\ uncut (commandPropose e payload d) /\ uncut (commandReject payload d) /\
  uncut (commandEdit e payload d) /\ uncut (transportWrite e payload d).
Proof.
  split_and!; unfold portsList, sessionEnd, outputRead, commandList, recordsExport_, commandPropose, commandReject,
    commandEdit, transportWrite; cbv zeta; repeat (case_match; try done).
Qed.

Lemma dispatch_cut role req e d f :
  f ∈ continuing (Dispatch role req e d).2 ->
  (Operation req = OpCommandApprove /\ Dispatch role req e d = commandApprove e (Payload req) d) \/
  exists m, Operation req = operation_of m /\ Dispatch role req e d = execute_check m (Payload req) d.
Proof.
  destruct (uncut_others e (Payload req) d) as (U1 & U2 & U3 & U4 & U5 & U6 & U7 & U8 & U9).
  assert (Hno : forall out : daemon * progress, uncut out -> f ∈ continuing out.2 -> False).
  { intros out ->. apply elem_of_nil. }
  unfold Dispatch. cbv zeta.
  repeat match goal with
  | |- context [if String.eqb (Operation req) ?o then _ else _] =>
      destruct (String.eqb_spec (Operation req) o) as [?E|?]
  end; intros Hin;
    try (by exfalso; eapply Hno; [|exact Hin]; auto using uncut_sessionStart, uncut_retry, uncut_start);
    try (by exfalso; eapply Hno; [|exact Hin]; first [apply uncut_retry|done]).
  - right. by exists Diagnosing.
  - right. by exists UnsafeShell.
  - by left.
Qed.

Lemma dispatch_entitled role req e d h f :
  permitted role (Operation req) = true ->
  f ∈ continuing (Dispatch role req e d).2 -> entitled ((role, req) :: h) d f.
Proof.
  intros Hp Hin. destruct (dispatch_cut _ _ _ _ _ Hin) as [[_ Hd]|(m & Ho & Hd)]; rewrite Hd in Hin.
  - apply approve_cut in Hin as (p & c & t & _ & _ & _ & ->). by intros m dec q.
  - apply check_cut in Hin as (dec & p & ev & -> & Hdec & Hev & Ha & _). intros m' dec' p' [= <- <- <-].
    exists (role, req), ev. split_and!; try done. apply list_elem_of_here.
Qed.

Lemma advance_cut e cancelled f d f' m dec p :
  f' ∈ continuing (advance e cancelled f d).2 -> f' <> Executing m (Checked dec p).
Proof.
  destruct f as [t [|s todo]|m1 [dec1 p1|dec1 t [|s todo]|dec1 t|dec1 t w|dec1 t res]]; cbn [advance];
    unfold execute_start, execute_register, execute_wait, execute_finish; cbv zeta;
    repeat case_match; cbn [continuing snd]; intros Hin;
    (by apply elem_of_nil in Hin) || (apply list_elem_of_singleton in Hin; congruence).
Qed.

(** ** The invariant of runs *)

Definition authorised (s : system) : Prop :=
  inv (coord (daemon_ s)) /\
  (forall id t, txs (coord (daemon_ s)) !! id = Some t ->
    exists x, x ∈ history s /\ authorises (daemon_ s) x t) /\
  (forall f, f ∈ pool s -> entitled (history s) (daemon_ s) f).

Lemma authorises_policies d d' x t : same_policies d d' -> authorises d x t -> authorises d' x t.
Proof. intros [H1 H2]. unfold authorises. by rewrite H1, H2. Qed.

Lemma entitled_authorises h d m dec p t :
  entitled h d (Executing m (Checked dec p)) -> xp_Text p = tx_Text t ->
  exists x, x ∈ h /\ authorises d x t.
Proof.
  intros He Ht. destruct (He m dec p eq_refl) as (x & ev & Hx & Hp & Ho & Hd & Hev & Ha).
  exists x. split; [done|]. split; [done|]. rewrite Ht in Ha.
  destruct m; cbn in Hev; apply fmap_Some in Hev as (pol & Hpol & ->); right; [left|right]; (split; [done|]);
    by exists p, pol.
Qed.

(** Every dispatched request but an approval moves the coordinator at most; an
    approval records the transaction that it authorises. *)
Lemma dispatch_quiet role req e d :
  fresh_ids e (coord d) -> Operation req <> OpCommandApprove -> quiet d (Dispatch role req e d).1.
Proof.
  intros Hf Ho%String.eqb_neq. destruct (quiet_readers e (Payload req) d) as (Q1 & Q2 & Q3).
  unfold Dispatch. cbv zeta. rewrite Ho.
  repeat match goal with |- quiet _ (if ?b then _ else _).1 => destruct b eqn:? end; first
    [ apply quiet_refl | apply quiet_sessionStart | apply quiet_sessionEnd | exact Q1 | exact Q2
    | exact Q3 | by apply quiet_propose | apply quiet_reject | by apply quiet_edit | apply quiet_write
    | apply quiet_retry | apply quiet_check
    | by apply (quiet_step (LTakeover (clock (dr e))))
    | by apply (quiet_step (LBeginSecret (clock (dr e))))
    | by apply (quiet_step LEndSecret) ].
Qed.

Lemma dispatch_records role req e d :
  permitted role (Operation req) = true -> fresh_ids e (coord d) ->
  may_record d (Dispatch role req e d).1 (authorises d (role, req)).
Proof.
  intros Hperm Hf. destruct (String.eqb_spec (Operation req) OpCommandApprove) as [E|];
    [|by apply quiet_may_record, dispatch_quiet].
  assert (Dispatch role req e d = commandApprove e (Payload req) d) as -> by (unfold Dispatch; by rewrite E).
  destruct (approve_records e (Payload req) d Hf) as [Hk Hr]. split; [exact Hk|]. intros Hi.
  destruct (Hr Hi) as (H1 & H2 & [H3|(t & H3 & Hwhy)]); (split; [done|]; split; [done|]); [by left|].
  right. exists t. split; [done|]. split; [done|]. by left.
Qed.

(** A step of the daemon that records the transactions [why] allows, each with
    a request responsible for it. *)
Lemma authorised_records s d' h pl why :
  may_record (daemon_ s) d' why -> history s ⊆ h ->
  (forall t, why t -> exists x, x ∈ h /\ authorises (daemon_ s) x t) ->
  (forall f, f ∈ pl -> entitled h (daemon_ s) f) ->
  authorised s -> authorised {| daemon_ := d'; history := h; pool := pl |}.
Proof.
  intros [_ Hm] Hh Hwhy Hpl (Hi & Ha & _). destruct (Hm Hi) as (Hi' & Hp & Ht).
  assert (Hold : forall id t, txs (coord (daemon_ s)) !! id = Some t -> exists x, x ∈ h /\ authorises d' x t).
  { intros id t Hid. destruct (Ha id t Hid) as (x & Hx & Hau). exists x. split; [by apply Hh|].
    by eapply authorises_policies. }
  split; [exact Hi'|]. split; cbn [daemon_ history pool].
  - intros id t. destruct Ht as [->|(t' & -> & Hw)]; [by apply Hold|].
    intros [[<- <-]|[_ Hid]]%lookup_insert_Some; [|by eapply Hold].
    destruct (Hwhy t' Hw) as (x & Hx & Hau). exists x. split; [done|]. by eapply authorises_policies.
  - intros f Hf. apply (entitled_weaken h h (daemon_ s)); [done|exact Hp|by apply Hpl].
Qed.

Lemma authorised_quiet s d' :
  quiet (daemon_ s) d' -> authorised s ->
  authorised {| daemon_ := d'; history := history s; pool := pool s |}.
Proof.
  intros Hq Ha. eapply (authorised_records s d' _ _ (fun _ => False)); [by apply quiet_may_record|done|done| |done].
  exact (proj2 (proj2 Ha)).
Qed.

Lemma authorised_step s s' : system_step s s' -> authorised s -> authorised s'.
Proof.
  intros Hs Ha. pose proof (proj2 (proj2 Ha)) as Hpool.
  destruct Hs as [role req e Hperm Hf out|e cancelled pre f post Hpl Hf out| |l Hl He|o board s0 id res s1 aw1 r Ho Hres Hfin].
  - eapply authorised_records; [by apply dispatch_records| | | |exact Ha].
    + by apply list_subseteq_cons.
    + intros t Ht. exists (role, req). split; [apply list_elem_of_here|done].
    + intros f [Hin|Hin]%elem_of_app; [exact (dispatch_entitled role req e _ (history s) f Hperm Hin)|].
      refine (entitled_weaken (history s) _ (daemon_ s) _ _ _ (conj eq_refl eq_refl) (Hpool f Hin)).
      by apply list_subseteq_cons.
  - eapply authorised_records; [by apply advance_records|done| | |exact Ha].
    + intros t (m & dec & p & -> & Ht). eapply entitled_authorises; [|exact Ht]. apply Hpool.
      rewrite Hpl, elem_of_app. right. apply list_elem_of_here.
    + intros f' Hin m dec p ->. rewrite !elem_of_app in Hin.
      destruct Hin as [Hin|[Hin|Hin]]; [|by destruct (advance_cut _ _ _ _ _ m dec p Hin)|];
        (eapply Hpool; [|done]); rewrite Hpl, elem_of_app; [by left|by right; apply list_elem_of_further].
  - by apply authorised_quiet; [exact (quiet_coord _ _ (moves_exec LEndFinish _ eq_refl I))|].
  - apply authorised_quiet; [|done]. by apply quiet_coord, moves_exec.
  - apply authorised_quiet; [|done]. by apply quiet_frame.
Qed.

Lemma started_authorised s : started s -> authorised s.
Proof.
  intros (Hh & Hp & _ & _ & r & brd & rnd & Hc). split; rewrite Hc; [apply inv_new|]. split.
  - intros id t Hid. unfold txs in Hid; cbn in Hid; by rewrite lookup_empty in Hid.
  - rewrite Hp. by intros f ?%elem_of_nil.
Qed.

Lemma reachable_authorised s : system_reachable s -> authorised s.
Proof.
  intros (s0 & H0%started_authorised & Hrun). induction Hrun as [|x y z Hs _ IH]; [done|].
  apply IH. by eapply authorised_step.
Qed.

(** ** The mutexes of the automatic modes *)

Definition holds (m : mode) (f : flight) : bool :=
  match f with Executing m' _ => bool_decide (m' = m) | _ => false end.

Definition holders (m : mode) (fs : list flight) : nat := length (List.filter (holds m) fs).

Definition taken (m : mode) (d : daemon) : nat := if locked m d then 1%nat else 0%nat.

Definition same_locks (d d' : daemon) : Prop :=
  diagnosticMu d' = diagnosticMu d /\ unsafeShellMu d' = unsafeShellMu d.

Lemma holders_app m a b : holders m (a ++ b) = (holders m a + holders m b)%nat.
Proof. unfold holders. by rewrite List.filter_app, length_app. Qed.

Lemma same_locks_taken m d d' : same_locks d d' -> taken m d' = taken m d.
Proof. intros [H1 H2]. unfold taken. destruct m; cbn; by rewrite ?H1, ?H2. Qed.

Lemma startWith_locks s out d : same_locks d (startWith s out d).1.
Proof. by destruct out as [c []]. Qed.

Lemma retryWith_locks out d : same_locks d (retryWith out d).1.
Proof. by destruct out as [c []]. Qed.

Lemma sessionStart_locks role e payload d : same_locks d (sessionStart role e payload d).1.
Proof.
  unfold sessionStart, startUARTSession, startSSHSession, startTelnetSession.
  repeat (case_match; try done); apply startWith_locks.
Qed.

Lemma others_locks e payload d :
  same_locks d (sessionEnd e d).1 /\ same_locks d (outputRead payload d).1 /\ same_locks d (commandList payload d).1 /\
  same_locks d (recordsExport_ e payload d).1 /\ same_locks d (commandPropose e payload d).1 /\
  same_locks d (commandReject payload d).1 /\ same_locks d (commandEdit e payload d).1 /\
  same_locks d (transportWrite e payload d).1 /\ same_locks d (commandApprove e payload d).1.
Proof.
  split_and!; unfold sessionEnd, outputRead, commandList, recordsExport_, commandPropose, commandReject,
    commandEdit, transportWrite, commandApprove; cbv zeta; repeat (case_match; try done).
Qed.

Lemma check_locks m m' payload d :
  (holders m (continuing (execute_check m' payload d).2) + taken m d = taken m (execute_check m' payload d).1)%nat.
Proof.
  unfold execute_check. repeat (case_match; try done). unfold holders, taken. cbn [continuing snd fst List.filter holds].
  by destruct m, m'; case_bool_decide; cbn; simplify_eq/=; repeat case_match; simplify_eq/=.
Qed.

Lemma dispatch_locks m role req e d :
  (holders m (continuing (Dispatch role req e d).2) + taken m d = taken m (Dispatch role req e d).1)%nat.
Proof.
  destruct (others_locks e (Payload req) d) as (L1 & L2 & L3 & L4 & L5 & L6 & L7 & L8 & L9).
  destruct (uncut_others e (Payload req) d) as (U1 & U2 & U3 & U4 & U5 & U6 & U7 & U8 & U9).
  assert (Huncut : forall out : daemon * progress, same_locks d out.1 -> uncut out ->
    (holders m (continuing out.2) + taken m d = taken m out.1)%nat).
  { intros out Hl Hu. rewrite Hu. by rewrite (same_locks_taken m d out.1 Hl). }
  unfold Dispatch. cbv zeta.
  repeat match goal with
  | |- context [if String.eqb (Operation req) ?o then _ else _] => destruct (String.eqb (Operation req) o)
  end; first
    [ apply check_locks | by apply Huncut | by apply Huncut; [apply sessionStart_locks|apply uncut_sessionStart]
    | by apply Huncut; [apply retryWith_locks|apply uncut_retry] | idtac ].
  rewrite (same_locks_taken m d _ L9). unfold commandApprove. cbv zeta. by repeat case_match.
Qed.

(** A handler gives its mutex back when it answers. *)
Lemma advance_locks m e cancelled f d :
  (forall m', holds m' f = true -> locked m' d = true) ->
  (holders m (continuing (advance e cancelled f d).2) + taken m d =
   holders m [f] + taken m (advance e cancelled f d).1)%nat.
Proof.
  intros Hl.
  assert (Hsec : forall s, same_locks d (run_section (ios e) s d).1).
  { intros []; cbn; [done|unfold append_audit; by case_match|unfold open_add; by case_match]. }
  destruct f as [t [|s todo]|m' st]; [done| |].
  { cbn [advance]. specialize (Hsec s). destruct (run_section _ _ _) as [d1 more]. cbn.
    by rewrite (same_locks_taken m d d1 Hsec). }
  assert (Hm' : locked m' d = true) by (apply Hl; cbn; by apply bool_decide_eq_true).
  assert (Hcont : forall d1 st', same_locks d d1 ->
    (holders m [Executing m' st'] + taken m d = holders m [Executing m' st] + taken m d1)%nat).
  { intros d1 st' H1. rewrite (same_locks_taken m d d1 H1). unfold holders. cbn [List.filter holds]. by case_bool_decide. }
  assert (Hback : forall d1, same_locks d d1 ->
    (0 + taken m d = holders m [Executing m' st] + taken m (set_locked m' false d1))%nat).
  { intros d1 [H1 H2]. unfold holders, taken. cbn [List.filter holds]. revert Hm'.
    destruct m, m'; cbn; intros Hm'; rewrite ?H1, ?H2, ?Hm'; by destruct d. }
  destruct st as [dec p|dec t [|s todo]|dec t|dec t w|dec t res]; cbn [advance].
  - unfold execute_start. destruct (DiagnoseStart _ _ _ _ _ _) as [c [[t|] err]]; cbv zeta; [by apply Hcont|].
    destruct err; by apply (Hback (set_coord c d)).
  - by apply Hcont.
  - specialize (Hsec s). destruct (run_section _ _ _) as [d1 more]. by apply Hcont.
  - unfold execute_register. destruct (WaitResult_register _ _ _) as [c []]; cbv zeta;
      [by apply Hcont|by apply (Hback (set_coord c d))|by apply Hcont].
  - unfold execute_wait. destruct cancelled; [by apply (Hback (set_coord _ d))|]. case_match; by apply Hcont.
  - apply (Hback (finalizeResult (ios e) (tx_ID t) res d)). unfold finalizeResult, audit, append_audit.
    repeat (case_match; try done).
Qed.

(** The mutex of a mode is held exactly while one handler of the mode is at a
    cut, and there is never a second one. *)
Lemma mutex_held s m :
  system_reachable s -> holders m (pool s) = taken m (daemon_ s).
Proof.
  intros (s0 & (_ & Hp & H1 & H2 & _) & Hrun).
  assert (H0 : forall m, holders m (pool s0) = taken m (daemon_ s0)).
  { intros []; unfold taken; cbn; by rewrite Hp, ?H1, ?H2. }
  clear Hp H1 H2. revert m. induction Hrun as [|x y z Hs _ IH]; [done|]. apply IH. clear IH z. intros m.
  destruct Hs as [role req e Hperm Hf out|e cancelled pre f post Hpl Hf out| |l Hl He|o board s0 id res s1 aw1 r Ho Hres Hfin];
    cbn [pool daemon_]; [| |by rewrite H0; apply same_locks_taken..].
  - rewrite holders_app, H0. apply dispatch_locks.
  - assert (Hf' : forall m', holds m' f = true -> locked m' (daemon_ x) = true).
    { intros m' Hm. specialize (H0 m'). rewrite Hpl, holders_app in H0. unfold holders, taken in H0. cbn in H0.
      rewrite Hm in H0. destruct (locked m' (daemon_ x)); [done|]. cbn in H0. lia. }
    pose proof (advance_locks m e cancelled f _ Hf') as Ha. specialize (H0 m). fold out in Ha.
    rewrite Hpl, (holders_app m pre), (holders_app m [f] post : holders m (f :: post) = _) in H0. rewrite !holders_app. lia.
Qed.

(** ** Refusals *)

Lemma undisturbed_check m e payload d :
  undisturbed m e payload d =
  match execute_check m payload d with (d1, Continues f) => advance e false f d1 | out => out end.
Proof. by destruct m. Qed.

Lemma relock m d : locked m d = false -> set_locked m false (set_locked m true d) = d.
Proof. destruct m, d; cbn; by intros ->. Qed.

Lemma start_refuses m e dec p d :
  start_refused p (coord d) ->
  exists code, execute_start m e dec p d = (set_locked m false d, Answered (Err code)).
Proof.
  intros Hr. unfold execute_start.
  destruct (Diagnose_refused (dr e) (xp_SessionID p) (xp_Text p) (xp_Purpose p) (milliseconds (xp_TimeoutMS p))
    (coord d) Hr) as [err ->]. exists ErrCodeInvalidPayload. by destruct d.
Qed.

(** The policies' walk of the syntax tree does not look at line breaks or NUL;
    the start of the command does. *)
Lemma multiline_refused m p d : ~ one_line (to_bytes (xp_Text p)) -> refused m p d.
Proof. intros H. do 8 right. right; right. by apply multiline_unmanaged. Qed.

Lemma execute_refused m e payload d p :
  dec_execute payload = Some p -> refused m p d ->
  exists out, match execute_check m payload d with (d1, Continues f) => advance e false f d1 | out => out end =
    (d, Answered out) /\ refusal_reply m p d out.
Proof.
  intros Hp Hr. unfold execute_check. rewrite Hp. unfold refusal_reply, refused in *.
  destruct (evaluate m d) as [ev|]; [|by eauto].
  destruct (String.eqb (xp_SessionID p) "" || _ || _) eqn:H1; [by eauto|].
  destruct ((xp_TimeoutMS p <=? 0) || _) eqn:H2; [by eauto|].
  destruct (locked m d) eqn:Hb; [by eauto|]. cbv zeta.
  destruct (Allowed (ev (xp_Text p))) eqn:Hal; cbn [negb]; [|by eauto 10].
  destruct (String.eqb (xp_SessionID p) (Coordinator.SessionID (coord d))) eqn:Hsid; cbn [negb]; [|by eauto].
  cbn [advance]. destruct (start_refuses m e (ev (xp_Text p)) p (set_locked m true d)) as [code ->].
  - rewrite (proj1 (frame_locked m true d)).
    destruct Hr as [?|[?|[?|[?|[?|[?|[?|[(ev' & [= <-] & ?)|?]]]]]]]]; bools; try done; try lia; try congruence.
  - rewrite relock by done. by eauto.
Qed.

Lemma execute_starts m e payload d p :
  dec_execute payload = Some p -> ~ refused m p d -> 0 <= proposalTTL (commands (coord d)) ->
  let out := match execute_check m payload d with (d1, Continues f) => advance e false f d1 | out => out end in
  exists dec t todo, out.2 = Continues (Executing m (Recording dec t todo)) /\ tx_Text t = xp_Text p /\
    txs (coord out.1) !! tx_ID t = Some t.
Proof.
  intros Hp Hr Httl out. subst out. unfold execute_check. rewrite Hp. unfold refused, start_refused in Hr.
  destruct (evaluate m d) as [ev|]; [|by destruct Hr; eauto 10].
  destruct (String.eqb_spec (xp_SessionID p) ""); [by destruct Hr; left|].
  destruct (String.eqb_spec (xp_Text p) ""); [by destruct Hr; right; left|].
  destruct (String.eqb_spec (xp_Purpose p) ""); [by destruct Hr; do 2 right; left|].
  destruct (Z.leb_spec (xp_TimeoutMS p) 0); [by destruct Hr; do 3 right; left|].
  destruct (Z.ltb_spec MaxDiagnosticTimeoutMS (xp_TimeoutMS p)); [by destruct Hr; do 4 right; left|]. cbn [orb].
  destruct (locked m d) eqn:Hb; [by destruct Hr; eauto 10|]. cbv zeta.
  destruct (Allowed (ev (xp_Text p))) eqn:Hal; cbn [negb]; [|by destruct Hr; eauto 12].
  destruct (String.eqb_spec (xp_SessionID p) (Coordinator.SessionID (coord d))) as [Hsid|]; cbn [negb];
    [|by destruct Hr; eauto 12].
  cbn [advance]. unfold execute_start. rewrite (proj1 (frame_locked m true d)).
  destruct (canStartLocked (coord d)) eqn:Hcan; [by destruct Hr; do 9 right; left|].
  destruct (ValidateManaged (xp_Text p)) eqn:Hv; [by destruct Hr; do 10 right|].
  destruct (Diagnose_starts (dr e) (xp_SessionID p) (xp_Text p) (xp_Purpose p) (milliseconds (xp_TimeoutMS p))
    (coord d) Hsid Hcan Hv Httl) as (c & t & err & HD). rewrite HD.
  destruct (Diagnose_records _ _ _ _ _ _ _ _ _ HD) as (Hrec & Htext & _). cbn [recorded] in Hrec.
  eexists _, t, _. split; [done|]. split; [by apply Htext|]. cbn [fst coord set_coord]. rewrite Hrec. apply lookup_insert_eq.
Qed.

(** ** Properties *)

(** C1. Nothing is executed on the target unless somebody entitled to it said
    so. In every run of the daemon, whatever the clients of the four sockets
    ask and however the coordinator's goroutines interleave, each command line
    written to the target is the text of a transaction for which an earlier
    request is responsible: an approval of its very proposal that arrived on a
    human's attach connection, or a diagnosis of that very text that the
    read-only policy allows, or an unsafe-shell request of that very text that
    the denylist policy allows. No request on a control connection is ever
    responsible. *)
Theorem commands_authorised s :
  system_reachable s ->
  forall id sm data, EWrite (ByTransaction id) sm data ∈ trace (coord (daemon_ s)) ->
  exists t m x, txs (coord (daemon_ s)) !! id = Some t /\ data = command_line t m /\
    transactionID m = id /\ x ∈ history s /\ authorises (daemon_ s) x t /\
    x.1 <> RoleControl /\ (Operation x.2 = OpCommandApprove -> x.1 = RoleAttach).
Proof.
  intros Hr id sm data Hin. destruct (reachable_authorised s Hr) as (Hi & Ha & _).
  destruct (core_written _ _ _ _ (inv_core _ Hi) _ _ _ Hin) as (t & m & Ht & Hm & Hd).
  destruct (Ha id t Ht) as (x & Hx & Hau). exists t, m, x. split_and!; try done.
  - intros Hrole. destruct Hau as [Hp Hop]. rewrite Hrole in Hp.
    destruct Hop as [[Ho _]|[[Ho _]|[Ho _]]]; rewrite Ho in Hp; discriminate Hp.
  - intros Ho. destruct Hau as [Hp _]. rewrite Ho in Hp. by destruct (x.1).
Qed.

(** C6. The automatic paths fail closed. A diagnosis or an unsafe-shell
    request that its policy does not allow, that names another session, that
    lacks a field or has a timeout out of range, that finds its mode disabled,
    another execution running or a session that cannot start a command, or
    whose text is no single managed line, changes nothing at all in the daemon:
    no proposal, no transaction, no write, no audit record, no lock left taken.
    It is answered at once, with an error or with the policy's denial. These
    are all the reasons: any other request records a transaction of its very
    text. And when the session changes between the check and the start, the
    start is refused all the same: it only gives the mutex back and answers an
    error. *)
Theorem automatic_refusal m e payload d p :
  dec_execute payload = Some p ->
  (refused m p d ->
     exists out, undisturbed m e payload d = (d, Answered out) /\ refusal_reply m p d out) /\
  (~ refused m p d -> 0 <= proposalTTL (commands (coord d)) ->
     exists dec t todo, (undisturbed m e payload d).2 = Continues (Executing m (Recording dec t todo)) /\
       tx_Text t = xp_Text p /\ txs (coord (undisturbed m e payload d).1) !! tx_ID t = Some t) /\
  (forall dec d1, start_refused p (coord d1) ->
     exists code, advance e false (Executing m (Checked dec p)) d1 = (set_locked m false d1, Answered (Err code))).
Proof.
  intros Hp. split_and!.
  - intros Hr. rewrite undisturbed_check. by eapply execute_refused.
  - intros Hr Httl. rewrite undisturbed_check. by eapply execute_starts.
  - intros dec d1. apply start_refuses.
Qed.

(** A human's words stay out of a running command. While a transaction
    runs, a transport write of anything but the single byte Ctrl-C is refused
    and writes nothing; otherwise the bytes are written verbatim, once, to the
    current transport, or nothing is when there is none. *)
Theorem human_input_paused e payload d p :
  dec_write payload = Some p ->
  let '(d', out) := transportWrite e payload d in
  if bool_decide (st (coord d) = RunningCommand) && negb (bool_decide (wp_Data p = [ctrlC]))
  then d' = d /\ out = Answered (Err ErrCodePermissionDenied)
  else trace (coord d') = trace (coord d) ++
         match stream (coord d) with Some s => [EWrite ByHuman s (wp_Data p)] | None => [] end /\
       commands (coord d') = commands (coord d) /\
       (stream (coord d) = None -> out = internalErr).
Proof.
  intros Hp. unfold transportWrite. rewrite Hp. cbv zeta.
  destruct (bool_decide (st (coord d) = RunningCommand) && _) eqn:Hb; [done|].
  unfold WriteHuman, write_stream. destruct (stream (coord d)) as [s|] eqn:Hs; cbn [fst].
  - by split_and!.
  - split_and!; [|done..]. by rewrite app_nil_r.
Qed.

(** The approval's confirmation text never leaves the call. Two approvals
    of the same proposal whose confirmations have the same length bring the
    daemon to the same state with the same answer, so neither the audit file
    nor anything else depends on its content. *)
Theorem confirmation_not_recorded e payload1 payload2 d p1 p2 :
  dec_approve payload1 = Some p1 -> dec_approve payload2 = Some p2 ->
  ap_ProposalID p1 = ap_ProposalID p2 ->
  String.length (ap_Confirmation p1) = String.length (ap_Confirmation p2) ->
  commandApprove e payload1 d = commandApprove e payload2 d.
Proof. intros H1 H2 Hid Hl. unfold commandApprove. by rewrite H1, H2, Hid, Hl. Qed.

(** An approval whose write fails records a transaction, whose command may be
    partly on the wire, and neither audits it nor adds it to the open set; a
    diagnosis does both. *)
Lemma failed_approval_unaudited e payload d p c t :
  dec_approve payload = Some p -> Z.of_nat (String.length (ap_Confirmation p)) <= maxConfirmationBytes ->
  Coordinator.Approve (dr e) (ap_ProposalID p) (coord d) = (c, (Some t, Some ErrWrite)) ->
  let d' := (commandApprove e payload d).1 in
  txs (coord d') !! tx_ID t = Some t /\ aw d' = aw d /\ open d' = open d.
Proof.
  intros Hp Hl HA. unfold commandApprove. rewrite Hp, HA.
  replace (maxConfirmationBytes <? _) with false by lia. cbn.
  destruct (Approve_records _ _ _ _ _ _ HA) as [Hr _]. unfold recorded in Hr. rewrite Hr.
  by rewrite lookup_insert_eq.
Qed.


(** The coordinator's own steps, one after the other. *)
Fixpoint quiet_run (ls : list label) (c : Coordinator) : Prop :=
  match ls with
  | [] => True
  | l :: ls => records l = false /\ enabled l c /\ quiet_run ls (exec l c)
  end.

Lemma system_run ls d h fs :
  quiet_run ls (coord d) ->
  rtc system_step {| daemon_ := d; history := h; pool := fs |}
    {| daemon_ := set_coord (foldl (fun c l => exec l c) (coord d) ls) d; history := h; pool := fs |}.
Proof.
  revert d. induction ls as [|l ls IH]; intros d; cbn [quiet_run foldl].
  - intros _. destruct d. apply rtc_refl.
  - intros (Hl & He & Hr). eapply rtc_l; [by apply (sys_coordinator {| daemon_ := d; history := h; pool := fs |} l)|].
    exact (IH (set_coord (exec l (coord d)) d) Hr).
Qed.

End System.

(** *** Witnesses: payloads whose bytes are their main field. *)

Definition demo_decoders : Decoders := {|
  dec_start := fun _ => None; dec_read := fun _ => None;
  dec_execute := fun b => Some {| xp_SessionID := "sess-01"; xp_Text := of_bytes b;
                                  xp_Purpose := "look"; xp_TimeoutMS := 1000 |};
  dec_propose := fun _ => None; dec_list := fun _ => None; dec_id := fun _ => None;
  dec_approve := fun b => Some {| ap_ProposalID := of_bytes (take 7 b);
                                  ap_Confirmation := of_bytes (drop 7 b) |};
  dec_edit := fun _ => None;
  dec_write := fun b => Some {| wp_Data := b |};
  dec_export := fun _ => None |}.

#[local] Existing Instance demo_lower.
#[local] Existing Instance demo_quote.
#[local] Existing Instance demo_shell.
#[local] Existing Instance demo_decoders.

Definition demo_env : env := {|
  dr := {| clock := 2000; rnd_prop := "bb"; rnd_txn := "0011223344556677"; rnd_nonce := "0123"; write_fails := false |};
  rnd_sess := "02"; ios := {| now := 5; append_ok := true; save_ok := true |};
  fresh := 3; load := fun _ => None; listPorts := None; openPort := fun _ _ => None;
  dialSSH := fun _ _ => None; dialTelnet := fun _ => None; reopen := fun _ => None; op_id := 0;
  done_id := 0; close_fails := false; read_fails := false |}.

Definition demo_daemon (c : Coordinator) : daemon := {|
  d_board := "box"; loginCfg := demo_cfg; coord := c;
  open := Some {| ids := ∅; disk := NoFile |}; aw := Some (Audit.NewWriter []);
  tw := Transcript.NewWriter []; policy := Some {| Shell.commands := ∅ |}; unsafeShellPolicy := None;
  diagnosticMu := false; unsafeShellMu := false; retentionLimit := 5000 |}.

Definition demo_labels : list label :=
  demo_login ++ [LPropose demo_draws "sess-01" "ps" "look" (5 * second)].

Definition demo_request (op payload : string) : Request :=
  {| req_Version := "1"; RequestID := "r"; Operation := op; Payload := to_bytes payload |}.

(** A session that logged in, with one proposal. *)
Definition demo_ready : daemon := set_coord (foldl (fun c l => exec l c) demo_start demo_labels)
  (demo_daemon demo_start).

Definition demo_dispatch (role : Role) (req : Request) (d : daemon) : daemon * progress :=
  Dispatch role req demo_env d.

Definition demo_approve : Request := demo_request OpCommandApprove "prop-aayes".

Definition demo_system : system :=
  {| daemon_ := (demo_dispatch RoleAttach demo_approve demo_ready).1;
     history := [(RoleAttach, demo_approve)];
     pool := continuing (demo_dispatch RoleAttach demo_approve demo_ready).2 ++ [] |}.

Lemma demo_reachable : system_reachable demo_system.
Proof.
  exists {| daemon_ := demo_daemon demo_start; history := []; pool := [] |}. split.
  - split_and!; [done..|]. by exists demo_ring, "box"%string, "00"%string.
  - eapply rtc_r.
    + apply (system_run demo_labels (demo_daemon demo_start) [] []). vm_compute. intuition discriminate.
    + apply (sys_dispatch {| daemon_ := demo_ready; history := []; pool := [] |} RoleAttach demo_approve demo_env);
        [done|]. split; vm_compute; reflexivity.
Qed.

Lemma commands_authorised_witness :
  exists x, x ∈ history demo_system /\ x.1 <> RoleControl /\
    written (trace (coord (daemon_ demo_system))) = ["txn-0011223344556677"%string].
Proof.
  assert (Hw : written (trace (coord (daemon_ demo_system))) = ["txn-0011223344556677"%string]).
  { vm_compute. reflexivity. }
  destruct (elem_of_written (trace (coord (daemon_ demo_system))) "txn-0011223344556677") as (sm & data & Hin).
  { rewrite Hw. apply list_elem_of_here. }
  destruct (commands_authorised demo_system demo_reachable
    _ _ _ Hin) as (t & m & x & _ & _ & _ & Hx & _ & Hc & _).
  exists x. split; [exact Hx|]. split; [exact Hc|exact Hw].
Defined.

Definition demo_allowing : daemon := {|
  d_board := "box"; loginCfg := demo_cfg; coord := coord demo_ready; open := open demo_ready; aw := aw demo_ready;
  tw := tw demo_ready; policy := Some Common; unsafeShellPolicy := None;
  diagnosticMu := false; unsafeShellMu := false; retentionLimit := 5000 |}.

Lemma demo_not_refused :
  ~ refused Diagnosing {| xp_SessionID := "sess-01"; xp_Text := "ps"; xp_Purpose := "look"; xp_TimeoutMS := 1000 |}
      demo_allowing.
Proof.
  assert (E : evaluate Diagnosing demo_allowing = Some (Shell.Evaluate Common)) by reflexivity.
  unfold refused. rewrite E. intros [H|[H|[H|[H|[H|[H|[H|[(ev & H & Ha)|[H|[H|H]]]]]]]]]].
  - discriminate H.
  - discriminate H.
  - discriminate H.
  - by vm_compute in H.
  - by vm_compute in H.
  - discriminate H.
  - discriminate H.
  - apply (inj Some) in H. subst ev. by vm_compute in Ha.
  - by vm_compute in H.
  - apply H. vm_compute. reflexivity.
  - apply H. vm_compute. reflexivity.
Qed.

(** A session that can start a command, and a policy that allows nothing: the
    refusal; with a policy that allows the text, the transaction; and a start
    that the session's end has overtaken. *)
Lemma automatic_refusal_witness :
  (exists out, undisturbed Diagnosing demo_env (to_bytes "ps") demo_ready = (demo_ready, Answered out)) /\
  (exists t, tx_Text t = "ps"%string /\
     txs (coord (undisturbed Diagnosing demo_env (to_bytes "ps") demo_allowing).1) !! tx_ID t = Some t) /\
  (exists code, advance demo_env false (Executing Diagnosing
     (Checked {| Allowed := true; Rule := ""; Reason := "" |} {| xp_SessionID := "sess-01"; xp_Text := "ps"; xp_Purpose := "look"; xp_TimeoutMS := 1000 |}))
     (demo_daemon demo_start) = (demo_daemon demo_start, Answered (Err code))).
Proof.
  destruct (automatic_refusal (DD := demo_decoders) Diagnosing demo_env (to_bytes "ps") demo_ready
    {| xp_SessionID := "sess-01"; xp_Text := "ps"; xp_Purpose := "look"; xp_TimeoutMS := 1000 |} eq_refl)
    as (H1 & _ & H3). split_and!.
  - destruct H1 as (out & Ho & _).
    + do 7 right. left. eexists. split; [reflexivity|]. vm_compute. reflexivity.
    + exists out. exact Ho.
  - destruct (automatic_refusal (DD := demo_decoders) Diagnosing demo_env (to_bytes "ps") demo_allowing
      {| xp_SessionID := "sess-01"; xp_Text := "ps"; xp_Purpose := "look"; xp_TimeoutMS := 1000 |} eq_refl)
      as (_ & H2 & _).
    destruct (H2 demo_not_refused) as (dec & t & todo & _ & Ht & Hin); [by vm_compute|].
    exists t. split; [exact Ht|exact Hin].
  - apply (H3 _ (demo_daemon demo_start)). left. vm_compute. discriminate.
Defined.

Lemma human_input_paused_witness :
  transportWrite demo_env (to_bytes "rm") (daemon_ demo_system) =
    (daemon_ demo_system, Answered (Err ErrCodePermissionDenied)).
Proof.
  pose proof (human_input_paused (DD := demo_decoders) demo_env (to_bytes "rm") (daemon_ demo_system)
    {| wp_Data := to_bytes "rm" |} eq_refl) as H.
  destruct (transportWrite _ _ _) as [d' out].
  assert (Hb : bool_decide (st (coord (daemon_ demo_system)) = RunningCommand) = true) by (vm_compute; reflexivity).
  rewrite Hb in H. destruct H as [-> ->]. reflexivity.
Defined.

Lemma confirmation_not_recorded_witness :
  commandApprove demo_env (to_bytes "prop-aayes") demo_ready =
  commandApprove demo_env (to_bytes "prop-aatok") demo_ready.
Proof.
  exact (confirmation_not_recorded (DD := demo_decoders) demo_env (to_bytes "prop-aayes") (to_bytes "prop-aatok") demo_ready
    {| ap_ProposalID := "prop-aa"; ap_Confirmation := "yes" |}
    {| ap_ProposalID := "prop-aa"; ap_Confirmation := "tok" |} eq_refl eq_refl eq_refl eq_refl).
Defined.
