(* ===== verification/Startup.v ===== *)
(** * Start-up and the transcript drain (src/cmd/gatewayd/main.go)

    Which policies and sockets a daemon starts with, from its options and the
    board files, and the goroutine that copies the ring to the durable
    transcript. *)

From S2P Require Import Prelude GoStd Ring Shell Common PolicyFile Denylist Records Ipc.

(** ** Policies and sockets *)

Record daemonOptions := { AutoReadonly : bool; UnsafeAutoShell : string }.

(** The files of a board: whether the policy file is missing, and what reading
    each file gives. *)
Record board_files := {
  policy_missing : bool;
  policy_file : file_input fileWire;
  unsafe_file : file_input unsafeShellFileWire
}.

(** [errors.Is(err, os.ErrNotExist)]. *)
Definition not_exist (missing : bool) (e : PolicyFileError) : bool :=
  missing && match e with ErrStat | ErrOpenFile => true | _ => false end.

Section Startup.
Context `{UnicodeLower, GoQuote}.

Definition loadDaemonPolicy (o : daemonOptions) (files : string -> board_files) (board : string)
  : result PolicyFileError Policy :=
  let base := Common in
  if negb (AutoReadonly o) then Ok base
  else
    let f := files board in
    match LoadFile (policy_file f) (Some base) with
    | Err e => if not_exist (policy_missing f) e then Ok base else Err e
    | Ok loaded => Ok loaded
    end.

Definition loadUnsafeShellDaemonPolicy (o : daemonOptions) (files : string -> board_files)
  : result PolicyFileError (option DenylistPolicy) :=
  if String.eqb (UnsafeAutoShell o) "" then Ok None
  else match LoadUnsafeShellFile (unsafe_file (files (UnsafeAutoShell o))) with
       | Ok loaded => Ok (Some loaded)
       | Err e => Err e
       end.

(** The listeners of [serveDaemonSockets], in order. *)
Definition socket_roles (autoReadonly unsafeAutoShell : bool) : list Role :=
  [RoleControl; RoleAttach] ++ (if autoReadonly then [RoleDiagnose] else []) ++
  (if unsafeAutoShell then [RoleUnsafeShell] else []).

(** What [run] hands to the dispatcher and to the sockets. *)
Record startup := {
  served_board : string;
  diagnosticPolicy : option Policy;
  unsafePolicy : option DenylistPolicy;
  sockets : list Role
}.

(** [run], up to the sockets; [env_board] is GATEWAYD_BOARD. *)
Definition run (o : daemonOptions) (env_board : string) (files : string -> board_files) : startup :=
  let board := if String.eqb env_board "" then "default"%string else env_board in
  let '(diagnostic, autoReadonly) :=
    match loadDaemonPolicy o files board with
    | Ok p => (Some p, AutoReadonly o)
    | Err _ => (None, false)
    end in
  let '(unsafe, unsafeEnabled) :=
    match loadUnsafeShellDaemonPolicy o files with
    | Ok p => (p, negb (String.eqb (UnsafeAutoShell o) ""))
    | Err _ => (None, false)
    end in
  {| served_board := board; diagnosticPolicy := diagnostic; unsafePolicy := unsafe;
     sockets := socket_roles autoReadonly unsafeEnabled |}.

End Startup.

(** ** The transcript drain *)

Record drain := { ring : Ring; lastSeq : Z; tw : Transcript.Writer }.

(** One tick of [runTranscriptDrain]: the session is read after the chunk. *)
Definition drain_tick (now : Z) (ok : bool) (board session : string) (d : drain) : drain :=
  let chunk := ReadAfter (lastSeq d) (2 ^ 16) (ring d) in
  match Data chunk with
  | [] => {| ring := ring d; lastSeq := Next chunk; tw := tw d |}
  | _ =>
      let rec := {| Transcript.Board := board; Transcript.Session := session;
                    Transcript.Transport := "uart"; Transcript.Seq := 0; Transcript.Timestamp := 0;
                    Transcript.Direction := "from-target"; Transcript.Source := "daemon";
                    Transcript.Redacted := false; Transcript.Data := Data chunk |} in
      {| ring := ring d; lastSeq := Next chunk; tw := fst (Transcript.Append now ok rec (tw d)) |}
  end.

(** ** Specification *)

(** The bytes of the transcript. *)
Definition transcribed (w : Transcript.Writer) : bytes := concat (Transcript.Data <$> Transcript.file w).

(** Output arriving and ticks, in any order. [h] is the history of the ring.
    Writes succeed, and no tick comes later than one capacity of output. *)
Inductive drain_step (cap : nat) : bytes * drain -> bytes * drain -> Prop :=
| drain_output h d data :
    drain_step cap (h, d) (h ++ data, {| ring := Append data (ring d); lastSeq := lastSeq d; tw := tw d |})
| drain_ticks h d now board session :
    zlen h - lastSeq d <= Z.of_nat cap ->
    drain_step cap (h, d) (h, drain_tick now true board session d).

(** ** Lemmas *)

Definition drained (cap : nat) (x : bytes * drain) : Prop :=
  let '(h, d) := x in
  zlen h < max_u64 ->
  represents cap h (ring d) /\ exists n, lastSeq d = Z.of_nat n /\ (n <= length h)%nat /\
    transcribed (tw d) = take n h.

Lemma transcribed_append now rec w :
  transcribed (fst (Transcript.Append now true rec w)) = transcribed w ++ Transcript.Data rec.
Proof. unfold transcribed. cbn. rewrite fmap_app, concat_app. cbn. by rewrite app_nil_r. Qed.

Lemma drained_step cap x y : drain_step cap x y -> drained cap x -> drained cap y.
Proof.
  intros Hs Hd. destruct Hs as [h d data|h d now board session Hlag]; cbn [drained] in *; intros Hb.
  - assert (Hb0 : zlen h < max_u64) by (rewrite length_app in Hb; lia).
    destruct (Hd Hb0) as (Hr & n & Hn & Hle & Ht). split; [by apply Append_represents|].
    exists n. split_and!; [done|rewrite length_app; lia|]. cbn. rewrite Ht. by rewrite take_app_le.
  - destruct (Hd Hb) as (Hr & n & Hn & Hle & Ht). unfold drain_tick. rewrite Hn.
    rewrite (ReadAfter_represents _ _ _ _ _ Hr Hb). unfold spec_read.
    assert (Hst : spec_start cap h n = n) by (unfold spec_start; lia). rewrite Hst. cbn [Data Next].
    set (k := spec_count cap h n (2 ^ 16)).
    assert (Hk : (n + k <= length h)%nat).
    { unfold k, spec_count. rewrite Hst. destruct (0 <=? 2 ^ 16) eqn:E; lia. }
    assert (Hsl : take (n + k) h = take n h ++ slice n (n + k) h).
    { rewrite <-(take_take_drop h n k). unfold slice. do 2 f_equal. lia. }
    destruct (slice n (n + k) h) as [|b bs] eqn:Hdata; cbn [ring lastSeq tw]; (split; [done|]);
      exists (n + k)%nat; split_and!; try done; try lia.
    + by rewrite Ht, Hsl, app_nil_r.
    + by rewrite transcribed_append, Ht, Hsl.
Qed.

Section Modes.
Context {UL : UnicodeLower} {GQ : GoQuote}.

Lemma socket_roles_diagnose a u : RoleDiagnose ∈ socket_roles a u <-> a = true.
Proof. destruct a, u; split; try done; intros H; unfold socket_roles in *; set_solver. Qed.

Lemma socket_roles_unsafe a u : RoleUnsafeShell ∈ socket_roles a u <-> u = true.
Proof. destruct a, u; split; try done; intros H; unfold socket_roles in *; set_solver. Qed.

(** A file that loads passed every check. *)
Lemma wire_checked {W} (f : file_input W) w :
  read_wire f = Ok w -> stat f = Some (true, 384) /\ decoded f = Some w /\ trailing f = None.
Proof.
  unfold read_wire. destruct (stat f) as [[regular perm]|]; [|done]. destruct regular; [|done]. cbn [negb].
  destruct (perm =? 384) eqn:E; [|done]. cbn [negb]. destruct (opens f); [|done]. cbn [negb].
  destruct (decoded f) as [w'|]; [|done]. destruct (trailing f) as [[]|]; cbn; try done.
  intros [= ->]. bools. by subst.
Qed.

Lemma unsafe_ok f p :
  LoadUnsafeShellFile f = Ok p ->
  stat f = Some (true, 384) /\ trailing f = None /\
  exists w, decoded f = Some w /\ RiskAccepted w = true.
Proof.
  unfold LoadUnsafeShellFile. destruct (read_wire f) as [w|] eqn:Hr; [|done].
  apply wire_checked in Hr as (H1 & H2 & H3). destruct (RiskAccepted w) eqn:Hrisk; [|done]. intros _.
  split_and!; [done|done|by exists w].
Qed.

(** The unsafe-shell policy in force is that of the file the option names. *)
Lemma run_unsafe_policy o env_board files p :
  unsafePolicy (run o env_board files) = Some p <->
  UnsafeAutoShell o <> ""%string /\ LoadUnsafeShellFile (unsafe_file (files (UnsafeAutoShell o))) = Ok p.
Proof.
  unfold run, loadUnsafeShellDaemonPolicy.
  destruct (loadDaemonPolicy _ _ _); destruct (String.eqb (UnsafeAutoShell o) "") eqn:E; bools; cbn;
    destruct (LoadUnsafeShellFile _); cbn; naive_solver.
Qed.

Lemma run_unsafe_socket o env_board files :
  RoleUnsafeShell ∈ sockets (run o env_board files) <-> unsafePolicy (run o env_board files) <> None.
Proof.
  unfold run, loadUnsafeShellDaemonPolicy.
  destruct (loadDaemonPolicy _ _ _); destruct (String.eqb (UnsafeAutoShell o) "") eqn:E; cbn [negb];
    try destruct (LoadUnsafeShellFile _); cbn [sockets unsafePolicy]; rewrite socket_roles_unsafe; naive_solver.
Qed.

(** The diagnose socket is served exactly when its option was given and the
    board's policy is missing or loads. *)
Lemma run_diagnose_socket o env_board files :
  let s := run o env_board files in
  let f := files (served_board s) in
  RoleDiagnose ∈ sockets s <->
    AutoReadonly o = true /\
    ((exists p, LoadFile (policy_file f) (Some Common) = Ok p /\ diagnosticPolicy s = Some p) \/
     (exists e, LoadFile (policy_file f) (Some Common) = Err e /\
        not_exist (policy_missing f) e = true /\ diagnosticPolicy s = Some Common)).
Proof.
  intros s f. unfold f, s, run, loadDaemonPolicy. cbv zeta.
  set (board := if String.eqb env_board "" then "default"%string else env_board).
  destruct (AutoReadonly o); cbn [negb].
  - destruct (LoadFile (policy_file (files board)) (Some Common)) as [p|e] eqn:HL.
    + destruct (loadUnsafeShellDaemonPolicy _ _); cbn [sockets served_board diagnosticPolicy];
        rewrite socket_roles_diagnose, HL; naive_solver.
    + destruct (not_exist _ e) eqn:Hne; destruct (loadUnsafeShellDaemonPolicy _ _);
        cbn [sockets served_board diagnosticPolicy]; rewrite socket_roles_diagnose, HL; naive_solver.
  - destruct (loadUnsafeShellDaemonPolicy _ _); cbn [sockets served_board diagnosticPolicy];
      rewrite socket_roles_diagnose; naive_solver.
Qed.

(** ** Properties *)

(** C8. Automatic execution is opt-in and fails safe. A daemon always serves
    the control and attach sockets, and serves no role twice. It serves the
    diagnose socket exactly when --auto-readonly was given and the board's
    policy file either is missing or loads, and then diagnoses under the
    common policy or the loaded one. It serves the unsafe-shell socket exactly
    when the option names a board whose file loads; that file is then a
    regular file of mode 0600 with risk_accepted true and nothing after it,
    and its policy is the one in force. Without a socket of its own an
    unsafe-shell request finds no policy. *)
Theorem automatic_modes_opt_in o env_board files :
  let s := run o env_board files in
  let f := files (served_board s) in
  let u := unsafe_file (files (UnsafeAutoShell o)) in
  NoDup (sockets s) /\ RoleControl ∈ sockets s /\ RoleAttach ∈ sockets s /\
  (RoleDiagnose ∈ sockets s <->
     AutoReadonly o = true /\
     ((exists p, LoadFile (policy_file f) (Some Common) = Ok p /\ diagnosticPolicy s = Some p) \/
      (exists e, LoadFile (policy_file f) (Some Common) = Err e /\
         not_exist (policy_missing f) e = true /\ diagnosticPolicy s = Some Common))) /\
  (RoleUnsafeShell ∈ sockets s <-> unsafePolicy s <> None) /\
  (forall p, unsafePolicy s = Some p <->
     UnsafeAutoShell o <> ""%string /\ LoadUnsafeShellFile u = Ok p) /\
  (unsafePolicy s <> None ->
     stat u = Some (true, 384) /\ exists w, decoded u = Some w /\ RiskAccepted w = true).
Proof.
  intros s f u.
  assert (Hsock : exists a b, sockets s = socket_roles a b).
  { unfold s, run. destruct (loadDaemonPolicy _ _ _), (loadUnsafeShellDaemonPolicy _ _); by eexists _, _. }
  pose proof (run_unsafe_policy o env_board files) as Hu. pose proof (run_unsafe_socket o env_board files) as Hus.
  destruct Hsock as (a & b & Hab). split_and!; [| | |apply run_diagnose_socket|done|done|].
  - rewrite Hab. destruct a, b; apply (bool_decide_unpack _); by vm_compute.
  - rewrite Hab. unfold socket_roles. set_solver.
  - rewrite Hab. unfold socket_roles. set_solver.
  - intros Hne. destruct (unsafePolicy s) as [p|] eqn:Hp; [|done].
    destruct (proj1 (Hu p) Hp) as [_ HL].
    by apply unsafe_ok in HL as (H1 & _ & H2).
Qed.

(** The unsafe-shell file is that of the board the option names, whatever
    board the daemon serves: the risk accepted for one board lets commands
    run on another. *)
Lemma unsafe_board_mismatch o env_board files p :
  UnsafeAutoShell o <> ""%string -> env_board <> UnsafeAutoShell o ->
  UnsafeAutoShell o <> "default"%string ->
  LoadUnsafeShellFile (unsafe_file (files (UnsafeAutoShell o))) = Ok p ->
  let s := run o env_board files in
  unsafePolicy s = Some p /\ RoleUnsafeShell ∈ sockets s /\ served_board s <> UnsafeAutoShell o.
Proof.
  intros Hne Hb Hd HL. unfold run, loadUnsafeShellDaemonPolicy.
  destruct (String.eqb (UnsafeAutoShell o) "") eqn:E; bools; [done|]. rewrite HL.
  destruct (loadDaemonPolicy _ _ _); cbn [unsafePolicy sockets served_board negb];
    rewrite socket_roles_unsafe; (split_and!; [done|done|]); case_match; congruence.
Qed.

End Modes.

(** C40. The durable transcript follows the target. In every interleaving of
    target output and drain ticks that are never more than one ring capacity
    late, and whose writes succeed, the bytes of the transcript records are
    exactly the first bytes of the target's output, in order, without loss or
    repetition, up to the sequence number the drain has reached; and a tick
    that finds at most 64 KiB waiting catches up completely. *)
Theorem transcript_follows cap h d now board session :
  (0 < cap)%nat -> zlen h < max_u64 ->
  rtc (drain_step cap)
    ([], {| ring := {| buf := replicate cap zero; total := 0 |}; lastSeq := 0; tw := Transcript.NewWriter [] |})
    (h, d) ->
  (exists n, lastSeq d = Z.of_nat n /\ (n <= length h)%nat /\ transcribed (tw d) = take n h) /\
  (zlen h - lastSeq d <= Z.min (Z.of_nat cap) (2 ^ 16) ->
   transcribed (tw (drain_tick now true board session d)) = h).
Proof.
  intros Hc Hb Hrun.
  assert (Hd : drained cap (h, d)).
  { apply (rtc_ind_r (R := drain_step cap) (drained cap) _) with (2 := fun x y _ => drained_step cap x y) in Hrun;
      [done|]. intros _. split; [|by exists 0%nat]. split_and!; [done|cbn; by rewrite length_replicate|done|].
    cbn. intros i Hi. lia. }
  split; [by apply Hd|]. intros Hlag. destruct (Hd Hb) as (Hr & n & Hn & Hle & Ht).
  assert (Hs : drained cap (h, drain_tick now true board session d)).
  { apply (drained_step cap (h, d)); [|done]. apply drain_ticks. lia. }
  destruct (Hs Hb) as (_ & k & Hk & Hkle & Htk). rewrite Htk. apply take_ge.
  revert Hk. unfold drain_tick. rewrite Hn, (ReadAfter_represents _ _ _ _ _ Hr Hb).
  assert (Hst : spec_start cap h n = n) by (unfold spec_start; lia).
  assert (Hnext : Next (spec_read cap h n (2 ^ 16)) = zlen h).
  { unfold spec_read. cbn [Next]. unfold spec_count. rewrite Hst.
    destruct (0 <=? 2 ^ 16) eqn:E; bools; lia. }
  destruct (Data (spec_read cap h n (2 ^ 16))); cbn [lastSeq]; rewrite Hnext; lia.
Qed.

(** *** Witnesses *)

Definition demo_files : string -> board_files := fun board =>
  {| policy_missing := true;
     policy_file := {| stat := None; opens := false; decoded := None; trailing := None |};
     unsafe_file := if String.eqb board "lab"
       then {| stat := Some (true, 384); opens := true; trailing := None;
               decoded := Some {| RiskAccepted := true; wire_AllowAllPaths := false;
                                  wire_DenyExecutables := []; wire_DenyExact := [] |} |}
       else {| stat := None; opens := false; decoded := None; trailing := None |} |}.

Lemma automatic_modes_opt_in_witness :
  let s := run (H := demo_lower) (H0 := demo_quote)
             {| AutoReadonly := true; UnsafeAutoShell := "lab" |} "lab" demo_files in
  RoleDiagnose ∈ sockets s /\ RoleUnsafeShell ∈ sockets s.
Proof.
  destruct (automatic_modes_opt_in (UL := demo_lower) (GQ := demo_quote)
    {| AutoReadonly := true; UnsafeAutoShell := "lab" |} "lab" demo_files) as (_ & _ & _ & Hd & Hu & Hp & _).
  split.
  - apply Hd. split; [reflexivity|]. right. eexists. split_and!; reflexivity.
  - apply Hu. intros Hnone.
    assert (Hsome := proj2 (Hp (Denylist {| DenyExecutables := []; DenyExact := []; AllowAllPaths := false |}))
      ltac:(split; [discriminate|reflexivity])).
    rewrite Hsome in Hnone. discriminate Hnone.
Defined.

Definition demo_drain (data : bytes) : drain :=
  {| ring := Append data {| buf := replicate 8 zero; total := 0 |}; lastSeq := 0;
     tw := Transcript.NewWriter [] |}.

Lemma transcript_follows_witness :
  transcribed (tw (drain_tick 1 true "box" "s" (demo_drain (to_bytes "hello")))) = to_bytes "hello".
Proof.
  apply (transcript_follows 8 (to_bytes "hello") (demo_drain (to_bytes "hello")) 1 "box" "s").
  - by apply Nat.ltb_lt.
  - reflexivity.
  - eapply rtc_l; [|apply rtc_refl].
    apply (drain_output 8 [] {| ring := {| buf := replicate 8 zero; total := 0 |}; lastSeq := 0;
      tw := Transcript.NewWriter [] |} (to_bytes "hello")).
  - vm_compute. discriminate.
Defined.
