(* ===== verification/Flags.v ===== *)
(** * Command line of the daemon (src/cmd/gatewayd/main.go)

    [parseDaemonOptions] over a model of Go's package flag for a set with one
    boolean and one string flag, and its grammar. *)

From S2P Require Import Prelude GoStd Startup.

(** ** Package flag *)

(** [strconv.ParseBool]. *)
Definition ParseBool (s : string) : option bool :=
  if existsb (String.eqb s) ["1"; "t"; "T"; "true"; "TRUE"; "True"]%string then Some true
  else if existsb (String.eqb s) ["0"; "f"; "F"; "false"; "FALSE"; "False"]%string then Some false
  else None.

Inductive FlagError := ErrBadSyntax | ErrNotDefined | ErrHelp | ErrBadBool | ErrNeedsArgument | ErrUnexpected.

(** The text before the first "=" and what follows it, if any. The search
    starts after the first byte of the name. *)
Fixpoint cut_equals (s : string) : string * option string :=
  match s with
  | EmptyString => (EmptyString, None)
  | String c s =>
      if Ascii.eqb c "=" then (EmptyString, Some s)
      else let '(n, v) := cut_equals s in (String c n, v)
  end.

(** The name of a flag argument without its dashes; [None] ends the flags. *)
Inductive arg_kind := NotFlag | Terminator | FlagText (rest : string).

Definition classify (a : string) : arg_kind :=
  match a with
  | String d (String e rest) =>
      if negb (Ascii.eqb d "-") then NotFlag
      else if Ascii.eqb e "-" then
        if String.eqb rest "" then Terminator else FlagText rest
      else FlagText (String e rest)
  | _ => NotFlag
  end.

Definition bad_name (n : string) : bool :=
  match n with
  | EmptyString => true
  | String c _ => Ascii.eqb c "-" || Ascii.eqb c "="
  end.

(** [FlagSet.Parse]: the options and the arguments that are left, turn by turn
    of [parseOne]. *)
Fixpoint parse_flags (o : daemonOptions) (args : list string)
  : result FlagError (daemonOptions * list string) :=
  match args with
  | [] => Ok (o, [])
  | a :: args =>
      match classify a with
      | NotFlag => Ok (o, a :: args)
      | Terminator => Ok (o, args)
      | FlagText text =>
          if bad_name text then Err ErrBadSyntax
          else
            let '(name, value) := cut_equals text in
            if String.eqb name "auto-readonly" then
              match value with
              | None => parse_flags {| AutoReadonly := true; UnsafeAutoShell := UnsafeAutoShell o |} args
              | Some v =>
                  match ParseBool v with
                  | Some b => parse_flags {| AutoReadonly := b; UnsafeAutoShell := UnsafeAutoShell o |} args
                  | None => Err ErrBadBool
                  end
              end
            else if String.eqb name "unsafe-auto-shell" then
              match value with
              | Some v => parse_flags {| AutoReadonly := AutoReadonly o; UnsafeAutoShell := v |} args
              | None =>
                  match args with
                  | v :: args => parse_flags {| AutoReadonly := AutoReadonly o; UnsafeAutoShell := v |} args
                  | [] => Err ErrNeedsArgument
                  end
              end
            else if String.eqb name "help" || String.eqb name "h" then Err ErrHelp
            else Err ErrNotDefined
      end
  end.

Definition no_options : daemonOptions := {| AutoReadonly := false; UnsafeAutoShell := "" |}.

Definition parseDaemonOptions (args : list string) : result FlagError daemonOptions :=
  match parse_flags no_options args with
  | Err e => Err e
  | Ok (o, []) => Ok o
  | Ok (_, _ :: _) => Err ErrUnexpected
  end.

(** ** Specification *)

Definition dashes (d : string) : Prop := d = "-"%string \/ d = "--"%string.

(** Command lines, left to right, from the options so far. *)
Inductive reads : daemonOptions -> list string -> daemonOptions -> Prop :=
| reads_end o : reads o [] o
| reads_terminator o : reads o ["--"%string] o
| reads_auto o d args o' :
    dashes d -> reads {| AutoReadonly := true; UnsafeAutoShell := UnsafeAutoShell o |} args o' ->
    reads o ((d +:+ "auto-readonly") :: args) o'
| reads_auto_value o d v b args o' :
    dashes d -> ParseBool v = Some b ->
    reads {| AutoReadonly := b; UnsafeAutoShell := UnsafeAutoShell o |} args o' ->
    reads o ((d +:+ "auto-readonly=" +:+ v) :: args) o'
| reads_unsafe o d v args o' :
    dashes d -> reads {| AutoReadonly := AutoReadonly o; UnsafeAutoShell := v |} args o' ->
    reads o ((d +:+ "unsafe-auto-shell") :: v :: args) o'
| reads_unsafe_value o d v args o' :
    dashes d -> reads {| AutoReadonly := AutoReadonly o; UnsafeAutoShell := v |} args o' ->
    reads o ((d +:+ "unsafe-auto-shell=" +:+ v) :: args) o'.

(** ** Lemmas *)

Lemma cut_equals_spec s n v :
  cut_equals s = (n, v) ->
  s = n +:+ match v with Some v => "=" +:+ v | None => "" end.
Proof.
  revert n. induction s as [|c s IH]; intros n H; cbn in H; [by simplify_eq|].
  destruct (Ascii.eqb c "=") eqn:E; simplify_eq; bools; [by subst|].
  destruct (cut_equals s) as [n' v'] eqn:Hs. simplify_eq. cbn. by rewrite (IH n' eq_refl).
Qed.

Lemma classify_flag a text :
  classify a = FlagText text -> bad_name text = false -> exists d, dashes d /\ a = d +:+ text.
Proof.
  destruct a as [|d [|e rest]]; try done. cbn [classify].
  destruct (Ascii.eqb d "-") eqn:Ed; [|done]. bools. subst d. cbn [negb].
  destruct (Ascii.eqb e "-") eqn:Ee.
  - bools. subst e. destruct (String.eqb rest "") eqn:Er; [done|]. intros [= <-] _. exists "--"%string. by split; [right|].
  - intros [= <-] _. exists "-"%string. by split; [left|].
Qed.

Lemma parse_same o a b text args :
  classify a = FlagText text -> classify b = FlagText text ->
  parse_flags o (a :: args) = parse_flags o (b :: args).
Proof. intros Ha Hb. cbn [parse_flags]. by rewrite Ha, Hb. Qed.

(** What the parser makes of one flag, whatever the number of dashes. *)
Lemma parse_dashes d text o args :
  dashes d -> bad_name text = false ->
  parse_flags o ((d +:+ text) :: args) = parse_flags o (("-" +:+ text) :: args).
Proof.
  intros [-> | ->] Hb; [done|]. destruct text as [|c text]; [done|].
  assert (Hc : Ascii.eqb c "-" = false) by (cbn in Hb; by destruct (Ascii.eqb c "-")).
  assert (H1 : classify ("--" +:+ String c text) = FlagText (String c text)) by done.
  assert (H2 : classify (String "-" (String c text)) = FlagText (String c text)).
  { unfold classify. change (Ascii.eqb "-" "-") with true. cbn [negb]. by rewrite Hc. }
  exact (parse_same o _ _ _ args H1 H2).
Qed.

Lemma reads_parse o args o' :
  reads o args o' -> exists rest, parse_flags o args = Ok (o', rest) /\ rest = [].
Proof.
  intros H. exists []. split; [|done]. induction H; try done; rewrite parse_dashes by done.
  - done.
  - cbn [parse_flags]. change (classify _) with (FlagText ("auto-readonly=" +:+ v)).
    cbv beta iota. change (bad_name _) with false. cbv iota. change (cut_equals _) with ("auto-readonly"%string, Some v).
    cbv beta iota zeta. change (String.eqb "auto-readonly" "auto-readonly") with true. cbv iota. by rewrite H0.
  - done.
  - done.
Qed.

Lemma parse_reads n o args o' :
  (length args <= n)%nat -> parse_flags o args = Ok (o', []) -> reads o args o'.
Proof.
  revert o args. induction n as [|n IH]; intros o [|a args] Hn Hp; cbn [length] in Hn; try lia;
    try (cbn in Hp; simplify_eq; constructor).
  cbn [parse_flags] in Hp. destruct (classify a) as [| |text] eqn:Hc; [done| |].
  - simplify_eq. destruct a as [|d [|e rest]]; try done. cbn [classify] in Hc.
    destruct (Ascii.eqb d "-") eqn:Ed, (Ascii.eqb e "-") eqn:Ee; cbn [negb] in Hc; try done.
    destruct (String.eqb rest "") eqn:Er; [|done]. bools. subst. constructor.
  - destruct (bad_name text) eqn:Hb; [done|]. destruct (classify_flag a text Hc Hb) as (d & Hd & ->).
    destruct (cut_equals text) as [name value] eqn:Hcut. apply cut_equals_spec in Hcut.
    destruct (String.eqb name "auto-readonly") eqn:H1.
    + bools. subst name. destruct value as [v|]; subst text.
      * destruct (ParseBool v) as [b|] eqn:Hv; [|done]. eapply reads_auto_value; [done|done|]. apply IH; [lia|done].
      * apply reads_auto; [done|]. apply IH; [lia|done].
    + destruct (String.eqb name "unsafe-auto-shell") eqn:H2; [|by destruct (_ || _)].
      bools. subst name. destruct value as [v|]; subst text.
      * apply reads_unsafe_value; [done|]. apply IH; [lia|done].
      * destruct args as [|v args]; [done|]. apply reads_unsafe; [done|]. apply IH; [cbn in Hn; lia|done].
Qed.

(** ** Properties *)

(** The daemon's command line, exactly. Parsing always ends, and accepts
    precisely the sequences of -auto-readonly, -auto-readonly=BOOL,
    -unsafe-auto-shell BOARD and -unsafe-auto-shell=BOARD, each with one or two
    dashes, optionally ended by a bare --; the options start switched off and
    later flags override earlier ones. Any other argument, a missing or bad
    value and anything left over is an error, so no mode is switched on by a
    command line outside this grammar. *)
Theorem parseDaemonOptions_grammar args o :
  parseDaemonOptions args = Ok o <-> reads no_options args o.
Proof.
  unfold parseDaemonOptions. split.
  - destruct (parse_flags no_options args) as [[o' rest]|e] eqn:Hp; [|done].
    destruct rest; [|done]. intros [= ->]. by apply (parse_reads (length args)).
  - intros H. destruct (reads_parse _ _ _ H) as (rest & -> & ->). done.
Qed.

(** Only a flag switches a mode on. *)
Lemma modes_need_flags args o :
  reads no_options args o ->
  (AutoReadonly o = true -> exists a d t, a ∈ args /\ dashes d /\ a = d +:+ "auto-readonly" +:+ t) /\
  (UnsafeAutoShell o <> ""%string ->
     exists a d t, a ∈ args /\ dashes d /\ a = d +:+ "unsafe-auto-shell" +:+ t).
Proof.
  intros H. set (o0 := no_options) in H.
  enough (Hg : (AutoReadonly o <> AutoReadonly o0 -> exists a d t, a ∈ args /\ dashes d /\ a = d +:+ "auto-readonly" +:+ t) /\
    (UnsafeAutoShell o <> UnsafeAutoShell o0 ->
       exists a d t, a ∈ args /\ dashes d /\ a = d +:+ "unsafe-auto-shell" +:+ t)).
  { split; intros Hm; apply Hg; [by rewrite Hm|done]. }
  clearbody o0. induction H as [o|o|o d args o' Hd _ [IH1 IH2]|o d v b args o' Hd Hv _ [IH1 IH2]
    |o d v args o' Hd _ [IH1 IH2]|o d v args o' Hd _ [IH1 IH2]]; [done|done|..]; (split; intros Hm);
    try (destruct IH1 as (a & d' & t & Ha & H); [exact Hm|]; exists a, d', t; split; [set_solver|done]);
    try (destruct IH2 as (a & d' & t & Ha & H); [exact Hm|]; exists a, d', t; split; [set_solver|done]).
  - exists (d +:+ "auto-readonly"), d, ""%string. split_and!; [set_solver|done|done].
  - exists (d +:+ "auto-readonly=" +:+ v), d, ("=" +:+ v). split_and!; [set_solver|done|done].
  - exists (d +:+ "unsafe-auto-shell"), d, ""%string. split_and!; [set_solver|done|done].
  - exists (d +:+ "unsafe-auto-shell=" +:+ v), d, ("=" +:+ v). split_and!; [set_solver|done|done].
Qed.
