(* ===== verification/Ssh.v ===== *)
(** * SSH trust and authentication (src/internal/transport/ssh/hostkey.go,
    auth.go, stream.go, and doDialSSH of src/cmd/gatewayd/dispatcher.go)

    The host-key verifier over a known_hosts file, the order of the
    authentication methods, and what opening a session trusts. The known_hosts
    format and the private-key parser are parameters. *)

From S2P Require Import Prelude GoStd Profile Ipc.

(** ** Parameters *)

(** [golang.org/x/crypto/ssh/knownhosts]: the keys, what a file's callback
    answers for an address and a key, and the line that adds one. *)
Inductive known_answer :=
| KnownOk
| KeyError (want : nat)
| OtherError.

Class KnownHosts := {
  key : Type;
  New : bytes -> option (string -> key -> known_answer);
  Line : string -> key -> bytes
}.

(** Parsing a private key: a signer, a missing passphrase, or another error. *)
Inductive parsed (signer : Type) := Signer (s : signer) | PassphraseMissing | ParseFailed.
Arguments Signer {signer} s.
Arguments PassphraseMissing {signer}.
Arguments ParseFailed {signer}.

Class PrivateKeys := {
  signer : Type;
  ParsePrivateKey : bytes -> parsed signer;
  ParsePrivateKeyWithPassphrase : bytes -> bytes -> parsed signer
}.

(** ** Host keys *)

(** The zero value is not granted. *)
Record HumanToken := { granted : bool }.
Definition GrantHumanToken : HumanToken := {| granted := true |}.

Inductive HostKeyError :=
| ErrHostKeyChanged | ErrUnknownHostRequiresHuman | ErrNeedsTerminal | ErrFile | ErrVerifier.

Section HostKeys.
Context `{KnownHosts}.

(** The file on disk and the callback read from it. *)
Record HostKeyVerifier := { file : bytes; callback : string -> key -> known_answer }.

(** [contents] is [None] when the file does not exist yet; [creates] is
    whether it could be made. *)
Definition NewHostKeyVerifier (contents : option bytes) (creates : bool)
  : result HostKeyError HostKeyVerifier :=
  let contents := match contents with
                  | Some f => Some f
                  | None => if creates then Some [] else None
                  end in
  match contents with
  | None => Err ErrFile
  | Some f => match New f with
              | Some cb => Ok {| file := f; callback := cb |}
              | None => Err ErrVerifier
              end
  end.

Definition Check (v : HostKeyVerifier) (address : string) (remoteKey : key) : option HostKeyError :=
  match callback v address remoteKey with
  | KnownOk => None
  | KeyError 0 => Some ErrUnknownHostRequiresHuman
  | KeyError _ => Some ErrHostKeyChanged
  | OtherError => Some ErrVerifier
  end.

(** [opens] is whether the append succeeded. *)
Definition AcceptNewHuman (opens : bool) (token : HumanToken) (address : string) (remoteKey : key)
    (v : HostKeyVerifier) : HostKeyVerifier * option HostKeyError :=
  if negb (granted token) then (v, Some ErrNeedsTerminal)
  else if negb opens then (v, Some ErrFile)
  else
    let f := file v ++ Line address remoteKey ++ [newline] in
    match New f with
    | None => ({| file := f; callback := callback v |}, Some ErrVerifier)
    | Some cb => ({| file := f; callback := cb |}, None)
    end.

End HostKeys.

(** ** Authentication *)

Inductive Method := MethodAgent | MethodPrivateKey | MethodPassword.

(** The passphrase of each identity file, and the account password. *)
Record HumanSecrets := { KeyPassphrases : gmap string bytes; Password : bytes }.

Record HumanAuth := { Secrets : HumanSecrets; AcceptHost : bool; Token : HumanToken }.

Section Auth.
Context `{PrivateKeys}.

(** An authentication method with what it holds. *)
Inductive AuthMethod := Agent | Key (s : signer) | Pass (password : bytes).

Definition kind (m : AuthMethod) : Method :=
  match m with Agent => MethodAgent | Key _ => MethodPrivateKey | Pass _ => MethodPassword end.

Definition loadSigner (ReadFile : string -> option bytes) (path : string) (secrets : HumanSecrets)
  : option signer :=
  match ReadFile path with
  | None => None
  | Some data =>
      let parsed := match KeyPassphrases secrets !! path with
                    | Some ((_ :: _) as pass) => ParsePrivateKeyWithPassphrase data pass
                    | _ => ParsePrivateKey data
                    end in
      match parsed with Signer s => Some s | _ => None end
  end.

(** [AuthFactory.Build]; [agent] is whether the agent's socket opens. *)
Definition Build (agent : bool) (ReadFile : string -> option bytes) (prof : SSHConfig)
    (secrets : HumanSecrets) : option (list AuthMethod) :=
  let methods :=
    (if ssh_UseAgent prof && agent then [Agent] else []) ++
    omap (fun path => Key <$> loadSigner ReadFile path secrets) (ssh_IdentityFiles prof) ++
    match Password secrets with [] => [] | p => [Pass p] end in
  match methods with [] => None | _ => Some methods end.

(** A secret to ask for, and what inspecting a profile finds. *)
Record SecretPrompt := { sp_Kind : string; IdentityFile : string }.
Record AuthRequest := { req_Profile : SSHConfig; EncryptedFiles : list string }.

Definition encrypted_file (ReadFile : string -> option bytes) (path : string) : bool :=
  match ReadFile path with
  | None => false
  | Some data => match ParsePrivateKey data with PassphraseMissing => true | _ => false end
  end.

Definition Inspect (ReadFile : string -> option bytes) (prof : SSHConfig) : AuthRequest :=
  {| req_Profile := prof; EncryptedFiles := List.filter (encrypted_file ReadFile) (ssh_IdentityFiles prof) |}.

Definition Prompts (r : AuthRequest) : list SecretPrompt :=
  ((fun f => {| sp_Kind := "key-passphrase"; IdentityFile := f |}) <$> EncryptedFiles r) ++
  [{| sp_Kind := "password"; IdentityFile := "" |}]%string.

(** ** Opening *)

Context `{KnownHosts}.

Inductive OpenError := ErrNoMethod | ErrHostKey (e : HostKeyError) | ErrDial.

(** The callback given to the SSH client. *)
Definition hostKeyCallback (opens : bool) (auth : HumanAuth) (address : string) (k : key)
    (v : HostKeyVerifier) : HostKeyVerifier * option HostKeyError :=
  match Check v address k with
  | Some ErrUnknownHostRequiresHuman =>
      if AcceptHost auth then AcceptNewHuman opens (Token auth) address k v
      else (v, Some ErrUnknownHostRequiresHuman)
  | err => (v, err)
  end.

(** What the network brings: whether the dial reaches a server, the key the
    server proves, and whether everything after the key check succeeds. *)
Record network := { reaches : bool; server_key : key; shell_opens : bool; append_opens : bool }.

(** The address dialled, which is also the host name of the check. *)
Definition dial_address (prof : SSHConfig) : string :=
  ssh_Host prof +:+ ":" +:+ of_bytes (dec_Z (ssh_Port prof)).

(** [Open]: the verifier afterwards, and the error. The client runs the
    callback during the handshake, before it authenticates, and fails when the
    callback does. *)
Definition Open (net : network) (agent : bool) (ReadFile : string -> option bytes) (prof : SSHConfig)
    (auth : HumanAuth) (v : HostKeyVerifier) : HostKeyVerifier * option OpenError :=
  match Build agent ReadFile prof (Secrets auth) with
  | None => (v, Some ErrNoMethod)
  | Some _ =>
      if negb (reaches net) then (v, Some ErrDial)
      else
        let '(v, err) := hostKeyCallback (append_opens net) auth (dial_address prof) (server_key net) v in
        match err with
        | Some e => (v, Some (ErrHostKey e))
        | None => (v, if shell_opens net then None else Some ErrDial)
        end
  end.

(** [doDialSSH]: the known_hosts file is read anew for each attempt. *)
Definition doDialSSH (contents : option bytes) (creates : bool) (net : network) (agent : bool)
    (ReadFile : string -> option bytes) (prof : SSHConfig) (auth : HumanAuth)
  : option HostKeyVerifier * option OpenError :=
  match NewHostKeyVerifier contents creates with
  | Err e => (None, Some (ErrHostKey e))
  | Ok v => let '(v, err) := Open net agent ReadFile prof auth v in (Some v, err)
  end.

(** The authority a request brings to the dial, by its role. *)
Definition human_auth (role : Role) (acceptHost : bool) (secrets : HumanSecrets) : HumanAuth :=
  if bool_decide (role = RoleAttach) && acceptHost
  then {| Secrets := secrets; AcceptHost := true; Token := GrantHumanToken |}
  else {| Secrets := secrets; AcceptHost := false; Token := {| granted := false |} |}.

(** ** Properties *)

(** C10. A host key is never trusted without a human. Opening an SSH session,
    for a request of any role with any flags and secrets, succeeds only
    when the known_hosts file vouches for the server's key, or when the host
    was unknown and the request came from an attach connection that accepted
    it; only in the second case is the file touched, and then it grows by
    exactly that host's line. A changed or revoked key never connects, for
    anybody, and leaves the file as it was. *)
Theorem host_key_trust net agent ReadFile prof role acceptHost secrets v v' err :
  Open net agent ReadFile prof (human_auth role acceptHost secrets) v = (v', err) ->
  let addr := dial_address prof in
  let answer := callback v addr (server_key net) in
  (err = None ->
     answer = KnownOk /\ v' = v \/
     answer = KeyError 0 /\ role = RoleAttach /\ acceptHost = true /\
       file v' = file v ++ Line addr (server_key net) ++ [newline]) /\
  (v' <> v -> answer = KeyError 0 /\ role = RoleAttach /\ acceptHost = true /\
     file v' = file v ++ Line addr (server_key net) ++ [newline]) /\
  (answer <> KnownOk -> answer <> KeyError 0 -> v' = v /\ err <> None).
Proof.
  unfold Open. destruct (Build _ _ _ _); [|intros; simplify_eq; naive_solver].
  destruct (reaches net); cbn [negb]; [|intros; simplify_eq; naive_solver].
  unfold hostKeyCallback, Check. cbv zeta.
  destruct (callback v (dial_address prof) (server_key net)) as [|[|want]|] eqn:Hans;
    try (intros; repeat case_match; simplify_eq; naive_solver).
  unfold human_auth. destruct (bool_decide (role = RoleAttach)) eqn:Hrole, acceptHost; cbn;
    try (intros; simplify_eq; naive_solver).
  apply bool_decide_eq_true in Hrole. unfold AcceptNewHuman. cbn.
  destruct (append_opens net); cbn; [|intros; simplify_eq; naive_solver].
  destruct (New _); destruct (shell_opens net); intros; simplify_eq; cbn; naive_solver.
Qed.

(** The methods are tried in the order agent, keys, password, and each only
    when its condition holds; a profile without any fails. *)
Lemma Build_order agent ReadFile prof secrets methods :
  Build agent ReadFile prof secrets = Some methods ->
  exists keys, methods =
    (if ssh_UseAgent prof && agent then [Agent] else []) ++ (Key <$> keys) ++
    (if decide (Password secrets = []) then [] else [Pass (Password secrets)]) /\
  methods <> [] /\
  Forall (fun s => exists path, path ∈ ssh_IdentityFiles prof /\ loadSigner ReadFile path secrets = Some s) keys.
Proof.
  unfold Build. intros Hb.
  exists (omap (fun path => loadSigner ReadFile path secrets) (ssh_IdentityFiles prof)).
  assert (Hk : forall l : list string,
    omap (fun path => Key <$> loadSigner ReadFile path secrets) l =
    (fmap Key (omap (fun path => loadSigner ReadFile path secrets) l) : list AuthMethod)).
  { induction l as [|x l IH]; [done|]. cbn. destruct (loadSigner ReadFile x secrets); cbn; by rewrite IH. }
  rewrite Hk in Hb. split_and!.
  - destruct (Password secrets); repeat case_match; by simplify_eq.
  - destruct methods; [|done]. by repeat case_match.
  - apply Forall_forall. intros s (path & Hp & Hl)%list_elem_of_omap. by exists path.
Qed.

(** A passphrase that is given is the one the file is read with. *)
Lemma loadSigner_passphrase ReadFile path secrets pass data :
  KeyPassphrases secrets !! path = Some pass -> pass <> [] -> ReadFile path = Some data ->
  loadSigner ReadFile path secrets =
  match ParsePrivateKeyWithPassphrase data pass with Signer s => Some s | _ => None end.
Proof. intros Hp Hne Hr. unfold loadSigner. rewrite Hr, Hp. by destruct pass. Qed.

(** The secrets [Prompts] asks for are those that matter: without a passphrase
    an identity file that is listed is never loaded, and one that is not listed
    is loaded exactly when its key parses. *)
Lemma Inspect_exact ReadFile prof secrets path :
  path ∈ ssh_IdentityFiles prof -> KeyPassphrases secrets !! path = None ->
  (path ∈ EncryptedFiles (Inspect ReadFile prof) -> loadSigner ReadFile path secrets = None) /\
  (path ∉ EncryptedFiles (Inspect ReadFile prof) -> forall s, loadSigner ReadFile path secrets = Some s <->
     exists data, ReadFile path = Some data /\ ParsePrivateKey data = Signer s) /\
  ({| sp_Kind := "key-passphrase"; IdentityFile := path |} ∈ Prompts (Inspect ReadFile prof) <->
     path ∈ EncryptedFiles (Inspect ReadFile prof)).
Proof.
  intros Hp Hs. assert (He : path ∈ EncryptedFiles (Inspect ReadFile prof) <-> encrypted_file ReadFile path = true).
  { cbn. rewrite !list_elem_of_In, filter_In, <-list_elem_of_In. tauto. }
  unfold loadSigner. rewrite Hs. split_and!.
  - intros Henc%He. unfold encrypted_file in Henc. destruct (ReadFile path); [|done]. by destruct (ParsePrivateKey _).
  - intros _ s. destruct (ReadFile path) as [data|]; [|split; [done|by intros (? & ? & _)]].
    destruct (ParsePrivateKey data) eqn:E; (split; [|intros (? & [= <-] & ?)]); try congruence.
    intros [= <-]. by exists data.
  - unfold Prompts. rewrite elem_of_app, list_elem_of_fmap, list_elem_of_singleton. split.
    + intros [(f & [= ->] & Hf)|[=]]; done.
    + intros Hf. left. by exists path.
Qed.

End Auth.

(** *** Witness: a file that knows the hosts whose name it contains. *)

#[local] Instance demo_hosts : KnownHosts := {|
  key := nat;
  New := fun f => Some (fun a _ => if bool_decide (to_bytes a ++ [newline] = f) then KnownOk else KeyError 0);
  Line := fun a _ => to_bytes a
|}.

#[local] Instance demo_keys : PrivateKeys := {|
  signer := nat;
  ParsePrivateKey := fun _ => Signer 1%nat;
  ParsePrivateKeyWithPassphrase := fun _ _ => ParseFailed
|}.

Definition demo_prof : SSHConfig :=
  {| ssh_Host := "box"; ssh_Port := 22; ssh_User := "root"; ssh_IdentityFiles := ["k"%string];
     ssh_UseAgent := false; ssh_KnownHostsFile := "kh" |}.

Definition demo_verifier : HostKeyVerifier := {| file := []; callback := fun _ _ => KeyError 0 |}.

Definition demo_net : network :=
  {| reaches := true; server_key := (5%nat : key); shell_opens := true; append_opens := true |}.

Lemma host_key_trust_witness :
  let out role := Open demo_net false (fun _ => Some []) demo_prof
    (human_auth role true {| KeyPassphrases := ∅; Password := [] |}) demo_verifier in
  file (out RoleAttach).1 = to_bytes "box:22" ++ [newline] /\
  (out RoleControl).1 = demo_verifier /\ (out RoleControl).2 <> None.
Proof.
  intros out. split.
  - destruct (host_key_trust demo_net false (fun _ => Some []) demo_prof RoleAttach true
      {| KeyPassphrases := ∅; Password := [] |} demo_verifier (out RoleAttach).1 (out RoleAttach).2
      (surjective_pairing (out RoleAttach))) as (H & _ & _).
    destruct (H eq_refl) as [[Hno _]|(_ & _ & _ & Hf)]; [discriminate Hno|exact Hf].
  - split; [reflexivity|]. discriminate.
Defined.
