(* ===== verification/Streams.v ===== *)
(** * The streams of the transports (src/internal/transport/telnet/telnet.go,
    src/internal/transport/ssh/stream.go, auth.go)

    Dialling and closing: what is opened, in which order it is released, and
    what reaches the wire when the session and the read loop write at once. *)

From S2P Require Import Prelude GoStd Profile Telnet.

(** ** Telnet *)

(** [Open] dials this address; port 0 is 23. *)
Definition telnet_address (prof : TelnetConfig) : string :=
  let port := if telnet_Port prof =? 0 then 23 else telnet_Port prof in
  telnet_Host prof +:+ ":" +:+ of_bytes (dec_Z port).

Definition stream_Identity (addr : string) : Identity := {| Kind := "telnet-host"; Key := addr |}.

(** [None]: the dial failed. *)
Definition Open (dials : string -> bool) (prof : TelnetConfig) : option (Stream * Identity) :=
  let addr := telnet_address prof in
  if dials addr then Some (newStream, stream_Identity addr) else None.

(** One call of [writeRaw], which holds [writeMu]: the session's escaped bytes
    of one [Write], or the refusals of one read. *)
Inductive message := Typed (p : bytes) | Refused (asked : list (ascii * ascii)).

Definition writeRaw (m : message) : bytes :=
  match m with
  | Typed p => Write p
  | Refused asked => concat ((fun '(v, opt) => refusal v opt) <$> asked)
  end.

(** ** Closing once *)

(** [closeOnce] and [closeErr]; the error is of the one real close. *)
Record closing := { done : bool; closeErr : bool }.

Definition open_stream : closing := {| done := false; closeErr := false |}.

(** [Close] of either stream: the new state, the error returned, and whether the
    connection was closed by this call. *)
Definition Close (fails : bool) (s : closing) : closing * bool * bool :=
  if done s then (s, closeErr s, false) else ({| done := true; closeErr := fails |}, fails, true).

(** Calls one after the other: the errors, and how often the connection was
    closed. *)
Fixpoint closes (fails : list bool) (s : closing) : list bool * nat :=
  match fails with
  | [] => ([], 0%nat)
  | f :: fs => let '(s, err, real) := Close f s in
               let '(errs, n) := closes fs s in (err :: errs, ((if real then 1 else 0) + n)%nat)
  end.

(** ** SSH *)

Inductive resource := TheClient | TheSession.
Inductive ssh_event := Opened (r : resource) | Closed (r : resource) | Pty | Shell.

(** The calls of [dialStream] that succeed. *)
Record dial_io := {
  dial_ok : bool; session_ok : bool; pty_ok : bool; stdin_ok : bool; stdout_ok : bool; shell_ok : bool
}.

Definition release_both : list ssh_event := [Closed TheSession; Closed TheClient].

(** [dialStream]: what it does, and the identity of the stream if it returns
    one. *)
Definition dialStream (io : dial_io) (addr : string) : list ssh_event * option Identity :=
  if negb (dial_ok io) then ([], None)
  else if negb (session_ok io) then ([Opened TheClient; Closed TheClient], None)
  else
    let opened := [Opened TheClient; Opened TheSession] in
    if negb (pty_ok io) then (opened ++ release_both, None)
    else if negb (stdin_ok io) then (opened ++ [Pty] ++ release_both, None)
    else if negb (stdout_ok io) then (opened ++ [Pty] ++ release_both, None)
    else if negb (shell_ok io) then (opened ++ [Pty] ++ release_both, None)
    else (opened ++ [Pty; Shell], Some {| Kind := "ssh-host"; Key := addr |}).

(** *** The open stream *)

(** The ends of the session's pipes, and what is asked of the server. *)
Inductive ssh_request := Typed_ (p : bytes) | WindowChange (h w : Z) | CloseSession | CloseClient.

(** A stream: what the remote side has sent and nobody has read, and closing. *)
Record ssh_stream := { stdout : list bytes; ssh_identity : Identity; ssh_closing : closing }.

(** [Read] into a buffer of [n] bytes takes from the first piece that is there;
    [None] waits or ends. *)
Definition ssh_Read (n : nat) (s : ssh_stream) : option (bytes * ssh_stream) :=
  match stdout s with
  | [] => None
  | p :: ps =>
      Some (take n p, {| stdout := if (length p <=? n)%nat then ps else drop n p :: ps;
                         ssh_identity := ssh_identity s; ssh_closing := ssh_closing s |})
  end.

Definition ssh_Write (p : bytes) : ssh_request := Typed_ p.

(** The width and the height change places. *)
Definition Resize (width height : Z) : ssh_request := WindowChange height width.

Definition ssh_Kind : string := "ssh".

(** [Close]: what it asks, the stream, and the error; [fails] is the client's. *)
Definition ssh_Close (fails : bool) (s : ssh_stream) : list ssh_request * ssh_stream * bool :=
  let '(c, err, real) := Close fails (ssh_closing s) in
  (if real then [CloseSession; CloseClient] else [],
   {| stdout := stdout s; ssh_identity := ssh_identity s; ssh_closing := c |}, err).

(** The stream of a dial that succeeded. *)
Definition dialled_stream (io : dial_io) (addr : string) (output : list bytes) : option ssh_stream :=
  id ← (dialStream io addr).2; Some {| stdout := output; ssh_identity := id; ssh_closing := open_stream |}.

(** Reads of any sizes, one after the other. *)
Fixpoint ssh_reads (ns : list nat) (s : ssh_stream) : bytes * ssh_stream :=
  match ns with
  | [] => ([], s)
  | n :: ns =>
      match ssh_Read n s with
      | None => ssh_reads ns s
      | Some (p, s) => let '(rest, s) := ssh_reads ns s in (p ++ rest, s)
      end
  end.

(** Calls of [Close], one after the other: all that is asked of the server. *)
Fixpoint ssh_closes (fails : list bool) (s : ssh_stream) : list ssh_request * ssh_stream :=
  match fails with
  | [] => ([], s)
  | f :: fails => let '(asked, s, _) := ssh_Close f s in let '(more, s) := ssh_closes fails s in (asked ++ more, s)
  end.

(** [SSH_AUTH_SOCK] is dialled when it is set. *)
Definition dialDefaultAgent (sock : string) (dials : string -> bool) : bool :=
  if String.eqb sock "" then false else dials sock.

(** ** Specification *)

(** The messages of a session: refusals answer DO and WILL. *)
Definition message_ok (m : message) : Prop :=
  match m with
  | Typed _ => True
  | Refused asked => Forall (fun x => fst x = cmdDO \/ fst x = cmdWILL) asked
  end.

Definition typed_bytes (m : message) : bytes := match m with Typed p => p | Refused _ => [] end.

(** What is open after these events. *)
Definition held (es : list ssh_event) (r : resource) : Z :=
  foldr (fun e n => n + match e, r with
                        | Opened TheClient, TheClient | Opened TheSession, TheSession => 1
                        | Closed TheClient, TheClient | Closed TheSession, TheSession => -1
                        | _, _ => 0
                        end) 0 es.

(** ** Lemmas *)

(** A message in the telnet items its reader takes it for. *)
Definition message_items (m : message) : list item :=
  match m with
  | Typed p => Data <$> p
  | Refused asked => (fun '(v, opt) => Option_ (if Ascii.eqb v cmdDO then cmdWONT else cmdDONT) opt) <$> asked
  end.

Lemma Write_items p : Write p = concat (encode <$> (Data <$> p)).
Proof. induction p as [|b p IH]; [done|]. cbn [Write fmap list_fmap concat encode]. by rewrite IH, <-app_assoc. Qed.

Lemma writeRaw_items m : message_ok m -> writeRaw m = concat (encode <$> message_items m).
Proof.
  destruct m as [p|asked]; cbn [writeRaw message_items message_ok]; intros H; [apply Write_items|].
  induction H as [|[v opt] asked [Hv|Hv] _ IH]; [done|..]; cbn in Hv; subst v; cbn [fmap list_fmap concat];
    rewrite IH; done.
Qed.

Lemma items_ok m : message_ok m -> Forall item_ok (message_items m).
Proof.
  destruct m as [p|asked]; cbn [message_items message_ok]; intros H; apply Forall_fmap.
  - by apply Forall_true.
  - eapply Forall_impl; [exact H|]. intros [v opt] _. cbn. by destruct (Ascii.eqb v cmdDO).
Qed.

Lemma items_data m : concat (item_data <$> message_items m) = typed_bytes m.
Proof.
  destruct m as [p|asked]; cbn [message_items typed_bytes].
  - induction p as [|b p IH]; [done|]. cbn [fmap list_fmap concat item_data app]. by f_equal.
  - induction asked as [|[v opt] asked IH]; [done|]. exact IH.
Qed.

(** Because each message is written under the lock, in whatever order the
    session's writes and the read loop's refusals get it, the server reads from
    the connection exactly the bytes typed, in order: a refusal never falls into
    the middle of an escaped byte. *)
Lemma typed_bytes_arrive ms :
  Forall message_ok ms ->
  fst (fst (nvt (concat (writeRaw <$> ms)) newStream)) = concat (typed_bytes <$> ms).
Proof.
  intros Hm.
  assert (Hw : concat (writeRaw <$> ms) = concat (encode <$> concat (message_items <$> ms))).
  { induction Hm as [|m ms H1 _ IH]; [done|]. cbn [fmap list_fmap concat].
    rewrite IH, writeRaw_items by done. by rewrite fmap_app, concat_app. }
  assert (Hok : Forall item_ok (concat (message_items <$> ms))).
  { clear Hw. induction Hm as [|m ms H1 _ IH]; cbn; [by apply Forall_nil_2|]. apply Forall_app. split; [by apply items_ok|done]. }
  destruct (nvt_items _ (ascii_of_nat 0) Hok) as [v Hv]. rewrite Hw. unfold newStream. rewrite Hv. cbn [fst].
  clear. induction ms as [|m ms IH]; [done|]. cbn [fmap list_fmap concat].
  by rewrite fmap_app, concat_app, items_data, IH.
Qed.

(** However often a stream is closed, its connection is closed once, and every
    call returns the error of that one close. *)
Lemma closed_once f fs : closes (f :: fs) open_stream = (replicate (S (length fs)) f, 1%nat).
Proof.
  cbn. assert (H : forall fs, closes fs {| done := true; closeErr := f |} = (replicate (length fs) f, 0%nat)).
  { clear fs. induction fs as [|g fs IH]; [done|]. cbn [closes Close done closeErr]. by rewrite IH. }
  by rewrite H.
Qed.

(** A dial that fails leaves nothing open, and the session goes before its
    client; one that succeeds leaves both open and has a terminal and a shell. *)
Lemma dialStream_releases io addr :
  let '(es, out) := dialStream io addr in
  match out with
  | None => held es TheClient = 0 /\ held es TheSession = 0 /\
            (Opened TheSession ∈ es -> exists before, es = before ++ release_both)
  | Some id => held es TheClient = 1 /\ held es TheSession = 1 /\ Pty ∈ es /\ Shell ∈ es /\
               id = {| Kind := "ssh-host"; Key := addr |}
  end.
Proof.
  destruct io as [[] [] [] [] [] []]; cbn; split_and!; try reflexivity; try set_solver;
    intros _; first [by exists [Opened TheClient; Opened TheSession; Pty]|by exists [Opened TheClient; Opened TheSession]].
Qed.

(** Reading an SSH stream in buffers of any sizes gives the bytes of the remote
    side in order; what is left follows. *)
Lemma ssh_reads_exact ns s :
  let '(read, s') := ssh_reads ns s in read ++ concat (stdout s') = concat (stdout s).
Proof.
  revert s. induction ns as [|n ns IH]; intros s; [done|]. cbn [ssh_reads]. unfold ssh_Read.
  destruct (stdout s) as [|p ps] eqn:E; [specialize (IH s); by rewrite E in IH|].
  match goal with |- context [ssh_reads ns ?s0] => specialize (IH s0); destruct (ssh_reads ns s0) as [rest s'] end.
  rewrite <-app_assoc, IH. cbn [stdout concat]. destruct (Nat.leb_spec (length p) n).
  - by rewrite take_ge.
  - cbn [concat]. by rewrite app_assoc, take_drop.
Qed.

(** However often an SSH stream is closed, its session and then its client are
    closed once, so that nothing a dial opened stays open. *)
Lemma ssh_closes_release io addr output s f fs :
  dialled_stream io addr output = Some s -> (ssh_closes (f :: fs) s).1 = [CloseSession; CloseClient] /\
  ssh_identity s = {| Kind := "ssh-host"; Key := addr |}.
Proof.
  intros (id & Hid & [= <-])%bind_Some. split.
  - cbn [ssh_closes ssh_Close ssh_closing Close open_stream done].
    assert (H : forall fs s, done (ssh_closing s) = true -> (ssh_closes fs s).1 = []).
    { clear. induction fs as [|g fs IH]; intros s Hd; [done|]. cbn [ssh_closes]. unfold ssh_Close, Close. rewrite Hd.
      match goal with |- context [ssh_closes fs ?s0] => specialize (IH s0 Hd); destruct (ssh_closes fs s0) end. exact IH. }
    match goal with |- context [ssh_closes fs ?s0] => specialize (H fs s0 eq_refl); destruct (ssh_closes fs s0) end.
    cbn in *. by rewrite H.
  - cbn [ssh_identity]. unfold dialStream in Hid. repeat case_match; by simplify_eq/=.
Qed.

Example telnet_default_port :
  telnet_address {| telnet_Host := "10.0.0.2"; telnet_Port := 0 |} = "10.0.0.2:23"%string.
Proof. vm_compute. reflexivity. Qed.
