(* ===== verification/Boot.v ===== *)
(** * From the command line to the target (src/cmd/gatewayd/main.go: run)

    The start of the daemon by its calls: options, directories, policies, the
    lock, the records of the last run, the coordinator and the dispatcher. The
    theorem joins it to the runs of System.v: what the options given to the
    daemon let its clients execute. *)

From S2P Require Import Prelude GoStd Shell Common PolicyFile Denylist Command Records OpenSet Ipc Coordinator.
From S2P Require Import Login CoordinatorSteps CoordinatorProps CoordinatorTx Dispatcher Host System Startup Flags.

Section Boot.
Context {UL : UnicodeLower} {GQ : GoQuote} {SS : ShellSyntax} {DD : Decoders}.

(** ** The daemon before its first request *)

(** [newDispatcher]. *)
Definition newDispatcher (board : string) (c : Coordinator) (o : openSet) (aw : option Audit.Writer)
    (tw : Transcript.Writer) (cfg : LoginConfig) : daemon :=
  {| d_board := board; Dispatcher.loginCfg := cfg; coord := c; Dispatcher.open := Some o;
     Dispatcher.aw := aw; Dispatcher.tw := tw; policy := None; unsafeShellPolicy := None;
     diagnosticMu := false; unsafeShellMu := false; retentionLimit := defaultRetentionLimit |}.

Definition with_policies (p : option Policy) (u : option DenylistPolicy) (d : daemon) : daemon :=
  {| d_board := d_board d; Dispatcher.loginCfg := Dispatcher.loginCfg d; coord := coord d;
     Dispatcher.open := Dispatcher.open d; Dispatcher.aw := Dispatcher.aw d; Dispatcher.tw := Dispatcher.tw d;
     policy := p; unsafeShellPolicy := u; diagnosticMu := diagnosticMu d; unsafeShellMu := unsafeShellMu d;
     retentionLimit := retentionLimit d |}.

(** What a start meets: the arguments and the environment, the directories and
    the board files, the lock, what the last run left in the records, and the
    random text of the session. *)
Record boot_env := {
  argv : list string; env_board : string; env_username : string;
  xdg : environment; directories : tree; board_files_of : string -> board_files;
  pid : nat; lock_opens : bool; held_locks : locks;
  open_file_left : open_file; audit_left : list Audit.Record_; transcript_left : list Transcript.Record_;
  recover_ios : string -> io; session_rnd : string
}.

Inductive boot_err :=
| ErrOptions (e : FlagError) | ErrDirs (e : DirError) | ErrLock (e : LockError)
| ErrLoadOpenSet | ErrRecovery | ErrProfiles | ErrRing.

(** [run] up to [serveDaemonSockets]: the locks after it, and the dispatcher
    with the sockets it is to be served on. The deferred [releaseLock] runs when
    it fails. *)
Definition boot (b : boot_env) : locks * result boot_err (daemon * list Role) :=
  match parseDaemonOptions (argv b) with
  | Err e => (held_locks b, Err (ErrOptions e))
  | Ok options =>
      match Resolve (xdg b) (directories b) with
      | (_, Err e) => (held_locks b, Err (ErrDirs e))
      | (t, Ok d) =>
          let start := Startup.run options (env_board b) (board_files_of b) in
          let board := served_board start in
          let lock := lock_path (Data d) in
          match acquireLock (lock_opens b) (pid b) lock (held_locks b) with
          | (l, Some e) => (l, Err (ErrLock e))
          | (l, None) =>
              let fail e := (releaseLock lock l, Err e) in
              match loadOpenSet (open_file_left b) with
              | None => fail ErrLoadOpenSet
              | Some o =>
                  match recoverIncompleteTransactions board (recover_ios b)
                          (Some (Audit.NewWriter (audit_left b))) o with
                  | (_, _, false) => fail ErrRecovery
                  | (o, aw, true) =>
                      match NewCoordinator board (session_rnd b) with
                      | None => fail ErrRing
                      | Some c =>
                          let '(_, made) := MkdirAll (xdg b) 448 (PathJoin [Config d; "profiles"%string]) t in
                          if negb made then fail ErrProfiles
                          else
                            let disp := newDispatcher board c o aw (Transcript.NewWriter (transcript_left b))
                                          (defaultLoginConfig (daemon_username (env_username b))) in
                            (l, Ok (with_policies (diagnosticPolicy start) (unsafePolicy start) disp, sockets start))
                      end
                  end
              end
          end
      end
  end.

(** ** Lemmas *)

Lemma boot_ok b l d roles :
  boot b = (l, Ok (d, roles)) ->
  exists options,
    parseDaemonOptions (argv b) = Ok options /\
    let start := Startup.run options (env_board b) (board_files_of b) in
    policy d = diagnosticPolicy start /\ unsafeShellPolicy d = unsafePolicy start /\ roles = sockets start /\
    NewCoordinator (served_board start) (session_rnd b) = Some (coord d) /\
    exists dirs t, Resolve (xdg b) (directories b) = (t, Ok dirs) /\
      l = <[lock_path (Data dirs) := pid b]> (held_locks b) /\ held_locks b !! lock_path (Data dirs) = None.
Proof.
  unfold boot. destruct (parseDaemonOptions (argv b)) as [options|e]; [|done].
  destruct (Resolve (xdg b) (directories b)) as [t [dirs|e]] eqn:Hr; [|done]. cbv zeta.
  unfold acquireLock. destruct (lock_opens b); cbn [negb]; [|done].
  destruct (held_locks b !! lock_path (Data dirs)) as [q|] eqn:Hl; [done|].
  destruct (loadOpenSet _) as [o|]; [|done].
  destruct (recoverIncompleteTransactions _ _ _ _) as [[o' aw'] []]; [|done].
  destruct (NewCoordinator _ _) as [c|] eqn:Hc; [|done].
  destruct (MkdirAll _ _ _ _) as [t' []]; cbn [negb]; [|done].
  intros [= <- <- <-]. exists options. split; [done|]. cbn. split_and!; [done|done|done|done|]. by exists dirs, t.
Qed.

Lemma boot_mutexes b l d roles :
  boot b = (l, Ok (d, roles)) -> diagnosticMu d = false /\ unsafeShellMu d = false.
Proof.
  unfold boot. destruct (parseDaemonOptions _) as [options|e]; [|done].
  destruct (Resolve _ _) as [t [dirs|e]]; [|done]. cbv zeta. destruct (acquireLock _ _ _ _) as [l1 [e|]]; [done|].
  destruct (loadOpenSet _) as [o|]; [|done].
  destruct (recoverIncompleteTransactions _ _ _ _) as [[o' aw'] []]; [|done].
  destruct (NewCoordinator _ _) as [c|]; [|done]. destruct (MkdirAll _ _ _ _) as [t' []]; cbn [negb]; [|done].
  by intros [= _ <- _].
Qed.

Lemma boot_started b l d roles :
  boot b = (l, Ok (d, roles)) -> started {| daemon_ := d; history := []; pool := [] |}.
Proof.
  intros Hb. pose proof (boot_mutexes _ _ _ _ Hb) as [H1 H2]. apply boot_ok in Hb as (options & _ & _ & _ & _ & Hc & _).
  split_and!; [done..|]. unfold NewCoordinator in Hc.
  apply bind_Some in Hc as (r & _ & [= Hc]). cbn [daemon_]. by eexists r, _, _.
Qed.

(** The policies are those of the start. *)
Lemma step_policies s s' : system_step s s' -> inv (coord (daemon_ s)) -> same_policies (daemon_ s) (daemon_ s').
Proof.
  intros Hs Hi.
  destruct Hs as [role req e Hperm Hf out|e cancelled pre f post Hpl Hf out| |l Hl He|o board s0 id res s1 aw1 r Ho Hres Hfin];
    cbn [daemon_]; [| |done..].
  - by destruct (proj2 (dispatch_records role req e _ Hperm Hf) Hi) as (_ & Hp & _).
  - by destruct (proj2 (advance_records e cancelled f _ Hf) Hi) as (_ & Hp & _).
Qed.

Lemma run_policies s0 s :
  authorised s0 -> rtc system_step s0 s -> same_policies (daemon_ s0) (daemon_ s).
Proof.
  intros Ha Hr. revert Ha. induction Hr as [x|x y z Hs _ IH]; intros Ha; [done|].
  eapply policies_trans; [by apply step_policies, Ha|]. apply IH. by eapply authorised_step.
Qed.

(** ** Properties *)

(** C9. What the start-up options let clients execute. Take a daemon that has
    started, and any run of it in which requests arrive on the sockets it
    serves. Each command line written to the target is the text of a
    transaction with a responsible request: one on a human's attach connection;
    or a diagnosis on the diagnose socket, and then --auto-readonly was among
    the arguments and the policy that allows the text is the common one or the
    one in the board's policy file; or a request on the unsafe-shell socket, and
    then --unsafe-auto-shell named a board whose file accepts the risk, and the
    policy of that file allows the text. Without the options nothing but an
    attach connection has a command executed. The daemon holds the lock of its
    data directory, which was free. *)
Theorem options_bound_execution b l d roles s :
  boot b = (l, Ok (d, roles)) ->
  rtc system_step {| daemon_ := d; history := []; pool := [] |} s ->
  (forall x, x ∈ history s -> x.1 ∈ roles) ->
  (forall id sm data, EWrite (ByTransaction id) sm data ∈ trace (coord (daemon_ s)) ->
   exists t m x, txs (coord (daemon_ s)) !! id = Some t /\ data = command_line t m /\ x ∈ history s /\
    (x.1 = RoleAttach \/
     (x.1 = RoleDiagnose /\ Operation x.2 = OpDiagnoseExecute /\
      exists o pol, reads no_options (argv b) o /\ AutoReadonly o = true /\
        Allowed (Shell.Evaluate pol (tx_Text t)) = true /\
        (pol = Common \/ exists board, LoadFile (policy_file (board_files_of b board)) (Some Common) = Ok pol)) \/
     (x.1 = RoleUnsafeShell /\ Operation x.2 = OpUnsafeShellExecute /\
      exists o pol w, reads no_options (argv b) o /\ UnsafeAutoShell o <> ""%string /\
        let f := unsafe_file (board_files_of b (UnsafeAutoShell o)) in
        LoadUnsafeShellFile f = Ok pol /\ decoded f = Some w /\ RiskAccepted w = true /\
        Allowed (Denylist.Evaluate pol (tx_Text t)) = true))) /\
  exists dirs t, Resolve (xdg b) (directories b) = (t, Ok dirs) /\
    l !! lock_path (Data dirs) = Some (pid b) /\ held_locks b !! lock_path (Data dirs) = None.
Proof.
  intros Hb Hrun Hserved.
  destruct (boot_ok _ _ _ _ Hb) as (o & Hargs & Hpol & Hunsafe & Hroles & _ & dirs & t0 & Hdirs & Hl & Hfree).
  split; [|exists dirs, t0; split_and!; [done|by rewrite Hl, lookup_insert_eq|done]].
  intros id sm data Hin. apply parseDaemonOptions_grammar in Hargs.
  pose proof (boot_started _ _ _ _ Hb) as Hstart.
  destruct (reachable_authorised s) as (Hi & Ha & _); [by eexists|].
  assert (Hsame : same_policies d (daemon_ s)).
  { apply (run_policies {| daemon_ := d; history := []; pool := [] |}); [|done]. apply reachable_authorised. by eexists. }
  destruct Hsame as [Hp1 Hp2].
  destruct (core_written _ _ _ _ (inv_core _ Hi) _ _ _ Hin) as (t & m & Ht & Hm & Hd).
  destruct (Ha id t Ht) as (x & Hx & Hperm & Hop). exists t, m, x. split_and!; [done|done|done|].
  specialize (Hserved _ Hx). rewrite Hroles in Hserved.
  destruct (x.1) eqn:Hrole; [| by left | |].
  - exfalso. destruct Hop as [[Ho _]|[[Ho _]|[Ho _]]]; rewrite Ho in Hperm; discriminate Hperm.
  - right; left. destruct Hop as [[Ho _]|[(Ho & p & pol & _ & Htext & Hpl & Hal)|[Ho _]]];
      [rewrite Ho in Hperm; discriminate Hperm| |rewrite Ho in Hperm; discriminate Hperm].
    split_and!; [done|done|]. apply run_diagnose_socket in Hserved as [Hauto Hload].
    exists o, pol. split_and!; [done|done|done|]. rewrite Hp1, Hpol in Hpl.
    destruct Hload as [(p' & HL & Hd')|(e & _ & _ & Hd')]; rewrite Hd' in Hpl; injection Hpl as <-; [right|by left].
    by eexists.
  - right; right. destruct Hop as [[Ho _]|[[Ho _]|(Ho & p & pol & _ & Htext & Hpl & Hal)]];
      [rewrite Ho in Hperm; discriminate Hperm|rewrite Ho in Hperm; discriminate Hperm|].
    split_and!; [done|done|]. rewrite Hp2, Hunsafe in Hpl. apply run_unsafe_policy in Hpl as [Hname HL].
    destruct (unsafe_ok _ _ HL) as (_ & _ & w & Hw & Hrisk). exists o, pol, w. by split_and!.
Qed.

End Boot.

(** *** Witness: a daemon with both automatic modes, and a run in which a human
    approves. *)

#[local] Existing Instance demo_lower.
#[local] Existing Instance demo_quote.
#[local] Existing Instance demo_shell.
#[local] Existing Instance demo_decoders.

Definition demo_boot : boot_env :=
  {| argv := ["--auto-readonly"; "--unsafe-auto-shell=lab"]%string; env_board := "lab"; env_username := "";
     xdg := {| HOME := "/home/op"; XDG_CONFIG_HOME := ""; XDG_DATA_HOME := ""; umask := 63;
               mkdir_fails := fun _ => false |};
     directories := {["/"%string := Dir 493]}; board_files_of := demo_files;
     pid := 7; lock_opens := true; held_locks := ∅;
     open_file_left := CurrentFormat {["txn-1"%string := ""%string]}; audit_left := []; transcript_left := [];
     recover_ios := fun _ => {| now := 5; append_ok := true; save_ok := true |}; session_rnd := "01" |}.

Definition demo_roles : bool :=
  match (boot demo_boot).2 with
  | Ok (_, roles) => bool_decide (roles = [RoleControl; RoleAttach; RoleDiagnose; RoleUnsafeShell])
  | Err _ => false
  end.

Definition demo_opened : daemon :=
  match (boot demo_boot).2 with Ok (d, _) => d | Err _ => demo_daemon demo_start end.

Definition demo_asked : daemon :=
  set_coord (foldl (fun c l => exec l c) (coord demo_opened) demo_labels) demo_opened.

Definition demo_answer : daemon * progress := Dispatch RoleAttach demo_approve demo_env demo_asked.

Definition demo_executed : system :=
  {| daemon_ := demo_answer.1; history := [(RoleAttach, demo_approve)]; pool := continuing demo_answer.2 ++ [] |}.

Lemma demo_executed_run :
  rtc system_step {| daemon_ := demo_opened; history := []; pool := [] |} demo_executed.
Proof.
  eapply rtc_r.
  - apply (system_run demo_labels demo_opened [] []). vm_compute. intuition discriminate.
  - apply (sys_dispatch {| daemon_ := demo_asked; history := []; pool := [] |} RoleAttach demo_approve demo_env);
      [done|]. split; vm_compute; reflexivity.
Qed.

(** A human approves on the attach socket, and the command is written; the two
    automatic modes were enabled as well. *)
Lemma options_bound_execution_witness :
  written (trace (coord (daemon_ demo_executed))) = ["txn-0011223344556677"%string] /\
  exists x, x ∈ history demo_executed /\
    (x.1 = RoleAttach \/ x.1 = RoleDiagnose \/ x.1 = RoleUnsafeShell).
Proof.
  assert (Hroles : demo_roles = true) by (vm_compute; reflexivity).
  assert (Hw : written (trace (coord (daemon_ demo_executed))) = ["txn-0011223344556677"%string]).
  { vm_compute. reflexivity. }
  split; [exact Hw|]. pose proof demo_executed_run as Hrun. unfold demo_opened, demo_roles in *.
  destruct (boot demo_boot) as [l [[d roles]|e]] eqn:Hb; [|discriminate Hroles]. cbn [snd] in Hrun, Hroles.
  apply bool_decide_eq_true in Hroles.
  destruct (elem_of_written _ "txn-0011223344556677" ltac:(rewrite Hw; apply list_elem_of_here)) as (sm & data & Hin).
  destruct (proj1 (options_bound_execution demo_boot l d roles demo_executed Hb Hrun
    ltac:(rewrite Hroles; intros x ->%list_elem_of_singleton; apply list_elem_of_further, list_elem_of_here)) _ _ _ Hin)
    as (t & m & x & _ & _ & Hx & Hcase).
  exists x. split; [exact Hx|]. destruct Hcase as [?|[[? _]|[? _]]]; [by left|by right; left|by right; right].
Defined.
