(* ===== verification/Accounts.v ===== *)
(** * The audit log of a run (src/cmd/gatewayd: dispatcher.go and openset.go
    over the coordinator)

    What the durable audit log says about the transactions of a daemon that was
    started by [Boot.boot]: requests, handlers that resume, the coordinator's
    goroutines and the reconciler interleaved, and audit appends and saves that
    fail. *)

From S2P Require Import Prelude GoStd Session Shell Common Denylist Validate Command Marker Records OpenSet Profile Ipc Coordinator.
From S2P Require Import Login CoordinatorSteps CoordinatorProps CoordinatorTx Dispatcher Host System Startup Flags Boot.

Section Accounts.
Context {UL : UnicodeLower} {GQ : GoQuote} {SS : ShellSyntax} {DD : Decoders}.

(** ** Runs *)

(** The transactions recorded by approvals that were answered with an error:
    the command could not be written. *)
Record ledger := { sys : system; refused_approvals : gset string }.

Definition refused_by (op : string) (d : daemon) (out : daemon * progress) : gset string :=
  match out.2 with
  | Answered (Err _) =>
      if String.eqb op OpCommandApprove then dom (txs (coord out.1)) ∖ dom (txs (coord d)) else ∅
  | _ => ∅
  end.

Inductive ledger_step (l : ledger) : ledger -> Prop :=
| led_dispatch role req e :
    permitted role (Operation req) = true -> fresh_ids e (coord (daemon_ (sys l))) ->
    let out := Dispatch role req e (daemon_ (sys l)) in
    ledger_step l {| sys := {| daemon_ := out.1; history := (role, req) :: history (sys l);
                               pool := continuing out.2 ++ pool (sys l) |};
                     refused_approvals := refused_by (Operation req) (daemon_ (sys l)) out ∪ refused_approvals l |}
| led_other s' :
    system_step (sys l) s' -> history s' = history (sys l) ->
    ledger_step l {| sys := s'; refused_approvals := refused_approvals l |}.

Definition opened (d : daemon) : ledger :=
  {| sys := {| daemon_ := d; history := []; pool := [] |}; refused_approvals := ∅ |}.

(** The transactions that a handler in the pool has recorded and not yet put
    into the open set. *)
Definition to_open (todo : list section) : list Transaction :=
  omap (fun s => match s with SOpenAdd t => Some t | _ => None end) todo.

Definition entering (f : flight) : list Transaction :=
  match f with Approving _ todo | Executing _ (Recording _ _ todo) => to_open todo | _ => [] end.

(** ** Specification *)

Definition is_result (r : Audit.Record_) : bool := String.eqb (Audit.Kind r) "result".

(** The record states the result that the coordinator has for the transaction,
    under the transaction's session. *)
Definition outcome_logged (c : Coordinator) (r : Audit.Record_) (id : string) : Prop :=
  exists t res, txs c !! id = Some t /\ Coordinator.Result id c = Ok res /\
    Audit.Session r = tx_SessionID t /\ Audit.Detail r = resultDetail id res.

(** The log holds what it held at the start, [file0], and then [fresh]; the
    result records among these are the outcomes of the transactions [closed],
    in turn and each once, which are no longer in the open set; the open set
    holds only transactions of this run; those of [pend] are not in it yet;
    every transaction is closed, in the open set, in [pend] or [excused]. *)
Record accounted (file0 : list Audit.Record_) (closed : list string) (excused : gset string)
    (pend : list Transaction) (d : daemon) (o : openSet) (w : Audit.Writer) (fresh : list Audit.Record_) : Prop := {
  acc_inv : inv (coord d);
  acc_file : Audit.file w = file0 ++ fresh;
  acc_results : Forall2 (outcome_logged (coord d)) (List.filter is_result fresh) closed;
  acc_once : NoDup closed;
  acc_closed : forall id, id ∈ closed -> ids o !! id = None;
  acc_open : forall id s, ids o !! id = Some s -> exists t, txs (coord d) !! id = Some t /\ tx_SessionID t = s;
  acc_pend : forall t, t ∈ pend -> txs (coord d) !! tx_ID t = Some t /\ tx_ID t ∉ closed /\ ids o !! tx_ID t = None;
  acc_apart : NoDup (tx_ID <$> pend);
  acc_all : forall id t, txs (coord d) !! id = Some t ->
    id ∈ closed \/ is_Some (ids o !! id) \/ id ∈ excused \/ id ∈ tx_ID <$> pend
}.

Definition accounts (file0 : list Audit.Record_) (closed : list string) (excused : gset string)
    (pend : list Transaction) (d : daemon) : Prop :=
  exists o w fresh, Dispatcher.open d = Some o /\ aw d = Some w /\ accounted file0 closed excused pend d o w fresh.

(** A handler at its cut: it adds no result record of its own, and the result
    it is about to write down is the coordinator's. *)
Definition no_result (s : section) : bool :=
  match s with SAudit kind _ | SAppend _ kind _ => negb (String.eqb kind "result") | SOpenAdd _ => true end.

Definition steady (c : Coordinator) (f : flight) : Prop :=
  match f with
  | Approving _ todo | Executing _ (Recording _ _ todo) => Forall (fun s => no_result s = true) todo
  | Executing _ (Finalizing _ t res) => Coordinator.Result (tx_ID t) c = Ok res
  | _ => True
  end.

(** ** Lemmas *)

Definition same_books (d d' : daemon) : Prop :=
  Dispatcher.open d' = Dispatcher.open d /\ aw d' = aw d.

Lemma same_books_refl d : same_books d d.
Proof. done. Qed.

Lemma result_outcome id c res : Coordinator.Result id c = Ok res <-> outcomes c !! id = Some res.
Proof. unfold Coordinator.Result, GetResult, outcomes. case_match; split; intros; by simplify_eq. Qed.

Lemma outcome_logged_mono c c' r id :
  outcomes_kept c c' -> (forall k t, txs c !! k = Some t -> txs c' !! k = Some t) ->
  outcome_logged c r id -> outcome_logged c' r id.
Proof.
  intros Hk Ht (t & res & H1 & H2 & H3 & H4). exists t, res. split_and!; [by apply Ht| |done..].
  by apply result_outcome, Hk, result_outcome.
Qed.

Lemma outcomes_mono c c' rs l :
  outcomes_kept c c' -> (forall k t, txs c !! k = Some t -> txs c' !! k = Some t) ->
  Forall2 (outcome_logged c) rs l -> Forall2 (outcome_logged c') rs l.
Proof. intros Hk Ht H. eapply Forall2_impl; [exact H|]. intros r id. by apply outcome_logged_mono. Qed.

(** A closed transaction was recorded. *)
Lemma closed_recorded file0 closed exc pend d o w fresh id :
  accounted file0 closed exc pend d o w fresh -> id ∈ closed -> is_Some (txs (coord d) !! id).
Proof.
  intros H Hin. destruct (proj1 (list_elem_of_lookup _ _) Hin) as [i Hi].
  destruct (Forall2_lookup_r _ _ _ _ _ (acc_results _ _ _ _ _ _ _ _ H) Hi) as (r & _ & t & res & Ht & _).
  by eexists.
Qed.

Lemma Forall_ios ios todo :
  (forall k, append_ok (ios k) = true) -> Forall (fun p => append_ok p.2 = true) ((fun id : string => (id, ios id)) <$> todo).
Proof. intros Hok. apply Forall_forall. intros p (id & -> & _)%list_elem_of_fmap. apply Hok. Qed.

Section Fixed.
Variable file0 : list Audit.Record_.

(** A step of the coordinator that records nothing. *)
Lemma accounts_moves closed exc pend d d' :
  moves (coord d) (coord d') -> same_books d d' ->
  accounts file0 closed exc pend d -> accounts file0 closed exc pend d'.
Proof.
  intros [Hk Hm] [Ho Hw] (o & w & fresh & Ho1 & Hw1 & [Hi Hf Hr Hn Hc Hop Hp Hpn Ha]).
  destruct (Hm Hi) as [Hi' Ht]. exists o, w, fresh. rewrite Ho, Hw. split; [done|]. split; [done|].
  split; rewrite ?Ht; try done. eapply outcomes_mono; [exact Hk| |exact Hr]. by rewrite Ht.
Qed.

(** The daemon with the same coordinator and the same books. *)
Lemma accounts_calm closed exc pend d d' :
  coord d' = coord d -> same_books d d' -> accounts file0 closed exc pend d -> accounts file0 closed exc pend d'.
Proof. intros Hc. apply accounts_moves. rewrite Hc. apply moves_refl. Qed.

Lemma accounts_weaken closed exc exc' pend d :
  exc ⊆ exc' -> accounts file0 closed exc pend d -> accounts file0 closed exc' pend d.
Proof.
  intros Hsub (o & w & fresh & Ho & Hw & [Hi Hf Hr Hn Hc Hop Hp Hpn Ha]). exists o, w, fresh.
  split; [done|]. split; [done|]. split; try done. intros id t Ht.
  destruct (Ha id t Ht) as [?|[?|[?|?]]]; [by left|by right; left|right; right; left; set_solver|by do 3 right].
Qed.

Lemma accounts_perm closed exc pend pend' d :
  pend ≡ₚ pend' -> accounts file0 closed exc pend d -> accounts file0 closed exc pend' d.
Proof.
  intros Hperm (o & w & fresh & Ho & Hw & [Hi Hf Hr Hn Hc Hop Hp Hpn Ha]). exists o, w, fresh.
  split; [done|]. split; [done|]. split; try done.
  - intros t. rewrite <-Hperm. apply Hp.
  - by rewrite <-Hperm.
  - intros id t Ht. rewrite <-Hperm. by eapply Ha.
Qed.

(** A transaction recorded, and not yet in the open set. *)
Lemma accounts_record closed exc pend d d' t :
  inv (coord d') -> outcomes_kept (coord d) (coord d') -> same_books d d' ->
  txs (coord d') = <[tx_ID t := t]> (txs (coord d)) -> txs (coord d) !! tx_ID t = None ->
  accounts file0 closed exc pend d -> accounts file0 closed exc (t :: pend) d'.
Proof.
  intros Hi' Hk [Ho Hw] Ht Hnew (o & w & fresh & Ho1 & Hw1 & Hacc).
  assert (Hnc : tx_ID t ∉ closed).
  { intros Hin. destruct (closed_recorded _ _ _ _ _ _ _ _ _ Hacc Hin) as [x Hx]. by rewrite Hnew in Hx. }
  destruct Hacc as [Hi Hf Hr Hn Hc Hop Hp Hpn Ha].
  assert (Hmono : forall k x, txs (coord d) !! k = Some x -> txs (coord d') !! k = Some x).
  { intros k x Hx. rewrite Ht, lookup_insert_ne by congruence. done. }
  exists o, w, fresh. rewrite Ho, Hw. split; [done|]. split; [done|]. split; try done.
  - by eapply outcomes_mono.
  - intros id s Hs. destruct (Hop id s Hs) as (x & Hx & Hsx). exists x. split; [by apply Hmono|done].
  - intros x [->|Hx]%elem_of_cons.
    + rewrite Ht, lookup_insert_eq. split_and!; [done|done|]. apply eq_None_not_Some. intros [s Hs].
      destruct (Hop _ _ Hs) as (y & Hy & _). congruence.
    + destruct (Hp x Hx) as (H1 & H2 & H3). split_and!; [by apply Hmono|done|done].
  - rewrite fmap_cons. apply NoDup_cons. split; [|done]. intros (x & Hid & Hx)%list_elem_of_fmap.
    destruct (Hp x Hx) as [H1 _]. congruence.
  - intros id x. rewrite Ht, fmap_cons, elem_of_cons. intros [[<- <-]|[Hne Hx]]%lookup_insert_Some; [by do 3 right; left|].
    destruct (Ha id x Hx) as [?|[?|[?|?]]]; [by left|by right; left|by do 2 right; left|by do 4 right].
Qed.

(** A transaction whose approval failed. *)
Lemma accounts_excuse closed exc pend d t :
  accounts file0 closed exc (t :: pend) d -> accounts file0 closed ({[tx_ID t]} ∪ exc) pend d.
Proof.
  intros (o & w & fresh & Ho & Hw & [Hi Hf Hr Hn Hc Hop Hp Hpn Ha]). exists o, w, fresh.
  split; [done|]. split; [done|]. split; try done.
  - intros x Hx. apply Hp. by apply list_elem_of_further.
  - by apply NoDup_cons in Hpn as [_ ?].
  - intros id x Hx. destruct (Ha id x Hx) as [?|[?|[?|Hin]]]; [by left|by right; left|do 2 right; left; set_solver|].
    rewrite fmap_cons, elem_of_cons in Hin. destruct Hin as [->|?]; [do 2 right; left; set_solver|by do 3 right].
Qed.

(** Its entry. *)
Lemma accounts_open_add closed exc pend io t d :
  accounts file0 closed exc (t :: pend) d -> accounts file0 closed exc pend (open_add io t d).
Proof.
  intros (o & w & fresh & Ho1 & Hw1 & [Hi Hf Hr Hn Hc Hop Hp Hpn Ha]). unfold open_add. rewrite Ho1.
  destruct (Hp t (list_elem_of_here _ _)) as (Ht & Hnc & _).
  rewrite fmap_cons in Hpn. apply NoDup_cons in Hpn as [Hfirst Hpn].
  set (o' := fst (OpenSet.add (save_ok io) (tx_ID t) (tx_SessionID t) o)).
  assert (Hids : ids o' = <[tx_ID t := tx_SessionID t]> (ids o)) by (unfold o', OpenSet.add, saveLocked; by case_match).
  exists o', w, fresh. split; [done|]. split; [exact Hw1|]. split; try done; rewrite ?Hids.
  - intros id Hid. rewrite lookup_insert_ne by (intros <-; done). by apply Hc.
  - intros id s [[<- <-]|[Hne Hs]]%lookup_insert_Some; [by exists t|by apply Hop].
  - intros x Hx. destruct (Hp x) as (H1 & H2 & H3); [by apply list_elem_of_further|]. split_and!; [done|done|].
    rewrite lookup_insert_ne; [done|]. intros E. destruct Hfirst. rewrite E. apply list_elem_of_fmap. by exists x.
  - intros id x Hx. destruct (decide (id = tx_ID t)) as [->|Hne].
    + right; left. rewrite lookup_insert_eq. by eexists.
    + rewrite lookup_insert_ne by done. destruct (Ha id x Hx) as [?|[?|[?|Hin]]]; [by left|by right; left|by do 2 right; left|].
      rewrite fmap_cons, elem_of_cons in Hin. destruct Hin; [done|by do 3 right].
Qed.

(** A record that is not a result. *)
Lemma accounts_append closed exc pend io session kind detail d :
  String.eqb kind "result" = false -> accounts file0 closed exc pend d ->
  accounts file0 closed exc pend (append_audit io session kind detail d).
Proof.
  intros Hkind (o & w & fresh & Ho1 & Hw1 & [Hi Hf Hr Hn Hc Hop Hp Hpn Ha]). unfold append_audit. rewrite Hw1.
  unfold Audit.Append, AppendJSONL. destruct (append_ok io); cbn [fst].
  - eexists o, _, (fresh ++ [_]). split; [done|]. split; [done|]. split; try done; cbn [coord set_aw Audit.file].
    + by rewrite Hf, <-app_assoc.
    + rewrite List.filter_app. cbn [List.filter]. unfold is_result at 2. cbn [Audit.Kind].
      by rewrite Hkind, app_nil_r.
  - eexists o, _, fresh. split; [done|]. split; [done|]. by split.
Qed.

(** A finalisation with the coordinator's result closes the transaction, or
    writes nothing. *)
Lemma accounted_finalize closed exc pend d o w fresh io board id res o' w' r :
  accounted file0 closed exc pend d o w fresh -> Coordinator.Result id (coord d) = Ok res ->
  OpenSet.finalize io (Some w) board id (resultDetail id res) o = (o', Some w', r) ->
  exists closed' fresh', accounted file0 closed' exc pend d o' w' fresh'.
Proof.
  intros Hacc Hres Hf. unfold OpenSet.finalize in Hf.
  destruct (ids o !! id) as [session|] eqn:Hid; [|simplify_eq; by exists closed, fresh].
  destruct Hacc as [Hi Hfile Hr Hn Hc Hop Hp Hpn Ha]. unfold Audit.Append, AppendJSONL in Hf.
  destruct (append_ok io); cbn [negb] in Hf; [|injection Hf as <- <- _; exists closed, fresh; by split].
  cbv zeta in Hf. destruct (saveLocked _ _) as [o1 saved] eqn:Hs. injection Hf as <- <- _.
  assert (Hids : ids o1 = delete id (ids o)) by (unfold saveLocked in Hs; by case_match; simplify_eq).
  eexists (closed ++ [id]), (fresh ++ [_]).
  split; rewrite ?Hids; cbn [Audit.file]; [done|by rewrite Hfile, <-app_assoc|..].
  - rewrite List.filter_app. apply Forall2_app; [exact Hr|]. cbn [List.filter is_result Audit.Kind].
    constructor; [|constructor]. destruct (Hop id session Hid) as (t & Ht & Hse). by exists t, res.
  - apply NoDup_app. split_and!; [done| |apply NoDup_singleton].
    intros k Hk ->%list_elem_of_singleton. specialize (Hc _ Hk). congruence.
  - intros k [Hk| ->%list_elem_of_singleton]%elem_of_app; [|by rewrite lookup_delete_eq].
    rewrite lookup_delete_None. right. by apply Hc.
  - intros k s [_ Hk]%lookup_delete_Some. by apply Hop.
  - intros t Ht. destruct (Hp t Ht) as (H1 & H2 & H3). split_and!; [done| |by rewrite lookup_delete_None; right].
    rewrite elem_of_app, list_elem_of_singleton. intros [?|<-]; congruence.
  - exact Hpn.
  - intros k t Ht. rewrite elem_of_app, list_elem_of_singleton. destruct (decide (k = id)) as [->|Hne]; [by left; right|].
    rewrite lookup_delete_ne by done. destruct (Ha k t Ht) as [?|?]; [by left; left|by right].
Qed.

Lemma accounts_finalizeResult closed exc pend io id res d :
  Coordinator.Result id (coord d) = Ok res -> accounts file0 closed exc pend d ->
  exists closed', accounts file0 closed' exc pend (finalizeResult io id res d).
Proof.
  intros Hres (o & w & fresh & Ho & Hw & Hacc). unfold finalizeResult. rewrite Ho, Hw.
  destruct (finalize_some_writer io w (d_board d) id (resultDetail id res) o) as (o' & w' & r & Hf).
  rewrite Hf. destruct (accounted_finalize _ _ _ _ _ _ _ _ _ _ _ _ _ _ Hacc Hres Hf)
    as (closed' & fresh' & [? ? ? ? ? ? ? ? ?]).
  exists closed', o', w', fresh'. split; [done|]. split; [done|]. by split.
Qed.

(** The results as the reconciler asks for them. *)
Definition known (d : daemon) (id : string) : option Command.Result :=
  match Coordinator.Result id (coord d) with Ok r => Some r | Err _ => None end.

(** A pass that can append leaves open only what has no result. *)
Lemma reconcile_closes d board todo w o o' aw' :
  Forall (fun p => append_ok p.2 = true) todo ->
  reconcile_loop (known d) board todo (Some w) o = (o', aw') ->
  forall id s, ids o' !! id = Some s -> ids o !! id = Some s /\ (id ∈ todo.*1 -> known d id = None).
Proof.
  revert w o. induction todo as [|[k io] todo IH]; intros w o Hok Hl id s Hid; cbn [reconcile_loop] in Hl.
  { simplify_eq. split; [done|]. by intros ?%elem_of_nil. }
  apply Forall_cons in Hok as [Hok1 Hok]. cbn in Hok1.
  destruct (known d k) as [res|] eqn:Hk.
  - destruct (finalize_some_writer io w board k (resultDetail k res) o) as (o1 & w1 & r & Hf). rewrite Hf in Hl.
    destruct (IH _ _ Hok Hl id s Hid) as [H1 H2].
    assert (Ho1 : ids o1 = delete k (ids o)).
    { unfold OpenSet.finalize in Hf. destruct (ids o !! k) eqn:Hin; [|simplify_eq; by rewrite delete_id].
      unfold Audit.Append, AppendJSONL in Hf. rewrite Hok1 in Hf. cbn in Hf.
      unfold saveLocked in Hf. destruct (save_ok io); by simplify_eq/=. }
    rewrite Ho1 in H1. apply lookup_delete_Some in H1 as [Hne H1]. split; [done|].
    intros [E|Hin]%elem_of_cons; [by destruct Hne|by apply H2].
  - destruct (IH _ _ Hok Hl id s Hid) as [H1 H2]. split; [done|].
    intros [->|Hin]%elem_of_cons; [done|by apply H2].
Qed.

(** ** Handlers *)

(** An approval: its transaction is about to enter the open set, or excused. *)
Lemma approve_accounts closed exc pend e payload d :
  fresh_ids e (coord d) -> accounts file0 closed exc pend d ->
  let out := commandApprove e payload d in
  accounts file0 closed (refused_by OpCommandApprove d out ∪ exc) ((continuing out.2 ≫= entering) ++ pend) out.1 /\
  Forall (steady (coord out.1)) (continuing out.2).
Proof.
  intros [_ Hnew] Hacc out. pose proof Hacc as (_ & _ & _ & _ & _ & [Hi _ _ _ _ _ _ _ _]).
  assert (Hsame : forall d' r, accounts file0 closed exc pend d' ->
    accounts file0 closed (refused_by OpCommandApprove d (d', Answered r) ∪ exc) pend d').
  { intros d' p. apply accounts_weaken. set_solver. }
  subst out. unfold commandApprove. destruct (dec_approve payload) as [p|]; [|by split; [apply Hsame|constructor]].
  case_match; [by split; [apply Hsame|constructor]|].
  destruct (Coordinator.Approve (dr e) (ap_ProposalID p) (coord d)) as [c [t err]] eqn:HA.
  pose proof (inv_exec (LApprove (dr e) (ap_ProposalID p)) (coord d) Hnew Hi) as Hi'.
  pose proof (kept_Approve (dr e) (ap_ProposalID p) (coord d)) as Hk. cbn [exec] in Hi'.
  rewrite HA in Hi', Hk. cbn [fst] in Hi', Hk.
  pose proof (Approve_names _ _ _ _ _ _ HA) as Hid.
  destruct (Approve_records _ _ _ _ _ _ HA) as [Hr _]. cbv zeta. destruct t as [t|]; cbn [recorded] in Hr.
  - specialize (Hid t eq_refl). assert (Hn : txs (coord d) !! tx_ID t = None) by by rewrite Hid.
    pose proof (accounts_record closed exc pend d (set_coord c d) t Hi' Hk (same_books_refl d) Hr Hn Hacc) as Hacc'.
    destruct err as [err|]; cbn [continuing fst snd app].
    + split; [|constructor]. eapply accounts_weaken; [|apply accounts_excuse; exact Hacc'].
      unfold refused_by. cbn [fst snd coord set_coord]. rewrite Hr, dom_insert_L. apply not_elem_of_dom in Hn. cbn. set_solver.
    + split; [|by repeat constructor]. eapply accounts_weaken; [|exact Hacc']. set_solver.
  - assert (Hc : accounts file0 closed exc pend (set_coord c d)).
    { apply (accounts_moves closed exc pend d); [|by split|exact Hacc]. split; [exact Hk|]. intros _. by split. }
    destruct err; (split; [|by apply Forall_nil]); [by apply Hsame|]. eapply accounts_weaken; [|exact Hc]. set_solver.
Qed.

(** The start of an automatic execution. *)
Lemma start_accounts closed exc pend m e dec p d :
  fresh_ids e (coord d) -> accounts file0 closed exc pend d ->
  let out := execute_start m e dec p d in
  accounts file0 closed exc ((continuing out.2 ≫= entering) ++ pend) out.1 /\
  Forall (steady (coord out.1)) (continuing out.2).
Proof.
  intros Hfresh Hacc out. pose proof Hacc as (_ & _ & _ & _ & _ & [Hi _ _ _ _ _ _ _ _]). subst out. unfold execute_start.
  destruct (DiagnoseStart _ _ _ _ _ _) as [c [t err]] eqn:HD.
  pose proof (inv_exec (LDiagnose (dr e) (xp_SessionID p) (xp_Text p) (xp_Purpose p)
    (milliseconds (xp_TimeoutMS p))) (coord d) Hfresh Hi) as Hi'.
  pose proof (kept_Diagnose (dr e) (xp_SessionID p) (xp_Text p) (xp_Purpose p)
    (milliseconds (xp_TimeoutMS p)) (coord d)) as Hk.
  cbn [exec] in Hi'. rewrite HD in Hi', Hk. cbn [fst] in Hi', Hk.
  pose proof (Diagnose_names _ _ _ _ _ _ _ _ _ HD) as Hid.
  destruct (Diagnose_records _ _ _ _ _ _ _ _ _ HD) as (Hr & _ & _). cbv zeta.
  destruct t as [t|]; cbn [recorded] in Hr; cbn [continuing fst snd].
  - split; [|by destruct m; repeat constructor].
    apply (accounts_record closed exc pend d (set_coord c d) t Hi' Hk (same_books_refl d) Hr); [|done].
    rewrite (Hid t eq_refl). apply Hfresh.
  - assert (Hc : accounts file0 closed exc pend (set_locked m false (set_coord c d))).
    { apply (accounts_moves closed exc pend d); [|by destruct m|exact Hacc].
      assert (coord (set_locked m false (set_coord c d)) = c) as -> by by destruct m.
      split; [exact Hk|]. intros _. by split. }
    destruct err; (split; [exact Hc|by apply Forall_nil]).
Qed.

(** One section of a handler that records. *)
Lemma section_accounts closed exc pend io s todo d :
  no_result s = true -> accounts file0 closed exc (to_open (s :: todo) ++ pend) d ->
  let out := run_section io s d in
  accounts file0 closed exc (to_open (out.2 ++ todo) ++ pend) out.1 /\ Forall (fun s => no_result s = true) out.2.
Proof.
  intros Hs Hacc out. subst out. destruct s as [kind detail|session kind detail|t]; cbn [run_section fst snd].
  - split; [exact Hacc|by repeat constructor].
  - split; [|constructor]. apply accounts_append; [by apply negb_true_iff|exact Hacc].
  - split; [|constructor]. apply accounts_open_add. exact Hacc.
Qed.

Definition same_books_by (d : daemon) (out : daemon * progress) : Prop :=
  same_books d out.1 /\ (continuing out.2 ≫= entering) = [] /\ Forall (steady (coord out.1)) (continuing out.2).

Lemma register_books m e dec t d : same_books_by d (execute_register m e dec t d).
Proof.
  unfold execute_register. destruct (WaitResult_register _ _ _) as [c w] eqn:Hw. cbv zeta.
  destruct w as [res| |w]; (split; [by destruct m|]; split; [done|]); cbn; repeat constructor.
  revert Hw. unfold WaitResult_register, Coordinator.Result. intros. repeat case_match; by simplify_eq.
Qed.

Lemma wait_books m cancelled dec t w d : same_books_by d (execute_wait m cancelled dec t w d).
Proof.
  unfold execute_wait. destruct cancelled; [by split; [destruct m|]|].
  destruct (WaitResult_woken _ _) eqn:Hw; (split; [done|]; split; [done|]); by repeat constructor.
Qed.

Lemma books_accounts closed exc pend d out :
  quiet d out.1 -> same_books_by d out -> accounts file0 closed exc pend d ->
  accounts file0 closed exc ((continuing out.2 ≫= entering) ++ pend) out.1 /\
  Forall (steady (coord out.1)) (continuing out.2).
Proof.
  intros [Hm _] (Hb & -> & Hs) Hacc. split; [|exact Hs]. by apply (accounts_moves closed exc pend d).
Qed.

(** A handler that goes on. *)
Lemma advance_accounts closed exc pend e cancelled f d :
  fresh_ids e (coord d) -> steady (coord d) f -> accounts file0 closed exc (entering f ++ pend) d ->
  let out := advance e cancelled f d in
  (exists closed', accounts file0 closed' exc ((continuing out.2 ≫= entering) ++ pend) out.1) /\
  Forall (steady (coord out.1)) (continuing out.2).
Proof.
  intros Hf Hst Hacc out. subst out.
  assert (Hsec : forall s todo k, Forall (fun s => no_result s = true) (s :: todo) ->
    (forall todo, entering (k todo) = to_open todo) ->
    (forall c todo, steady c (k todo) = Forall (fun s => no_result s = true) todo) ->
    accounts file0 closed exc (to_open (s :: todo) ++ pend) d ->
    let out := (let '(d, more) := run_section (ios e) s d in (d, Continues (k (more ++ todo)))) : daemon * progress in
    (exists closed', accounts file0 closed' exc ((continuing out.2 ≫= entering) ++ pend) out.1) /\
    Forall (steady (coord out.1)) (continuing out.2)).
  { intros s todo k Hs Hk Hk2 Ha. apply Forall_cons in Hs as [Hs1 Hs2].
    destruct (section_accounts _ _ _ (ios e) s todo d Hs1 Ha) as [H1 H2].
    destruct (run_section _ _ _) as [d1 more]. cbn [fst snd] in *. cbn. rewrite app_nil_r, Hk. split; [by exists closed|].
    constructor; [|constructor]. rewrite Hk2. by apply Forall_app. }
  assert (Hone : forall (out : daemon * progress) P, accounts file0 closed exc ((continuing out.2 ≫= entering) ++ pend) out.1 /\ P ->
    (exists closed', accounts file0 closed' exc ((continuing out.2 ≫= entering) ++ pend) out.1) /\ P).
  { intros out P [H1 H2]. split; [by exists closed|done]. }
  destruct f as [t [|s todo]|m [dec p|dec t [|s todo]|dec t|dec t w|dec t res]]; cbn [advance].
  - by split; [exists closed|constructor].
  - by apply (Hsec s todo (Approving t)).
  - apply Hone, start_accounts; done.
  - by split; [exists closed|repeat constructor].
  - by apply (Hsec s todo (fun todo => Executing m (Recording dec t todo))).
  - apply Hone, (books_accounts closed exc pend d); [apply quiet_register|apply register_books|done].
  - apply Hone, (books_accounts closed exc pend d); [apply quiet_wait|apply wait_books|done].
  - split; [|constructor]. destruct (accounts_finalizeResult closed exc pend (ios e) (tx_ID t) res d Hst Hacc) as [closed' H].
    exists closed'. by apply (accounts_calm _ _ _ (finalizeResult (ios e) (tx_ID t) res d)); [destruct m|destruct m|].
Qed.

(** Every other handler leaves the log and the open set alone. *)
Lemma startWith_books s out d : same_books d (startWith s out d).1.
Proof. by destruct out as [c []]. Qed.

Lemma retryWith_books out d : same_books d (retryWith out d).1.
Proof. by destruct out as [c []]. Qed.

Lemma sessionStart_books role e payload d : same_books d (sessionStart role e payload d).1.
Proof.
  unfold sessionStart. destruct (optional _ _ _) as [p|]; [|done].
  destruct (load e _) as [prof|]; [|done]. cbv zeta.
  match goal with |- context [match ?x with Some _ => _ | None => _ end] => destruct x as [k|] end; [|done].
  destruct (String.eqb k "uart").
  { unfold startUARTSession. destruct (UART prof); [|done]. destruct (openUART e _); [|done]. apply startWith_books. }
  destruct (String.eqb k "ssh").
  { unfold startSSHSession. destruct (SSH prof); [|done]. destruct (dialSSH e _ _); [|done]. apply startWith_books. }
  destruct (String.eqb k "telnet"); [|done].
  unfold startTelnetSession. destruct (Telnet prof); [|done]. destruct (dialTelnet e _); [|done]. apply startWith_books.
Qed.

Lemma sessionEnd_books e d : same_books d (sessionEnd e d).1.
Proof. unfold sessionEnd. by destruct (EndSession_close _ _) as [? []]. Qed.

Lemma propose_books e payload d : same_books d (commandPropose e payload d).1.
Proof.
  unfold commandPropose. destruct (dec_propose payload); [|done]. by destruct (Coordinator.Propose _ _ _ _ _ _) as [? []].
Qed.

Lemma reject_books payload d : same_books d (commandReject payload d).1.
Proof.
  unfold commandReject. destruct (diagnosticMu d); [done|]. destruct (dec_id payload); [|done].
  by destruct (Coordinator.Reject _ _) as [? []].
Qed.

Lemma edit_books e payload d : same_books d (commandEdit e payload d).1.
Proof.
  unfold commandEdit. destruct (diagnosticMu d); [done|]. destruct (dec_edit payload); [|done].
  by destruct (Coordinator.Edit _ _ _ _ _) as [? []].
Qed.

Lemma write_books e payload d : same_books d (transportWrite e payload d).1.
Proof.
  unfold transportWrite. destruct (dec_write payload); [|done]. cbv zeta. case_match; [done|].
  by destruct (WriteHuman _ _) as [? []].
Qed.

Lemma readers_books e payload d :
  same_books d (outputRead payload d).1 /\ same_books d (commandList payload d).1 /\
  same_books d (recordsExport_ e payload d).1.
Proof. split_and!; unfold outputRead, commandList, recordsExport_; repeat case_match; done. Qed.

Lemma check_books m payload d : same_books d (execute_check m payload d).1.
Proof. unfold execute_check. repeat (case_match; try done). by destruct m. Qed.

Lemma dispatch_books role req e d :
  Operation req <> OpCommandApprove -> same_books d (Dispatch role req e d).1.
Proof.
  intros H1. destruct (readers_books e (Payload req) d) as (R1 & R2 & R3).
  apply String.eqb_neq in H1. unfold Dispatch. cbv zeta. rewrite H1.
  repeat match goal with |- same_books _ (if ?b then _ else _).1 => destruct b end; first
    [ apply sessionStart_books | apply retryWith_books | apply sessionEnd_books | apply propose_books | apply reject_books
    | apply edit_books | apply write_books | apply check_books | done | exact R1 | exact R2 | exact R3 ].
Qed.

(** ** Runs keep the accounts *)

Definition balanced (l : ledger) : Prop :=
  Forall (steady (coord (daemon_ (sys l)))) (pool (sys l)) /\
  exists closed, accounts file0 closed (refused_approvals l) (pool (sys l) ≫= entering) (daemon_ (sys l)).

Lemma steady_kept c c' f : outcomes_kept c c' -> steady c f -> steady c' f.
Proof.
  intros Hk. destruct f as [|m []]; cbn; try done. by intros H%result_outcome%Hk%result_outcome.
Qed.

Lemma steady_kept_all c c' fs : outcomes_kept c c' -> Forall (steady c) fs -> Forall (steady c') fs.
Proof. intros Hk H. eapply Forall_impl; [exact H|]. intros f. by apply steady_kept. Qed.

Lemma dispatch_accounts closed exc pend role req e d :
  permitted role (Operation req) = true -> fresh_ids e (coord d) -> accounts file0 closed exc pend d ->
  let out := Dispatch role req e d in
  accounts file0 closed (refused_by (Operation req) d out ∪ exc) ((continuing out.2 ≫= entering) ++ pend) out.1 /\
  Forall (steady (coord out.1)) (continuing out.2).
Proof.
  intros Hperm Hf Hacc out. destruct (String.eqb_spec (Operation req) OpCommandApprove) as [E1|E1].
  { subst out. unfold Dispatch. rewrite E1. exact (approve_accounts closed exc pend e (Payload req) d Hf Hacc). }
  assert (Hcont : forall f, f ∈ continuing out.2 -> entering f = [] /\ steady (coord out.1) f).
  { intros f Hin. destruct (dispatch_cut _ _ _ _ _ Hin) as [[? _]|(m & _ & Hd)]; [done|]. subst out. rewrite Hd in *.
    apply check_cut in Hin as (dec & p & ev & -> & _). done. }
  assert (Hnone : continuing out.2 ≫= entering = []).
  { induction (continuing out.2) as [|f l IH]; [done|]. cbn. rewrite (proj1 (Hcont f (list_elem_of_here _ _))).
    apply IH. intros f' Hf'. apply Hcont. by apply list_elem_of_further. }
  split; [|apply Forall_forall; intros f Hin; by apply Hcont]. rewrite Hnone.
  apply (accounts_weaken closed exc); [set_solver|].
  apply (accounts_moves closed exc pend d); [|by apply dispatch_books|done].
  exact (proj1 (dispatch_quiet role req e d Hf E1)).
Qed.

Lemma balanced_step l l' : ledger_step l l' -> balanced l -> balanced l'.
Proof.
  intros Hs (Hst & closed & Hacc). destruct Hs as [role req e Hperm Hf out|s' Hs Hh].
  { destruct (dispatch_accounts closed _ _ role req e _ Hperm Hf Hacc) as [H1 H2]. unfold balanced. cbn [sys pool daemon_].
    split; [|exists closed; by rewrite bind_app]. apply Forall_app. split; [exact H2|].
    eapply steady_kept_all; [|exact Hst]. by apply dispatch_records. }
  unfold balanced. cbn [sys refused_approvals].
  destruct Hs as [role req e Hperm Hf out|e cancelled pre f post Hpl Hf out| |lb Hl He|o board s0 id res s1 aw1 r Ho Hres Hfin];
    cbn [daemon_ history pool] in *.
  - exfalso. apply (f_equal length) in Hh. cbn in Hh. lia.
  - rewrite Hpl in Hst, Hacc. apply Forall_app in Hst as [Hst1 [Hst2 Hst3]%Forall_cons].
    assert (Hp : (pre ++ f :: post) ≫= entering ≡ₚ entering f ++ (pre ++ post) ≫= entering).
    { rewrite !bind_app, bind_cons. apply Permutation_app_swap_app. }
    destruct (advance_accounts closed _ _ e cancelled f _ Hf Hst2 (accounts_perm _ _ _ _ _ Hp Hacc)) as [[closed' H1] H2].
    assert (Hk : outcomes_kept (coord (daemon_ (sys l))) (coord out.1)) by by apply advance_records.
    split; [rewrite !Forall_app; split_and!; try done; by eapply steady_kept_all|]. exists closed'.
    eapply accounts_perm; [|exact H1]. rewrite !bind_app. apply Permutation_app_swap_app.
  - split; [eapply steady_kept_all; [|exact Hst]; exact (proj1 (moves_exec LEndFinish _ eq_refl I))|].
    exists closed. apply (accounts_moves closed _ _ (daemon_ (sys l))); [|by split|done]. exact (moves_exec LEndFinish _ eq_refl I).
  - split; [eapply steady_kept_all; [|exact Hst]; apply kept_exec|].
    exists closed. apply (accounts_moves closed _ _ (daemon_ (sys l))); [|by split|done]. by apply moves_exec.
  - split; [done|]. destruct Hacc as (o0 & w & fresh & Ho0 & Hw & Hacc). rewrite Ho in Ho0. injection Ho0 as <-.
    rewrite Hw in Hfin. destruct (finalize_some_writer o w board id (resultDetail id res) s0) as (o1 & w1 & r1 & E).
    rewrite E in Hfin. injection Hfin as <- <- _.
    destruct (accounted_finalize _ _ _ _ _ _ _ _ _ _ _ _ _ _ Hacc Hres E) as (closed' & fresh' & [? ? ? ? ? ? ? ? ?]).
    exists closed', o1, w1, fresh'. split; [done|]. split; [done|]. by split.
Qed.

Lemma balanced_run l l' : rtc ledger_step l l' -> balanced l -> balanced l'.
Proof. induction 1; eauto using balanced_step. Qed.

End Fixed.

(** A start leaves nothing open. *)
Lemma boot_books b l d roles :
  boot b = (l, Ok (d, roles)) ->
  exists o w, Dispatcher.open d = Some o /\ ids o = ∅ /\ aw d = Some w.
Proof.
  unfold boot. destruct (parseDaemonOptions (argv b)) as [options|e]; [|done].
  destruct (Resolve (xdg b) (directories b)) as [t [dirs|e]]; [|done]. cbv zeta.
  destruct (acquireLock _ _ _ _) as [l1 [e|]]; [done|].
  destruct (loadOpenSet _) as [o|]; [|done].
  destruct (recoverIncompleteTransactions _ _ _ _) as [[o' aw'] []] eqn:Hr; [|done].
  destruct (NewCoordinator _ _) as [c|]; [|done].
  destruct (MkdirAll _ _ _ _) as [t' []]; cbn [negb]; [|done].
  intros [= _ <- _]. destruct (recover_writer _ _ _ _ _ _ _ Hr) as [w ->].
  exists o', w. split; [done|]. split; [|done]. apply map_eq. intros id. rewrite lookup_empty.
  exact (recover_all _ _ _ _ _ _ id Hr).
Qed.

Lemma boot_balanced b l d roles :
  boot b = (l, Ok (d, roles)) -> exists w, aw d = Some w /\ balanced (Audit.file w) (opened d).
Proof.
  intros Hb. destruct (boot_books _ _ _ _ Hb) as (o & w & Ho & Hids & Hw). exists w. split; [done|].
  destruct (boot_started _ _ _ _ Hb) as (_ & _ & _ & _ & r & brd & rnd & Hc). cbn [daemon_] in Hc.
  assert (Ht : txs (coord d) = ∅) by by rewrite Hc.
  split; [constructor|]. exists [], o, w, []. split; [done|]. split; [done|].
  change (pool (sys (opened d)) ≫= entering) with (@nil Transaction).
  split; cbn [opened sys daemon_ refused_approvals]; rewrite ?Ht, ?Hids; try done.
  - rewrite Hc. apply inv_new.
  - by rewrite app_nil_r.
  - by apply NoDup_nil.
  - by intros t ?%elem_of_nil.
  - by apply NoDup_nil.
Qed.

(** Runs from a daemon [d], its history and its pool. *)
Definition at_ (d : daemon) (h : list (Role * Request)) (fs : list flight) (exc : gset string) : ledger :=
  {| sys := {| daemon_ := d; history := h; pool := fs |}; refused_approvals := exc |}.

Lemma ledger_coordinator lb d h fs exc :
  records lb = false -> enabled lb (coord d) ->
  ledger_step (at_ d h fs exc) (at_ (set_coord (exec lb (coord d)) d) h fs exc).
Proof. intros Hl He. apply led_other; [|done]. by apply (sys_coordinator (sys (at_ d h fs exc)) lb). Qed.

(** The coordinator's own steps, one after the other. *)
Lemma ledger_run ls d h fs exc :
  quiet_run ls (coord d) ->
  rtc ledger_step (at_ d h fs exc) (at_ (set_coord (foldl (fun c l => exec l c) (coord d) ls) d) h fs exc).
Proof.
  revert d. induction ls as [|lb ls IH]; intros d; cbn [quiet_run foldl].
  - intros _. destruct d. apply rtc_refl.
  - intros (Hl & He & Hr). eapply rtc_l; [|exact (IH (set_coord (exec lb (coord d)) d) Hr)].
    by apply ledger_coordinator.
Qed.

(** The reconciler's pass is a run of its finalisations. *)
Lemma ledger_reconcile board todo w s d h fs exc :
  Dispatcher.open d = Some s -> aw d = w ->
  let out := reconcile_loop (known d) board todo w s in
  rtc ledger_step (at_ d h fs exc) (at_ (set_open (Some out.1) (set_aw out.2 d)) h fs exc).
Proof.
  revert w s d. induction todo as [|[id io] todo IH]; intros w s d Ho Hw; cbn [reconcile_loop].
  { destruct d; cbn in Ho, Hw; subst; apply rtc_refl. }
  destruct (known d id) as [res|] eqn:Hk; [|exact (IH w s d Ho Hw)].
  assert (Hres : Coordinator.Result id (coord d) = Ok res) by (unfold known in Hk; case_match; congruence).
  destruct (OpenSet.finalize io w board id (resultDetail id res) s) as [[s1 w1] r] eqn:Hf.
  eapply rtc_l; [|exact (IH w1 s1 (set_open (Some s1) (set_aw w1 d)) eq_refl eq_refl)].
  apply led_other; [|done]. subst w. by eapply (sys_reconcile (sys (at_ d h fs exc))).
Qed.

Lemma ledger_dispatch role req e d h fs exc :
  permitted role (Operation req) = true -> fresh_ids e (coord d) ->
  let out := Dispatch role req e d in
  ledger_step (at_ d h fs exc)
    (at_ out.1 ((role, req) :: h) (continuing out.2 ++ fs) (refused_by (Operation req) d out ∪ exc)).
Proof. exact (led_dispatch (at_ d h fs exc) role req e). Qed.

Lemma ledger_advance e cancelled f d h fs exc :
  fresh_ids e (coord d) ->
  let out := advance e cancelled f d in
  ledger_step (at_ d h (f :: fs) exc) (at_ out.1 h (continuing out.2 ++ fs) exc).
Proof. intros Hf out. apply led_other; [|done]. by apply (sys_advance (sys (at_ d h (f :: fs) exc)) e cancelled [] f fs). Qed.

(** A handler that goes on alone, for at most [n] cuts. *)
Fixpoint drive (n : nat) (e : env) (out : daemon * progress) : daemon * progress :=
  match n, out with
  | S n, (d, Continues f) => drive n e (advance e false f d)
  | _, _ => out
  end.

Fixpoint drives (n : nat) (e : env) (out : daemon * progress) : Prop :=
  match n, out with
  | S n, (d, Continues f) => fresh_ids e (coord d) /\ drives n e (advance e false f d)
  | _, _ => True
  end.

Lemma ledger_drive n e out h fs exc :
  drives n e out ->
  rtc ledger_step (at_ out.1 h (continuing out.2 ++ fs) exc)
    (at_ (drive n e out).1 h (continuing (drive n e out).2 ++ fs) exc).
Proof.
  revert out. induction n as [|n IH]; intros [d p] Hd; [apply rtc_refl|]. destruct p as [r|f| | |]; try apply rtc_refl.
  cbn [drives] in Hd. destruct Hd as [Hf Hd]. eapply rtc_l; [exact (ledger_advance e false f d h fs exc Hf)|].
  exact (IH _ Hd).
Qed.

(** ** Property *)

(** C11. The audit log accounts for every command. Take a daemon that has
    started, and any run of it: requests on its four sockets, handlers cut at
    every lock they take and at their waits, the coordinator's goroutines and
    the reconciler in any order, with audit appends and saves that fail at any
    moment. The records the run added to the log hold a terminal record for
    exactly the transactions [closed], one for each, which states the result
    that the coordinator recorded, under the transaction's own session; none is
    made up, repeated or changed later. Every transaction is closed, or in the
    open set under its session, or belongs to an approval that was answered
    with an error, or to a handler that is still running and whose
    [open.add] of it is yet to come. Once the reconciler makes a pass in which
    it can append, only the transaction that is still running is open. *)
Theorem audit_accounts b l d roles s :
  boot b = (l, Ok (d, roles)) -> rtc ledger_step (opened d) s ->
  let d' := daemon_ (sys s) in
  exists w0 o w fresh closed,
    aw d = Some w0 /\ Dispatcher.open d' = Some o /\ aw d' = Some w /\ Audit.file w = Audit.file w0 ++ fresh /\
    Forall2 (outcome_logged (coord d')) (List.filter is_result fresh) closed /\ NoDup closed /\
    (forall id t, txs (coord d') !! id = Some t ->
       id ∈ closed \/ ids o !! id = Some (tx_SessionID t) \/ id ∈ refused_approvals s \/
       exists f, f ∈ pool (sys s) /\ t ∈ entering f) /\
    (forall board ios o' aw', (forall k, append_ok (ios k) = true) ->
       reconcileOpenTransactions (known d') board ios (aw d') o = (o', aw') ->
       forall id, is_Some (ids o' !! id) -> exists x, act (coord d') = Some x /\ tx_ID (tx x) = id).
Proof.
  intros Hb Hrun d'. destruct (boot_balanced _ _ _ _ Hb) as (w0 & Hw0 & H0).
  destruct (balanced_run (Audit.file w0) (opened d) s Hrun H0) as (_ & closed & o & w & fresh & Ho & Hw & Hacc).
  fold d' in Ho, Hw, Hacc. exists w0, o, w, fresh, closed. destruct Hacc as [Hi Hf Hr Hn Hc Hop Hp Hpn Ha].
  split_and!; [done..| |].
  - intros id t Ht. destruct (Ha id t Ht) as [?|[[se Hse]|[?|Hin]]]; [by left| |by right; right; left|].
    + right; left. destruct (Hop id se Hse) as (t' & Ht' & <-). by simplify_eq.
    + do 3 right. apply list_elem_of_fmap in Hin as (t' & -> & Hin). destruct (Hp t' Hin) as [Ht' _]. simplify_eq.
      by apply list_elem_of_bind in Hin as (f & ? & ?); exists f.
  - intros board ios o' aw' Hok Hrec id [se Hse]. rewrite Hw in Hrec.
    destruct (reconcile_closes _ _ _ _ _ _ _ (Forall_ios _ _ Hok) Hrec id se Hse) as [Ho1 Hnone].
    destruct (Hop id se Ho1) as (t & Ht & _).
    destruct (core_result _ _ _ _ (proj1 Hi) _ _ Ht) as [[res Hres]|(x & Hx & <-)].
    + assert (Hknown : known d' id = Some res).
      { unfold known. by rewrite (proj2 (result_outcome id (coord d') res)). }
      rewrite Hnone in Hknown; [done|]. rewrite <-list_fmap_compose. apply list_elem_of_fmap. exists id. split; [done|].
      apply list_elem_of_fmap. exists (id, se). split; [done|]. by apply elem_of_map_to_list.
    + exists x. split; [done|]. exact (ok_tx_id _ (core_store _ _ _ _ (proj1 Hi)) _ _ Ht).
Qed.

End Accounts.

(** *** Witness: an approval whose handler runs to its answer, a command that
    times out, and the reconciler's pass. *)

#[local] Existing Instance demo_lower.
#[local] Existing Instance demo_quote.
#[local] Existing Instance demo_shell.
#[local] Existing Instance demo_decoders.

(** The handler meets other draws after the approval. *)
Definition demo_later : env := {|
  dr := {| clock := 2000; rnd_prop := "cc"; rnd_txn := "8899aabbccddeeff"; rnd_nonce := "0123"; write_fails := false |};
  rnd_sess := "02"; ios := {| now := 5; append_ok := true; save_ok := true |};
  fresh := 3; load := fun _ => None; listPorts := None; openPort := fun _ _ => None;
  dialSSH := fun _ _ => None; dialTelnet := fun _ => None; reopen := fun _ => None; op_id := 0;
  done_id := 0; close_fails := false; read_fails := false |}.

Definition demo_driven : daemon * progress := drive 6 demo_later demo_answer.

Definition demo_expired : daemon :=
  set_coord (exec (LTimeout (6 * second)) (coord demo_driven.1)) demo_driven.1.

Definition demo_refused : gset string := refused_by (Operation demo_approve) demo_asked demo_answer ∪ ∅.

Definition demo_io : io := {| now := 9; append_ok := true; save_ok := false |}.

Definition demo_open : openSet := default {| ids := ∅; disk := NoFile |} (Dispatcher.open demo_expired).

Definition demo_pass : openSet * option Audit.Writer :=
  reconcileOpenTransactions (known demo_expired) "lab" (fun _ => demo_io) (aw demo_expired) demo_open.

Definition demo_history : list (Role * Request) := [(RoleAttach, demo_approve)].

Definition demo_flights : list flight := continuing demo_driven.2 ++ [].

Definition demo_ledger : ledger :=
  at_ (set_open (Some demo_pass.1) (set_aw demo_pass.2 demo_expired)) demo_history demo_flights demo_refused.

Lemma demo_asked_run : rtc ledger_step (opened demo_opened) (at_ demo_asked [] [] ∅).
Proof. apply (ledger_run demo_labels demo_opened [] [] ∅). vm_compute. intuition discriminate. Qed.

Lemma demo_answer_step :
  ledger_step (at_ demo_asked [] [] ∅) (at_ demo_answer.1 demo_history (continuing demo_answer.2 ++ []) demo_refused).
Proof. unfold demo_answer, demo_refused. refine (ledger_dispatch _ _ _ _ _ _ _ _ _); [done|]. split; vm_compute; reflexivity. Qed.

Lemma demo_driven_run :
  rtc ledger_step (at_ demo_answer.1 demo_history (continuing demo_answer.2 ++ []) demo_refused)
    (at_ demo_driven.1 demo_history demo_flights demo_refused).
Proof. unfold demo_driven, demo_flights. refine (ledger_drive _ _ _ _ _ _ _). vm_compute. intuition reflexivity. Qed.

Lemma demo_expired_step :
  ledger_step (at_ demo_driven.1 demo_history demo_flights demo_refused)
    (at_ demo_expired demo_history demo_flights demo_refused).
Proof. unfold demo_expired. refine (ledger_coordinator _ _ _ _ _ _ _); reflexivity. Qed.

Lemma demo_reconciled : rtc ledger_step (at_ demo_expired demo_history demo_flights demo_refused) demo_ledger.
Proof.
  unfold demo_ledger, demo_pass. refine (ledger_reconcile _ _ _ _ _ _ _ _ _ eq_refl). unfold demo_open.
  destruct (Dispatcher.open demo_expired) eqn:E; [reflexivity|].
  assert (H : bool_decide (Dispatcher.open demo_expired = None) = false) by (vm_compute; reflexivity).
  rewrite E in H. discriminate H.
Qed.

Lemma demo_ledger_run : rtc ledger_step (opened demo_opened) demo_ledger.
Proof.
  etransitivity; [exact demo_asked_run|]. eapply rtc_l; [exact demo_answer_step|].
  etransitivity; [exact demo_driven_run|]. eapply rtc_l; [exact demo_expired_step|]. exact demo_reconciled.
Qed.

Definition results_in (w : option Audit.Writer) : nat :=
  length (List.filter is_result (default [] (Audit.file <$> w))).

Lemma audit_accounts_witness : exists fresh closed,
  Forall2 (outcome_logged (coord (daemon_ (sys demo_ledger)))) (List.filter is_result fresh) closed /\
  length closed = 1%nat.
Proof.
  assert (Hroles : demo_roles = true) by (vm_compute; reflexivity). unfold demo_roles in Hroles.
  pose proof demo_ledger_run as Hrun. assert (Hd : demo_opened = demo_opened) by reflexivity.
  unfold demo_opened at 2 in Hd. destruct (boot demo_boot) as [l [[d roles]|e]] eqn:Hb; [|discriminate Hroles].
  cbn [snd] in Hd.
  destruct (audit_accounts demo_boot l d roles demo_ledger Hb) as
    (w0 & o & w & fresh & closed & Hw0 & _ & Hw & Hf & Hr & _); [by rewrite <-Hd|].
  exists fresh, closed. split; [exact Hr|].
  assert (H1 : results_in (Some w0) = 1%nat) by (rewrite <-Hw0, <-Hd; vm_compute; reflexivity).
  assert (H2 : results_in (Some w) = 2%nat) by (rewrite <-Hw; vm_compute; reflexivity).
  unfold results_in in H1, H2. cbn in H1, H2. rewrite Hf, List.filter_app, length_app in H2.
  rewrite <-(Forall2_length _ _ _ Hr). lia.
Defined.
