(* ===== verification/Floats.v ===== *)
(** * Float64 and strconv.ParseFloat (as src/internal/perftest/harness.go and
    src/cmd/gateway-bench/main.go use them)

    A float64 is a [spec_float] at Go's width. A decimal text becomes the
    nearest float, ties to even; texts of any other form go through a class. *)

From S2P Require Import Prelude GoStd Clock.
From Stdlib Require Import SpecFloat.

(** ** Arithmetic *)

Abbreviation float64 := spec_float.

Definition of_int (z : Z) : float64 := binary_normalize 53 1024 z 0 false.
Definition fdiv : float64 -> float64 -> float64 := SFdiv 53 1024.
Definition fmul : float64 -> float64 -> float64 := SFmul 53 1024.
Definition fadd : float64 -> float64 -> float64 := SFadd 53 1024.
Definition flt (x y : float64) : bool := SFltb x y.
Definition fge (x y : float64) : bool := SFleb y x.

(** What a conversion to int64 gives when the value does not fit depends on
    the processor. *)
Class FloatOverflow := overflowed : float64 -> Z.

(** [int64(f)] drops the fraction. *)
Definition to_int64 `{FloatOverflow} (f : float64) : Z :=
  match f with
  | S754_zero _ => 0
  | S754_finite s m e =>
      let a := if (0 <=? e)%Z then Z.pos m * 2 ^ e else Z.pos m `div` 2 ^ (- e) in
      let z := if s then - a else a in
      if (- 2 ^ 63 <=? z) && (z <? 2 ^ 63) then z else overflowed f
  | _ => overflowed f
  end.

(** The same for uint64. *)
Class UintOverflow := uint_overflowed : float64 -> Z.

Definition to_uint64 `{UintOverflow} (f : float64) : Z :=
  match f with
  | S754_zero _ => 0
  | S754_finite false m e =>
      let z := if (0 <=? e)%Z then Z.pos m * 2 ^ e else Z.pos m `div` 2 ^ (- e) in
      if z <? 2 ^ 64 then z else uint_overflowed f
  | _ => uint_overflowed f
  end.

(** ** Parsing *)

(** The nearest float of [p / q]: the quotient with more bits than a float has,
    and a last bit that says whether something is left. *)
Definition of_ratio (p q : Z) : float64 :=
  let k := Z.log2 q + 1200 in
  let '(d, r) := Z.div_eucl (p * 2 ^ k) q in
  binary_normalize 53 1024 (2 * d + if r =? 0 then 0 else 1) (- (k + 1)) false.

Definition negate (neg : bool) (f : float64) : float64 := if neg then SFopp f else f.

(** An exponent stops growing at five digits. *)
Fixpoint exponent_go (e : Z) (s : bytes) : Z :=
  match s with
  | [] => e
  | c :: s => exponent_go (if e <? 10000 then e * 10 + Z.of_N (digit_val c) else e) s
  end.

Definition sign (s : bytes) : bool * bytes :=
  match s with
  | c :: s' => if Ascii.eqb c "-" then (true, s') else if Ascii.eqb c "+" then (false, s') else (false, s)
  | [] => (false, [])
  end.

(** The sign, digits and power of ten of a decimal text. *)
Definition parse_decimal (s : bytes) : option (bool * Z * Z) :=
  let '(neg, s) := sign s in
  let '(whole, s) := span_digits s in
  let '(frac, s) := match s with
                    | c :: s' => if Ascii.eqb c "." then span_digits s' else ([], s)
                    | [] => ([], [])
                    end in
  let m := Z.of_N (undec (whole ++ frac)) in
  let point := - zlen frac in
  match whole ++ frac, s with
  | [], _ => None
  | _, [] => Some (neg, m, point)
  | _, c :: s =>
      if Ascii.eqb c "e" || Ascii.eqb c "E" then
        let '(down, s) := sign s in
        match span_digits s with
        | ((_ :: _) as ds, []) => let e := exponent_go 0 ds in Some (neg, m, point + if down then - e else e)
        | _ => None
        end
      else None
  end.

Definition of_decimal (m e : Z) : float64 :=
  if m =? 0 then S754_zero false
  else if 0 <=? e then of_int (m * 10 ^ e) else of_ratio m (10 ^ (- e)).

(** Hexadecimal texts, digits with underscores, infinities and NaN. *)
Class FloatTexts := other_float : string -> option float64.

(** [strconv.ParseFloat(s, 64)]; [None] is an error, of syntax or range. *)
Definition ParseFloat `{FloatTexts} (s : string) : option float64 :=
  match parse_decimal (to_bytes s) with
  | Some (neg, m, e) =>
      match of_decimal m e with
      | S754_infinity _ => None
      | f => Some (negate neg f)
      end
  | None => other_float s
  end.

(** ** Examples *)

Section Examples.
#[local] Instance no_other : FloatTexts := fun _ => None.

(** A tenth, a tie that goes to even, the smallest number and the edge of the
    range. *)
Example floats_parsed :
  ParseFloat "0.1" = Some (S754_finite false 7205759403792794 (-56)) /\
  ParseFloat "9007199254740993" = Some (S754_finite false 4503599627370496 1) /\
  ParseFloat "-1.5e1" = Some (S754_finite true 8444249301319680 (-49)) /\
  ParseFloat "5e-324" = Some (S754_finite false 1 (-1074)) /\
  ParseFloat "2e-324" = Some (S754_zero false) /\
  ParseFloat "1e309" = None /\ ParseFloat "." = None /\ ParseFloat "1e" = None /\
  ParseFloat "-0" = Some (S754_zero true).
Proof. by vm_compute. Qed.

End Examples.
