(* ===== verification/Bench.v ===== *)
(** * Benchmarks and test helpers (src/internal/perftest/harness.go,
    src/cmd/gateway-bench/main.go,
    src/internal/transport/serial/byid_integration_linux.go)

    The load generator of the release gate: the stream that stands for a target,
    the paced producer, the timed writer, the metrics and the verdict on them,
    the sizes on the command line; and the port list of the build for
    integration tests. What a goroutine meets is an input: clock readings, and
    which ready case of a select is taken. *)

From S2P Require Import Prelude GoStd Ring Profile Serial Coordinator Floats.
From Stdlib Require Import SpecFloat.
From stdpp Require Import sorting.

#[local] Open Scope Z_scope.

(** ** Durations *)

Definition Millisecond : Z := 1000000.
Definition Second : Z := 1000000000.

(** [Duration.Seconds]. *)
Definition Seconds (d : Z) : float64 :=
  fadd (of_int (Z.quot d Second)) (fdiv (of_int (Z.rem d Second)) (of_int Second)).

(** ** The synthetic stream *)

Definition producerBlockThreshold : Z := 2 * Second.

Record feederStream := { f_ch : list bytes; f_buf : bytes; f_closed : bool }.

Definition feeder_capacity : nat := 64.
Definition newFeederStream : feederStream := {| f_ch := []; f_buf := []; f_closed := false |}.

Inductive push_result := Pushed | ErrClosedPipe | ErrBlocked.

(** The select of [push], at the moment it is decided: [prefer_close] picks
    when both cases are ready; the timer is the case left when none is. *)
Definition push (prefer_close : bool) (chunk : bytes) (f : feederStream) : feederStream * push_result :=
  if f_closed f && (prefer_close || (feeder_capacity <=? length (f_ch f))%nat) then (f, ErrClosedPipe)
  else if (length (f_ch f) <? feeder_capacity)%nat
  then ({| f_ch := f_ch f ++ [chunk]; f_buf := f_buf f; f_closed := f_closed f |}, Pushed)
  else (f, ErrBlocked).

Inductive read_result := ReadBytes (p : bytes) | ReadEOF | ReadBlocks.

(** [Read] into a buffer of [n] bytes. Without a chunk or a close it waits. *)
Definition Read (prefer_close : bool) (n : nat) (f : feederStream) : feederStream * read_result :=
  match f_buf f with
  | _ :: _ =>
      ({| f_ch := f_ch f; f_buf := drop n (f_buf f); f_closed := f_closed f |}, ReadBytes (take n (f_buf f)))
  | [] =>
      if f_closed f && prefer_close then (f, ReadEOF)
      else match f_ch f with
           | b :: rest => ({| f_ch := rest; f_buf := drop n b; f_closed := f_closed f |}, ReadBytes (take n b))
           | [] => (f, if f_closed f then ReadEOF else ReadBlocks)
           end
  end.

Definition Write (p : bytes) : nat := length p.

(** [Close], any number of times. *)
Definition Close (f : feederStream) : feederStream :=
  {| f_ch := f_ch f; f_buf := f_buf f; f_closed := true |}.

(** ** The producer *)

(** [byte('a' + i%26)] for each index. *)
Definition chunk_of (need : Z) : bytes :=
  (fun i => ascii_of_nat (97 + i mod 26)) <$> seq 0 (Z.to_nat need).

Section Producer.
Context `{FloatOverflow}.

Definition target_bytes (bytesPerSecond elapsed : Z) : Z := to_int64 (fmul (of_int bytesPerSecond) (Seconds elapsed)).

(** The ticks of [feed] until stop closes: each the time since the start and
    what the push meets, if there is one. The chunks are those pushed. *)
Fixpoint feed (bytesPerSecond : Z) (ticks : list (Z * push_result)) (sent : Z)
  : Z * option push_result * list bytes :=
  match ticks with
  | [] => (sent, None, [])
  | (elapsed, met) :: ticks =>
      let need := i64 (target_bytes bytesPerSecond elapsed - sent) in
      if need <=? 0 then feed bytesPerSecond ticks sent
      else match met with
           | Pushed =>
               let '(total, err, chunks) := feed bytesPerSecond ticks (i64 (sent + need)) in
               (total, err, chunk_of need :: chunks)
           | err => (sent, Some err, [])
           end
  end.
End Producer.

(** ** Metrics *)

Record Config := { BytesPerSecond : Z; Duration : Z; HumanInterval : Z }.

Record Metrics := {
  m_BytesPerSecond : float64;
  InputLatencyP50Ms : float64;
  InputLatencyP99Ms : float64;
  PeakRSSBytes : Z;
  DroppedClientFrames : Z
}.

(** [percentile], of latencies in nanoseconds. *)
Definition percentile (d : list Z) (p : nat) : Z :=
  let sorted := merge_sort Z.le d in
  let idx := ((length sorted * p) / 100)%nat in
  default 0 (sorted !! Nat.min idx (length sorted - 1)).

(** The frames a subscriber that is never drained has lost. *)
Definition frames_dropped (events : list bytes) : Z :=
  dropped (foldl (fun s e => publish_to e s) newSubscriber events).

Inductive run_error := RateNotPositive | IntervalNotPositive | StartFailed (e : GwError) | ProducerFailed (e : push_result).

(** [measureHumanLatency] until stop closes: at each tick the clock before and
    after one call of [WriteHuman], whose outcome is not looked at. *)
Fixpoint measureHumanLatency (ticks : list (Z * Z)) (c : Coordinator) : Coordinator * list Z :=
  match ticks with
  | [] => (c, [])
  | (start, stop) :: ticks =>
      let c := fst (WriteHuman (to_bytes "x") c) in
      let '(c, out) := measureHumanLatency ticks c in (c, i64 (stop - start) :: out)
  end.

(** What the goroutines of a run meet: the coordinator they run against, the
    ticks of the producer and of the writer, the frames published. *)
Record run_env := {
  bench_coordinator : Coordinator;
  started_at : Z;
  session_rnd : string;
  feed_ticks : list (Z * push_result);
  human_ticks : list (Z * Z);
  published : list bytes
}.

Definition Run `{FloatOverflow} (cfg : Config) (env : run_env) : result run_error Metrics :=
  if BytesPerSecond cfg <=? 0 then Err RateNotPositive
  else if HumanInterval cfg <=? 0 then Err IntervalNotPositive
  else match StartUART (started_at env) (session_rnd env) 0 0 emptyLoginConfig None (bench_coordinator env) with
       | (_, Some e) => Err (StartFailed e)
       | (c, None) =>
           let latencies := (measureHumanLatency (human_ticks env) c).2 in
           match feed (BytesPerSecond cfg) (feed_ticks env) 0 with
           | (_, Some e, _) => Err (ProducerFailed e)
           | (producerBytes, None, _) =>
               let ms p := fdiv (of_int (percentile latencies p)) (of_int Millisecond) in
               Ok {| m_BytesPerSecond := fdiv (of_int producerBytes) (Seconds (Duration cfg));
                     InputLatencyP50Ms := ms 50%nat; InputLatencyP99Ms := ms 99%nat;
                     PeakRSSBytes := 0; DroppedClientFrames := frames_dropped (published env) |}
           end
       end.

(** ** Byte sizes *)

(** Tried in turn, so that ["b"] is only reached last. *)
Definition byteSizeSuffixes : list (string * Z) :=
  [("gib", 2 ^ 30); ("mib", 2 ^ 20); ("kib", 2 ^ 10); ("gb", 2 ^ 30); ("mb", 2 ^ 20); ("kb", 2 ^ 10); ("b", 1)]%string.

(** [trimmed[:len(trimmed)-len(suffix)]]. *)
Definition cut_suffix (trimmed suffix : string) : string :=
  of_bytes (take (String.length trimmed - String.length suffix) (to_bytes trimmed)).

Section Sizes.
Context `{UnicodeLower, FloatTexts, UintOverflow}.

(** One suffix that the text has. *)
Definition sized (trimmed suffix : string) (multiplier : Z) : option Z :=
  let numPart := TrimSpace (cut_suffix trimmed suffix) in
  if String.eqb numPart "" then None
  else
    n ← ParseFloat numPart;
    if flt n (of_int 0) then None else Some (to_uint64 (fmul n (of_int multiplier))).

Fixpoint by_suffix (trimmed lower : string) (suffixes : list (string * Z)) : option (option Z) :=
  match suffixes with
  | [] => None
  | (suffix, multiplier) :: suffixes =>
      if HasSuffix lower suffix then Some (sized trimmed suffix multiplier) else by_suffix trimmed lower suffixes
  end.

Definition parseByteSize (s : string) : option Z :=
  let trimmed := TrimSpace s in
  if String.eqb trimmed "" then None
  else match by_suffix trimmed (ToLower trimmed) byteSizeSuffixes with
       | Some r => r
       | None => match ParseUint (to_bytes trimmed) with (n, None) => Some n | _ => None end
       end.
End Sizes.

(** ** The gate *)

Definition ringCapacityBytes : Z := 2 ^ 20.
Definition subscriberQueueEvents : Z := 256.
Definition readLoopBufferBytes : Z := 4096.
Definition ExpectedBaselineBytes : Z := ringCapacityBytes + subscriberQueueEvents * readLoopBufferBytes.

Definition humanIntervalOrDefault (d : Z) : Z := if d <=? 0 then 10 * Millisecond else d.

(** The status file as the lines the scanner returns and whether it then
    failed. *)
Fixpoint peak_line (lines : list string) : option (option Z) :=
  match lines with
  | [] => None
  | line :: lines =>
      if HasPrefix line "VmHWM:"
      then Some (match Fields line with
                 | _ :: kb :: _ =>
                     match ParseUint (to_bytes kb) with (kb, None) => Some (u64 (kb * 1024)) | _ => None end
                 | _ => None
                 end)
      else peak_line lines
  end.
Definition peakRSSBytes (status : option (list string)) : option Z := lines ← status; mjoin (peak_line lines).

(** [Encode] refuses what JSON cannot write. *)
Definition finite (f : float64) : bool :=
  match f with S754_zero _ | S754_finite _ _ _ => true | _ => false end.
Definition encodable (m : Metrics) : bool :=
  finite (m_BytesPerSecond m) && finite (InputLatencyP50Ms m) && finite (InputLatencyP99Ms m).

Definition gate_failed (maxP99 overheadBytes : Z) (m : Metrics) : bool :=
  fge (InputLatencyP99Ms m) (fdiv (of_int maxP99) (of_int Millisecond)) ||
  (u64 (ExpectedBaselineBytes + overheadBytes) <? PeakRSSBytes m).

Record bench_flags := {
  rate : string; duration : Z; humanInterval : Z; maxP99 : Z; runtimeOverhead : string
}.

(** The exit code of the command. *)
Definition main `{FloatOverflow, UnicodeLower, FloatTexts, UintOverflow} (fl : bench_flags) (env : run_env) (status : option (list string)) : Z :=
  match parseByteSize (rate fl), parseByteSize (runtimeOverhead fl) with
  | Some rateBytes, Some overheadBytes =>
      match Run {| BytesPerSecond := i64 rateBytes; Duration := duration fl;
                   HumanInterval := humanIntervalOrDefault (humanInterval fl) |} env with
      | Err _ => 1
      | Ok m =>
          match peakRSSBytes status with
          | None => 1
          | Some rss =>
              let m := {| m_BytesPerSecond := m_BytesPerSecond m; InputLatencyP50Ms := InputLatencyP50Ms m;
                          InputLatencyP99Ms := InputLatencyP99Ms m; PeakRSSBytes := rss;
                          DroppedClientFrames := DroppedClientFrames m |} in
              if negb (encodable m) then 1 else if gate_failed (maxP99 fl) overheadBytes m then 1 else 0
          end
      end
  | _, _ => 2
  end.

(** ** Serial ports of integration tests *)

(** The environment variable replaces the trusted directory. *)
Definition integration_serialByIDDir (getenv : string) : string :=
  if decide (getenv = "") then trustedByIDDir else getenv.

(** A port is added for every link whose device the discovery did not list;
    Go leaves their order open. *)
Definition integration_ports (ports : list Port) (byID : gmap string string) : list Port :=
  let seen := Path <$> ports in
  ports ++ omap (fun '(device, link) =>
    if decide (device ∈ seen) then None
    else Some {| Path := device; ByIDPath := link; USBSerialNumber := "" |}) (map_to_list byID).

(** ** Theorems *)

(** *** The stream *)

Inductive feeder_op := OpPush (prefer_close : bool) (chunk : bytes) | OpRead (prefer_close : bool) (n : nat) | OpClose.

(** One call, with the bytes pushed and the bytes read so far. *)
Definition feeder_exec (s : feederStream * bytes * bytes) (o : feeder_op) : feederStream * bytes * bytes :=
  let '(f, pushed, got) := s in
  match o with
  | OpPush pc chunk =>
      match push pc chunk f with (f, Pushed) => (f, pushed ++ chunk, got) | (f, _) => (f, pushed, got) end
  | OpRead pc n =>
      match Read pc n f with (f, ReadBytes p) => (f, pushed, got ++ p) | (f, _) => (f, pushed, got) end
  | OpClose => (Close f, pushed, got)
  end.

Definition feeder_inv (s : feederStream * bytes * bytes) : Prop :=
  let '(f, pushed, got) := s in
  pushed = got ++ f_buf f ++ concat (f_ch f) /\ (length (f_ch f) <= feeder_capacity)%nat.

Lemma feeder_inv_exec s o : feeder_inv s -> feeder_inv (feeder_exec s o).
Proof.
  destruct s as [[f pushed] got]. intros [-> Hlen]. destruct o as [pc chunk|pc n|]; [| |done].
  - cbn [feeder_exec]. unfold push. destruct (_ && _); [done|].
    destruct (_ <? _)%nat eqn:E; [|done]. apply Nat.ltb_lt in E. cbn. split.
    + rewrite concat_app. cbn. by rewrite app_nil_r, !app_assoc.
    + rewrite length_app. cbn. lia.
  - cbn [feeder_exec]. unfold Read. destruct f as [ch buf cl]. cbn [f_ch f_buf f_closed] in *.
    destruct buf as [|b buf].
    + destruct (_ && _); [done|]. destruct ch as [|c ch]; [by destruct cl|]. cbn in Hlen.
      cbn [feeder_inv f_ch f_buf concat app]. split; [|cbn; lia].
      by rewrite <- app_assoc, (app_assoc (take n c)), take_drop.
    + cbn [feeder_inv f_ch f_buf]. split; [|done].
      by rewrite <- app_assoc, (app_assoc (take n (b :: buf))), take_drop.
Qed.

(** Whatever the sizes of the reads and whatever the selects pick, the reader
    has read the pushed bytes in order up to those still held, and no more than
    64 chunks wait. *)
Lemma feeder_exact ops : feeder_inv (foldl feeder_exec (newFeederStream, [], []) ops).
Proof.
  assert (H : forall s, feeder_inv s -> feeder_inv (foldl feeder_exec s ops)).
  { induction ops as [|o ops IH]; intros s Hs; [done|]. cbn. apply IH. by apply feeder_inv_exec. }
  apply H. by split; [|cbn; lia].
Qed.

(** *** The producer *)

Lemma chunk_length n : 0 <= n -> Z.of_nat (length (chunk_of n)) = n.
Proof. intros Hn. unfold chunk_of. rewrite length_fmap, length_seq. lia. Qed.

(** A producer that is never blocked has sent what the rate asked for at the
    most demanding tick, whichever ticks the scheduler dropped or delayed, and
    pushed exactly that many bytes. *)
Lemma feed_converges `{FloatOverflow} rate ticks sent total chunks :
  Forall (fun t => 0 <= target_bytes rate t.1 < 2 ^ 63) ticks -> 0 <= sent < 2 ^ 63 ->
  feed rate ticks sent = (total, None, chunks) ->
  total = foldr Z.max sent ((target_bytes rate ∘ fst) <$> ticks) /\
  Z.of_nat (length (concat chunks)) = total - sent.
Proof.
  intros Ht. revert sent chunks. induction Ht as [|[elapsed met] ticks Hn _ IH]; intros sent chunks Hs Hf; cbn in *.
  { injection Hf as <- <-. cbn. lia. }
  rewrite i64_small in Hf by lia. set (target := target_bytes rate elapsed) in *.
  assert (Hmax : forall l, foldr Z.max (Z.max target sent) l = Z.max target (foldr Z.max sent l)).
  { induction l as [|x l IHl]; cbn; lia. }
  destruct (_ <=? _) eqn:E.
  - destruct (IH _ _ Hs Hf) as [-> Hl]. split; [|done].
    rewrite <- Hmax. f_equal. lia.
  - destruct met; [|done..]. rewrite i64_small in Hf by lia.
    destruct (feed rate ticks (sent + (target - sent))) as [[t e] cs] eqn:F. injection Hf as -> -> <-.
    replace (sent + (target - sent)) with target in F by lia.
    destruct (IH target cs ltac:(lia) F) as [-> Hl]. split.
    + rewrite <- Hmax. f_equal. lia.
    + cbn. rewrite length_app, Nat2Z.inj_add, chunk_length by lia. lia.
Qed.

(** *** Metrics *)

Definition at_most (v : Z) (d : list Z) : nat := length (filter (fun x => x <= v) d).
Definition at_least (v : Z) (d : list Z) : nat := length (filter (fun x => v <= x) d).

Lemma filter_all (P : Z -> Prop) `{forall x, Decision (P x)} l :
  Forall P l -> length (filter P l) = length l.
Proof. induction 1 as [|x l Hx _ IH]; [done|]. rewrite filter_cons_True by done. cbn. by rewrite IH. Qed.

Lemma ranks_sorted l i v :
  StronglySorted Z.le l -> l !! i = Some v ->
  (S i <= at_most v l)%nat /\ (length l - i <= at_least v l)%nat.
Proof.
  intros Hs Hi. unfold at_most, at_least.
  assert (Hlt : (i < length l)%nat) by by eapply lookup_lt_Some.
  rewrite <- (take_drop_middle l i v Hi) in Hs |- *. apply StronglySorted_app in Hs as (Hcross & _ & Htl).
  apply StronglySorted_inv in Htl as [_ Htl].
  rewrite !filter_app, !filter_cons_True, !length_app by lia. cbn [length].
  rewrite length_drop, length_take. split.
  - rewrite filter_all; [rewrite length_take; lia|]. apply Forall_forall. intros x Hx.
    apply Hcross; [done|left].
  - rewrite (filter_all (fun x => v <= x) (drop (S i) l)) by done. rewrite length_drop. lia.
Qed.

(** A percentile of some samples is one of them, with at least that share of
    the samples at most it and at least the rest at least it. *)
Lemma percentile_ranks d p :
  d <> [] -> (p <= 100)%nat ->
  percentile d p ∈ d /\
  (p * length d <= 100 * at_most (percentile d p) d)%nat /\
  ((100 - p) * length d <= 100 * at_least (percentile d p) d)%nat.
Proof.
  intros Hd Hp. unfold percentile. set (l := merge_sort Z.le d).
  assert (HP : l ≡ₚ d) by apply merge_sort_Permutation.
  assert (Hs : StronglySorted Z.le l).
  { apply StronglySorted_merge_sort; [by intros ??; lia|]. intros x y. lia. }
  assert (Hlen : length l = length d) by by rewrite HP.
  assert (Hpos : (0 < length d)%nat) by (destruct d; [done|cbn; lia]).
  set (idx := (length l * p / 100)%nat).
  destruct (lookup_lt_is_Some_2 l (Nat.min idx (length l - 1)) ltac:(lia)) as [v Hv]. rewrite Hv. change (default 0 (Some v)) with v.
  destruct (ranks_sorted l _ v Hs Hv) as [H1 H2].
  assert (Hcount : at_most v l = at_most v d /\ at_least v l = at_least v d).
  { unfold at_most, at_least. by rewrite HP. }
  destruct Hcount as [<- <-]. pose proof (Nat.div_mod_eq (length l * p) 100) as Hm.
  pose proof (Nat.mod_upper_bound (length l * p) 100 ltac:(lia)) as Hb. fold idx in Hm.
  split; [rewrite <- HP; by eapply list_elem_of_lookup_2|]. rewrite <- Hlen. nia.
Qed.

(** The rank taken is not the nearest one the comment names: of four samples
    the median by nearest rank is the second. *)
Lemma percentile_not_nearest_rank :
  percentile [1; 2; 3; 4] 50 = 3 /\ at_most 2 [1; 2; 3; 4] = 2%nat.
Proof. vm_compute. done. Qed.

(** A subscriber that is never drained loses every frame after its queue has
    filled. *)
Lemma frames_dropped_exact events :
  Z.of_nat (length events) < 2 ^ 64 ->
  frames_dropped events = Z.max 0 (Z.of_nat (length events) - subscriberQueueEvents).
Proof.
  unfold frames_dropped, subscriberQueueEvents.
  assert (H : forall s, (length (ch s) <= subscriberQueueSize)%nat -> 0 <= dropped s ->
    dropped s + Z.of_nat (length events) < 2 ^ 64 ->
    dropped (foldl (fun s e => publish_to e s) s events) =
      dropped s + Z.max 0 (Z.of_nat (length (ch s)) + Z.of_nat (length events) - 256)).
  { unfold publish_to, subscriberQueueSize. induction events as [|e events IH]; intros s Hs Hd Hb; cbn [foldl length] in *; [lia|].
    destruct (_ <? _)%nat eqn:E; [apply Nat.ltb_lt in E|apply Nat.ltb_ge in E].
    - rewrite IH; cbn [ch dropped]; rewrite ?length_app; cbn [length]; lia.
    - rewrite u64_small by (unfold max_u64; lia). rewrite IH; cbn [ch dropped]; lia. }
  intros Hn. rewrite H; cbn; lia.
Qed.

(** *** The run and the gate *)

(** A run against a coordinator of its own cannot fail to start, and each call
    it times reaches the stream. *)
Lemma bench_starts now rnd r board id :
  let '(c, err) := StartUART now rnd 0 0 emptyLoginConfig None (newCoordinatorWith r board id) in
  err = None /\ (WriteHuman (to_bytes "x") c).2 = None.
Proof. by split. Qed.

(** Every tick types one byte at the target, through the session's stream, and
    gives one sample. *)
Lemma measure_types ticks c s :
  stream c = Some s ->
  let '(c', out) := measureHumanLatency ticks c in
  length out = length ticks /\ stream c' = Some s /\
  trace c' = trace c ++ replicate (length ticks) (EWrite ByHuman s (to_bytes "x")).
Proof.
  revert c. induction ticks as [|[a b] ticks IH]; intros c Hs; [cbn; by rewrite app_nil_r|].
  cbn [measureHumanLatency length]. unfold WriteHuman. rewrite Hs. cbn [fst].
  specialize (IH (write_stream ByHuman (to_bytes "x") c)). unfold write_stream in *. rewrite Hs in IH.
  rewrite Hs. specialize (IH Hs). destruct (measureHumanLatency _ _) as [c' out]. destruct IH as (Hl & Hs' & Ht).
  split_and!; [cbn; by rewrite Hl|done|]. rewrite Ht. cbn [trace emit set_trace replicate]. by rewrite <-app_assoc.
Qed.

(** *** Byte sizes *)

Lemma digit_marks l : forallb is_digit l = true -> mark_spaces 0 l = (fun c => (false, c)) <$> l.
Proof.
  induction l as [|c l IH]; [done|]. cbn [forallb]. intros [Hc Hl]%andb_prop. cbn [mark_spaces].
  assert (Hw : space_width (c :: l) = 0%nat) by (destruct c as [[] [] [] [] [] [] [] []]; try discriminate Hc; by destruct l as [|? [|]]).
  by rewrite Hw, IH.
Qed.

Lemma trim_digits l : forallb is_digit l = true -> TrimSpace (of_bytes l) = of_bytes l.
Proof.
  intros Hl. unfold TrimSpace. rewrite to_of_bytes, digit_marks by done.
  assert (Hd : forall l : bytes, drop_spaces ((fun c => (false, c)) <$> l) = (fun c => (false, c)) <$> l) by (by intros []).
  assert (Hr : forall l : bytes, rev ((fun c => (false, c)) <$> l) = (fun c => (false, c)) <$> rev l).
  { intros k. symmetry. exact (List.map_rev (fun c => (false, c)) k). }
  rewrite Hd, Hr, Hd, Hr, rev_involutive, <-list_fmap_compose. f_equal. apply list_fmap_id.
Qed.

Lemma lower_digits `{UnicodeLower} l : forallb is_digit l = true -> ToLower (of_bytes l) = of_bytes l.
Proof.
  intros Hl. unfold ToLower, is_ascii. rewrite to_of_bytes.
  assert (Hc : forall c, is_digit c = true -> is_ascii_byte c = true /\ lower_byte c = c).
  { intros c Hc. destruct c as [[] [] [] [] [] [] [] []]; try discriminate Hc; done. }
  assert (Ha : forallb is_ascii_byte l = true /\ lower_byte <$> l = l).
  { induction l as [|c l IH]; [done|]. cbn [forallb] in Hl. apply andb_prop in Hl as [H1 H2].
    destruct (Hc c H1) as [E1 E2], (IH H2) as [E3 E4]. split; [cbn [forallb]; by rewrite E1, E3|]. rewrite fmap_cons. by rewrite E2, E4. }
  destruct Ha as [-> ->]. done.
Qed.

(** A text that ends in a digit has no unit. *)
Lemma digits_no_suffix trimmed l `{FloatTexts, UintOverflow} :
  l <> [] -> forallb is_digit l = true -> by_suffix trimmed (of_bytes l) byteSizeSuffixes = None.
Proof.
  intros Hne Hl. rewrite <-(rev_involutive l) in *. destruct (rev l) as [|c r]; [done|]. cbn [rev] in *.
  rewrite forallb_app in Hl. apply andb_prop in Hl as [_ Hc]. cbn in Hc. rewrite andb_true_r in Hc.
  assert (Hb : Ascii.eqb "b" c = false) by (destruct c as [[] [] [] [] [] [] [] []]; try discriminate Hc; done).
  unfold byteSizeSuffixes. cbn [by_suffix]. unfold HasSuffix. rewrite to_of_bytes, rev_app_distr. cbn -[Ascii.eqb]. by rewrite !Hb.
Qed.

(** A plain number of bytes is read as it is printed. *)
Lemma parseByteSize_plain `{UnicodeLower, FloatTexts, UintOverflow} n :
  Z.of_N n <= max_uint64 -> parseByteSize (of_bytes (dec n)) = Some (Z.of_N n).
Proof.
  intros Hn. unfold parseByteSize. rewrite trim_digits by apply dec_digits.
  replace (String.eqb (of_bytes (dec n)) "") with false.
  - rewrite lower_digits, digits_no_suffix, to_of_bytes, ParseUint_dec by (done || apply dec_digits || apply dec_nonempty). done.
  - symmetry. apply String.eqb_neq. intros E. apply (dec_nonempty n). by destruct (dec n).
Qed.

(** A size that is not a number is accepted: what it is then depends on the
    processor. *)
Lemma nan_size_accepted `{UnicodeLower, FloatTexts, UintOverflow} :
  other_float "nan" = Some SpecFloat.S754_nan ->
  parseByteSize "nanb" = Some (uint_overflowed SpecFloat.S754_nan).
Proof.
  intros Hn. assert (Hs : sized "nanb" "b" 1 = Some (uint_overflowed SpecFloat.S754_nan)).
  { unfold sized. change (TrimSpace (cut_suffix "nanb" "b")) with "nan"%string. cbn match. unfold ParseFloat.
    change (parse_decimal (to_bytes "nan")) with (@None (bool * Z * Z)). cbn match. rewrite Hn. reflexivity. }
  exact Hs.
Qed.

(** No sample measured is latency zero: the gate passes. *)
Lemma gate_without_samples : percentile [] 99 = 0 /\
  forall m, InputLatencyP99Ms m = fdiv (of_int (percentile [] 99)) (of_int Millisecond) -> PeakRSSBytes m = 0 ->
  gate_failed (100 * Millisecond) (64 * 2 ^ 20) m = false.
Proof. split; [done|]. intros m Hl Hr. unfold gate_failed. rewrite Hl, Hr. vm_compute. done. Qed.

Section Examples.
#[local] Instance demo_overflow : FloatOverflow := fun _ => - 2 ^ 63.
#[local] Instance demo_uint_overflow : UintOverflow := fun _ => 2 ^ 63.
#[local] Instance demo_lower : UnicodeLower := fun s => s.
#[local] Instance demo_floats : FloatTexts := fun s => if String.eqb s "nan" then Some S754_nan else None.

(** 10 KiB/s for five milliseconds, a late tick, and the gate on what it gives. *)
Definition demo_bench (p99 : Z) : run_env :=
  {| bench_coordinator := newCoordinatorWith {| Ring.buf := [zero]; Ring.total := 0 |} "b" "0";
     started_at := 0; session_rnd := "1";
     feed_ticks := [(Millisecond, Pushed); (5 * Millisecond, Pushed); (3 * Millisecond, ErrBlocked)];
     human_ticks := [(5, 5 + p99); (7, 207)]; published := [] |}.
Definition demo_bench_flags : bench_flags :=
  {| rate := "10KiB"; duration := 5 * Millisecond; humanInterval := 0;
     maxP99 := 100 * Millisecond; runtimeOverhead := "64MiB" |}.
Definition demo_status (kb : string) : option (list string) := Some ["Name: gateway-bench"; String.append "VmHWM: " kb]%string.

Example demo_gate :
  main demo_bench_flags (demo_bench 99999999) (demo_status "67584 kB") = 0 /\
  main demo_bench_flags (demo_bench 100000000) (demo_status "67584 kB") = 1 /\
  main demo_bench_flags (demo_bench 7) (demo_status "67585 kB") = 1 /\
  main {| rate := "10 parsecs"; duration := 0; humanInterval := 0; maxP99 := 0; runtimeOverhead := "1" |} (demo_bench 7) None = 2 /\
  (feed (10 * 2 ^ 10) (feed_ticks (demo_bench 7)) 0).1.1 = 51.
Proof. vm_compute. done. Qed.

Example sizes :
  parseByteSize "10MiB" = Some (10 * 2 ^ 20) /\ parseByteSize " 1.5 kb " = Some 1536 /\
  parseByteSize "0.3b" = Some 0 /\ parseByteSize "18446744073709551615" = Some (2 ^ 64 - 1) /\
  parseByteSize "18446744073709551616" = None /\ parseByteSize "-1b" = None /\ parseByteSize "-0b" = Some 0 /\
  parseByteSize "mib" = None /\ parseByteSize "1e400b" = None.
Proof. by vm_compute. Qed.

End Examples.

(** *** Serial ports of integration tests *)

(** The ports listed stay, and a device with a link is offered exactly once. *)
Lemma integration_ports_spec ports byID device link :
  byID !! device = Some link ->
  ports `prefix_of` integration_ports ports byID /\
  exists p, p ∈ integration_ports ports byID /\ Path p = device /\
    (device ∉ Path <$> ports -> p = {| Path := device; ByIDPath := link; USBSerialNumber := "" |}).
Proof.
  intros Hl. split; [by eexists|]. unfold integration_ports.
  destruct (decide (device ∈ Path <$> ports)) as [Hin|Hin].
  - apply list_elem_of_fmap in Hin as (p & -> & Hp). exists p. split_and!; [set_solver|done|].
    intros []. apply list_elem_of_fmap. by exists p.
  - exists {| Path := device; ByIDPath := link; USBSerialNumber := "" |}. split_and!; [|done..]. apply elem_of_app. right.
    apply list_elem_of_omap. exists (device, link). split; [by apply elem_of_map_to_list|].
    by rewrite decide_False.
Qed.
